(* ===== verification/_CoqProject ===== *)
-Q . S2P
Prelude.v
Double.v
FibLoads.v
Feasibility.v
Scheduler.v
Sequencer.v
CString.v
Timespec.v
Capture.v
CaptureLoop.v
Sys.v
V4l2.v
Camera.v
FrameDump.v
SimpleCapture.v
SimpleVariants.v
SeqCapture.v
Crc.v
StreamHash.v
Sha1.v
Md5.v
Sha2.v
Raid.v
Ecc.v
Lcm.v
Sieve.v
MessageQueue.v
TcpSets.v
Brighten.v
Deadlock.v
PosixClock.v
Seqgenex0.v
Threads.v
Serial.v
SerialSession.v
Io.v
BtMicrocode.v
BtVideo.v
BtPci.v
Es1938.v
Es1938Proofs.v
PrioInversion.v
VxSequencers.v
