(* ===== verification/Prelude.v ===== *)
(** * A verification library for the RTES-ECEE-5623 course code

    The repository holds the programs of a course on real-time embedded
    systems: stand-alone C programs, a directory each, that share ideas rather
    than code.  This library models the ones with logic of their own and
    proves what each is meant to guarantee.

    ** The parts and where they are modelled

    - [Prelude] (this file): machine integers ([wrap], [swrap], [in_range]),
      C arrays as lists with undefined accesses, the [outcome] of a computation
      ([Ret], [Undef] for undefined behaviour, [NoFuel]), loops with their
      invariant rules, finite sums.
    - [Double]: IEEE double rounding on rationals, as far as the tests need it.
    - [Feasibility]: Feasibility/feasibility_tests.c, the RM least upper bound,
      the completion-time test and the scheduling-point test.
    - [Scheduler]: what those tests promise, a preemptive fixed-priority
      scheduler in unit ticks; the refinement theorems.
    - [Sequencer]: sequencer_generic/seqgen.c, seqgen2.c, seqgen3.c, seqv4l2.c
      and sequencer/lab1.c.  A sequencer is the list of its actions on the
      semaphores and abort flags, a service a program counter, the system the
      relation that interleaves them.
    - [Seqgenex0]: sequencer_generic/seqgenex0.c, the sequencer that sleeps
      until absolute times and corrects its drift in double arithmetic, and its
      services, on the one core and with the priorities that main gives them.
    - [VxSequencers]: VxWorks-sequencers/ex0.c, ex3.c and lab1.c, sequencers of
      binary semaphores, millisecond by millisecond.
    - [CString]: bytes, [%0wd] conversions, [snprintf] and [strncat] on arrays.
    - [Timespec]: [struct timespec] and the instant it denotes.
    - [Capture], [CaptureLoop]: sequencer_generic/capturelib.c.  [Capture] has
      the dumpers, the colour conversion, the ring buffer and the three frame
      services, run by the actions of the seqv4l2.c handler of [Sequencer];
      [CaptureLoop] the loop of the stand-alone program.
    - [SeqCapture]: the whole of seqv4l2.c, the timer signals, the services and
      the frame operations composed, from the first frame to the shutdown.
    - [Sys]: programs of system calls and the interface [Sys.Protocol], what the
      other side takes and answers; the weakest precondition of such a program.
    - [V4l2]: the device side of capturelib.c, from open to close, as programs of
      system calls, and the protocol the kernel keeps for a capture device.
    - [Camera]: camera/simplev4l2.c and simplev4l2nb.c, the two programs that leave
      by [goto cleanup], against the device of [V4l2]: they release everything on
      every path, where the calls that release do not fail.
    - [FrameDump], [SimpleCapture], [SimpleVariants]: the stand-alone programs
      simple-capture, simple-capture-1800, -syslog and -gprof (capture.c each).
      [FrameDump] has the arrays and conversions of their dumps, [SimpleCapture]
      the program from the options to the closed device, with read, mapped and
      user buffers, over the class [Capturer] of what they differ in; the class
      [Lawful] is what it needs of [process_image], and [SimpleVariants] shows
      it of all four.
    - [MessageQueue]: VxWorks-Examples/heap_mq.c, two tasks that pass blocks of the
      heap through a queue, and the two POSIX programs that pass messages.
    - [TcpSets]: Linux_TCP_Examples/inet_server.c and inet_client.c, the
      conversation of the connected programs.
    - [Brighten]: c-brighten/brighten.c, from the input file to the output file.
    - [FibLoads]: the Fibonacci tests of example-1/perfmon.c and
      rt_simplethread_prio_amp/pthread.c, and the sums of the thread examples.
    - [Crc]: example-3/crc.c and crc.h.
    - [StreamHash], [Sha1], [Md5], [Sha2]: the digests of example-3/.  The
      interface [StreamHash.StreamHash] states what a streaming hash promises;
      sha1.c, md5.c and the four functions of sha2.c are its instances.
    - [Raid]: File-RAID-PoC-Code/raidlib.c, XOR parity over sectors and the
      striping of a file over five chunk files.
    - [Ecc]: hamming-emulator/ecclib.c and the fault injector of ecctest.c.
    - [Lcm]: lcm/lcmc.c, gcd, division and lcm by subtraction.
    - [Sieve]: erastothenes_pthreads/erast.c, the sieve with four threads.
    - [Deadlock]: example-sync-updated-2/deadlock.c and deadlock_timeout.c, two
      threads and two mutexes.
    - [PrioInversion]: example-sync-updated-2/pthread3.c, pthread3ok.c and
      pthread3amp.c, three threads of different priorities on one core.
    - [Threads]: incdecthread/pthread.c, a race on a plain and on an atomic
      counter, and sumdigits/sumdigits.c, ten threads adding up ranges.
    - [Serial]: Linux_serial/serialutil.c, the settings of a line, reading and
      writing whole buffers, the echo of the input, modes and file transfer.
    - [SerialSession]: the loop of a session of the same file, pass by pass, with the
      keyboard as [select] and the C library see it.
    - [PosixClock]: RT-Clock/posix_clock.c, time differences and the delay test.
    - [Io]: programs of register reads and writes, run against any device that
      answers; what such a program writes.
    - [BtMicrocode], [BtVideo], [BtPci]: the Bt878 frame grabber driver,
      VxWorks-Drivers/Bt878_Video/btvid3.  [BtMicrocode] generates the programs
      of the DMA engine and decodes them; [BtVideo] has the register writes of
      every mode, the interrupt handler, the task that hands frames over and
      the saved images; [BtPci] finds the cards, configures the bridges and
      the controller and searches the table of interrupt routes.
    - [Es1938], [Es1938Proofs]: the ESS Solo-1 sound driver, ESS_Sound/es1938.cpp, as
      programs of [Io], with the requests of the sound layer as steps.

    ** What the theorems show

    - Scheduling: the completion-time test accepts exactly the service sets
      that meet their deadlines in the scheduler, it ends within its fuel, and
      the scheduling-point test agrees with it.
    - Sequencers: the releases of a whole run, their number per service, that
      no interleaving loses or invents a release (releases, tokens and posts to
      come add up in every reachable state), which shutdowns end with all
      finished, among them seqgenex0's, whose threads share a core, and which can
      hang, rate-monotonic priorities; the accuracy of
      the drift-controlled delay and when it is not a valid time; which VxWorks
      release tables keep every service on time and which overload the CPU.
    - Capture: the files a run writes, frame by frame, for the sequencer, up to
      the shutdown it decides on itself, and for the stand-alone loop; a state
      invariant for every input of the services, and the inputs for which they
      leave an array; what happens from file 10000 on and to unconverted formats.
    - Capture device: every call is one the device takes at that point, buffers
      are unmapped as they were mapped and freed, the device is closed empty; the
      one place that breaks the protocol; frames are copied out of their array
      only where the device gives one that is too long.  The stand-alone
      programs: the same with each of the three ways to get at frames, memory
      freed once and nothing kept, the sizes past which an array is left, the files of a whole run, and the dump that never ends where its
      file cannot be created.
    - Messages: every block of the heap has exactly one owner in every
      interleaving, and what is lost when a call fails; server and client end in
      the same state however their steps interleave, and where they do not end.
    - Pictures and loads: the output file of the brightening, byte by byte, of a
      picture with one comment line; any other picture, and with the array of two
      bytes even this one, makes the program leave an array; what
      the Fibonacci tests compute and with which arguments they fail.
    - Priorities: how long the high-priority thread waits for the mutex, on every
      schedule, that the demonstration ends, and what leaving the mutex out does.
    - Sound driver: in every session of requests, with interrupts between any two
      accesses to the card, the three channels are refined by an abstract record
      of their owner and whether they run; a substream that is not open is
      notified only after a request out of order; what preparing
      a substream writes to the card; what is given back when a step of the set
      up fails; a card that does not answer is not noticed; the position is
      found once two readings of the count agree.
    - Threads: the sieve finds exactly the primes in every interleaving of its
      updates; which modes of the deadlock programs can deadlock, that the timeouts
      exclude it, and the store past its array that every run of
      deadlock_timeout.c reaches; which values
      a racing counter can end with, and the sum that separate cells give.
    - Arithmetic and clocks: greatest common divisor and least common multiple,
      normalised time differences, the length of the delay test.
    - Serial lines: every setting changes its own field only; buffers are read
      and written whole under partial transfers; what is shown of the input,
      and which bytes the echo repeats after partial writes; in a session, what
      is sent of the keys typed, and that the end of a line waits for the next.
    - Frame grabber: which memory the generated 320x240 program fills, and that
      the 640x480 generator leaves its array; the order in which a mode is set
      up; that the client gets completed frames in order, however interrupts
      and the task's steps interleave, each at most twice; which cards the scan finds, that the controller is
      disabled while it is configured, which routing tables are found.
    - Digests: the block functions equal the published algorithms, the digest
      does not depend on how the message is cut into updates, HMAC is the one
      of RFC 2104, lengths are counted modulo what the code keeps.
    - CRC: table and bitwise versions agree; bursts up to the width are
      detected; CRC-32 is undefined where [unsigned long] has 64 bits.
    - Storage: a striped file is restored with any chunk lost; every single
      bit error of an ECC word is located and every double error detected, and
      what a repair does and does not undo.

    ** Bounds and fuel

    Loops whose end is data dependent take fuel and return [NoFuel] when it is
    used up ([Running] in programs of system calls); theorems state results for
    the fuel that is enough: [2^32 + 1] rounds of the completion-time test (its
    value strictly grows below 2^32), one signal per cycle of a sequencer, one
    read per stripe, one more than the image's bytes for a write loop whose
    writes make progress, the sum or the product of the arguments for the
    subtraction loops, [MAX] for the loops of the sieve, four for the sleeps of
    one delay test, one more than the bytes of a buffer for the serial loops,
    332 passes of the capture loop, or the frames asked for, on a device that
    gives a frame each time.  The states of the deadlock programs are explored
    with fuel and the result is checked to be closed under steps.  Integers keep
    their C width; signed overflow and out-of-range accesses are undefined.

    ** Not modelled

    The prompts and the log of a serial session; what the capture programs
    print and the rates they compute for it; programs that only demonstrate a
    system call; the calibration of lab1.c against wall-clock time; the cores
    and priorities of threads but where a theorem depends on them ([Seqgenex0],
    [PrioInversion], [SeqCapture]); in [Capture] and [SeqCapture], services that
    overlap because one is not done when the next is released.  The system calls
    themselves (files, terminals, sockets, message queues, V4L2 ioctls) are
    replies to programs or arguments; C++ (the OpenCV programs), inline assembly,
    wall-clock measurement and log messages have no model.  Sleeps, clocks and
    abort requests are arguments of the models that use them. *)
From Stdlib Require Export ZArith Lia Bool.
From stdpp Require Export base list list_numbers numbers.

#[global] Open Scope Z_scope.

(** ** Notations for C's bit operators *)

Declare Scope c_scope.
Delimit Scope c_scope with C.
Infix ".&" := Z.land (at level 40, left associativity) : c_scope.
Infix ".|" := Z.lor (at level 50, left associativity) : c_scope.
Infix ".^" := Z.lxor (at level 45, left associativity) : c_scope.
Infix ".<<" := Z.shiftl (at level 34, left associativity) : c_scope.
Infix ".>>" := Z.shiftr (at level 34, left associativity) : c_scope.
#[global] Open Scope c_scope.

(** ** Machine integers

    A [w]-bit unsigned integer is a [Z] in [[0, 2^w)]; a C conversion to that
    width is [wrap w]. *)

Definition wrap (w z : Z) : Z := z mod 2 ^ w.
Abbreviation u8 := (wrap 8).
Abbreviation u16 := (wrap 16).
Abbreviation u32 := (wrap 32).
Abbreviation u64 := (wrap 64).

Definition in_range (w z : Z) : Prop := 0 <= z < 2 ^ w.
Abbreviation byte := (in_range 8).

(** Conversion to a two's complement [w]-bit signed integer. *)
Definition swrap (w z : Z) : Z := (z + 2 ^ (w - 1)) mod 2 ^ w - 2 ^ (w - 1).
Abbreviation i32 := (swrap 32).
Definition INT_MIN : Z := - 2 ^ 31.
Definition INT_MAX : Z := 2 ^ 31 - 1.
Definition in_int (z : Z) : bool := (INT_MIN <=? z) && (z <=? INT_MAX).

#[global] Instance in_range_dec w z : Decision (in_range w z).
Proof. unfold in_range. apply _. Defined.

Lemma wrap_range w z : 0 <= w -> in_range w (wrap w z).
Proof. intros; apply Z.mod_pos_bound, Z.pow_pos_nonneg; lia. Qed.

Lemma wrap_small w z : in_range w z -> wrap w z = z.
Proof. apply Z.mod_small. Qed.

Lemma wrap_wrap w z : 0 <= w -> wrap w (wrap w z) = wrap w z.
Proof. intros; apply wrap_small, wrap_range; done. Qed.

Lemma wrap_land w z : 0 <= w -> wrap w z = z .& Z.ones w.
Proof. intros. unfold wrap. by rewrite Z.land_ones. Qed.

Lemma wrap_testbit w z i :
  0 <= w -> Z.testbit (wrap w z) i = (i <? w) && Z.testbit z i.
Proof.
  intros Hw. unfold wrap. destruct (Z.ltb_spec i w) as [Hi | Hi]; simpl.
  - destruct (Z.neg_nonneg_cases i); [by rewrite !Z.testbit_neg_r |].
    by rewrite Z.mod_pow2_bits_low.
  - by rewrite Z.mod_pow2_bits_high by lia.
Qed.

(** Truncation forgets a conversion to a signed type at least as wide. *)
Lemma wrap_swrap v w z : 0 <= v <= w -> wrap v (swrap w z) = wrap v z.
Proof.
  intros Hv. unfold wrap, swrap. set (h := 2 ^ (w - 1)).
  rewrite (Z.mod_eq (z + h) (2 ^ w)) by (apply Z.pow_nonzero; lia).
  set (q := (z + h) / 2 ^ w).
  replace (2 ^ w) with (2 ^ (w - v) * 2 ^ v) by (rewrite <- Z.pow_add_r; [f_equal |..]; lia).
  replace (z + h - 2 ^ (w - v) * 2 ^ v * q - h) with (z + (- 2 ^ (w - v) * q) * 2 ^ v) by ring.
  apply Z_mod_plus_full.
Qed.

Lemma swrap_small w z : 0 < w -> 0 <= z < 2 ^ (w - 1) -> swrap w z = z.
Proof.
  intros Hw Hz. unfold swrap.
  assert (2 ^ w = 2 * 2 ^ (w - 1)) as E
    by (rewrite <- Z.pow_succ_r by lia; f_equal; lia).
  rewrite Z.mod_small by lia. lia.
Qed.

(** A conversion to [int] that does not change the value. *)
Lemma swrap_int z : INT_MIN <= z <= INT_MAX -> swrap 32 z = z.
Proof.
  unfold swrap, INT_MIN, INT_MAX. intros Hz. change (2 ^ (32 - 1)) with (2 ^ 31).
  rewrite Z.mod_small by lia. lia.
Qed.

(** ** Bitwise reasoning *)

Create HintDb zbits.
Create Rewrite HintDb zbits.
#[export] Hint Rewrite Z.land_spec Z.lor_spec Z.lxor_spec : zbits.
#[export] Hint Rewrite wrap_testbit using lia : zbits.
#[export] Hint Rewrite Z.shiftl_spec Z.shiftr_spec using lia : zbits.

(** [bits i] turns an equality of integers into one of their [i]-th bits. *)
Ltac bits i :=
  apply Z.bits_inj'; intros i ?; autorewrite with zbits.

Lemma in_range_bits w z :
  0 <= w -> in_range w z <-> 0 <= z /\ forall i, w <= i -> Z.testbit z i = false.
Proof.
  intros Hw. split.
  - intros [H0 H1]. split; [done |]. intros i Hi.
    destruct (decide (z = 0)) as [-> | Hz]; [apply Z.bits_0 |].
    apply Z.bits_above_log2; [done |]. apply (proj1 (Z.log2_lt_pow2 z i ltac:(lia))).
    apply Z.lt_le_trans with (2 ^ w); [exact H1 | apply Z.pow_le_mono_r; lia].
  - intros [H0 H].
    enough (E : wrap w z = z) by (pose proof (wrap_range w z Hw) as R; by rewrite E in R).
    bits i. destruct (Z.ltb_spec i w); simpl; [done | by rewrite H].
Qed.

Lemma lxor_range w a b : 0 <= w -> in_range w a -> in_range w b -> in_range w (a .^ b).
Proof.
  intros Hw. rewrite !in_range_bits by done. intros [? Ha] [? Hb]. split.
  - by apply Z.lxor_nonneg.
  - intros i Hi. by rewrite Z.lxor_spec, Ha, Hb.
Qed.

Lemma lor_range w a b : 0 <= w -> in_range w a -> in_range w b -> in_range w (a .| b).
Proof.
  intros Hw. rewrite !in_range_bits by done. intros [? Ha] [? Hb]. split.
  - by apply Z.lor_nonneg.
  - intros i Hi. by rewrite Z.lor_spec, Ha, Hb.
Qed.

Lemma land_range_l w a b : 0 <= w -> in_range w a -> in_range w (a .& b).
Proof.
  intros Hw. rewrite !in_range_bits by done. intros [? Ha]. split.
  - apply Z.land_nonneg; auto.
  - intros i Hi. by rewrite Z.land_spec, Ha.
Qed.

#[export] Hint Resolve wrap_range lxor_range lor_range land_range_l : zbits.

(** Testing one bit with a mask. *)
Lemma land_pow2 (a i : Z) : 0 <= i -> a .& 2 ^ i = if Z.testbit a i then 2 ^ i else 0.
Proof.
  intros Hi. bits j. rewrite Z.pow2_bits_eqb by done.
  destruct (Z.eqb_spec i j) as [<-|Hj]; destruct (Z.testbit a i) eqn:Ha;
    rewrite ?Ha, ?Z.bits_0, ?Z.pow2_bits_true, ?andb_false_r by done; try done.
  by rewrite Z.pow2_bits_false.
Qed.

Lemma land_bit (a i : Z) : 0 <= i -> negb (a .& 2 ^ i =? 0) = Z.testbit a i.
Proof.
  intros Hi. rewrite land_pow2 by done. destruct (Z.testbit a i); [|done].
  by rewrite (proj2 (Z.eqb_neq _ _)) by lia.
Qed.

(** ** Finite case analysis by evaluation *)

(** A boolean test that holds at every point of [[0, n)] by evaluation holds
    for every such integer. *)
Lemma forallb_seqZ (P : Z -> bool) (n : Z) :
  forallb P (seqZ 0 n) = true -> forall z, 0 <= z < n -> P z = true.
Proof.
  intros H z Hz. rewrite forallb_forall in H. apply H.
  apply list_elem_of_In, elem_of_seqZ. lia.
Qed.

(** ** The option monad

    Undefined behaviour and divergence are [None]; [step_option] reduces the
    binds whose first computation is known and nothing else. *)
Ltac step_option := cbn [mbind option_bind fmap option_fmap option_map].

(** Case analysis on the first integer comparison of the goal. *)
Ltac zcase :=
  match goal with
  | |- context [?a <? ?b] => destruct (Z.ltb_spec a b)
  | |- context [?a <=? ?b] => destruct (Z.leb_spec a b)
  | |- context [?a =? ?b] => destruct (Z.eqb_spec a b)
  end.

(** ** Bytes in memory, least significant first *)

Definition le_bytes (n : nat) (z : Z) : list Z :=
  map (fun i => u8 (z .>> (8 * Z.of_nat i))) (seq 0 n).
Definition le_value (b : list Z) : Z := foldr (fun x r => x + 256 * r) 0 b.

Lemma length_le_bytes n z : length (le_bytes n z) = n.
Proof. unfold le_bytes. by rewrite length_map, length_seq. Qed.

Lemma le_value_bytes n z : le_value (le_bytes n z) = z mod 256 ^ Z.of_nat n.
Proof.
  unfold le_bytes, le_value. revert z. induction n as [|n IH]; intros z; [by rewrite Z.mod_1_r|].
  cbn [seq map foldr]. rewrite <- seq_shift, map_map.
  replace (map _ (seq 0 n)) with (map (fun i => u8 ((z / 256) .>> (8 * Z.of_nat i))) (seq 0 n)).
  2: { apply map_ext. intros i. change 256 with (2 ^ 8). rewrite <- Z.shiftr_div_pow2 by done.
    rewrite Z.shiftr_shiftr by lia. do 2 f_equal. lia. }
  rewrite IH, Nat2Z.inj_succ, Z.pow_succ_r by lia.
  rewrite Z.rem_mul_r by lia. unfold wrap. by rewrite Z.shiftr_0_r.
Qed.

(** ** Arrays

    A C array is a list; an access outside it is undefined behaviour, which
    the models return as [None]. *)

Definition aget {A} (l : list A) (i : Z) : option A :=
  if 0 <=? i then l !! Z.to_nat i else None.

Definition aset {A} (l : list A) (i : Z) (x : A) : option (list A) :=
  if (0 <=? i) && (i <? Z.of_nat (length l)) then Some (<[Z.to_nat i := x]> l) else None.

Lemma aget_Some {A} (l : list A) i :
  0 <= i < Z.of_nat (length l) -> exists x, aget l i = Some x.
Proof.
  intros Hi. unfold aget. rewrite (proj2 (Z.leb_le 0 i)) by lia.
  apply lookup_lt_is_Some_2. lia.
Qed.

Lemma aget_range {A} (l : list A) i x :
  aget l i = Some x -> 0 <= i < Z.of_nat (length l).
Proof.
  unfold aget. destruct (Z.leb_spec 0 i); [| done].
  intros Hl%lookup_lt_Some. lia.
Qed.

Lemma aset_Some {A} (l : list A) i x :
  0 <= i < Z.of_nat (length l) -> aset l i x = Some (<[Z.to_nat i := x]> l).
Proof.
  intros Hi. unfold aset.
  by rewrite (proj2 (Z.leb_le 0 i)), (proj2 (Z.ltb_lt i _)) by lia.
Qed.

Lemma aset_inv {A} (l l' : list A) i x :
  aset l i x = Some l' ->
  0 <= i < Z.of_nat (length l) /\ l' = <[Z.to_nat i := x]> l.
Proof.
  unfold aset. destruct (Z.leb_spec 0 i), (Z.ltb_spec i (Z.of_nat (length l)));
    simpl; try done. intros [= <-]. split; [lia | done].
Qed.

Lemma aget_aset_eq {A} (l l' : list A) i x :
  aset l i x = Some l' -> aget l' i = Some x.
Proof.
  intros [Hi ->]%aset_inv. unfold aget. rewrite (proj2 (Z.leb_le 0 i)) by lia.
  apply list_lookup_insert_eq. lia.
Qed.

Lemma aget_aset_ne {A} (l l' : list A) i j x :
  aset l i x = Some l' -> i <> j -> aget l' j = aget l j.
Proof.
  intros [Hi ->]%aset_inv Hne. unfold aget.
  destruct (Z.leb_spec 0 j); [| done].
  apply list_lookup_insert_ne. lia.
Qed.

Lemma aset_length {A} (l l' : list A) i x :
  aset l i x = Some l' -> length l' = length l.
Proof. intros [_ ->]%aset_inv. apply length_insert. Qed.

(** ** Runs that may be undefined or may not finish

    [Undef] is undefined behaviour; [NoFuel] says that the bound on the
    iterations of a [while] loop was reached, and every loop comes with a
    theorem that some bound is enough. *)
Inductive outcome (A : Type) := Ret (a : A) | Undef | NoFuel.
Arguments Ret {A} a.
Arguments Undef {A}.
Arguments NoFuel {A}.

#[export] Instance outcome_ret : MRet outcome := fun A a => Ret a.
#[export] Instance outcome_bind : MBind outcome := fun A B f m =>
  match m with Ret a => f a | Undef => Undef | NoFuel => NoFuel end.

(** A computation without loops inside one with loops. *)
Definition lift {A} (m : option A) : outcome A :=
  match m with Some a => Ret a | None => Undef end.

Ltac step_run := cbn [mbind outcome_bind option_bind mret outcome_ret option_ret lift].

(** [for (j = i; j < i + n; j++) s = body(j, s)] *)
Fixpoint for_loop {M : Type -> Type} `{!MRet M, !MBind M} {S : Type}
    (n i : nat) (body : nat -> S -> M S) (s : S) : M S :=
  match n with
  | O => mret s
  | S n => s ← body i s; for_loop n (i + 1) body s
  end.

Lemma for_loop_option {S} (inv : nat -> S -> Prop) (body : nat -> S -> option S) n i s :
  inv i s ->
  (forall j s, (i <= j < i + n)%nat -> inv j s ->
     exists s', body j s = Some s' /\ inv (j + 1)%nat s') ->
  exists s', for_loop n i body s = Some s' /\ inv (i + n)%nat s'.
Proof.
  revert i s. induction n as [| n IH]; intros i s Hi Hbody; simpl.
  - exists s. by rewrite Nat.add_0_r.
  - destruct (Hbody i s ltac:(lia) Hi) as (s' & -> & Hs'). simpl.
    destruct (IH (i + 1)%nat s' Hs') as (s'' & H & Hs'').
    { intros j t Hj. apply Hbody. lia. }
    exists s''. split; [done |]. by replace (i + Datatypes.S n)%nat with (i + 1 + n)%nat by lia.
Qed.

Lemma for_loop_run {S} (inv : nat -> S -> Prop) (body : nat -> S -> outcome S) n i s :
  inv i s ->
  (forall j s, (i <= j < i + n)%nat -> inv j s ->
     exists s', body j s = Ret s' /\ inv (j + 1)%nat s') ->
  exists s', for_loop n i body s = Ret s' /\ inv (i + n)%nat s'.
Proof.
  revert i s. induction n as [| n IH]; intros i s Hi Hbody; simpl.
  - exists s. by rewrite Nat.add_0_r.
  - destruct (Hbody i s ltac:(lia) Hi) as (s' & -> & Hs'). simpl.
    destruct (IH (i + 1)%nat s' Hs') as (s'' & H & Hs'').
    { intros j t Hj. apply Hbody. lia. }
    exists s''. split; [done |]. by replace (i + Datatypes.S n)%nat with (i + 1 + n)%nat by lia.
Qed.

(** [while (cond(s)) s = body(s)], at most [fuel] times. *)
Fixpoint while_loop {S} (fuel : nat) (cond : S -> bool) (body : S -> outcome S) (s : S)
    : outcome S :=
  if cond s then
    match fuel with O => NoFuel | S fuel => s ← body s; while_loop fuel cond body s end
  else Ret s.

(** A loop whose measure decreases stays within a fuel that bounds it. *)
Lemma while_loop_run {S} (inv : S -> Prop) (measure : S -> nat) cond
    (body : S -> outcome S) fuel s :
  inv s -> (measure s <= fuel)%nat ->
  (forall s, inv s -> cond s = true ->
     exists s', body s = Ret s' /\ inv s' /\ (measure s' < measure s)%nat) ->
  exists s', while_loop fuel cond body s = Ret s' /\ inv s' /\ cond s' = false.
Proof.
  revert s. induction fuel as [| fuel IH]; intros s Hi Hm Hbody; simpl.
  - destruct (cond s) eqn:Hc; [| by exists s].
    destruct (Hbody s Hi Hc) as (s' & _ & _ & Hlt). lia.
  - destruct (cond s) eqn:Hc; [| by exists s].
    destruct (Hbody s Hi Hc) as (s' & -> & Hi' & Hlt). simpl. apply IH; [done | lia | done].
Qed.

(** Finite sums. *)
Fixpoint zsum (n : nat) (f : nat -> Z) : Z :=
  match n with O => 0 | S n => zsum n f + f n end.

Lemma zsum_le n f g : (forall j, (j < n)%nat -> f j <= g j) -> zsum n f <= zsum n g.
Proof.
  induction n as [| n IH]; intros H; simpl; [lia |].
  pose proof (IH ltac:(intros; apply H; lia)). pose proof (H n ltac:(lia)). lia.
Qed.

Lemma zsum_ext n f g : (forall j, (j < n)%nat -> f j = g j) -> zsum n f = zsum n g.
Proof. intros H. apply Z.le_antisymm; apply zsum_le; intros j Hj; by rewrite H. Qed.

Lemma zsum_nonneg n f : (forall j, (j < n)%nat -> 0 <= f j) -> 0 <= zsum n f.
Proof.
  intros H. replace 0 with (zsum n (fun _ => 0)) by (clear; induction n; simpl; lia).
  by apply zsum_le.
Qed.

Lemma zsum_mono n m f :
  (n <= m)%nat -> (forall j, (n <= j < m)%nat -> 0 <= f j) -> zsum n f <= zsum m f.
Proof.
  intros Hnm. induction Hnm as [| m Hnm IH]; intros H; [lia |]. simpl.
  pose proof (IH ltac:(intros; apply H; lia)). pose proof (H m ltac:(lia)). lia.
Qed.

Lemma zsum_term n f j : (j < n)%nat -> (forall k, (k < n)%nat -> 0 <= f k) -> f j <= zsum n f.
Proof.
  intros Hj H. pose proof (zsum_mono (S j) n f ltac:(lia) ltac:(intros; apply H; lia)) as Hm.
  simpl in Hm. pose proof (zsum_nonneg j f ltac:(intros; apply H; lia)). lia.
Qed.

(** ** Fibonacci numbers *)

(** The Fibonacci numbers from [Fib 0 = 0], [Fib 1 = 1]. *)
Fixpoint fib_pair (n : nat) : Z * Z :=
  match n with O => (0, 1) | S n => let '(a, b) := fib_pair n in (b, a + b) end.
Definition Fib (n : nat) : Z := fst (fib_pair n).

Lemma fib_pair_Fib n : fib_pair n = (Fib n, Fib (S n)).
Proof. unfold Fib. cbn. by destruct (fib_pair n). Qed.

Lemma Fib_SS n : Fib (S (S n)) = Fib n + Fib (S n).
Proof. unfold Fib at 1. cbn. by rewrite fib_pair_Fib. Qed.

Lemma Fib_mono n m : (n <= m)%nat -> 0 <= Fib n <= Fib m.
Proof.
  assert (forall k, 0 <= Fib k /\ Fib k <= Fib (S k)) as H.
  { induction k as [|k [IH1 IH2]]; [cbn; lia|]. rewrite Fib_SS. lia. }
  induction 1 as [|m _ IH]; [specialize (H n); lia|]. specialize (H m). lia.
Qed.

Lemma for_loop_outcome {S} (inv : nat -> S -> Prop) (U : Prop)
    (body : nat -> S -> outcome S) n i s :
  inv i s ->
  (forall j s, (i <= j < i + n)%nat -> inv j s ->
     match body j s with Ret s' => inv (j + 1)%nat s' | Undef => U | NoFuel => False end) ->
  match for_loop n i body s with
  | Ret s' => inv (i + n)%nat s' | Undef => U | NoFuel => False
  end.
Proof.
  revert i s. induction n as [| n IH]; intros i s Hi Hbody; simpl.
  - by rewrite Nat.add_0_r.
  - pose proof (Hbody i s ltac:(lia) Hi) as Hb.
    destruct (body i s) as [s' | |]; simpl; [| done | done].
    replace (i + Datatypes.S n)%nat with (i + 1 + n)%nat by lia.
    apply IH; [done |]. intros j t Hj. apply Hbody. lia.
Qed.

(** A loop that adds non-negative terms and fails once the sum reaches [B]. *)
Lemma accumulate_loop (B : Z) (f : nat -> Z) (body : nat -> Z -> option Z) n i a :
  0 <= a < B ->
  (forall j, (i <= j < i + n)%nat -> 0 <= f j) ->
  (forall j a, (i <= j < i + n)%nat -> 0 <= a < B ->
     body j a = if a + f j <? B then Some (a + f j) else None) ->
  for_loop n i body a =
    let v := a + (zsum (i + n) f - zsum i f) in if v <? B then Some v else None.
Proof.
  revert i a. induction n as [| n IH]; intros i a Ha Hf Hbody; simpl.
  - rewrite Nat.add_0_r. replace (a + _) with a by lia.
    by rewrite (proj2 (Z.ltb_lt a B)) by lia.
  - rewrite Hbody by lia. pose proof (Hf i ltac:(lia)).
    assert (zsum (i + 1) f <= zsum (i + 1 + n) f) as Hm
      by (apply zsum_mono; [lia | intros; apply Hf; lia]).
    replace (i + S n)%nat with (i + 1 + n)%nat by lia.
    assert (zsum (i + 1) f = zsum i f + f i) as H1 by (by rewrite Nat.add_1_r).
    destruct (Z.ltb_spec (a + f i) B); simpl.
    + rewrite IH; [| lia | intros; apply Hf; lia | intros; apply Hbody; lia].
      simpl. rewrite H1.
      by replace (a + f i + (zsum (i + 1 + n) f - (zsum i f + f i)))
        with (a + (zsum (i + 1 + n) f - zsum i f)) by lia.
    + by rewrite (proj2 (Z.ltb_ge (a + (zsum (i + 1 + n) f - zsum i f)) B)) by lia.
Qed.

(** Some index minimises a function over [0..n]. *)
Lemma argmin (f : nat -> Z) n : exists k, (k <= n)%nat /\ forall j, (j <= n)%nat -> f k <= f j.
Proof.
  induction n as [| n (k & Hk & IH)].
  - exists 0%nat. split; [lia |]. intros j Hj. by replace j with 0%nat by lia.
  - destruct (Z.le_gt_cases (f k) (f (S n))) as [H | H].
    + exists k. split; [lia |]. intros j Hj.
      destruct (decide (j = S n)) as [-> |]; [done | apply IH; lia].
    + exists (S n). split; [lia |]. intros j Hj.
      destruct (decide (j = S n)) as [-> |]; [lia |].
      pose proof (IH j ltac:(lia)). lia.
Qed.

(** [arr j] as a total function, zero outside the array. *)
Definition elt (arr : list Z) (j : nat) : Z := default 0 (arr !! j).

Lemma elt_Some arr j : (j < length arr)%nat -> arr !! j = Some (elt arr j).
Proof. intros [x Hx]%lookup_lt_is_Some_2. unfold elt. by rewrite Hx. Qed.

Lemma elt_out arr j : (length arr <= j)%nat -> elt arr j = 0.
Proof. intros Hj. unfold elt. by rewrite lookup_ge_None_2. Qed.

(** ** Sub-arrays *)

Definition nset {A} (l : list A) (i : nat) (x : A) : option (list A) :=
  if (i <? length l)%nat then Some (<[i := x]> l) else None.

Lemma nset_Some {A} (l : list A) i x : (i < length l)%nat -> nset l i x = Some (<[i := x]> l).
Proof. intros Hi. unfold nset. by rewrite (proj2 (Nat.ltb_lt _ _) Hi). Qed.

(** [n] elements from index [o] on. *)
Definition sub {A} (l : list A) (o n : nat) : list A := take n (drop o l).

(** [memcpy] of [b] into [l] at index [o]. *)
Definition splice {A} (l : list A) (o : nat) (b : list A) : list A :=
  take o l ++ b ++ drop (o + length b) l.

(** The same, undefined when it does not fit. *)
Definition store {A} (l : list A) (o : nat) (b : list A) : option (list A) :=
  if (o + length b <=? length l)%nat then Some (splice l o b) else None.

Section subarrays.
Context {A : Type}.
Implicit Types l b : list A.

Lemma store_Some l o b : (o + length b <= length l)%nat -> store l o b = Some (splice l o b).
Proof. intros H. unfold store. by rewrite (proj2 (Nat.leb_le _ _) H). Qed.

Lemma lookup_sub l o n i : (i < n)%nat -> sub l o n !! i = l !! (o + i)%nat.
Proof. intros Hi. unfold sub. by rewrite lookup_take_lt, lookup_drop. Qed.

Lemma length_sub l o n : length (sub l o n) = min n (length l - o).
Proof. unfold sub. by rewrite length_take, length_drop. Qed.

Lemma sub_ext l l' o o' n :
  (forall i, (i < n)%nat -> l !! (o + i)%nat = l' !! (o' + i)%nat) -> sub l o n = sub l' o' n.
Proof.
  intros H. apply list_eq. intros i. destruct (decide (i < n)%nat) as [Hi | Hi].
  - rewrite !lookup_sub by done. by apply H.
  - rewrite !lookup_ge_None_2; [done | rewrite length_sub; lia..].
Qed.

Lemma length_splice l o b :
  (o <= length l)%nat -> length (splice l o b) = max (length l) (o + length b).
Proof.
  intros H. unfold splice. rewrite !length_app, length_take, length_drop. lia.
Qed.

Lemma lookup_splice l o b i :
  (o <= length l)%nat ->
  splice l o b !! i =
    if (i <? o)%nat then l !! i
    else if (i <? o + length b)%nat then b !! (i - o)%nat else l !! i.
Proof.
  intros Ho. unfold splice. destruct (Nat.ltb_spec i o) as [Hi | Hi].
  - rewrite lookup_app_l by (rewrite length_take; lia). by rewrite lookup_take_lt.
  - rewrite lookup_app_r by (rewrite length_take; lia).
    rewrite length_take, Nat.min_l by done.
    destruct (Nat.ltb_spec i (o + length b)) as [Hb | Hb].
    + by rewrite lookup_app_l by lia.
    + rewrite lookup_app_r, lookup_drop by lia. f_equal. lia.
Qed.

Lemma sub_splice_eq l o b n :
  (o <= length l)%nat -> n = length b -> sub (splice l o b) o n = b.
Proof.
  intros Ho ->. apply list_eq. intros i. destruct (decide (i < length b)%nat) as [Hi | Hi].
  - rewrite lookup_sub, lookup_splice by done.
    rewrite (proj2 (Nat.ltb_ge _ _)), (proj2 (Nat.ltb_lt _ _)) by lia. f_equal. lia.
  - rewrite !lookup_ge_None_2; [done | lia |]. rewrite length_sub. lia.
Qed.

Lemma sub_splice_ne l o b o' n :
  (o <= length l)%nat -> (o' + n <= o \/ o + length b <= o')%nat ->
  sub (splice l o b) o' n = sub l o' n.
Proof.
  intros Ho Hd. apply sub_ext. intros i Hi. rewrite lookup_splice by done.
  destruct (Nat.ltb_spec (o' + i) o); [done |].
  destruct (Nat.ltb_spec (o' + i) (o + length b)); [lia | done].
Qed.

Lemma sub_app l o n m : sub l o n ++ sub l (o + n) m = sub l o (n + m).
Proof.
  unfold sub. rewrite <- drop_drop. symmetry.
  rewrite <- (take_drop n (take (n + m) (drop o l))), take_take, Nat.min_l by lia.
  f_equal. by rewrite skipn_firstn_comm, Nat.add_sub_swap, Nat.sub_diag by lia.
Qed.

Lemma sub_app0 l n m : sub l 0 n ++ sub l n m = sub l 0 (n + m).
Proof. exact (sub_app l 0 n m). Qed.

Lemma sub_sub l o n o' m : (o' + m <= n)%nat -> sub (sub l o n) o' m = sub l (o + o') m.
Proof.
  intros H. apply sub_ext. intros i Hi. rewrite lookup_sub by lia. f_equal. lia.
Qed.

Lemma sub_app_l l b n : (n <= length l)%nat -> sub (l ++ b) 0 n = sub l 0 n.
Proof. intros H. apply sub_ext. intros i Hi. simpl. by rewrite lookup_app_l by lia. Qed.

Lemma sub_all l n : (length l <= n)%nat -> sub l 0 n = l.
Proof. intros H. unfold sub. by rewrite drop_0, take_ge. Qed.
End subarrays.

Lemma elt_sub l o n i : (i < n)%nat -> elt (sub l o n) i = elt l (o + i).
Proof. intros Hi. unfold elt. by rewrite lookup_sub. Qed.

Lemma elt_map_seq (g : nat -> Z) n i : (i < n)%nat -> elt (map g (seq 0 n)) i = g i.
Proof.
  intros Hi. unfold elt. change (map g (seq 0 n)) with (g <$> seq 0 n).
  by rewrite list_lookup_fmap, lookup_seq_lt.
Qed.

Lemma list_eq_elt (l l' : list Z) :
  length l = length l' -> (forall i, (i < length l)%nat -> elt l i = elt l' i) -> l = l'.
Proof.
  intros Hlen H. apply list_eq_same_length with (length l); [done | done |].
  intros i x y Hi Hx Hy. specialize (H i Hi). unfold elt in H. rewrite Hx, Hy in H. done.
Qed.
