(* ===== verification/Double.v ===== *)
(** * IEEE double arithmetic on the values the programs use

    A double is represented by its rational value; every operation rounds the
    exact result to 53 significant bits, to nearest with ties to even.  The
    values that occur stay far inside the exponent range (quotients, products
    and sums of 32-bit integers), so overflow to infinity and subnormals are
    not modelled; a division by zero is [None]. *)
From Stdlib Require Import QArith Qround Qpower Lqa.
From stdpp Require Import option.
From S2P Require Import Prelude.

Open Scope Q_scope.

Definition dbl := Q.

(** ** Rounding *)

Definition two_pow (e : Z) : Q := Qpower 2 e.

(** Nearest integer, ties to even. *)
Definition rint (x : Q) : Z :=
  let f := Qfloor x in
  match Qcompare (x - inject_Z f)%Q (1 # 2) with
  | Lt => f
  | Gt => (f + 1)%Z
  | Eq => if Z.even f then f else (f + 1)%Z
  end.

(** The exponent [e] with [2^52 <= q / 2^e < 2^53], for positive [q]. *)
Definition ulp_exp (q : Q) : Z :=
  let e := (Z.log2 (Qnum q) - Z.log2 (Zpos (Qden q)) - 53)%Z in
  if Qle_bool (two_pow (e + 53)) q then (e + 1)%Z else e.

Definition round_pos (q : Q) : Q :=
  let e := ulp_exp q in inject_Z (rint (q / two_pow e)) * two_pow e.

Definition round53 (q : Q) : Q :=
  let q := Qred q in
  match Qnum q with
  | Z0 => 0
  | Zpos _ => round_pos q
  | Zneg _ => - round_pos (- q)
  end.

(** ** Operations *)

Definition d_of_Z (z : Z) : dbl := round53 (inject_Z z).
Definition dadd (x y : dbl) : dbl := round53 (x + y).
Definition dsub (x y : dbl) : dbl := round53 (x - y).
Definition dmul (x y : dbl) : dbl := round53 (x * y).
Definition ddiv (x y : dbl) : option dbl :=
  if Qeq_bool y 0 then None else Some (round53 (x / y)).
Definition dceil (x : dbl) : dbl := inject_Z (Qceiling x).
Definition dfloor (x : dbl) : dbl := inject_Z (Qfloor x).
Definition dle (x y : dbl) : bool := Qle_bool x y.

(** Conversion to an integer type truncates toward zero and is undefined when
    the result does not fit. *)
Definition d_trunc (x : dbl) : Z := if Qle_bool 0 x then Qfloor x else Qceiling x.
Definition d_to_u32 (x : dbl) : option Z :=
  let z := d_trunc x in
  if (0 <=? z)%Z && (z <? 2 ^ 32)%Z then Some z else None.
Definition d_to_long (x : dbl) : option Z :=
  let z := d_trunc x in
  if (- 2 ^ 63 <=? z)%Z && (z <? 2 ^ 63)%Z then Some z else None.
Definition d_to_int (x : dbl) : option Z :=
  let z := d_trunc x in if in_int z then Some z else None.

(** ** Rounding respects the value *)

#[export] Instance round53_proper : Proper (Qeq ==> eq) round53.
Proof. intros x y H. unfold round53. by rewrite (Qred_complete _ _ H). Qed.

#[export] Instance Qfloor_proper : Proper (Qeq ==> eq) Qfloor.
Proof. intros x y H. by apply Qfloor_comp. Qed.

#[export] Instance Qceiling_proper : Proper (Qeq ==> eq) Qceiling.
Proof. intros x y H. by apply Qceiling_comp. Qed.

#[export] Instance d_trunc_proper : Proper (Qeq ==> eq) d_trunc.
Proof. intros x y H. unfold d_trunc. by rewrite H, (Qfloor_comp _ _ H), (Qceiling_comp _ _ H). Qed.

Lemma two_pow_pos e : 0 < two_pow e.
Proof. apply Qpower_0_lt. lra. Qed.

Lemma two_pow_add a b : two_pow (a + b) == two_pow a * two_pow b.
Proof. apply Qpower_plus. lra. Qed.

Lemma two_pow_Z e : (0 <= e)%Z -> two_pow e == inject_Z (2 ^ e).
Proof. intros He. unfold two_pow. by rewrite Zpower_Qpower. Qed.

Lemma rint_bound x : x - (1 # 2) <= inject_Z (rint x) <= x + (1 # 2).
Proof.
  unfold rint. pose proof (Qfloor_le x). pose proof (Qlt_floor x).
  rewrite inject_Z_plus in *. change (inject_Z 1) with 1 in *.
  destruct (Qcompare_spec (x - inject_Z (Qfloor x)) (1 # 2)).
  - destruct (Z.even _); rewrite ?inject_Z_plus; change (inject_Z 1) with 1; lra.
  - lra.
  - rewrite inject_Z_plus. change (inject_Z 1) with 1. lra.
Qed.

Lemma rint_Z z : rint (inject_Z z) = z.
Proof.
  unfold rint. rewrite Qfloor_Z.
  destruct (Qcompare_spec (inject_Z z - inject_Z z) (1 # 2)); [lra | done | lra].
Qed.

#[export] Instance rint_proper : Proper (Qeq ==> eq) rint.
Proof. intros x y H. unfold rint. by rewrite (Qfloor_comp _ _ H), H. Qed.

(** ** The rounding error *)

Lemma log2_bounds (n : positive) :
  two_pow (Z.log2 (Zpos n)) <= inject_Z (Zpos n) < two_pow (Z.log2 (Zpos n) + 1).
Proof.
  pose proof (Z.log2_spec (Zpos n) ltac:(lia)) as [H1 H2].
  pose proof (Z.log2_nonneg (Zpos n)).
  rewrite !two_pow_Z by lia. rewrite <- Zle_Qle, <- Zlt_Qlt. split; [done |].
  by rewrite Z.add_1_r.
Qed.

Lemma Qmake_mul n d : (Zpos n # d) * inject_Z (Zpos d) == inject_Z (Zpos n).
Proof. unfold Qeq, Qmult, inject_Z; simpl. lia. Qed.

Lemma ulp_exp_spec n d :
  let q := Zpos n # d in
  two_pow (ulp_exp q + 52) <= q < two_pow (ulp_exp q + 53).
Proof.
  intros q. unfold ulp_exp, q. simpl Qnum. simpl Qden. fold q.
  destruct (log2_bounds n) as [Hn1 Hn2], (log2_bounds d) as [Hd1 Hd2].
  pose proof (Qmake_mul n d) as Hq. fold q in Hq.
  set (ln := Z.log2 (Zpos n)) in *. set (ld := Z.log2 (Zpos d)) in *.
  set (D := inject_Z (Zpos d)) in *. set (N := inject_Z (Zpos n)) in *.
  assert (0 < D) as HD by (unfold D; rewrite <- (Zlt_Qlt 0); lia).
  assert (Hlow : two_pow (ln - ld - 1) < q).
  { apply (Qmult_lt_r _ _ D HD). rewrite Hq.
    eapply Qlt_le_trans; [| exact Hn1].
    replace ln with (ln - ld - 1 + (ld + 1))%Z at 2 by lia. rewrite two_pow_add.
    apply Qmult_lt_l; [apply two_pow_pos | done]. }
  assert (Hup : q < two_pow (ln - ld + 1)).
  { apply (Qmult_lt_r _ _ D HD). rewrite Hq.
    eapply Qlt_le_trans; [exact Hn2 |].
    replace (ln + 1)%Z with (ln - ld + 1 + ld)%Z by lia. rewrite two_pow_add.
    apply Qmult_le_l; [apply two_pow_pos | done]. }
  destruct (Qle_bool _ q) eqn:Hb.
  - apply Qle_bool_iff in Hb. split.
    + by replace (ln - ld - 53 + 1 + 52)%Z with (ln - ld - 53 + 53)%Z by lia.
    + by replace (ln - ld - 53 + 1 + 53)%Z with (ln - ld + 1)%Z by lia.
  - assert (q < two_pow (ln - ld - 53 + 53)) as Hlt.
    { apply Qnot_le_lt. intros Hle%Qle_bool_iff. congruence. }
    split; [| done].
    replace (ln - ld - 53 + 52)%Z with (ln - ld - 1)%Z by lia. by apply Qlt_le_weak.
Qed.

(** Half a unit in the last place is at most [q / 2^53]. *)
Lemma round_pos_error n d :
  let q := Zpos n # d in
  q - q * (1 # 9007199254740992) <= round_pos q <= q + q * (1 # 9007199254740992).
Proof.
  intros q. unfold round_pos. destruct (ulp_exp_spec n d) as [Hl _]. fold q in Hl.
  set (e := ulp_exp q) in *. pose proof (two_pow_pos e) as He.
  pose proof (rint_bound (q / two_pow e)) as [H1 H2].
  rewrite two_pow_add in Hl. change (two_pow 52) with (4503599627370496 # 1) in Hl.
  set (u := two_pow e) in *. set (r := inject_Z _) in *.
  assert (Hx : q == (q / u) * u) by (field; lra).
  set (x := q / u) in *. rewrite Hx in Hl |- *.
  assert (Hx52 : 4503599627370496 # 1 <= x).
  { apply (Qmult_le_r _ _ u He). lra. }
  split; nra.
Qed.

Lemma round53_pos q :
  0 < q -> exists n d, Qred q = Zpos n # d /\ q == Zpos n # d /\ round53 q = round_pos (Zpos n # d).
Proof.
  intros Hq. unfold round53. pose proof (Qred_correct q) as Hr.
  destruct (Qred q) as [[| n | n] d]; simpl; rewrite <- Hr in Hq; try done.
  by exists n, d.
Qed.

Lemma round53_error q :
  0 <= q ->
  q - q * (1 # 9007199254740992) <= round53 q <= q + q * (1 # 9007199254740992).
Proof.
  intros [Hq | Hq]%Qle_lteq.
  - destruct (round53_pos q Hq) as (n & d & _ & He & ->).
    pose proof (round_pos_error n d) as Hr. simpl in Hr. by rewrite He.
  - rewrite <- (round53_proper _ _ Hq). change (round53 0) with 0. lra.
Qed.

(** Rounding is odd, so the error bound holds on both sides of zero. *)
Lemma round53_opp q : round53 (- q) == - round53 q.
Proof.
  unfold round53. rewrite Qred_opp. destruct (Qred q) as [[| n | n] d]; cbn [Qnum Qopp Z.opp].
  - reflexivity.
  - reflexivity.
  - change (- (Zneg n # d)) with (Zpos n # d). by rewrite Qopp_involutive.
Qed.

Lemma round53_bounds b q :
  - b <= q <= b ->
  q - b * (1 # 9007199254740992) <= round53 q <= q + b * (1 # 9007199254740992).
Proof.
  intros Hb. destruct (Qlt_le_dec q 0) as [Hq | Hq].
  - pose proof (round53_error (- q) ltac:(lra)) as He. rewrite round53_opp in He. lra.
  - pose proof (round53_error q Hq). lra.
Qed.

(** Integers below [2^53] are doubles. *)
Lemma round53_Z q z :
  q == inject_Z z -> (0 <= z < 2 ^ 53)%Z -> round53 q == inject_Z z.
Proof.
  intros Hz [H0 H53]. destruct (decide (z = 0)%Z) as [-> | Hne].
  { by rewrite (round53_proper _ _ Hz). }
  assert (0 < q) as Hq by (rewrite Hz, <- (Zlt_Qlt 0); lia).
  destruct (round53_pos q Hq) as (n & d & _ & He & ->).
  destruct (ulp_exp_spec n d) as [Hl _]. unfold round_pos.
  set (e := ulp_exp _) in *. rewrite <- He, Hz in Hl.
  assert (e <= 0)%Z as Hle.
  { apply Z.nlt_ge. intros Hpos. rewrite two_pow_Z, <- Zle_Qle in Hl by lia.
    assert (2 ^ 53 <= 2 ^ (e + 52))%Z by (apply Z.pow_le_mono_r; lia). lia. }
  assert (Hi : (Zpos n # d) / two_pow e == inject_Z (z * 2 ^ (- e))).
  { rewrite <- He, Hz, inject_Z_mult, <- two_pow_Z by lia. unfold two_pow.
    rewrite Qpower_opp. reflexivity. }
  rewrite Hi, rint_Z, <- Hi, <- Hz, He. field. pose proof (two_pow_pos e). lra.
Qed.

Lemma d_of_Z_exact z : (0 <= z < 2 ^ 53)%Z -> d_of_Z z == inject_Z z.
Proof. by apply round53_Z. Qed.

(** ** Integer division done in doubles is exact on 32-bit operands *)

(** Ceiling division. *)
Definition cdiv (a p : Z) : Z := ((a + p - 1) / p)%Z.

Lemma Qceiling_Z z : Qceiling (inject_Z z) = z.
Proof. unfold Qceiling. rewrite <- inject_Z_opp, Qfloor_Z. lia. Qed.

Lemma Qfloor_between x k : inject_Z k <= x < inject_Z (k + 1) -> Qfloor x = k.
Proof.
  intros [H1 H2]. pose proof (Qfloor_le x). pose proof (Qlt_floor x).
  assert (Qfloor x < k + 1)%Z by (rewrite Zlt_Qlt; lra).
  assert (k < Qfloor x + 1)%Z by (rewrite Zlt_Qlt; lra). lia.
Qed.

Lemma Qceiling_between x k : inject_Z (k - 1) < x <= inject_Z k -> Qceiling x = k.
Proof.
  intros [H1 H2]. unfold Qceiling. rewrite (Qfloor_between _ (- k)); [lia |].
  split.
  - rewrite inject_Z_opp. lra.
  - replace (- k + 1)%Z with (- (k - 1))%Z by lia. rewrite inject_Z_opp. lra.
Qed.

Lemma div_quotient a p :
  (0 < p)%Z -> inject_Z a / inject_Z p ==
    inject_Z (a / p) + inject_Z (a mod p) / inject_Z p.
Proof.
  intros Hp. assert (~ inject_Z p == 0).
  { change 0 with (inject_Z 0). rewrite inject_Z_injective. lia. }
  rewrite (Z.div_mod a p) at 1 by lia.
  rewrite inject_Z_plus, inject_Z_mult. field. done.
Qed.

Lemma round53_quotient a p :
  (0 <= a < 2 ^ 32)%Z -> (0 < p < 2 ^ 32)%Z -> (a mod p <> 0)%Z ->
  inject_Z (a / p) < round53 (inject_Z a / inject_Z p) < inject_Z (a / p + 1).
Proof.
  intros Ha Hp Hr.
  pose proof (Z.mod_pos_bound a p ltac:(lia)) as Hm.
  pose proof (div_quotient a p ltac:(lia)) as Hq.
  assert (0 < inject_Z p) as HP by (rewrite <- (Zlt_Qlt 0); lia).
  assert (0 <= inject_Z a) as HA by (rewrite <- (Zle_Qle 0); lia).
  set (x := inject_Z a / inject_Z p) in *.
  assert (Hx : x * inject_Z p == inject_Z a) by (unfold x; field; lra).
  assert (0 <= x) as Hx0 by (apply (Qmult_le_r _ _ _ HP); rewrite Hx; lra).
  destruct (round53_error x Hx0) as [E1 E2].
  (* the rounding error is below [1 / p] *)
  assert (He : x * (1 # 9007199254740992) * inject_Z p < 1).
  { assert (inject_Z a < inject_Z (2 ^ 32)) as Hlt by (rewrite <- Zlt_Qlt; lia).
    change (inject_Z (2 ^ 32)) with (4294967296 # 1) in Hlt. nra. }
  set (k := inject_Z (a / p)) in *. rewrite inject_Z_plus. fold k.
  assert (1 <= inject_Z (a mod p)) as Hm1 by (rewrite <- (Zle_Qle 1); lia).
  assert (inject_Z (a mod p) + 1 <= inject_Z p) as Hm2.
  { change 1 with (inject_Z 1). rewrite <- inject_Z_plus, <- Zle_Qle. lia. }
  assert (Hf : inject_Z (a mod p) / inject_Z p * inject_Z p == inject_Z (a mod p)) by (field; lra).
  set (f := inject_Z (a mod p) / inject_Z p) in *. change (inject_Z 1) with 1.
  split; apply (Qmult_lt_r _ _ _ HP); nra.
Qed.

Lemma ceil_div_exact a p :
  (0 <= a < 2 ^ 32)%Z -> (0 < p < 2 ^ 32)%Z ->
  Qceiling (round53 (inject_Z a / inject_Z p)) = cdiv a p.
Proof.
  intros Ha Hp. unfold cdiv. destruct (decide (a mod p = 0)%Z) as [H0 | Hne].
  - pose proof (div_quotient a p ltac:(lia)) as Hq. rewrite H0 in Hq.
    rewrite (round53_Z _ (a / p)), Qceiling_Z.
    + apply (Z.div_unique _ _ _ (p - 1)%Z); [lia |].
      pose proof (Z.div_mod a p ltac:(lia)). lia.
    + rewrite Hq. change (inject_Z 0) with 0. unfold Qdiv. ring.
    + split; [apply Z.div_pos; lia |]. pose proof (Z.div_le_upper_bound a p a). nia.
  - destruct (round53_quotient a p Ha Hp Hne) as [H1 H2].
    rewrite (Qceiling_between _ (a / p + 1)).
    + pose proof (Z.mod_pos_bound a p ltac:(lia)).
      apply (Z.div_unique _ _ _ (a mod p - 1)%Z); [lia |].
      pose proof (Z.div_mod a p ltac:(lia)). lia.
    + rewrite Z.add_simpl_r. split; [done | by apply Qlt_le_weak].
Qed.

Lemma floor_div_exact a p :
  (0 <= a < 2 ^ 32)%Z -> (0 < p < 2 ^ 32)%Z ->
  Qfloor (round53 (inject_Z a / inject_Z p)) = (a / p)%Z.
Proof.
  intros Ha Hp. destruct (decide (a mod p = 0)%Z) as [H0 | Hne].
  - pose proof (div_quotient a p ltac:(lia)) as Hq. rewrite H0 in Hq.
    rewrite (round53_Z _ (a / p)), Qfloor_Z; [done | |].
    + rewrite Hq. change (inject_Z 0) with 0. unfold Qdiv. ring.
    + split; [apply Z.div_pos; lia |]. pose proof (Z.div_le_upper_bound a p a). nia.
  - destruct (round53_quotient a p Ha Hp Hne) as [H1 H2].
    apply Qfloor_between. split; [by apply Qlt_le_weak | done].
Qed.

(** ** Multiply-accumulate on integers *)

Lemma inject_Z_nonneg z : (0 <= z)%Z -> 0 <= inject_Z z.
Proof. intros. by rewrite <- (Zle_Qle 0). Qed.

Lemma d_trunc_Z z : (0 <= z)%Z -> d_trunc (inject_Z z) = z.
Proof.
  intros Hz. unfold d_trunc. rewrite Qfloor_Z.
  by rewrite (proj2 (Qle_bool_iff 0 (inject_Z z)) (inject_Z_nonneg z Hz)).
Qed.

Lemma round53_large q z :
  (2 ^ 51 <= z)%Z -> inject_Z z <= q -> inject_Z (z - z / 2 ^ 50) <= round53 q.
Proof.
  intros Hz Hq. pose proof (inject_Z_nonneg z ltac:(lia)) as Hz0.
  destruct (round53_error q ltac:(lra)) as [He _].
  pose proof (Z.div_mod z (2 ^ 50) ltac:(lia)) as Hd.
  pose proof (Z.mod_pos_bound z (2 ^ 50) ltac:(lia)) as Hm.
  assert (inject_Z z * (1 # 9007199254740992) <= inject_Z (z / 2 ^ 50)) as Hq2.
  { assert (inject_Z z <= inject_Z (z / 2 ^ 50) * (9007199254740992 # 1)); [| lra].
    change (9007199254740992 # 1) with (inject_Z (2 ^ 53)).
    rewrite <- inject_Z_mult, <- Zle_Qle.
    assert (2 <= z / 2 ^ 50)%Z by (apply Z.div_le_lower_bound; lia). nia. }
  unfold Z.sub. rewrite inject_Z_plus, inject_Z_opp. lra.
Qed.

(** [a + c * w] with the product and the sum rounded, truncated to an integer. *)
Lemma madd_trunc a c w x :
  (0 <= a < 2 ^ 32)%Z -> (0 <= c)%Z -> (0 <= w < 2 ^ 32)%Z ->
  x == inject_Z c * inject_Z w ->
  let t := d_trunc (dadd (d_of_Z a) (round53 x)) in
  ((a + c * w < 2 ^ 53)%Z -> t = (a + c * w)%Z) /\
  ((2 ^ 53 <= a + c * w)%Z -> (2 ^ 50 <= t)%Z).
Proof.
  intros Ha Hc Hw Hx. unfold dadd. rewrite (round53_proper _ _ Hx).
  rewrite <- inject_Z_mult. assert (0 <= c * w)%Z by nia.
  set (p := (c * w)%Z) in *. pose proof (d_of_Z_exact a ltac:(lia)) as Hda. split.
  - intros Hlt. assert (Hs : d_of_Z a + round53 (inject_Z p) == inject_Z (a + p)).
    { rewrite Hda, round53_Z by (done || lia). by rewrite inject_Z_plus. }
    rewrite (d_trunc_proper _ (inject_Z (a + p))); [apply d_trunc_Z; lia |].
    by apply round53_Z; [| lia].
  - intros Hge.
    assert (Hp : inject_Z (2 ^ 52) <= round53 (inject_Z p)).
    { eapply Qle_trans; [| apply (round53_large _ (2 ^ 52 + 2 ^ 51)); [lia |]].
      - rewrite <- Zle_Qle. by vm_compute.
      - rewrite <- Zle_Qle. lia. }
    assert (Hs : inject_Z (2 ^ 52) <= d_of_Z a + round53 (inject_Z p)).
    { rewrite Hda. pose proof (inject_Z_nonneg a ltac:(lia)). lra. }
    pose proof (round53_large _ (2 ^ 52) ltac:(lia) Hs) as Hr.
    set (s := round53 (d_of_Z a + _)) in *.
    assert (Hr2 : inject_Z (2 ^ 50) <= s).
    { eapply Qle_trans; [| exact Hr]. rewrite <- Zle_Qle. by vm_compute. }
    unfold d_trunc. pose proof (inject_Z_nonneg (2 ^ 50) ltac:(lia)).
    rewrite (proj2 (Qle_bool_iff 0 s)) by lra.
    apply Qfloor_resp_le in Hr2. by rewrite Qfloor_Z in Hr2.
Qed.

Lemma ddiv_of_Z a p :
  (0 <= a < 2 ^ 53)%Z -> (0 < p < 2 ^ 53)%Z ->
  ddiv (d_of_Z a) (d_of_Z p) = Some (round53 (inject_Z a / inject_Z p)).
Proof.
  intros Ha Hp. unfold ddiv. pose proof (d_of_Z_exact p ltac:(lia)) as Hdp.
  assert (Qeq_bool (d_of_Z p) 0 = false) as ->.
  { apply not_true_is_false. rewrite Qeq_bool_iff, Hdp.
    change 0 with (inject_Z 0). rewrite inject_Z_injective. lia. }
  f_equal. apply round53_proper. by rewrite Hdp, (d_of_Z_exact a).
Qed.

Lemma cdiv_nonneg a p : (0 <= a)%Z -> (0 < p)%Z -> (0 <= cdiv a p)%Z.
Proof. intros. apply Z.div_pos; lia. Qed.

Lemma cdiv_mono a b p : (a <= b)%Z -> (0 < p)%Z -> (cdiv a p <= cdiv b p)%Z.
Proof. intros. apply Z.div_le_mono; lia. Qed.

(** [cdiv a p] is the least multiple count that reaches [a]. *)
Lemma cdiv_spec a p : (0 < p)%Z -> (p * (cdiv a p - 1) < a <= p * cdiv a p)%Z.
Proof.
  intros Hp. unfold cdiv. pose proof (Z.div_mod (a + p - 1) p ltac:(lia)).
  pose proof (Z.mod_pos_bound (a + p - 1) p ltac:(lia)). nia.
Qed.

Lemma cdiv_unique a p k : (0 < p)%Z -> (p * (k - 1) < a <= p * k)%Z -> cdiv a p = k.
Proof. intros Hp Hk. pose proof (cdiv_spec a p Hp). nia. Qed.
