(* ===== verification/FibLoads.v ===== *)
(** * Synthetic loads: example-1/perfmon.c, rt_simplethread_prio_amp/pthread.c,
    simplethread/pthread.c

    The Fibonacci loops differ in what they do with the counter [jdx], which is a
    global: perfmon.c leaves it at the limit, so that only the first of the
    iterations computes anything; pthread.c starts again at 0, so that the
    sequence goes on from one iteration to the next. *)
From S2P Require Import Prelude.
#[local] Open Scope Z_scope.

Record globals := { idx : Z; jdx : Z; fib : Z; fib0 : Z; fib1 : Z }.

Definition initial : globals := {| idx := 0; jdx := 1; fib := 0; fib0 := 0; fib1 := 1 |}.

(** [fib0 = fib1; fib1 = fib; fib = fib0 + fib1; jdx++;] *)
Definition inner_body (g : globals) : globals :=
  {| idx := idx g; jdx := u32 (jdx g + 1); fib := u32 (fib1 g + fib g); fib0 := fib1 g; fib1 := fib g |}.

Definition inner_loop (fuel : nat) (seqCnt : Z) (g : globals) : outcome globals :=
  while_loop fuel (fun g => jdx g <? seqCnt) (fun g => Ret (inner_body g)) g.

(** An iteration; [reset] is what [jdx] is set to after the loop, if it is. *)
Definition iteration (reset : option Z) (fuel : nat) (seqCnt : Z) (g : globals) : outcome globals :=
  g ← inner_loop fuel seqCnt
        {| idx := idx g; jdx := jdx g; fib := u32 (fib0 g + fib1 g); fib0 := fib0 g; fib1 := fib1 g |};
  Ret {| idx := u32 (idx g + 1); jdx := default (jdx g) reset; fib := fib g; fib0 := fib0 g; fib1 := fib1 g |}.

Definition fib_test (reset : option Z) (fuel : nat) (seqCnt iterCnt : Z) (g : globals) : outcome globals :=
  while_loop fuel (fun g => idx g <? iterCnt) (iteration reset fuel seqCnt)
    {| idx := 0; jdx := jdx g; fib := fib g; fib0 := fib0 g; fib1 := fib1 g |}.

Module Perfmon.
Definition FIB_LIMIT_FOR_32_BIT : Z := 47.
Definition INST_CNT_FIB_INNER : Z := 15.
Definition INST_CNT_FIB_OUTTER : Z := 6.

(** On a 64-bit counter. *)
Definition cyclesElapsed (stopTS startTS : Z) : Z := u64 (stopTS - startTS).

Definition FIB_TEST := fib_test None.

(** [seqIterations] and [Iterations] from the argument, if there is one; a [%ld]
    has the width of [reqIterations] here. *)
Definition iterations (arg : option Z) : option (Z * Z) :=
  match arg with
  | None => Some (FIB_LIMIT_FOR_32_BIT, 1)
  | Some n =>
      let reqIterations := u32 n in
      let seqIterations := reqIterations mod FIB_LIMIT_FOR_32_BIT in
      if seqIterations =? 0 then None else Some (seqIterations, reqIterations / seqIterations)
  end.

(** The instruction count, and the globals after the test. *)
Definition main (fuel : nat) (arg : option Z) : outcome (Z * globals) :=
  '(seqIterations, Iterations) ← lift (iterations arg);
  let instCnt := u32 (u32 (INST_CNT_FIB_INNER * seqIterations) + u32 (INST_CNT_FIB_OUTTER * Iterations) + 1) in
  g ← FIB_TEST fuel seqIterations Iterations initial;
  Ret (instCnt, g).
End Perfmon.

Module PrioAmp.
Definition SUM_ITERATIONS : Z := 1000.
Definition seqIterations : Z := 47.
Definition reqIterations : Z := 10000000.

Definition FIB_TEST := fib_test (Some 0).

(** The sum of a [counterThread] up to [limit], in an [int]. *)
Definition sum_below (fuel : nat) (limit : Z) : outcome (Z * Z) :=
  while_loop fuel (fun '(i, _) => i <? limit)
    (fun '(i, sum) => if in_int (sum + i) && in_int (i + 1) then Ret (i + 1, sum + i) else Undef) (1, 0).

Definition counter_limit (threadIdx : Z) : Z := threadIdx + 1 * SUM_ITERATIONS.
End PrioAmp.

(** simplethread/pthread.c *)
Definition simple_limit (threadIdx : Z) : Z := threadIdx + 1.

(** ** Facts *)

(** [fib0] and [fib1] are the [k]-th numbers, modulo 2^32. *)
Definition at_ (k : nat) (g : globals) : Prop := fib0 g = u32 (Fib k) /\ fib1 g = u32 (Fib (S k)).

Lemma u32_Fib_SS k : u32 (u32 (Fib k) + u32 (Fib (S k))) = u32 (Fib (S (S k))).
Proof. rewrite Fib_SS. unfold wrap. by rewrite <- Zplus_mod. Qed.

Lemma inner_loop_spec m : forall fuel seqCnt k g,
  (m <= fuel)%nat -> at_ k g -> fib g = u32 (Fib (S (S k))) ->
  0 <= jdx g -> Z.of_nat m = Z.max 0 (seqCnt - jdx g) -> seqCnt < 2 ^ 32 ->
  exists g', inner_loop fuel seqCnt g = Ret g' /\ at_ (k + m) g' /\ fib g' = u32 (Fib (S (S (k + m)))) /\
    idx g' = idx g /\ jdx g' = Z.max (jdx g) seqCnt.
Proof.
  unfold inner_loop. induction m as [|m IH]; intros fuel seqCnt k g Hfuel [H0 H1] Hf Hj Hm Hs.
  - exists g. rewrite Nat.add_0_r. split; [|split; [done|]; split; [done|]; split; [done|lia]].
    destruct fuel; cbn [while_loop]; by rewrite (proj2 (Z.ltb_ge _ _)) by lia.
  - destruct fuel as [|fuel]; [lia|]. cbn [while_loop]. rewrite (proj2 (Z.ltb_lt _ _)) by lia.
    cbn [mbind outcome_bind].
    assert (Hju : jdx (inner_body g) = jdx g + 1) by (cbn; apply wrap_small; unfold in_range; lia).
    destruct (IH fuel seqCnt (S k) (inner_body g)) as (g' & E & Ha & Hf' & Hi & Hj');
      [lia|split; cbn; congruence| |lia|lia|done|].
    { cbn. rewrite H1, Hf. apply u32_Fib_SS. }
    exists g'. rewrite E. replace (k + S m)%nat with (S k + m)%nat by lia.
    split; [done|]. split; [done|]. split; [done|]. split; [done|]. rewrite Hj', Hju. lia.
Qed.

Lemma iteration_spec reset fuel seqCnt k g :
  at_ k g -> 0 <= jdx g <= seqCnt -> seqCnt < 2 ^ 32 -> seqCnt - jdx g <= Z.of_nat fuel ->
  0 <= idx g < 2 ^ 32 - 1 ->
  let k' := (k + Z.to_nat (seqCnt - jdx g))%nat in
  exists g', iteration reset fuel seqCnt g = Ret g' /\ at_ k' g' /\ fib g' = u32 (Fib (S (S k'))) /\
    idx g' = idx g + 1 /\ jdx g' = default seqCnt reset.
Proof.
  intros [H0 H1] Hj Hs Hfuel Hi k'. unfold iteration.
  destruct (inner_loop_spec (Z.to_nat (seqCnt - jdx g)) fuel seqCnt k
    {| idx := idx g; jdx := jdx g; fib := u32 (fib0 g + fib1 g); fib0 := fib0 g; fib1 := fib1 g |})
    as (g' & E & [Ha0 Ha1] & Hf & Hi' & Hj'); cbn [jdx idx fib] in *; [lia|done| |lia|lia|done|].
  { rewrite H0, H1. apply u32_Fib_SS. }
  rewrite E. cbn [mbind outcome_bind]. eexists. split; [reflexivity|]. cbn.
  split; [done|]. split; [done|]. split.
  - rewrite Hi'. apply wrap_small. unfold in_range. lia.
  - destruct reset; [done|]. cbn. lia.
Qed.

(** The state after [i] iterations, where [k i] is how far the sequence is. *)
Lemma fib_test_spec reset fuel seqCnt iterCnt (k : Z -> Z) (j : Z -> Z) :
  1 <= seqCnt < 2 ^ 32 -> 1 <= iterCnt < 2 ^ 32 -> seqCnt <= Z.of_nat fuel -> iterCnt <= Z.of_nat fuel ->
  k 0 = 0 -> j 0 = 1 -> (forall i, 0 <= i -> 0 <= j i <= seqCnt) ->
  (forall i, 0 <= i -> 0 <= k i /\ k (i + 1) = k i + (seqCnt - j i) /\ j (i + 1) = default seqCnt reset) ->
  exists g, fib_test reset fuel seqCnt iterCnt initial = Ret g /\
    fib g = u32 (Fib (Z.to_nat (k iterCnt + 2))) /\ idx g = iterCnt /\ jdx g = j iterCnt.
Proof.
  intros Hs Hi Hf1 Hf2 Hk0 Hj0 Hj Hstep. unfold fib_test.
  destruct (while_loop_run
    (fun g => 0 <= idx g <= iterCnt /\ at_ (Z.to_nat (k (idx g))) g /\ jdx g = j (idx g) /\
       (1 <= idx g -> fib g = u32 (Fib (Z.to_nat (k (idx g) + 2)))))
    (fun g => Z.to_nat (iterCnt - idx g)) (fun g => idx g <? iterCnt) (iteration reset fuel seqCnt) fuel
    {| idx := 0; jdx := jdx initial; fib := fib initial; fib0 := fib0 initial; fib1 := fib1 initial |})
    as (g & E & (Hr & Ha & Hjd & Hfib) & Hend).
  - cbn [idx jdx]. rewrite Hk0, Hj0. split; [lia|]. split; [by split|]. split; [done|]. lia.
  - cbn [idx]. lia.
  - intros g (Hr & Ha & Hjd & _) Hc%Z.ltb_lt. pose proof (Hj (idx g) ltac:(lia)) as Hjb.
    destruct (Hstep (idx g) ltac:(lia)) as (Hk & Hk' & Hj').
    destruct (iteration_spec reset fuel seqCnt (Z.to_nat (k (idx g))) g) as (g' & E & Ha' & Hf' & Hi' & Hjd');
      [done|lia|lia|lia|lia|].
    assert (Hkn : (Z.to_nat (k (idx g)) + Z.to_nat (seqCnt - jdx g))%nat = Z.to_nat (k (idx g'))) by (rewrite Hi', Hk'; lia).
    rewrite Hkn in *. exists g'. split; [done|]. split; [|lia].
    split; [lia|]. split; [done|]. split; [rewrite Hjd', Hi'; congruence|]. intros _.
    rewrite Hf'. do 2 f_equal. rewrite Hi', Hk'. lia.
  - exists g. assert (idx g = iterCnt) as Hx by (apply Z.ltb_ge in Hend; lia). rewrite Hx in *.
    split; [done|]. split; [apply Hfib; lia|done].
Qed.

(** ** Theorems *)

(** Perfmon.c: with no argument and with every argument, on enough fuel: the
    program divides by zero exactly when the argument is a multiple of 47;
    otherwise the test ends, [fib] is the number after the one at
    [seqIterations] modulo 2^32, whatever the number of iterations, as only the
    first runs the inner loop; it is that number exactly for an argument, and has
    overflowed without one. *)
Theorem perfmon_main (fuel : nat) (arg : option Z) :
  match Perfmon.iterations arg with
  | None => Perfmon.main fuel arg = Undef /\ exists n, arg = Some n /\ u32 n mod 47 = 0
  | Some (s, i) =>
      Z.max s i <= Z.of_nat fuel ->
      exists g,
        Perfmon.main fuel arg = Ret (u32 (15 * s + 6 * i + 1), g) /\
        idx g = i /\ jdx g = s /\ fib g = u32 (Fib (Z.to_nat (s + 1))) /\
        (fib g = Fib (Z.to_nat (s + 1)) <-> arg <> None)
  end.
Proof.
  unfold Perfmon.main. destruct (Perfmon.iterations arg) as [[s i]|] eqn:Hit.
  - intros Hfuel. assert (Hb : 1 <= s < 2 ^ 32 /\ 1 <= i < 2 ^ 32 /\ s <= 47 /\ (s <= 46 <-> arg <> None)).
    { unfold Perfmon.iterations, Perfmon.FIB_LIMIT_FOR_32_BIT in Hit. destruct arg as [n|].
      - pose proof (wrap_range 32 n ltac:(lia)) as Hn. unfold in_range in Hn.
        destruct (Z.eqb_spec (u32 n mod 47) 0) as [|Hne]; [done|]. injection Hit as <- <-.
        pose proof (Z.mod_pos_bound (u32 n) 47 ltac:(lia)) as Hm.
        assert (u32 n mod 47 <= u32 n) by (apply Z.mod_le; lia).
        split; [lia|]. split; [|split; [lia|split; [done|lia]]]. split.
        + apply Z.div_le_lower_bound; lia.
        + apply Z.div_lt_upper_bound; [lia|]. nia.
      - injection Hit as <- <-. split; [lia|]. split; [lia|]. split; [lia|]. split; [lia|done]. }
    destruct Hb as (Hs & Hi & Hs47 & Hnone). cbn [lift mbind outcome_bind].
    destruct (fib_test_spec None fuel s i (fun n => if n =? 0 then 0 else s - 1) (fun n => if n =? 0 then 1 else s))
      as (g & E & Hf & Hidx & Hj); [lia|lia|lia|lia|done|done|intros n Hn; case_match; lia| |].
    { intros n Hn. rewrite (proj2 (Z.eqb_neq (n + 1) 0)) by lia. cbn. case_match; lia. }
    rewrite (proj2 (Z.eqb_neq i 0)) in Hf, Hj by lia.
    unfold Perfmon.FIB_TEST. rewrite E. exists g. split.
    + cbn. unfold Perfmon.INST_CNT_FIB_INNER, Perfmon.INST_CNT_FIB_OUTTER. do 2 f_equal.
      unfold wrap.
      rewrite <- (Zplus_mod_idemp_l (_ + _) 1), <- Zplus_mod. by rewrite Zplus_mod_idemp_l.
    + split; [done|]. split; [done|]. replace (s - 1 + 2) with (s + 1) in Hf by lia. split; [done|].
      rewrite <- Hnone. rewrite Hf. split; intros H.
      * assert (Fib (Z.to_nat (s + 1)) < 2 ^ 32) as Hlt by (rewrite <- H; apply wrap_range; lia).
        apply Z.nlt_ge. intros Hgt. replace s with 47 in Hlt by lia. vm_compute in Hlt. discriminate Hlt.
      * apply wrap_small. pose proof (Fib_mono (Z.to_nat (s + 1)) 47 ltac:(lia)).
        assert (Fib 47 = 2971215073) by reflexivity. unfold in_range. lia.
  - split; [done|]. unfold Perfmon.iterations, Perfmon.FIB_LIMIT_FOR_32_BIT in Hit.
    destruct arg as [n|]; [|done]. exists n. split; [done|].
    destruct (Z.eqb_spec (u32 n mod 47) 0); [done|discriminate Hit].
Qed.

(** rt_simplethread_prio_amp/pthread.c: the load of one thread that is alone ends
    with the number after the one at the product of its two arguments. *)
Theorem prio_amp_fib (fuel : nat) (seqCnt iterCnt : Z) :
  1 <= seqCnt < 2 ^ 32 -> 1 <= iterCnt < 2 ^ 32 -> Z.max seqCnt iterCnt <= Z.of_nat fuel ->
  exists g, PrioAmp.FIB_TEST fuel seqCnt iterCnt initial = Ret g /\
    idx g = iterCnt /\ fib g = u32 (Fib (Z.to_nat (seqCnt * iterCnt + 1))).
Proof.
  intros Hs Hi Hfuel.
  destruct (fib_test_spec (Some 0) fuel seqCnt iterCnt
    (fun n => if n =? 0 then 0 else seqCnt * n - 1) (fun n => if n =? 0 then 1 else 0)) as (g & E & Hf & Hidx & _);
    [lia|lia|lia|lia|done|done|intros n Hn; case_match; lia| |].
  - intros n Hn. rewrite (proj2 (Z.eqb_neq (n + 1) 0)) by lia. cbn.
    destruct (Z.eqb_spec n 0) as [->|]; nia.
  - rewrite (proj2 (Z.eqb_neq iterCnt 0)) in Hf by lia. exists g. split; [done|]. split; [done|].
    rewrite Hf. do 3 f_equal. lia.
Qed.

Lemma sum_below_spec fuel limit :
  1 <= limit <= 65000 -> limit <= Z.of_nat fuel ->
  exists sum, PrioAmp.sum_below fuel limit = Ret (limit, sum) /\ 2 * sum = limit * (limit - 1).
Proof.
  intros Hl Hf. unfold PrioAmp.sum_below.
  destruct (while_loop_run (fun p => 1 <= fst p <= limit /\ 2 * snd p = fst p * (fst p - 1))
    (fun p => Z.to_nat (limit - fst p)) (fun '(i, _) => i <? limit)
    (fun '(i, sum) => if in_int (sum + i) && in_int (i + 1) then Ret (i + 1, sum + i) else Undef) fuel (1, 0))
    as ([i sum] & E & [Hi Hsum] & Hend); cbn [fst snd] in *; [lia|lia| |].
  - intros [i sum] [Hi Hsum] Hc%Z.ltb_lt. cbn [fst snd] in *. exists (i + 1, sum + i).
    rewrite (proj2 (andb_true_iff _ _)); [|unfold in_int, INT_MIN, INT_MAX; split; apply andb_true_iff; split; nia].
    cbn [fst snd]. split; [done|]. split; [lia|lia].
  - apply Z.ltb_ge in Hend. assert (i = limit) as -> by lia. by exists sum.
Qed.

(** The sum of a thread goes up to [threadIdx + 999], where the message and the
    parenthesis around [threadIdx] suggest [(threadIdx + 1) * 1000]. *)
Theorem counter_sum (fuel : nat) (threadIdx : Z) :
  0 <= threadIdx <= 64000 -> 65000 <= Z.of_nat fuel ->
  exists sum, PrioAmp.sum_below fuel (PrioAmp.counter_limit threadIdx) = Ret (threadIdx + 1000, sum) /\
    2 * sum = (threadIdx + 1000) * (threadIdx + 999).
Proof.
  intros Ht Hf. destruct (sum_below_spec fuel (PrioAmp.counter_limit threadIdx)) as (sum & E & Hs);
    unfold PrioAmp.counter_limit, PrioAmp.SUM_ITERATIONS in *; [lia|lia|].
  exists sum. rewrite E. replace (threadIdx + 1 * 1000) with (threadIdx + 1000) in * by lia.
  split; [done|]. rewrite Hs. lia.
Qed.

(** The argument 100: 6 steps of the sequence, 16 iterations. *)
Lemma perfmon_main_witness :
  exists g, Perfmon.main 20 (Some 100) = Ret (187, g) /\ idx g = 16 /\ fib g = 13.
Proof.
  destruct (perfmon_main 20 (Some 100) ltac:(vm_compute; discriminate)) as (g & E & Hi & _ & Hf & _).
  exists g. split; [exact E|]. split; [exact Hi|]. rewrite Hf. reflexivity.
Defined.
