(* ===== verification/Feasibility.v ===== *)
(** * Rate-monotonic feasibility tests: Feasibility/feasibility_tests.c

    The completion-time test, the scheduling-point test and the RM least upper
    bound, with the C program's arithmetic: 32-bit unsigned arrays, doubles
    for the divisions and the conversions back to integers, which are
    undefined when the value does not fit.  [pow] of the C library is an
    argument of the least-upper-bound test. *)
From Stdlib Require Import QArith Qround.
From stdpp Require Import option list.
From S2P Require Import Prelude Double.
#[local] Open Scope Z_scope.

Definition TRUE : Z := 1.
Definition FALSE : Z := 0.

(** ** RM least upper bound *)

Definition rate_monotonic_least_upper_bound (pow : dbl -> dbl -> dbl)
    (numServices : nat) (period wcet deadline : list Z) : option Z :=
  let nS := d_of_Z (Z.of_nat numServices) in
  utility_sum ← for_loop numServices 0 (fun idx utility_sum =>
      w ← wcet !! idx;
      p ← period !! idx;
      q ← ddiv (d_of_Z w) (d_of_Z p);
      Some (dadd utility_sum q)) (d_of_Z 0);
  inv ← ddiv (d_of_Z 1) nS;
  let lub := dmul nS (dadd (pow (d_of_Z 2) inv) (Qopp (d_of_Z 1))) in
  Some (if dle utility_sum lub then TRUE else FALSE).

(** ** Completion-time test *)

(** [anext += ceil(((double)an)/((double)period[j]))*wcet[j]] *)
Definition ct_term (an p w anext : Z) : option Z :=
  q ← ddiv (d_of_Z an) (d_of_Z p);
  d_to_u32 (dadd (d_of_Z anext) (dmul (dceil q) (d_of_Z w))).

Definition ct_next (period wcet : list Z) (i : nat) (an : Z) : option Z :=
  anext ← wcet !! i;
  for_loop i 0 (fun j anext =>
    p ← period !! j; w ← wcet !! j; ct_term an p w anext) anext.

(** The [while(1)] loop: iterate until [anext == an]. *)
Fixpoint ct_while (fuel : nat) (period wcet : list Z) (i : nat) (an : Z) : outcome Z :=
  match fuel with
  | O => NoFuel
  | S fuel =>
      anext ← lift (ct_next period wcet i an);
      if anext =? an then Ret an else ct_while fuel period wcet i anext
  end.

Definition ct_start (wcet : list Z) (i : nat) : option Z :=
  for_loop (i + 1) 0 (fun j an => w ← wcet !! j; Some (u32 (an + w))) 0.

Definition completion_time_feasibility (fuel : nat) (numServices : nat)
    (period wcet deadline : list Z) : outcome Z :=
  for_loop numServices 0 (fun i set_feasible =>
    an ← lift (ct_start wcet i);
    an ← ct_while fuel period wcet i an;
    d ← lift (deadline !! i);
    Ret (if d <? an then FALSE else set_feasible)) TRUE.

(** ** Scheduling-point test *)

(** [temp += wcet[j] * ceil((double)l*(double)period[k]/(double)period[j])] *)
Definition sp_term (l pk p w temp : Z) : option Z :=
  q ← ddiv (dmul (d_of_Z l) (d_of_Z pk)) (d_of_Z p);
  d_to_int (dadd (d_of_Z temp) (dmul (d_of_Z w) (dceil q))).

Definition sp_temp (period wcet : list Z) (i : nat) (pk l : Z) : option Z :=
  for_loop (i + 1) 0 (fun j temp =>
    p ← period !! j; w ← wcet !! j; sp_term l pk p w temp) 0.

(** The loop over [l]; [status] is returned. *)
Fixpoint sp_points (fuel : nat) (period wcet : list Z) (i : nat) (pi pk l : Z) : outcome Z :=
  match fuel with
  | O => NoFuel
  | S fuel =>
      lim ← lift (ddiv (d_of_Z pi) (d_of_Z pk));
      if dle (d_of_Z l) (dfloor lim) then
        temp ← lift (sp_temp period wcet i pk l);
        if u32 temp <=? u32 (l * pk) then Ret 1
        else if in_int (l + 1) then sp_points fuel period wcet i pi pk (l + 1)
        else Undef
      else Ret 0
  end.

(** The loop over [k], left as soon as [status] is set. *)
Definition sp_status (fuel : nat) (period wcet : list Z) (i : nat) : outcome Z :=
  for_loop (i + 1) 0 (fun k status =>
    if status =? 0 then
      pi ← lift (period !! i); pk ← lift (period !! k);
      sp_points fuel period wcet i pi pk 1
    else Ret status) 0.

Definition scheduling_point_feasibility (fuel : nat) (numServices : nat)
    (period wcet deadline : list Z) : outcome Z :=
  for_loop numServices 0 (fun i rc =>
    status ← sp_status fuel period wcet i;
    Ret (if status =? 0 then FALSE else rc)) TRUE.

(** ** The service sets of the program *)

Definition ex0_period := [2; 10; 15].
Definition ex0_wcet := [1; 1; 2].
Definition ex1_period := [2; 5; 7].
Definition ex1_wcet := [1; 1; 2].
Definition ex2_period := [2; 5; 7; 13].
Definition ex2_wcet := [1; 1; 1; 2].
Definition ex3_period := [3; 5; 15].
Definition ex3_wcet := [1; 2; 3].
Definition ex4_period := [2; 4; 16].
Definition ex4_wcet := [1; 1; 4].

Example ex_ct :
  (completion_time_feasibility 100 3 ex0_period ex0_wcet ex0_period,
   completion_time_feasibility 100 3 ex1_period ex1_wcet ex1_period,
   completion_time_feasibility 100 4 ex2_period ex2_wcet ex2_period,
   completion_time_feasibility 100 3 ex3_period ex3_wcet ex3_period,
   completion_time_feasibility 100 3 ex4_period ex4_wcet ex4_period)
  = (Ret TRUE, Ret FALSE, Ret FALSE, Ret TRUE, Ret TRUE).
Proof. by vm_compute. Qed.

Example ex_sp :
  (scheduling_point_feasibility 100 3 ex0_period ex0_wcet ex0_period,
   scheduling_point_feasibility 100 3 ex1_period ex1_wcet ex1_period,
   scheduling_point_feasibility 100 4 ex2_period ex2_wcet ex2_period,
   scheduling_point_feasibility 100 3 ex3_period ex3_wcet ex3_period,
   scheduling_point_feasibility 100 3 ex4_period ex4_wcet ex4_period)
  = (Ret TRUE, Ret FALSE, Ret FALSE, Ret TRUE, Ret TRUE).
Proof. by vm_compute. Qed.

(** ** One term of the sums *)

Lemma ct_term_exact an p w a :
  0 <= an < 2 ^ 32 -> 0 < p < 2 ^ 32 -> 0 <= w < 2 ^ 32 -> 0 <= a < 2 ^ 32 ->
  ct_term an p w a =
    if a + cdiv an p * w <? 2 ^ 32 then Some (a + cdiv an p * w) else None.
Proof.
  intros Han Hp Hw Ha. unfold ct_term. rewrite ddiv_of_Z by lia. step_option.
  unfold dceil. rewrite ceil_div_exact by done. unfold dmul.
  pose proof (cdiv_nonneg an p ltac:(lia) ltac:(lia)).
  assert ((inject_Z (cdiv an p) * d_of_Z w == inject_Z (cdiv an p) * inject_Z w)%Q) as Hx
    by (by rewrite (d_of_Z_exact w) by lia).
  destruct (madd_trunc a _ w _ Ha ltac:(eassumption) Hw Hx) as [H1 H2].
  unfold d_to_u32. set (t := d_trunc _) in *. set (v := a + cdiv an p * w) in *.
  assert (0 <= v) by (unfold v; nia).
  destruct (Z.ltb_spec v (2 ^ 53)) as [Hv | Hv].
  - rewrite H1 by done. by rewrite (proj2 (Z.leb_le 0 v)) by lia.
  - specialize (H2 Hv). rewrite (proj2 (Z.ltb_ge t (2 ^ 32))), (proj2 (Z.ltb_ge v (2 ^ 32))) by lia.
    by rewrite andb_false_r.
Qed.

Lemma sp_term_exact l pk p w a :
  0 <= l -> 0 <= l * pk < 2 ^ 32 -> 0 <= l < 2 ^ 32 -> 0 <= pk < 2 ^ 32 ->
  0 < p < 2 ^ 32 -> 0 <= w < 2 ^ 32 -> 0 <= a < 2 ^ 31 ->
  sp_term l pk p w a =
    if a + cdiv (l * pk) p * w <? 2 ^ 31 then Some (a + cdiv (l * pk) p * w) else None.
Proof.
  intros Hl0 Hlp Hl Hpk Hp Hw Ha. unfold sp_term, ddiv, dmul.
  pose proof (d_of_Z_exact p ltac:(lia)) as Hdp.
  assert (Qeq_bool (d_of_Z p) 0 = false) as ->.
  { apply not_true_is_false. rewrite Qeq_bool_iff, Hdp.
    change 0%Q with (inject_Z 0). rewrite inject_Z_injective. lia. }
  step_option. unfold dceil.
  assert ((d_of_Z l * d_of_Z pk == inject_Z (l * pk))%Q) as Hm
    by (rewrite (d_of_Z_exact l), (d_of_Z_exact pk), inject_Z_mult by lia; reflexivity).
  rewrite (Qceiling_comp _ (round53 (inject_Z (l * pk) / inject_Z p)%Q)).
  2: { rewrite (round53_proper (round53 (d_of_Z l * d_of_Z pk) / d_of_Z p)%Q
         (inject_Z (l * pk) / inject_Z p)%Q); [reflexivity |].
       by rewrite Hdp, (round53_Z _ (l * pk)) by (done || lia). }
  rewrite ceil_div_exact by done.
  pose proof (cdiv_nonneg (l * pk) p ltac:(lia) ltac:(lia)).
  assert ((d_of_Z w * inject_Z (cdiv (l * pk) p) == inject_Z (cdiv (l * pk) p) * inject_Z w)%Q) as Hx
    by (rewrite (d_of_Z_exact w) by lia; ring).
  destruct (madd_trunc a _ w _ ltac:(lia) ltac:(eassumption) Hw Hx) as [H1 H2].
  unfold d_to_int, in_int, INT_MIN, INT_MAX. set (t := d_trunc _) in *.
  set (v := a + cdiv (l * pk) p * w) in *. assert (0 <= v) by (unfold v; nia).
  destruct (Z.ltb_spec v (2 ^ 53)) as [Hv | Hv].
  - rewrite H1 by done. rewrite (proj2 (Z.leb_le (- 2 ^ 31) v)) by lia. simpl andb.
    destruct (Z.ltb_spec v (2 ^ 31)), (Z.leb_spec v (2 ^ 31 - 1)); (done || lia).
  - specialize (H2 Hv). rewrite (proj2 (Z.leb_gt t (2 ^ 31 - 1))) by lia.
    by rewrite (proj2 (Z.ltb_ge v (2 ^ 31))), andb_false_r by lia.
Qed.

(** ** The specification

    [T j] and [C j] are the period and the worst-case execution time of
    service [j]; service [0] has the highest priority. *)

Section tests.
Context (n : nat) (period wcet : list Z).

Abbreviation T := (elt period).
Abbreviation C := (elt wcet).

Record service_set : Prop := {
  ss_period : (n <= length period)%nat;
  ss_wcet : (n <= length wcet)%nat;
  ss_T : forall j, (j < n)%nat -> 0 < T j < 2 ^ 32;
  ss_C : forall j, (j < n)%nat -> 0 <= C j < 2 ^ 32;
  ss_sum : zsum n C < 2 ^ 32 }.

(** The processor demand of services [0..i] on [[0, t)], with one job of [i]. *)
Definition demand (i : nat) (t : Z) : Z := C i + zsum i (fun j => cdiv t (T j) * C j).

(** The same with every job of [i] released before [t]. *)
Definition workload (i : nat) (t : Z) : Z := zsum (i + 1) (fun j => cdiv t (T j) * C j).

(** Service [i] meets the deadline [D]: its demand is met at some time [t] that
    is no earlier than the work released at the start. *)
Definition ct_ok (D : Z) (i : nat) : Prop :=
  exists t, zsum (i + 1) C <= t <= D /\ demand i t <= t.

(** Some scheduling point, a multiple of a period up to [T i], has enough time. *)
Definition sp_ok (i : nat) : Prop :=
  exists (k : nat) (l : Z), (k <= i)%nat /\ 1 <= l /\ l * T k <= T i /\
    workload i (l * T k) <= l * T k.

(** The [int] accumulator of the scheduling-point test does not overflow. *)
Definition sp_bounded : Prop :=
  forall i, (i < n)%nat -> T i < INT_MAX /\ workload i (T i) < 2 ^ 31.

Context (Hss : service_set).

Lemma period_lookup j : (j < n)%nat -> period !! j = Some (T j).
Proof using Hss. intros. apply elt_Some. destruct Hss; lia. Qed.

Lemma wcet_lookup j : (j < n)%nat -> wcet !! j = Some (C j).
Proof using Hss. intros. apply elt_Some. destruct Hss; lia. Qed.

Lemma term_nonneg t j : 0 <= t -> (j < n)%nat -> 0 <= cdiv t (T j) * C j.
Proof using Hss.
  intros Ht Hj. destruct (ss_T Hss j Hj), (ss_C Hss j Hj).
  apply Z.mul_nonneg_nonneg; [by apply cdiv_nonneg | done].
Qed.

Lemma term_mono s t j : s <= t -> (j < n)%nat -> cdiv s (T j) * C j <= cdiv t (T j) * C j.
Proof using Hss.
  intros Ht Hj. destruct (ss_T Hss j Hj), (ss_C Hss j Hj).
  apply Z.mul_le_mono_nonneg_r; [done | by apply cdiv_mono].
Qed.

Lemma demand_mono i s t : (i < n)%nat -> s <= t -> demand i s <= demand i t.
Proof using Hss.
  intros Hi Hst. apply Z.add_le_mono_l, zsum_le.
  intros j Hj. apply term_mono; [done | lia].
Qed.

Lemma workload_mono i s t : (i < n)%nat -> s <= t -> workload i s <= workload i t.
Proof using Hss. intros Hi Hst. apply zsum_le. intros j Hj. apply term_mono; [done | lia]. Qed.

(** On [(0, T i]] service [i] releases one job. *)
Lemma workload_demand i t : (i < n)%nat -> 0 < t <= T i -> workload i t = demand i t.
Proof using Hss.
  intros Hi Ht. unfold workload, demand. rewrite Nat.add_1_r. simpl.
  rewrite (cdiv_unique t (T i) 1) by lia. lia.
Qed.

(** The work released at time [0] is at most the demand. *)
Lemma start_demand i :
  (i < n)%nat -> zsum (i + 1) C <= demand i (zsum (i + 1) C).
Proof using Hss.
  intros Hi. unfold demand. rewrite Nat.add_1_r. simpl.
  assert (HC : forall j, (j < i + 1)%nat -> 0 <= C j).
  { intros j Hj. destruct (ss_C Hss j); lia. }
  assert (0 <= zsum i C) by (apply zsum_nonneg; intros; apply HC; lia).
  pose proof (HC i ltac:(lia)). enough (zsum i C <=
    zsum i (fun j => cdiv (zsum i C + C i) (T j) * C j)) by lia.
  destruct (decide (zsum i C + C i = 0)) as [Hz | Hne].
  { assert (zsum i C = 0) as Hz0 by lia. rewrite Hz0 at 1. apply zsum_nonneg.
    intros j Hj. rewrite Hz. apply term_nonneg; lia. }
  apply zsum_le. intros j Hj. pose proof (HC j ltac:(lia)).
  destruct (ss_T Hss j ltac:(lia)) as [HT _].
  pose proof (cdiv_spec (zsum i C + C i) (T j) HT).
  assert (1 <= cdiv (zsum i C + C i) (T j)) by nia. nia.
Qed.

(** ** The completion-time test *)

Lemma ct_start_spec i : (i < n)%nat -> ct_start wcet i = Some (zsum (i + 1) C).
Proof using Hss.
  intros Hi. unfold ct_start.
  destruct (for_loop_option (fun j a => a = zsum j C)
    (fun j an => w ← wcet !! j; Some (u32 (an + w))) (i + 1) 0 0) as (s & -> & ->); [done | |].
  - intros j s Hj ->. rewrite wcet_lookup by lia. eexists; split; [done |].
    rewrite Nat.add_1_r. simpl. apply wrap_small. split.
    + assert (0 <= zsum (S j) C); [| done].
      apply zsum_nonneg. intros k Hk. destruct (ss_C Hss k); lia.
    + eapply Z.le_lt_trans; [| apply (ss_sum Hss)].
      apply (zsum_mono (S j) n C); [lia |]. intros k Hk. destruct (ss_C Hss k); lia.
  - done.
Qed.

Lemma ct_next_spec i an :
  (i < n)%nat -> 0 <= an < 2 ^ 32 ->
  ct_next period wcet i an =
    if demand i an <? 2 ^ 32 then Some (demand i an) else None.
Proof using Hss.
  intros Hi Han. unfold ct_next. rewrite wcet_lookup by lia. step_option.
  rewrite (accumulate_loop (2 ^ 32) (fun j => cdiv an (T j) * C j)).
  - simpl. by rewrite Z.sub_0_r.
  - by apply (ss_C Hss).
  - intros j Hj. apply term_nonneg; lia.
  - intros j a Hj Ha. rewrite period_lookup, wcet_lookup by lia. step_option.
    apply ct_term_exact; [done | apply (ss_T Hss) | apply (ss_C Hss) | done]; lia.
Qed.

(** The loop returns the least post-fixed point at or above its start, is
    undefined only when there is none below [2^32], and [2^32 - an] rounds are
    enough. *)
Lemma ct_while_spec i fuel an :
  (i < n)%nat -> 0 <= an < 2 ^ 32 -> an <= demand i an -> 2 ^ 32 - an < Z.of_nat fuel ->
  match ct_while fuel period wcet i an with
  | Ret r => an <= r /\ demand i r = r /\ forall t, an <= t -> demand i t <= t -> r <= t
  | Undef => forall t, an <= t -> demand i t <= t -> 2 ^ 32 <= t
  | NoFuel => False
  end.
Proof using Hss.
  intros Hi. revert an. induction fuel as [| fuel IH]; intros an Han Hle Hfuel; [lia |].
  simpl ct_while. rewrite ct_next_spec by done.
  destruct (Z.ltb_spec (demand i an) (2 ^ 32)) as [Hlt | Hge]; simpl.
  - destruct (Z.eqb_spec (demand i an) an) as [Heq | Hne].
    { split; [lia |]. split; [done |]. by intros. }
    specialize (IH (demand i an) ltac:(lia) (demand_mono i _ _ Hi Hle) ltac:(lia)).
    assert (Hup : forall t, an <= t -> demand i t <= t -> demand i an <= t).
    { intros t Ht Hd. pose proof (demand_mono i an t Hi Ht). lia. }
    destruct (ct_while _ _ _ _ _) as [r | |]; [| | done].
    + destruct IH as (H1 & H2 & H3). split; [lia |]. split; [done |].
      intros t Ht Hd. apply H3; [by apply Hup | done].
    + intros t Ht Hd. apply IH; [by apply Hup | done].
  - intros t Ht Hd. pose proof (demand_mono i an t Hi Ht). lia.
Qed.

(** The per-service verdict of the completion test. *)
Lemma ct_service_spec fuel i D :
  (i < n)%nat -> 2 ^ 32 < Z.of_nat fuel -> D < 2 ^ 32 ->
  match ct_while fuel period wcet i (zsum (i + 1) C) with
  | Ret r => ct_ok D i <-> r <= D
  | Undef => ~ ct_ok D i
  | NoFuel => False
  end.
Proof using Hss.
  intros Hi Hfuel HD.
  assert (HC : forall j, (j < n)%nat -> 0 <= C j) by (intros j Hj; destruct (ss_C Hss j Hj); lia).
  assert (H0 : 0 <= zsum (i + 1) C) by (apply zsum_nonneg; intros; apply HC; lia).
  assert (Hlt : zsum (i + 1) C < 2 ^ 32).
  { eapply Z.le_lt_trans; [| apply (ss_sum Hss)].
    apply zsum_mono; [lia | intros; apply HC; lia]. }
  pose proof (ct_while_spec i fuel _ Hi (conj H0 Hlt) (start_demand i Hi) ltac:(lia)) as H.
  destruct (ct_while _ _ _ _ _) as [r | |]; [| | done].
  - destruct H as (H1 & H2 & H3). split.
    + intros (t & Ht & Hd). pose proof (H3 t ltac:(lia) Hd). lia.
    + intros Hr. exists r. lia.
  - intros (t & Ht & Hd). pose proof (H t ltac:(lia) Hd). lia.
Qed.

Lemma completion_time_spec fuel deadline :
  (n <= length deadline)%nat -> (forall i, (i < n)%nat -> elt deadline i < 2 ^ 32) ->
  2 ^ 32 < Z.of_nat fuel ->
  match completion_time_feasibility fuel n period wcet deadline with
  | Ret b => (b = TRUE \/ b = FALSE) /\
             (b = TRUE <-> forall i, (i < n)%nat -> ct_ok (elt deadline i) i)
  | Undef => exists i, (i < n)%nat /\ ~ ct_ok (elt deadline i) i
  | NoFuel => False
  end.
Proof using Hss.
  intros Hlen HD Hfuel.
  apply (for_loop_outcome (fun i b => (b = TRUE \/ b = FALSE) /\
    (b = TRUE <-> forall j, (j < i)%nat -> ct_ok (elt deadline j) j))).
  { split; [by left |]. split; [intros _ j Hj; lia | done]. }
  intros i b Hi [Hb1 Hb2]. rewrite ct_start_spec by lia. step_run.
  pose proof (ct_service_spec fuel i _ ltac:(lia) Hfuel (HD i ltac:(lia))) as H.
  destruct (ct_while _ _ _ _ _) as [r | |]; step_run; [| by exists i; split; [lia |] | done].
  rewrite (elt_Some deadline i) by lia. step_run.
  assert (Hstep : (forall j, (j < i + 1)%nat -> ct_ok (elt deadline j) j) <->
    (forall j, (j < i)%nat -> ct_ok (elt deadline j) j) /\ ct_ok (elt deadline i) i).
  { split; [intros Hall; split; [intros j Hj |]; apply Hall; lia |].
    intros [H1 H2] j Hj. destruct (decide (j = i)) as [-> |]; [done | apply H1; lia]. }
  rewrite Hstep, <- Hb2, H. destruct (Z.ltb_spec (elt deadline i) r).
  - split; [by right |]. split; [done | lia].
  - split; [done |]. split; [by split | by intros [? _]].
Qed.

(** ** The scheduling-point test *)

Lemma sp_temp_spec i k l :
  (i < n)%nat -> (k <= i)%nat -> sp_bounded -> 1 <= l -> l * T k <= T i ->
  sp_temp period wcet i (T k) l = Some (workload i (l * T k)).
Proof using Hss.
  intros Hi Hk Hb Hl Hlk. destruct (Hb i Hi) as [HTi Hw]. unfold INT_MAX in HTi.
  destruct (ss_T Hss k ltac:(lia)) as [HTk _].
  assert (l <= l * T k) by nia.
  unfold sp_temp. rewrite (accumulate_loop (2 ^ 31) (fun j => cdiv (l * T k) (T j) * C j)).
  - simpl. rewrite Z.sub_0_r. fold (workload i (l * T k)).
    pose proof (workload_mono i (l * T k) (T i) Hi Hlk).
    by rewrite (proj2 (Z.ltb_lt (workload i (l * T k)) _)) by lia.
  - lia.
  - intros j Hj. apply term_nonneg; nia.
  - intros j a Hj Ha. rewrite period_lookup, wcet_lookup by lia. step_option.
    pose proof (ss_T Hss j ltac:(lia)). pose proof (ss_C Hss j ltac:(lia)).
    pose proof (ss_T Hss k ltac:(lia)). apply sp_term_exact; lia.
Qed.

Lemma sp_points_spec i k fuel l :
  (i < n)%nat -> (k <= i)%nat -> sp_bounded -> 1 <= l -> l <= T i / T k + 1 ->
  T i / T k + 1 - l < Z.of_nat fuel ->
  exists b, sp_points fuel period wcet i (T i) (T k) l = Ret b /\ (b = 0 \/ b = 1) /\
    (b = 1 <-> exists l', l <= l' /\ l' * T k <= T i /\ workload i (l' * T k) <= l' * T k).
Proof using Hss.
  intros Hi Hk Hb. revert l. induction fuel as [| fuel IH]; intros l Hl Hup Hfuel; [lia |].
  destruct (Hb i Hi) as [HTi Hw]. unfold INT_MAX in HTi.
  pose proof (ss_T Hss i Hi) as HT1. pose proof (ss_T Hss k ltac:(lia)) as HT2.
  simpl sp_points. rewrite ddiv_of_Z by lia. step_run. unfold dle, dfloor.
  rewrite floor_div_exact by lia.
  assert (Hq : T i / T k <= T i) by (apply Z.div_le_upper_bound; nia).
  pose proof (Z.mul_div_le (T i) (T k) ltac:(lia)) as Hmul.
  assert (Hle : Qle_bool (d_of_Z l) (inject_Z (T i / T k)) = (l <=? T i / T k)).
  { apply eq_true_iff_eq. rewrite Qle_bool_iff, Z.leb_le, d_of_Z_exact by lia.
    by rewrite Zle_Qle. }
  rewrite Hle. destruct (Z.leb_spec l (T i / T k)) as [Hin | Hout].
  - assert (Hlk : l * T k <= T i) by nia.
    rewrite sp_temp_spec by done. step_run.
    assert (H0 : 0 <= workload i (l * T k)).
    { apply zsum_nonneg. intros j Hj. apply term_nonneg; nia. }
    pose proof (workload_mono i (l * T k) (T i) Hi Hlk).
    rewrite !wrap_small by (unfold in_range; nia).
    destruct (Z.leb_spec (workload i (l * T k)) (l * T k)) as [Hok | Hno].
    + exists 1. split; [done |]. split; [by right |]. split; [intros _ | done].
      exists l. split; [lia | done].
    + assert (in_int (l + 1) = true) as -> by (unfold in_int, INT_MIN, INT_MAX;
        apply andb_true_iff; split; apply Z.leb_le; lia).
      destruct (IH (l + 1) ltac:(lia) ltac:(lia) ltac:(lia)) as (b & Hrun & Hb01 & Hiff).
      exists b. split; [done |]. split; [done |]. rewrite Hiff. split.
      * intros (l' & H1 & H2). exists l'. split; [lia | done].
      * intros (l' & H1 & H2 & H3). exists l'. split; [| done].
        destruct (decide (l' = l)) as [-> |]; lia.
  - exists 0. split; [done |]. split; [by left |]. split; [done |].
    intros (l' & H1 & H2 & _). pose proof (Z.div_le_lower_bound (T i) (T k) l' ltac:(lia)).
    nia.
Qed.

Lemma sp_status_spec i fuel :
  (i < n)%nat -> sp_bounded -> 2 ^ 31 < Z.of_nat fuel ->
  exists b, sp_status fuel period wcet i = Ret b /\ (b = 0 \/ b = 1) /\ (b = 1 <-> sp_ok i).
Proof using Hss.
  intros Hi Hb Hfuel. unfold sp_status.
  pose (inv := fun (k : nat) (b : Z) => (b = 0 \/ b = 1) /\
    (b = 1 <-> exists (k' : nat) (l : Z), (k' < k)%nat /\ 1 <= l /\ l * T k' <= T i /\
                workload i (l * T k') <= l * T k')).
  edestruct (for_loop_run inv) as (b & Hrun & Hinv); [| | exists b; split; [exact Hrun |]].
  - split; [by left |]. split; [done |]. intros (k' & l & ? & _). lia.
  - intros k b Hk [Hb1 Hb2]. destruct (Z.eqb_spec b 0) as [-> | Hne].
    + rewrite !period_lookup by lia. step_run.
      destruct (Hb i Hi) as [HTi _]. unfold INT_MAX in HTi.
      pose proof (ss_T Hss i Hi) as HT1. pose proof (ss_T Hss k ltac:(lia)) as HT2.
      assert (T i / T k <= T i) by (apply Z.div_le_upper_bound; nia).
      assert (0 <= T i / T k) by (apply Z.div_pos; lia).
      destruct (sp_points_spec i k fuel 1 Hi ltac:(lia) Hb ltac:(lia) ltac:(lia) ltac:(lia))
        as (b & -> & H01 & Hiff).
      exists b. split; [done |]. split; [done |]. rewrite Hiff. split.
      * intros (l & Hl). exists k, l. split; [lia | done].
      * intros (k' & l & Hk' & Hl). destruct (decide (k' = k)) as [-> |]; [by exists l |].
        exfalso. assert (0 = 1); [| done]. apply Hb2. exists k', l. split; [lia | done].
    + exists b. split; [done |]. split; [done |]. destruct Hb1 as [-> | ->]; [done |].
      split; [| done]. intros _. destruct (proj1 Hb2 eq_refl) as (k' & l & Hk' & Hl).
      exists k', l. split; [lia | done].
  - destruct Hinv as [H1 H2]. split; [done |]. rewrite H2. unfold sp_ok.
    split; intros (k & l & Hk & Hl); exists k, l; (split; [lia | done]).
Qed.

Lemma scheduling_point_spec fuel deadline :
  sp_bounded -> 2 ^ 31 < Z.of_nat fuel ->
  exists b, scheduling_point_feasibility fuel n period wcet deadline = Ret b /\
    (b = TRUE \/ b = FALSE) /\ (b = TRUE <-> forall i, (i < n)%nat -> sp_ok i).
Proof using Hss.
  intros Hb Hfuel.
  apply (for_loop_run (fun i b => (b = TRUE \/ b = FALSE) /\
    (b = TRUE <-> forall j, (j < i)%nat -> sp_ok j))).
  { split; [by left |]. split; [intros _ j Hj; lia | done]. }
  intros i rc Hi [Hrc1 Hrc2].
  destruct (sp_status_spec i fuel ltac:(lia) Hb Hfuel) as (b & -> & H01 & Hiff). step_run.
  eexists; split; [done |].
  assert (Hstep : (forall j, (j < i + 1)%nat -> sp_ok j) <->
    (forall j, (j < i)%nat -> sp_ok j) /\ sp_ok i).
  { split; [intros Hall; split; [intros j Hj |]; apply Hall; lia |].
    intros [H1 H2] j Hj. destruct (decide (j = i)) as [-> |]; [done | apply H1; lia]. }
  rewrite Hstep, <- Hrc2, <- Hiff. destruct H01 as [-> | ->]; simpl.
  - split; [by right |]. split; [done | by intros [_ ?]].
  - split; [done |]. split; [by split | by intros [? _]].
Qed.

(** ** The two tests decide the same service sets *)

Lemma next_point i t :
  (i < n)%nat -> 0 < t <= T i ->
  exists (k : nat) (l : Z), (k <= i)%nat /\ 1 <= l /\ t <= l * T k <= T i /\
    workload i (l * T k) = workload i t.
Proof using Hss.
  intros Hi Ht. destruct (argmin (fun k => T k * cdiv t (T k)) i) as (k & Hk & Hmin).
  pose proof (ss_T Hss k ltac:(lia)) as HT.
  pose proof (cdiv_spec t (T k) ltac:(lia)) as Hc.
  exists k, (cdiv t (T k)). pose proof (Hmin i ltac:(lia)) as Hmi.
  simpl in Hmi. rewrite (cdiv_unique t (T i) 1) in Hmi by lia.
  rewrite (Z.mul_comm (cdiv t (T k)) (T k)).
  split; [done |]. split; [nia |]. split; [lia |].
  apply zsum_ext. intros j Hj. f_equal.
  pose proof (ss_T Hss j ltac:(lia)) as HTj.
  pose proof (cdiv_spec t (T j) ltac:(lia)) as Hcj.
  apply cdiv_unique; [lia |]. pose proof (Hmin j ltac:(lia)) as Hmj. simpl in Hmj. lia.
Qed.

Lemma ct_ok_iff_sp_ok i : (i < n)%nat -> ct_ok (T i) i <-> sp_ok i.
Proof using Hss.
  intros Hi. pose proof (ss_T Hss i Hi) as HTi.
  assert (HC : forall j, (j < n)%nat -> 0 <= C j) by (intros j Hj; destruct (ss_C Hss j Hj); lia).
  assert (Hpos : 0 <= zsum (i + 1) C) by (apply zsum_nonneg; intros; apply HC; lia).
  split.
  - intros (t & Ht & Hd). destruct (decide (t = 0)) as [Ht0 | Ht0].
    + (* nothing to do at all: any scheduling point works *)
      assert (Hz : forall j, (j < i + 1)%nat -> C j = 0).
      { intros j Hj. pose proof (zsum_term (i + 1) C j Hj ltac:(intros; apply HC; lia)).
        pose proof (HC j ltac:(lia)). lia. }
      exists i, 1. split; [lia |]. split; [lia |]. split; [lia |].
      enough (workload i (1 * T i) <= zsum (i + 1) C) by lia.
      apply zsum_le. intros j Hj. rewrite (Hz j Hj). lia.
    + destruct (next_point i t Hi ltac:(lia)) as (k & l & Hk & Hl & Hlk & Heq).
      exists k, l. split; [done |]. split; [done |]. split; [lia |].
      rewrite Heq, workload_demand by (done || lia). lia.
  - intros (k & l & Hk & Hl & Hlk & Hw). pose proof (ss_T Hss k ltac:(lia)) as HTk.
    assert (0 < l * T k) by nia. exists (l * T k). split; [| by rewrite <- workload_demand by lia].
    split; [| done]. etrans; [| exact Hw]. apply zsum_le. intros j Hj.
    pose proof (HC j ltac:(lia)). pose proof (ss_T Hss j ltac:(lia)).
    pose proof (cdiv_spec (l * T k) (T j) ltac:(lia)).
    assert (1 <= cdiv (l * T k) (T j)) by nia. nia.
Qed.
End tests.
