(* ===== verification/Scheduler.v ===== *)
(** * The abstract specification of the feasibility tests

    A preemptive fixed-priority scheduler on one core, in unit ticks, started
    at the critical instant (every service released at time 0, service [j]
    again at each multiple of its period).  The completion-time test of
    Feasibility/feasibility_tests.c is exact for it: it accepts a set of
    services exactly when no first job misses its deadline here. *)
From stdpp Require Import option list.
From S2P Require Import Prelude Double Feasibility.
#[local] Open Scope Z_scope.

(** ** The scheduler *)

Section scheduler.
Context (n : nat) (period wcet : list Z).

Abbreviation T := (elt period).
Abbreviation C := (elt wcet).

(** Work released at time [t]. *)
Definition release (t : Z) (pend : list Z) : list Z :=
  imap (fun j p => p + if t mod T j =? 0 then C j else 0) pend.

(** One tick of the highest-priority service that has work. *)
Fixpoint run_highest (pend : list Z) : list Z :=
  match pend with
  | [] => []
  | p :: pend => if 0 <? p then (p - 1) :: pend else p :: run_highest pend
  end.

(** The pending work of every service at time [t]. *)
Fixpoint pending (t : nat) : list Z :=
  match t with
  | O => replicate n 0
  | S t => run_highest (release (Z.of_nat t) (pending t))
  end.
End scheduler.

(** ** One tick *)

Lemma elt_replicate m j : elt (replicate m 0) j = 0.
Proof.
  destruct (decide (j < m)%nat).
  - unfold elt. by rewrite lookup_replicate_2.
  - apply elt_out. rewrite length_replicate. lia.
Qed.

Lemma zsum_zero m f : (forall j, f j = 0) -> zsum m f = 0.
Proof. intros H. induction m as [| m IH]; simpl; [done |]. by rewrite IH, H. Qed.

Lemma elt_cons p l j : elt (p :: l) (S j) = elt l j.
Proof. done. Qed.

Lemma zsum_cons m p l : zsum (S m) (elt (p :: l)) = p + zsum m (elt l).
Proof.
  induction m as [| m IH]; [by rewrite Z.add_comm |].
  change (zsum (S (S m)) (elt (p :: l))) with (zsum (S m) (elt (p :: l)) + elt l m).
  rewrite IH. simpl. lia.
Qed.

Lemma run_highest_length l : length (run_highest l) = length l.
Proof. induction l; simpl; [done |]. case_match; simpl; auto. Qed.

(** The backlog of the first [m] services shrinks by one when it is positive,
    whatever the services after them hold. *)
Lemma run_highest_sum l m :
  (forall j, 0 <= elt l j) ->
  zsum m (elt (run_highest l)) =
    if 0 <? zsum m (elt l) then zsum m (elt l) - 1 else zsum m (elt l).
Proof.
  revert m. induction l as [| p l IH]; intros m Hl; simpl run_highest.
  - rewrite (zsum_zero m (elt [])); [done |]. intros j. apply elt_out. simpl. lia.
  - destruct m as [| m]; [done |]. rewrite zsum_cons. pose proof (Hl 0%nat) as Hp.
    assert (forall j, 0 <= elt l j) as Hl' by (intros j; apply (Hl (S j))).
    pose proof (zsum_nonneg m (elt l) ltac:(auto)). unfold elt in Hp; simpl in Hp.
    destruct (Z.ltb_spec 0 p); rewrite zsum_cons.
    + destruct (Z.ltb_spec 0 (p + zsum m (elt l))); lia.
    + rewrite IH by done.
      destruct (Z.ltb_spec 0 (zsum m (elt l))), (Z.ltb_spec 0 (p + zsum m (elt l))); lia.
Qed.

Lemma run_highest_elt l j :
  (forall k, 0 <= elt l k) ->
  elt (run_highest l) j = elt l j \/
  (0 < elt l j /\ elt (run_highest l) j = elt l j - 1 /\
   forall k, (k < j)%nat -> elt l k = 0).
Proof.
  revert j. induction l as [| p l IH]; intros j Hl; simpl; [by left |].
  pose proof (Hl 0%nat) as Hp. unfold elt in Hp; simpl in Hp.
  destruct (Z.ltb_spec 0 p) as [Hlt | Hge].
  - destruct j as [| j]; [| by left]. right. split; [done |]. split; [done | lia].
  - destruct j as [| j]; [by left |]. rewrite !elt_cons.
    destruct (IH j ltac:(intros k; apply (Hl (S k)))) as [H | (H1 & H2 & H3)]; [by left | right].
    split; [done |]. split; [done |]. intros [| k] Hk; [unfold elt; simpl; lia |].
    rewrite elt_cons. apply H3. lia.
Qed.

Section exactness.
Context (n : nat) (period wcet : list Z) (Hss : service_set n period wcet).

Abbreviation T := (elt period).
Abbreviation C := (elt wcet).
Abbreviation pend := (fun t => elt (pending n period wcet t)).

Lemma pending_length t : length (pending n period wcet t) = n.
Proof.
  induction t as [| t IH]; simpl; [apply length_replicate |].
  unfold release. by rewrite run_highest_length, length_imap.
Qed.

Lemma release_elt t l j :
  (j < length l)%nat ->
  elt (release period wcet t l) j = elt l j + if t mod T j =? 0 then C j else 0.
Proof.
  intros Hj. unfold elt at 1, release. by rewrite list_lookup_imap, (elt_Some l j).
Qed.

Lemma release_nonneg t l :
  length l = n -> (forall j, 0 <= elt l j) -> forall j, 0 <= elt (release period wcet t l) j.
Proof using Hss.
  intros Hlen Hl j. destruct (decide (j < n)%nat) as [Hj | Hj].
  - rewrite release_elt by lia. pose proof (Hl j). pose proof (ss_C _ _ _ Hss j Hj).
    case_match; lia.
  - rewrite elt_out; [done |]. unfold release. rewrite length_imap. lia.
Qed.

Lemma pending_nonneg t j : 0 <= elt (pending n period wcet t) j.
Proof using Hss.
  revert j. induction t as [| t IH]; intros j; simpl.
  - by rewrite elt_replicate.
  - pose proof (release_nonneg (Z.of_nat t) _ (pending_length t) IH) as Hr.
    destruct (run_highest_elt _ j Hr) as [-> | (H & -> & _)]; [apply Hr | lia].
Qed.

(** Releases before [t + 1]: the ceiling steps at the multiples of the period. *)
Lemma cdiv_succ t p :
  0 <= t -> 0 < p -> cdiv (t + 1) p = cdiv t p + if t mod p =? 0 then 1 else 0.
Proof.
  intros Ht Hp. pose proof (cdiv_spec t p Hp) as Hc.
  pose proof (Z.div_mod t p ltac:(lia)) as Hd. pose proof (Z.mod_pos_bound t p ltac:(lia)).
  assert (Hcase : cdiv t p = t / p + if t mod p =? 0 then 0 else 1).
  { apply cdiv_unique; [done |]. destruct (Z.eqb_spec (t mod p) 0); nia. }
  apply cdiv_unique; [done |]. rewrite Hcase.
  destruct (Z.eqb_spec (t mod p) 0); nia.
Qed.

Lemma workload_succ i t :
  (i < n)%nat -> 0 <= t ->
  workload period wcet i (t + 1) =
    workload period wcet i t +
    zsum (i + 1) (fun j => if t mod T j =? 0 then C j else 0).
Proof using Hss.
  intros Hi Ht. unfold workload.
  assert (H : forall m, (m <= n)%nat ->
    zsum m (fun j => cdiv (t + 1) (T j) * C j) =
    zsum m (fun j => cdiv t (T j) * C j) +
    zsum m (fun j => if t mod T j =? 0 then C j else 0)).
  { induction m as [| m IH]; intros Hm; simpl; [done |]. rewrite IH by lia.
    rewrite cdiv_succ; [| done | apply (ss_T _ _ _ Hss); lia].
    destruct (t mod T m =? 0); lia. }
  apply H. lia.
Qed.

(** The backlog of services [0..i]. *)
Definition backlog (i t : nat) : Z := zsum (i + 1) (elt (pending n period wcet t)).

Lemma backlog_nonneg i t : 0 <= backlog i t.
Proof using Hss. apply zsum_nonneg. intros. apply pending_nonneg. Qed.

Lemma backlog_succ i t :
  (i < n)%nat ->
  backlog i (S t) =
    let b := backlog i t + (workload period wcet i (Z.of_nat t + 1) -
                            workload period wcet i (Z.of_nat t)) in
    if 0 <? b then b - 1 else b.
Proof using Hss.
  intros Hi. unfold backlog. simpl pending.
  rewrite run_highest_sum by (apply release_nonneg;
    [apply pending_length | apply pending_nonneg]).
  rewrite workload_succ by lia. rewrite Z.add_simpl_l.
  assert (H : forall m, (m <= n)%nat ->
    zsum m (elt (release period wcet (Z.of_nat t) (pending n period wcet t))) =
    zsum m (elt (pending n period wcet t)) +
    zsum m (fun j => if Z.of_nat t mod T j =? 0 then C j else 0)).
  { induction m as [| m IH]; intros Hm; [done |]. simpl zsum. rewrite IH by lia.
    rewrite release_elt by (rewrite pending_length; lia). lia. }
  by rewrite H by lia.
Qed.

Lemma workload_0 i : (i < n)%nat -> workload period wcet i 0 = 0.
Proof using Hss.
  intros Hi. unfold workload. assert (H : forall m, (m <= n)%nat ->
    zsum m (fun j => cdiv 0 (T j) * C j) = 0); [| apply H; lia].
  induction m as [| m IH]; intros Hm; simpl; [done |]. rewrite IH by lia.
  destruct (ss_T _ _ _ Hss m ltac:(lia)). rewrite (cdiv_unique 0 (T m) 0) by lia. done.
Qed.

(** While the backlog of level [i] is never empty, the processor serves it. *)
Lemma busy_backlog i t :
  (i < n)%nat -> (forall u, (1 <= u < t)%nat -> 0 < backlog i u) ->
  (1 <= t)%nat -> 0 < workload period wcet i 1 ->
  backlog i t = workload period wcet i (Z.of_nat t) - Z.of_nat t.
Proof using Hss.
  intros Hi Hbusy Ht H1. induction t as [| t IH]; [lia |].
  rewrite backlog_succ by done. replace (Z.of_nat (S t)) with (Z.of_nat t + 1) by lia.
  destruct (decide (t = 0)%nat) as [-> | Hne].
  - change (Z.of_nat 0) with 0. rewrite workload_0 by done. cbv zeta.
    assert (backlog i 0 = 0) as -> by (apply zsum_zero, elt_replicate).
    change (0 + 1) with 1.
    zcase; lia.
  - pose proof (Hbusy t ltac:(lia)) as Hb.
    rewrite IH in Hb |- * by (lia || (intros; apply Hbusy; lia)). cbv zeta.
    pose proof (workload_mono n period wcet Hss i (Z.of_nat t) (Z.of_nat t + 1) Hi ltac:(lia)).
    zcase; lia.
Qed.

Lemma pend_le_backlog i t j : (j <= i)%nat -> elt (pending n period wcet t) j <= backlog i t.
Proof using Hss. intros Hj. apply zsum_term; [lia |]. intros. apply pending_nonneg. Qed.

(** Pending work of service [i] after its release at 0 and before [T i]. *)
Lemma pend_step i t :
  (i < n)%nat -> (1 <= t)%nat -> Z.of_nat t < T i ->
  elt (pending n period wcet (S t)) i <= elt (pending n period wcet t) i.
Proof using Hss.
  intros Hi Ht HT. simpl.
  pose proof (release_nonneg (Z.of_nat t) _ (pending_length t) (pending_nonneg t)) as Hr.
  assert (Hrel : elt (release period wcet (Z.of_nat t) (pending n period wcet t)) i =
    elt (pending n period wcet t) i).
  { rewrite release_elt by (rewrite pending_length; lia).
    rewrite Z.mod_small by lia. zcase; lia. }
  destruct (run_highest_elt _ i Hr) as [-> | (_ & -> & _)]; lia.
Qed.

Lemma pend_mono i u v :
  (i < n)%nat -> (1 <= u <= v)%nat -> Z.of_nat v <= T i ->
  elt (pending n period wcet v) i <= elt (pending n period wcet u) i.
Proof using Hss.
  intros Hi [Hu Huv] HT. induction Huv as [| v Huv IH]; [done |].
  etrans; [apply pend_step; lia | apply IH; lia].
Qed.

(** Either a function stays positive on [[1, t]] or it has a first zero there. *)
Lemma first_zero (f : nat -> Z) t :
  (forall u, 0 <= f u) ->
  (forall u, (1 <= u <= t)%nat -> 0 < f u) \/
  exists u, (1 <= u <= t)%nat /\ f u = 0 /\ forall v, (1 <= v < u)%nat -> 0 < f v.
Proof.
  intros Hf. induction t as [| t [IH | (u & Hu & H)]]; [left; lia | | right].
  - destruct (decide (f (S t) = 0)) as [Hz | Hz].
    + right. exists (S t). split; [lia |]. split; [done |]. intros v Hv. apply IH. lia.
    + left. intros u Hu. destruct (decide (u = S t)) as [-> |]; [| apply IH; lia].
      pose proof (Hf (S t)). lia.
  - exists u. split; [lia | done].
Qed.

Lemma workload_1 i : (i < n)%nat -> workload period wcet i 1 = zsum (i + 1) C.
Proof using Hss.
  intros Hi. apply zsum_ext. intros j Hj. destruct (ss_T _ _ _ Hss j ltac:(lia)).
  rewrite (cdiv_unique 1 (T j) 1) by lia. lia.
Qed.

Lemma ct_ok_workload i D :
  (i < n)%nat -> (1 <= D)%nat -> Z.of_nat D <= T i -> ct_ok period wcet (Z.of_nat D) i ->
  exists t, (1 <= t <= D)%nat /\ workload period wcet i (Z.of_nat t) <= Z.of_nat t.
Proof using Hss.
  intros Hi HD HT (t & Ht & Hd).
  assert (HC : 0 <= zsum (i + 1) C).
  { apply zsum_nonneg. intros j Hj. destruct (ss_C _ _ _ Hss j); lia. }
  destruct (decide (t = 0)) as [-> | Hne].
  - exists 1%nat. split; [lia |]. change (Z.of_nat 1) with 1. rewrite workload_1 by done. lia.
  - exists (Z.to_nat t). split; [lia |]. rewrite Z2Nat.id by lia.
    rewrite (workload_demand n) by (done || lia). done.
Qed.

Lemma first_job_sound i D :
  (i < n)%nat -> (1 <= D)%nat -> Z.of_nat D <= T i -> ct_ok period wcet (Z.of_nat D) i ->
  elt (pending n period wcet D) i = 0.
Proof using Hss.
  intros Hi HD HT Hok. destruct (ct_ok_workload i D Hi HD HT Hok) as (t & Ht & Hw).
  assert (exists u, (1 <= u <= t)%nat /\ backlog i u = 0) as (u & Hu & Hb).
  { destruct (first_zero (backlog i) t (backlog_nonneg i)) as [Hbusy | (u & Hu & Hz & _)];
      [| by exists u].
    destruct (decide (workload period wcet i 1 <= 0)) as [H1 | H1].
    - pose proof (Hbusy 1%nat ltac:(lia)) as Hb1. rewrite backlog_succ in Hb1 by done.
      change (Z.of_nat 0 + 1) with 1 in Hb1. change (Z.of_nat 0) with 0 in Hb1.
      rewrite workload_0 in Hb1 by done. cbv zeta in Hb1.
      assert (backlog i 0 = 0) as Hb0 by (apply zsum_zero, elt_replicate).
      rewrite Hb0 in Hb1. destruct (0 <? 0 + (workload period wcet i 1 - 0)); lia.
    - pose proof (busy_backlog i t Hi ltac:(intros; apply Hbusy; lia) ltac:(lia) ltac:(lia)).
      pose proof (Hbusy t ltac:(lia)). lia. }
  pose proof (pend_le_backlog i u i ltac:(lia)). pose proof (pending_nonneg D i).
  pose proof (pend_mono i u D Hi ltac:(lia) HT). lia.
Qed.

(** The tick that finishes the first job of service [i] leaves no backlog of
    level [i]. *)
Lemma finish_empties i t :
  (i < n)%nat -> 0 < elt (release period wcet (Z.of_nat t) (pending n period wcet t)) i ->
  elt (pending n period wcet (S t)) i = 0 -> backlog i (S t) = 0.
Proof using Hss.
  intros Hi Hpos Hz. simpl in Hz.
  pose proof (release_nonneg (Z.of_nat t) _ (pending_length t) (pending_nonneg t)) as Hr.
  set (r := release _ _ _ _) in *.
  destruct (run_highest_elt r i Hr) as [Heq | (_ & Heq & Hhi)]; [lia |].
  apply Z.le_antisymm; [| apply backlog_nonneg].
  replace 0 with (zsum (i + 1) (fun _ => 0)) by (by apply zsum_zero).
  apply zsum_le. intros j Hj. simpl. fold r.
  destruct (decide (j = i)) as [-> |]; [lia |]. pose proof (Hhi j ltac:(lia)) as Hrj.
  destruct (run_highest_elt r j Hr) as [-> | (Hp & _)]; lia.
Qed.

Lemma first_job_complete i D :
  (i < n)%nat -> 0 < C i -> (1 <= D)%nat -> Z.of_nat D <= T i ->
  elt (pending n period wcet D) i = 0 -> ct_ok period wcet (Z.of_nat D) i.
Proof using Hss.
  intros Hi HCi HD HT Hz.
  destruct (first_zero (fun t => elt (pending n period wcet t) i) D
    (fun t => pending_nonneg t i)) as [Hbusy | (t & Ht & Hzt & Hfirst)].
  { pose proof (Hbusy D ltac:(lia)). lia. }
  destruct t as [| t]; [lia |].
  assert (Hpos : 0 < elt (release period wcet (Z.of_nat t) (pending n period wcet t)) i).
  { rewrite release_elt by (rewrite pending_length; lia).
    pose proof (pending_nonneg t i). destruct t as [| t].
    - rewrite Z.mod_0_l by (destruct (ss_T _ _ _ Hss i Hi); lia). simpl Z.eqb. cbv iota. lia.
    - pose proof (Hfirst (S t) ltac:(lia)). zcase; lia. }
  pose proof (finish_empties i t Hi Hpos Hzt) as Hb.
  assert (Hw1 : zsum (i + 1) C <= workload period wcet i (Z.of_nat (S t))).
  { rewrite <- workload_1 by done. apply (workload_mono n); (done || lia). }
  assert (HCi' : C i <= zsum (i + 1) C).
  { apply zsum_term; [lia |]. intros k Hk. destruct (ss_C _ _ _ Hss k); lia. }
  rewrite busy_backlog in Hb; [| done | | lia | rewrite workload_1 by done; lia].
  - exists (Z.of_nat (S t)). rewrite <- (workload_demand n) by (done || lia). lia.
  - intros u Hu. pose proof (pend_le_backlog i u i ltac:(lia)).
    pose proof (Hfirst u ltac:(lia)). lia.
Qed.
End exactness.

(** ** Properties of the tests *)

(** C18: whatever the service set (positive periods, 32-bit values, a total
    execution time below [2^32]), [2^32 + 1] rounds bound every loop of the
    completion-time test; it returns TRUE exactly when every service's first
    job meets its deadline under the demand equation, returns FALSE otherwise,
    and can only be undefined (a double outside [unsigned int]) when some
    service misses. *)
Theorem completion_time_correct n period wcet deadline fuel :
  service_set n period wcet -> (n <= length deadline)%nat ->
  (forall i, (i < n)%nat -> elt deadline i < 2 ^ 32) -> 2 ^ 32 < Z.of_nat fuel ->
  match completion_time_feasibility fuel n period wcet deadline with
  | Ret b => (b = TRUE \/ b = FALSE) /\
             (b = TRUE <-> forall i, (i < n)%nat -> ct_ok period wcet (elt deadline i) i)
  | Undef => exists i, (i < n)%nat /\ ~ ct_ok period wcet (elt deadline i) i
  | NoFuel => False
  end.
Proof. intros. by apply completion_time_spec. Qed.

(** C1: the completion-time test is exact for preemptive fixed-priority
    scheduling: with deadlines between one tick and the period, it returns
    TRUE if and only if, in the schedule that starts with all services
    released together, every service has finished its first job by its
    deadline. *)
Theorem completion_time_exact_for_schedule n period wcet deadline fuel :
  service_set n period wcet -> (n <= length deadline)%nat ->
  (forall i, (i < n)%nat -> 0 < elt wcet i /\ 1 <= elt deadline i <= elt period i) ->
  2 ^ 32 < Z.of_nat fuel ->
  completion_time_feasibility fuel n period wcet deadline = Ret TRUE <->
  forall i, (i < n)%nat ->
    elt (pending n period wcet (Z.to_nat (elt deadline i))) i = 0.
Proof.
  intros Hss Hlen HD Hfuel.
  assert (Hlt : forall i, (i < n)%nat -> elt deadline i < 2 ^ 32).
  { intros i Hi. destruct (HD i Hi), (ss_T _ _ _ Hss i Hi). lia. }
  pose proof (completion_time_spec n period wcet Hss fuel deadline Hlen Hlt Hfuel) as H.
  assert (Hiff : (forall i, (i < n)%nat -> ct_ok period wcet (elt deadline i) i) <->
    forall i, (i < n)%nat -> elt (pending n period wcet (Z.to_nat (elt deadline i))) i = 0).
  { split; intros Hall i Hi; specialize (Hall i Hi); destruct (HD i Hi) as [HC [H1 HT]].
    - apply (first_job_sound n period wcet Hss); [done | lia | lia |].
      by rewrite Z2Nat.id by lia.
    - rewrite <- (Z2Nat.id (elt deadline i)) by lia.
      by apply (first_job_complete n period wcet Hss); [| | lia | lia |]. }
  rewrite <- Hiff. destruct (completion_time_feasibility _ _ _ _ _) as [b | |]; [| | done].
  - destruct H as [_ <-]. split; [by intros [= ->] | by intros ->].
  - destruct H as (i & Hi & Hno). split; [done |]. intros Hall. by destruct Hno; apply Hall.
Qed.

(** C2: the scheduling-point test agrees with the completion-time test when
    deadlines equal periods: on every service set whose [int] accumulator does
    not overflow, it terminates, returns TRUE or FALSE, and returns TRUE
    exactly when the completion-time test does. *)
Theorem feasibility_tests_agree n period wcet fuel :
  service_set n period wcet -> sp_bounded n period wcet -> (n <= length period)%nat ->
  2 ^ 32 < Z.of_nat fuel ->
  exists b, scheduling_point_feasibility fuel n period wcet period = Ret b /\
    (b = TRUE \/ b = FALSE) /\
    (b = TRUE <-> completion_time_feasibility fuel n period wcet period = Ret TRUE).
Proof.
  intros Hss Hb Hlen Hfuel.
  destruct (scheduling_point_spec n period wcet Hss fuel period Hb ltac:(lia))
    as (b & Hrun & Hb01 & Hiff).
  exists b. split; [done |]. split; [done |]. rewrite Hiff.
  pose proof (completion_time_spec n period wcet Hss fuel period Hlen
    ltac:(intros i Hi; apply (ss_T _ _ _ Hss i Hi)) Hfuel) as H.
  assert (Hall : (forall i, (i < n)%nat -> sp_ok period wcet i) <->
    forall i, (i < n)%nat -> ct_ok period wcet (elt period i) i).
  { split; intros Ha i Hi; apply (ct_ok_iff_sp_ok n period wcet Hss i Hi), Ha, Hi. }
  rewrite Hall. destruct (completion_time_feasibility _ _ _ _ _) as [b' | |]; [| | done].
  - destruct H as [_ <-]. split; [by intros -> | by intros [= ->]].
  - destruct H as (i & Hi & Hno). split; [| done]. intros Ha. by destruct Hno; apply Ha.
Qed.

(** The third service set of the program, for the witnesses. *)
Lemma ex3_service_set : service_set 3 ex3_period ex3_wcet.
Proof.
  split; simpl; [lia | lia | | | by vm_compute].
  - intros [| [| [| j]]] Hj; [by vm_compute .. | lia].
  - intros [| [| [| j]]] Hj; [by vm_compute .. | lia].
Qed.

Lemma big_fuel : 2 ^ 32 < Z.of_nat (Z.to_nat (2 ^ 32 + 1)).
Proof. rewrite Z2Nat.id; lia. Qed.

Lemma completion_time_correct_witness :
  exists o, completion_time_feasibility (Z.to_nat (2 ^ 32 + 1)) 3 ex3_period ex3_wcet ex3_period
    = o /\ o <> NoFuel.
Proof.
  pose proof (completion_time_correct 3 ex3_period ex3_wcet ex3_period (Z.to_nat (2 ^ 32 + 1))
    ex3_service_set ltac:(simpl; lia)
    ltac:(intros [| [| [| j]]] Hj; [by vm_compute .. | lia]) big_fuel) as H.
  eexists; split; [reflexivity |]. intros Heq. by rewrite Heq in H.
Defined.

Lemma completion_time_exact_witness :
  completion_time_feasibility (Z.to_nat (2 ^ 32 + 1)) 3 ex3_period ex3_wcet ex3_period = Ret TRUE.
Proof.
  apply (completion_time_exact_for_schedule 3 ex3_period ex3_wcet ex3_period
    (Z.to_nat (2 ^ 32 + 1)) ex3_service_set ltac:(simpl; lia)).
  - intros [| [| [| j]]] Hj; [by vm_compute .. | lia].
  - apply big_fuel.
  - intros [| [| [| j]]] Hj; [by vm_compute .. | lia].
Defined.

Lemma feasibility_tests_agree_witness :
  exists b, scheduling_point_feasibility (Z.to_nat (2 ^ 32 + 1)) 3 ex3_period ex3_wcet ex3_period
    = Ret b.
Proof.
  destruct (feasibility_tests_agree 3 ex3_period ex3_wcet (Z.to_nat (2 ^ 32 + 1))
    ex3_service_set) as (b & H & _); [| simpl; lia | apply big_fuel | by exists b].
  intros [| [| [| j]]] Hj; [by vm_compute .. | lia].
Defined.
