(* ===== verification/Sequencer.v ===== *)
(** * The sequencers: sequencer_generic/seqgen.c, seqgen2.c, seqgen3.c and
    sequencer/lab1.c

    A sequencer releases services at sub-rates of its own rate by posting one
    semaphore per service, and shuts them down with abort flags.  The threads
    run concurrently, so a sequencer is modelled as the list of its atomic
    actions on the shared semaphores and flags, a service as a program counter
    that moves at those actions, and the system as the relation that
    interleaves them in any order.  Time stamps and log messages are not
    represented. *)
From stdpp Require Import relations.
From S2P Require Import Prelude.

(** ** Threads, semaphores and flags *)

(** What a sequencer does to the shared state: [sem_post], a store of [TRUE]
    into the abort flags of some services, the end of the process. *)
Inductive action := Post (i : nat) | Abort (svcs : list nat) | Exit.

(** Where a service thread is: at the loop condition, in [sem_wait], past it,
    or finished. *)
Inductive pc := Check | Wait | Woken | Done.

#[export] Instance pc_eq_dec : EqDecision pc.
Proof. solve_decision. Defined.

(** [prog]: what remains of the sequencer; per service: the semaphore's
    value, the abort flag, the program counter, the release counter. *)
Record sys := {
  prog : list action;
  sem : nat -> Z;
  flag : nat -> bool;
  pcs : nat -> pc;
  cnt : nat -> Z
}.

Definition upd {A} (f : nat -> A) (i : nat) (x : A) : nat -> A :=
  fun j => if decide (j = i) then x else f j.

Lemma upd_eq {A} (f : nat -> A) i x : upd f i x i = x.
Proof. unfold upd. by rewrite decide_True. Qed.
Lemma upd_ne {A} (f : nat -> A) i j x : j <> i -> upd f i x j = f j.
Proof. intros. unfold upd. by rewrite decide_False. Qed.

(** The next action of the sequencer. *)
Definition seq_step (s : sys) : option sys :=
  match prog s with
  | [] => None
  | Post i :: rest =>
      Some {| prog := rest; sem := upd (sem s) i (sem s i + 1); flag := flag s;
              pcs := pcs s; cnt := cnt s |}
  | Abort svcs :: rest =>
      Some {| prog := rest; sem := sem s;
              flag := (fun i => if decide (i ∈ svcs) then true else flag s i);
              pcs := pcs s; cnt := cnt s |}
  | Exit :: _ =>
      Some {| prog := []; sem := sem s; flag := flag s; pcs := (fun _ => Done); cnt := cnt s |}
  end.

(** The two kinds of service loop: whether the body tests the flag again after
    [sem_wait], and how it counts its releases. *)
Record kind := { recheck : bool; count : Z -> Z }.

(** The next step of service [i]. *)
Definition service_step (k : kind) (i : nat) (s : sys) : option sys :=
  match pcs s i with
  | Check =>
      Some {| prog := prog s; sem := sem s; flag := flag s;
              pcs := upd (pcs s) i (if flag s i then Done else Wait); cnt := cnt s |}
  | Wait =>
      if 0 <? sem s i then
        Some {| prog := prog s; sem := upd (sem s) i (sem s i - 1); flag := flag s;
                pcs := upd (pcs s) i Woken; cnt := cnt s |}
      else None
  | Woken =>
      if recheck k && flag s i then
        Some {| prog := prog s; sem := sem s; flag := flag s; pcs := upd (pcs s) i Done;
                cnt := cnt s |}
      else
        Some {| prog := prog s; sem := sem s; flag := flag s; pcs := upd (pcs s) i Check;
                cnt := upd (cnt s) i (count k (cnt s i)) |}
  | Done => None
  end.

(** The sequencer and [N] services, interleaved. *)
Inductive step (k : kind) (N : nat) (s : sys) : sys -> Prop :=
| step_seq s' : seq_step s = Some s' -> step k N s s'
| step_service i s' : (i < N)%nat -> service_step k i s = Some s' -> step k N s s'.

(** The state in which the sequencer starts: the semaphores initialised to
    zero, the flags to [FALSE], the services about to test their loops. *)
Definition start (p : list action) : sys :=
  {| prog := p; sem := (fun _ => 0); flag := (fun _ => false); pcs := (fun _ => Check);
     cnt := (fun _ => 0) |}.

Definition reachable (k : kind) (N : nat) (p : list action) (s : sys) : Prop :=
  rtc (step k N) (start p) s.

(** The services of seqgen*.c: [while(!abortS) { sem_wait; SCnt++; ... }] with
    an [unsigned long long] counter. *)
Definition seqgen_service : kind := {| recheck := false; count := (fun c => u64 (c + 1)) |}.

(** ** Releases at sub-rates *)

(** [if((seqCnt % p) == 0) sem_post(...)] for each service and its period. *)
Definition release (table : list (nat * Z)) (seqCnt : Z) : list action :=
  flat_map (fun '(i, p) => if seqCnt mod p =? 0 then [Post i] else []) table.

(** [sem_post] of each of [n] services; their flags, one by one. *)
Definition post_all (n : nat) : list action := map Post (seq 0 n).
Definition abort_all (n : nat) : list action := map (fun i => Abort [i]) (seq 0 n).

(** A thread as created: the service it runs, its priority and its core
    ([None]: no affinity is set). *)
Record thread := { service : nat; sched_priority : Z; cpu : option Z }.

(** ** sequencer_generic/seqgen3.c: a timer signal handler *)

Module Seqgen3.
(** Only services 4 and 7 are released; the other lines are commented out. *)
Definition table : list (nat * Z) := [(3%nat, 20); (6%nat, 100)].

(** The globals the handler changes itself. *)
Record globals := { seqCnt : Z; armed : bool }.

(** One [SIGALRM]: the new globals and the actions on the shared state. *)
Definition Sequencer (abortTest : bool) (sequencePeriods : Z) (g : globals)
    : globals * list action :=
  let seqCnt := u64 (seqCnt g + 1) in
  if abortTest || (sequencePeriods <=? seqCnt) then
    ({| seqCnt := seqCnt; armed := false |}, release table seqCnt ++ post_all 7 ++ abort_all 7)
  else ({| seqCnt := seqCnt; armed := armed g |}, release table seqCnt).

(** The signals the interval timer delivers until it is disarmed; [abortTest]
    is what the [n]-th signal reads. *)
Fixpoint signals (fuel : nat) (abortTest : Z -> bool) (sequencePeriods : Z) (g : globals)
    : outcome (list action) :=
  if armed g then
    match fuel with
    | O => NoFuel
    | S fuel =>
        let '(g, acts) := Sequencer (abortTest (seqCnt g + 1)) sequencePeriods g in
        rest ← signals fuel abortTest sequencePeriods g; Ret (acts ++ rest)
    end
  else Ret [].

Definition sequencePeriods : Z := 2000.
Definition itime_armed : globals := {| seqCnt := 0; armed := true |}.

Definition Service_1 := service_step seqgen_service 0.
Definition Service_2 := service_step seqgen_service 1.
Definition Service_3 := service_step seqgen_service 2.
Definition Service_4 := service_step seqgen_service 3.
Definition Service_5 := service_step seqgen_service 4.
Definition Service_6 := service_step seqgen_service 5.
Definition Service_7 := service_step seqgen_service 6.

(** The loop over the attributes, then the priority set just before each
    [pthread_create]: thread [i] runs service [i]. *)
Definition created (rt_max_prio rt_min_prio : Z) : list thread :=
  map (fun i => {| service := i;
                   sched_priority :=
                     if (i =? 6)%nat then rt_min_prio else rt_max_prio - (Z.of_nat i + 1);
                   cpu := Some (if (i mod 2 =? 0)%nat then 2 else 3) |}) (seq 0 7).
End Seqgen3.

(** ** sequencer_generic/seqgen2.c: a thread at 100 Hz *)

Module Seqgen2.
Definition table : list (nat * Z) :=
  [(0%nat, 2); (1%nat, 5); (2%nat, 10); (3%nat, 20); (4%nat, 50); (5%nat, 100); (6%nat, 100)].

(** The [do ... while] loop from cycle [seqCnt] on; [nanosleep] is the result
    of the [n]-th [clock_nanosleep] and [abortTest] what the [n]-th loop
    condition reads. *)
Fixpoint Sequencer_loop (fuel : nat) (nanosleep : Z -> Z) (abortTest : Z -> bool)
    (sequencePeriods seqCnt : Z) : outcome (list action) :=
  match fuel with
  | O => NoFuel
  | S fuel =>
      if negb (nanosleep seqCnt =? 0) then Ret [Exit] else
      let seqCnt := u64 (seqCnt + 1) in
      if negb (abortTest seqCnt) && (seqCnt <? sequencePeriods) then
        rest ← Sequencer_loop fuel nanosleep abortTest sequencePeriods seqCnt;
        Ret (release table seqCnt ++ rest)
      else Ret (release table seqCnt ++ post_all 7 ++ abort_all 7)
  end.

Definition Sequencer (nanosleep : Z -> Z) (abortTest : Z -> bool) (sequencePeriods : Z)
    : outcome (list action) :=
  Sequencer_loop (S (Z.to_nat sequencePeriods)) nanosleep abortTest sequencePeriods 0.

Definition Service_1 := service_step seqgen_service 0.
Definition Service_2 := service_step seqgen_service 1.
Definition Service_3 := service_step seqgen_service 2.
Definition Service_4 := service_step seqgen_service 3.
Definition Service_5 := service_step seqgen_service 4.
Definition Service_6 := service_step seqgen_service 5.
Definition Service_7 := service_step seqgen_service 6.

(** Thread 0 is the sequencer; thread [i] runs service [i - 1]. *)
Definition created (rt_max_prio rt_min_prio : Z) : list thread :=
  map (fun i => {| service := i - 1;
                   sched_priority := if (i =? 7)%nat then rt_min_prio else rt_max_prio - Z.of_nat i;
                   cpu := Some (if (i mod 2 =? 0)%nat then 2 else 3) |}) (seq 1 7).
End Seqgen2.

(** ** sequencer_generic/seqgen.c: a thread at 30 Hz *)

Module Seqgen.
Definition table : list (nat * Z) :=
  [(0%nat, 10); (1%nat, 30); (2%nat, 60); (3%nat, 30); (4%nat, 60); (5%nat, 30); (6%nat, 300)].

Definition EINTR : Z := 4.

(** The inner loop around [nanosleep], whose [k]-th call returns a result and
    the remaining seconds and nanoseconds; [None] is [exit(-1)].  [residual]
    is kept in nanoseconds. *)
Fixpoint delay_loop (fuel : nat) (nanosleep : Z -> Z * (Z * Z)) (k delay_cnt residual : Z)
    : outcome (option Z) :=
  match fuel with
  | O => NoFuel
  | S fuel =>
      let '(rc, (tv_sec, tv_nsec)) := nanosleep k in
      if rc =? EINTR then
        let residual := tv_sec * 1000000000 + tv_nsec in
        let delay_cnt := delay_cnt + 1 in
        if (0 <? residual) && (delay_cnt <? 100)
        then delay_loop fuel nanosleep (k + 1) delay_cnt residual else Ret (Some delay_cnt)
      else if rc <? 0 then Ret None
      else if (0 <? residual) && (delay_cnt <? 100)
           then delay_loop fuel nanosleep (k + 1) delay_cnt residual else Ret (Some delay_cnt)
  end.

Fixpoint Sequencer_loop (fuel : nat) (nanosleep : Z -> Z -> Z * (Z * Z)) (abortTest : Z -> bool)
    (sequencePeriods seqCnt : Z) : outcome (list action) :=
  match fuel with
  | O => NoFuel
  | S fuel =>
      d ← delay_loop 101 (nanosleep seqCnt) 0 0 0;
      match d with
      | None => Ret [Exit]
      | Some _ =>
          let seqCnt := u64 (seqCnt + 1) in
          if negb (abortTest seqCnt) && (seqCnt <? sequencePeriods) then
            rest ← Sequencer_loop fuel nanosleep abortTest sequencePeriods seqCnt;
            Ret (release table seqCnt ++ rest)
          else Ret (release table seqCnt ++ post_all 7 ++ abort_all 7)
      end
  end.

Definition Sequencer (nanosleep : Z -> Z -> Z * (Z * Z)) (abortTest : Z -> bool)
    (sequencePeriods : Z) : outcome (list action) :=
  Sequencer_loop (S (Z.to_nat sequencePeriods)) nanosleep abortTest sequencePeriods 0.

Definition Service_1 := service_step seqgen_service 0.
Definition Service_2 := service_step seqgen_service 1.
Definition Service_3 := service_step seqgen_service 2.
Definition Service_4 := service_step seqgen_service 3.
Definition Service_5 := service_step seqgen_service 4.
Definition Service_6 := service_step seqgen_service 5.
Definition Service_7 := service_step seqgen_service 6.

(** Thread [i] runs service [i - 1]; the affinity call is commented out. *)
Definition created (rt_max_prio rt_min_prio : Z) : list thread :=
  map (fun '(i, prio) => {| service := i; sched_priority := prio; cpu := None |})
    [(0%nat, rt_max_prio - 1); (1%nat, rt_max_prio - 2); (2%nat, rt_max_prio - 3);
     (3%nat, rt_max_prio - 3); (4%nat, rt_max_prio - 3); (5%nat, rt_max_prio - 2);
     (6%nat, rt_min_prio)].
End Seqgen.

(** ** sequencer_generic/seqv4l2.c: a timer signal handler for three services *)

Module Seqv4l2.
Definition table : list (nat * Z) := [(0%nat, 20); (1%nat, 100); (2%nat, 100)].

Record globals := { seqCnt : Z; armed : bool }.

(** One [SIGALRM].  The flags are set before the semaphores are posted, and
    the rest of the handler runs after a shutdown too. *)
Definition Sequencer (abortTest : bool) (g : globals) : globals * list action :=
  let shutdown := if abortTest then abort_all 3 ++ post_all 3 else [] in
  let seqCnt := u64 (seqCnt g + 1) in
  ({| seqCnt := seqCnt; armed := if abortTest then false else armed g |},
   shutdown ++ release table seqCnt).

(** The signals until the timer is disarmed; [abortTest] is what the [n]-th
    one reads (the first and the third service set it). *)
Fixpoint signals (fuel : nat) (abortTest : Z -> bool) (g : globals) : outcome (list action) :=
  if armed g then
    match fuel with
    | O => NoFuel
    | S fuel =>
        let '(g, acts) := Sequencer (abortTest (seqCnt g + 1)) g in
        rest ← signals fuel abortTest g; Ret (acts ++ rest)
    end
  else Ret [].

Definition itime_armed : globals := {| seqCnt := 0; armed := true |}.

(** [while(!abortS) { sem_wait; if(abortS) break; SCnt++; ... }]. *)
Definition frame_service : kind := {| recheck := true; count := (fun c => u64 (c + 1)) |}.
Definition Service_1_frame_acquisition := service_step frame_service 0.
Definition Service_2_frame_process := service_step frame_service 1.
Definition Service_3_frame_storage := service_step frame_service 2.

(** When a service asks for the shutdown: the first after its 251st frame, the
    third when [seq_frame_store] returned 10. *)
Definition acquisition_aborts (S1Cnt : Z) : bool := 250 <? S1Cnt.
Definition storage_aborts (store_cnt : Z) : bool := store_cnt =? 10.

Definition RT_CORE : Z := 2.
Definition created (rt_max_prio : Z) : list thread :=
  map (fun i => {| service := i; sched_priority := rt_max_prio - (Z.of_nat i + 1);
                   cpu := Some RT_CORE |}) (seq 0 3).
End Seqv4l2.

(** ** sequencer/lab1.c: two services over the LCM of their periods *)

Module Lab1.
(** [FIB_TEST(seqCnt, iterCnt)]: the final values of [fib0], [fib1], [fib]. *)
Definition fib_pass (seqCnt : Z) : Z * Z * Z :=
  Nat.iter (Z.to_nat (seqCnt - 1))
    (fun '(fib0, fib1, fib) => (fib1, fib, u32 (fib1 + fib))) (0, 1, 1).

Definition FIB_TEST (seqCnt iterCnt : Z) (old : Z * Z * Z) : Z * Z * Z :=
  Nat.iter (Z.to_nat iterCnt) (fun _ => fib_pass seqCnt) old.

(** The services: 0 is [fib10] on [semF10], 1 is [fib20] on [semF20]. *)
(** [while(!abortTest) { sem_wait; if(abortTest) break; else release++; ... }]
    with an [int] counter. *)
Definition fib_service : kind := {| recheck := true; count := (fun c => swrap 32 (c + 1)) |}.
Definition fib10 := service_step fib_service 0.
Definition fib20 := service_step fib_service 1.

(** An event of the sequencer: a sleep in milliseconds or an action. *)
Inductive event := Sleep (ms : Z) | Do (a : action).

(** One major period. *)
Definition major_period : list event :=
  [Do (Post 0); Do (Post 1);
   Sleep 20; Do (Post 0);
   Sleep 20; Do (Post 0);
   Sleep 10; Do (Post 1);
   Sleep 10; Do (Post 0);
   Sleep 20; Do (Post 0);
   Sleep 20].

(** The [do ... while] loop runs at least once; then the flag, read by both
    services, is set before the last posts. *)
Definition Sequencer (MajorPeriods : Z) : list event :=
  concat (replicate (Z.to_nat (Z.max 1 MajorPeriods)) major_period)
  ++ [Do (Abort [0%nat; 1%nat]); Do (Post 0); Do (Post 1)].

Definition actions (es : list event) : list action :=
  flat_map (fun e => match e with Sleep _ => [] | Do a => [a] end) es.
End Lab1.

(** ** Every interleaving ends *)

Definition pc_weight (p : pc) : nat :=
  match p with Done => 0 | Wait => 1 | Check => 2 | Woken => 3 end.

(** What service [i] can still do without the sequencer. *)
Definition service_weight (s : sys) (i : nat) : nat := 3 * Z.to_nat (sem s i) + pc_weight (pcs s i).

Definition weight (N : nat) (s : sys) : nat :=
  4 * length (prog s) + list_sum (map (service_weight s) (seq 0 N)).

Definition sems_nonneg (s : sys) : Prop := forall i, 0 <= sem s i.

Lemma list_sum_change (f g : nat -> nat) (i N : nat) :
  (forall j, j <> i -> g j = f j) ->
  (list_sum (map g (seq 0 N)) + (if decide (i < N)%nat then f i else 0)
   = list_sum (map f (seq 0 N)) + (if decide (i < N)%nat then g i else 0))%nat.
Proof.
  intros Hne. induction N as [|N IH]; [reflexivity|].
  rewrite seq_S, !map_app, !list_sum_app. cbn [map list_sum plus].
  destruct (decide (i = N)) as [->|].
  - rewrite !decide_True in * by lia. rewrite !decide_False in IH by lia. simpl. lia.
  - rewrite (Hne N) by lia. simpl.
    destruct (decide (i < N)%nat), (decide (i < S N)%nat); simpl in *; lia.
Qed.

Lemma list_sum_le (f g : nat -> nat) l :
  (forall j, g j <= f j)%nat -> (list_sum (map g l) <= list_sum (map f l))%nat.
Proof. intros H. induction l as [|a l IH]; simpl; [lia|]. specialize (H a). lia. Qed.

(** One service moves: the weight changes by that service's. *)
Lemma weight_service N s s' i :
  (i < N)%nat -> prog s' = prog s ->
  (forall j, j <> i -> service_weight s' j = service_weight s j) ->
  (service_weight s' i < service_weight s i)%nat -> (weight N s' < weight N s)%nat.
Proof.
  intros Hi Hp Hne Hlt. unfold weight. rewrite Hp.
  pose proof (list_sum_change _ _ i N Hne) as H. rewrite !decide_True in H by lia. lia.
Qed.

(** The sequencer moves without giving the services more to do. *)
Lemma weight_prog N s s' :
  (length (prog s') < length (prog s))%nat ->
  (forall j, service_weight s' j <= service_weight s j)%nat -> (weight N s' < weight N s)%nat.
Proof.
  intros Hp Hs. unfold weight. pose proof (list_sum_le _ _ (seq 0 N) Hs). lia.
Qed.

(** Case analysis of a step into the successor states. *)
Ltac step_cases H :=
  unfold seq_step, service_step in H; repeat case_match; simplify_eq; cbn in *.

Lemma step_sems k N s s' : step k N s s' -> sems_nonneg s -> sems_nonneg s'.
Proof.
  intros [s1 H|i s1 Hi H] Hs j; step_cases H; specialize (Hs j); unfold upd;
    try case_decide; subst; cbn; try lia.
Qed.

Lemma step_weight k N s s' :
  sems_nonneg s -> step k N s s' -> (weight N s' < weight N s)%nat.
Proof.
  intros Hs [s1 H|i s1 Hi H].
  - unfold seq_step in H. destruct (prog s) as [|[i|svcs|] rest] eqn:E; simplify_eq.
    + set (s1 := Build_sys _ _ _ _ _). pose proof (list_sum_change (service_weight s) (service_weight s1) i N) as H.
      unfold weight. rewrite E. change (prog s1) with rest. cbn [length].
      assert (service_weight s1 i = service_weight s i + 3)%nat as Hi.
      { unfold service_weight, s1; cbn. rewrite upd_eq. specialize (Hs i). lia. }
      rewrite Hi in H. destruct (decide (i < N)%nat); lapply H; try lia;
        intros j Hj; unfold service_weight, s1; cbn; by rewrite upd_ne.
    + apply weight_prog; [by rewrite E; cbn; lia|]. intros j. unfold service_weight; cbn; lia.
    + apply weight_prog; [by rewrite E; cbn; lia|]. intros j. unfold service_weight; cbn; lia.
  - apply (weight_service N s s1 i Hi); step_cases H;
      unfold service_weight; cbn; try (intros j Hj); rewrite ?upd_eq, ?upd_ne by done;
      repeat match goal with E : pcs s i = _ |- _ => rewrite ?E; clear E end;
      cbn; specialize (Hs i); first [reflexivity | lia].
Qed.

(** From any state, the interleavings are no longer than the weight. *)
Lemma steps_bounded k N n s s' :
  sems_nonneg s -> nsteps (step k N) n s s' -> (n + weight N s' <= weight N s)%nat.
Proof.
  intros Hs Hn. induction Hn as [s|n s1 s2 s3 H12 _ IH]; [lia|].
  pose proof (step_weight k N _ _ Hs H12). specialize (IH (step_sems _ _ _ _ H12 Hs)). lia.
Qed.

Lemma start_sems p : sems_nonneg (start p).
Proof. intros i. cbn. lia. Qed.

Lemma weight_start N p : weight N (start p) = (4 * length p + 2 * N)%nat.
Proof.
  unfold weight, start. cbn [prog]. f_equal. induction N as [|N IH]; [done|].
  rewrite seq_S, map_app, list_sum_app, IH. cbn. lia.
Qed.

(** ** Shutdown *)

(** [stops i p]: the program sets service [i]'s flag and posts its semaphore
    after that. *)
Fixpoint posts (i : nat) (p : list action) : bool :=
  match p with
  | [] => false
  | Post j :: p => (i =? j)%nat || posts i p
  | _ :: p => posts i p
  end.

Fixpoint stops (i : nat) (p : list action) : bool :=
  match p with
  | [] => false
  | Abort svcs :: p => (bool_decide (i ∈ svcs) && posts i p) || stops i p
  | _ :: p => stops i p
  end.

Lemma stops_posts i p : stops i p = true -> posts i p = true.
Proof.
  induction p as [|[j|svcs|] p IH]; cbn; intros H; [done|..]; auto.
  - rewrite (IH H). by rewrite orb_true_r.
  - apply orb_true_iff in H as [H|H]; auto. by apply andb_true_iff in H as [_ ?].
Qed.

(** Service [i] has ended, or will not wait for a post that never comes. *)
Definition not_lost (i : nat) (s : sys) : Prop :=
  pcs s i = Done \/
  if flag s i then pcs s i = Wait -> 0 < sem s i \/ posts i (prog s) = true
  else stops i (prog s) = true.

Lemma step_not_lost k N i s s' :
  sems_nonneg s -> not_lost i s -> step k N s s' -> not_lost i s'.
Proof.
  intros Hs [Hd|Hl] [s1 H|j s1 Hj H].
  - left. step_cases H; done.
  - left. destruct (decide (i = j)) as [->|]; step_cases H; try congruence; by rewrite upd_ne.
  - unfold seq_step in H. destruct (prog s) as [|[j|svcs|] rest] eqn:E; simplify_eq; [..|by left];
      right; cbn in *.
    + destruct (flag s i); [|done]. intros Hw. unfold upd. specialize (Hl Hw). specialize (Hs i).
      destruct (decide (i = j)) as [->|Hne]; [left; lia|].
      by rewrite (proj2 (Nat.eqb_neq i j)) in Hl.
    + case_decide as Hin; [|by destruct (flag s i)]. destruct (flag s i); [done|]. intros _. right.
      apply orb_true_iff in Hl as [Hl|Hl]; [by apply andb_true_iff in Hl as [_ ?]|].
      by apply stops_posts.
  - destruct (decide (i = j)) as [->|].
    + unfold service_step in H. destruct (pcs s j) eqn:Ep.
      * simplify_eq. destruct (flag s j) eqn:Ef; [left|right]; cbn; [by rewrite upd_eq|].
        by rewrite Ef.
      * case_match; simplify_eq. right; cbn. destruct (flag s j); [|done].
        by rewrite upd_eq.
      * case_match; simplify_eq; [left; cbn; by rewrite upd_eq|]. right; cbn.
        destruct (flag s j); [|done]. by rewrite upd_eq.
      * done.
    + right. step_cases H; destruct (flag s i); try done; rewrite ?upd_ne by done; auto.
Qed.

(** A terminal state: no thread can move. *)
Definition stuck (k : kind) (N : nat) (s : sys) : Prop := forall s', ~ step k N s s'.

Lemma stuck_not_lost k N s :
  stuck k N s -> (forall i, (i < N)%nat -> not_lost i s) ->
  prog s = [] /\ forall i, (i < N)%nat -> pcs s i = Done.
Proof.
  intros Hst Hl.
  assert (prog s = []) as Hp.
  { destruct (prog s) as [|a rest] eqn:E; [done|]. exfalso.
    destruct (seq_step s) as [s'|] eqn:Es; [exact (Hst s' (step_seq _ _ _ _ Es))|].
    unfold seq_step in Es. rewrite E in Es. by destruct a. }
  split; [done|]. intros i Hi. specialize (Hl i Hi).
  destruct (service_step k i s) as [s'|] eqn:Es; [by destruct (Hst s' (step_service _ _ _ _ _ Hi Es))|].
  unfold service_step in Es. unfold not_lost in Hl. rewrite Hp in Hl. cbn in Hl.
  repeat case_match; simplify_eq; try done; destruct Hl as [?|Hl]; try done.
  destruct (Hl eq_refl); [lia|done].
Qed.

(** Any program that, for every service, sets the flag and then posts the
    semaphore ends with every service finished, within a bound. *)
Lemma shutdown_complete k N p :
  (forall i, (i < N)%nat -> stops i p = true) ->
  (forall n s, nsteps (step k N) n (start p) s -> (n <= 4 * length p + 2 * N)%nat) /\
  (forall s, reachable k N p s -> stuck k N s ->
     prog s = [] /\ forall i, (i < N)%nat -> pcs s i = Done).
Proof.
  intros Hp. split.
  - intros n s Hn. pose proof (steps_bounded _ _ _ _ _ (start_sems p) Hn) as H.
    rewrite weight_start in H. lia.
  - intros s Hr Hst. apply (stuck_not_lost k N s Hst). intros i Hi.
    assert (sems_nonneg s /\ not_lost i s) as [_ ?]; [|done].
    clear Hst. unfold reachable in Hr. remember (start p) as s0 eqn:E0.
    assert (sems_nonneg s0 /\ not_lost i s0) as H0.
    { subst s0. split; [apply start_sems|]. right. cbn. by apply Hp. }
    clear E0. induction Hr as [|x y z Hxy _ IH]; [done|]. apply IH. destruct H0.
    split; [by eapply step_sems|by eapply step_not_lost].
Qed.

(** ** No release is lost or made up *)

(** How often a program posts service [i]'s semaphore. *)
Fixpoint nposts (i : nat) (p : list action) : Z :=
  match p with
  | [] => 0
  | Post j :: p => (if decide (i = j) then 1 else 0) + nposts i p
  | _ :: p => nposts i p
  end.

Lemma nposts_nonneg i p : 0 <= nposts i p.
Proof. induction p as [|[j|svcs|] p IH]; cbn; try case_decide; lia. Qed.

Lemma nposts_app i p q : nposts i (p ++ q) = nposts i p + nposts i q.
Proof. induction p as [|[j|svcs|] p IH]; cbn; lia. Qed.

(** A thread that has returned from [sem_wait] holds the token it took. *)
Definition taken (p : pc) : Z := match p with Woken => 1 | _ => 0 end.

(** [exit] ends a program: nothing comes behind it. *)
Fixpoint exit_last (p : list action) : bool :=
  match p with
  | [] => true
  | Exit :: rest => bool_decide (rest = [])
  | _ :: rest => exit_last rest
  end.

Lemma exit_last_app p q : Exit ∉ p -> exit_last (p ++ q) = exit_last q.
Proof. induction p as [|[j|svcs|] p IH]; cbn; [done| | |]; set_solver. Qed.

(** The process is over: [exit] has run. *)
Definition exited (s : sys) : Prop := prog s = [] /\ forall j, pcs s j = Done.

(** The posts still to come, the tokens in the semaphore, the token just
    taken and the releases counted add up to the posts of the program; an
    [exit] of the process can only take away a token just taken. *)
Definition conserved (p : list action) (i : nat) (s : sys) : Prop :=
  0 <= sem s i /\ 0 <= cnt s i /\ exit_last (prog s) = true /\
  (Exit ∈ prog s -> Exit ∈ p) /\
  (nposts i (prog s) + sem s i + taken (pcs s i) + cnt s i = nposts i p \/
   Exit ∈ p /\ exited s /\ nposts i p - 1 <= sem s i + cnt s i <= nposts i p).

Lemma taken_bounds c : 0 <= taken c <= 1.
Proof. destruct c; cbn; lia. Qed.

Lemma seq_step_conserved p i s s' : conserved p i s -> seq_step s = Some s' -> conserved p i s'.
Proof.
  intros (Hsem & Hcnt & Hl & He & Heq) H. unfold seq_step in H.
  destruct (prog s) as [|[j|svcs|] rest] eqn:E; simplify_eq; unfold conserved; cbn in *.
  - destruct Heq as [Heq | (_ & [Hp _] & _)]; [|congruence].
    unfold upd. repeat case_decide; simplify_eq; (split; [lia|]); (split; [done|]);
      (split; [done|]); (split; [set_solver|]); left; lia.
  - destruct Heq as [Heq | (_ & [Hp _] & _)]; [|congruence].
    do 3 (split; [done|]). split; [set_solver|]. by left.
  - apply bool_decide_eq_true in Hl as ->. do 3 (split; [done|]). split; [set_solver|].
    destruct Heq as [Heq | (_ & [Hp _] & _)]; [|congruence]. right.
    split; [set_solver|]. split; [done|]. pose proof (taken_bounds (pcs s i)). cbn in Heq. lia.
Qed.

Lemma service_step_conserved p i j s s' :
  nposts i p < 2 ^ 64 -> conserved p i s -> service_step seqgen_service j s = Some s' ->
  conserved p i s'.
Proof.
  intros Hlt (Hsem & Hcnt & Hl & He & Heq) H.
  destruct Heq as [Heq | (_ & [_ Hd] & _)];
    [|unfold service_step in H; by rewrite Hd in H].
  unfold conserved. destruct (decide (i = j)) as [->|].
  - pose proof (nposts_nonneg j (prog s)).
    step_cases H; rewrite ?upd_eq in *;
      repeat match goal with E : pcs s j = _ |- _ => rewrite E in Heq; clear E end;
      cbn [taken] in *; try (rewrite (wrap_small 64) by (unfold in_range; lia));
      (split; [lia|]); (split; [lia|]); (split; [done|]); (split; [done|]); left; lia.
  - step_cases H; rewrite ?upd_ne by done; do 4 (split; [done|]); by left.
Qed.

Lemma reachable_conserved N p i s :
  exit_last p = true -> nposts i p < 2 ^ 64 -> reachable seqgen_service N p s -> conserved p i s.
Proof.
  intros He Hlt Hr. unfold reachable in Hr. remember (start p) as s0 eqn:E0.
  assert (conserved p i s0) as H0.
  { subst s0. unfold conserved; cbn. do 4 (split; [done|]). left. lia. }
  clear E0. induction Hr as [|x y z [y' H|j y' Hj H] _ IH]; [done| |]; apply IH;
    [by eapply seq_step_conserved | by eapply service_step_conserved].
Qed.

(** ** How often a table releases a service *)

(** The releases of cycles [first], ..., [first + n - 1]. *)
Definition cycles (table : list (nat * Z)) (first : Z) (n : nat) : list action :=
  flat_map (release table) (seqZ first (Z.of_nat n)).

Lemma cycles_O table first : cycles table first 0 = [].
Proof. reflexivity. Qed.

Lemma cycles_S table first n :
  cycles table first (S n) = release table first ++ cycles table (first + 1) n.
Proof. unfold cycles. rewrite Nat2Z.inj_succ, seqZ_cons by lia. cbn. by rewrite Z.pred_succ. Qed.

Lemma cycles_snoc table first n :
  cycles table first (S n) = cycles table first n ++ release table (first + Z.of_nat n).
Proof.
  revert first. induction n as [|n IH]; intros first.
  - by rewrite cycles_S, !cycles_O, app_nil_r, Z.add_0_r.
  - rewrite cycles_S, IH, (cycles_S table first n), app_assoc.
    by replace (first + 1 + Z.of_nat n) with (first + Z.of_nat (S n)) by lia.
Qed.

Lemma cycles_app table first n m :
  cycles table first (n + m) = cycles table first n ++ cycles table (first + Z.of_nat n) m.
Proof.
  revert first. induction n as [|n IH]; intros first.
  - by rewrite Z.add_0_r.
  - cbn [Nat.add]. rewrite !cycles_S, IH, app_assoc. do 2 f_equal. lia.
Qed.

(** A shift by a common multiple of the periods. *)
Lemma cycles_shift table a first n :
  (forall j, release table (a + j) = release table j) ->
  cycles table (a + first) n = cycles table first n.
Proof.
  intros Ha. revert first. induction n as [|n IH]; intros first; [done|].
  rewrite !cycles_S, Ha, <- Z.add_assoc. by rewrite IH.
Qed.

Lemma release_cons i p t c :
  release ((i, p) :: t) c = (if c mod p =? 0 then [Post i] else []) ++ release t c.
Proof. reflexivity. Qed.

(** A table without duplicates posts a service it lists at multiples of its
    period only. *)
Lemma nposts_release table i p c :
  NoDup table.*1 -> (i, p) ∈ table -> nposts i (release table c) = if c mod p =? 0 then 1 else 0.
Proof.
  assert (forall t, i ∉ t.*1 -> nposts i (release t c) = 0) as Hout.
  { induction t as [|[j q] t IH]; [done|]. intros Hni.
    rewrite release_cons, nposts_app, IH by set_solver.
    destruct (c mod q =? 0); cbn; [case_decide; [set_solver|done]|done]. }
  induction table as [|[j q] t IH]; [set_solver|]. intros Hnd Hin.
  rewrite fmap_cons in Hnd. inversion Hnd as [|? ? Hj Hnd']; subst. cbn in Hj.
  rewrite release_cons, nposts_app. apply list_elem_of_In in Hin as [Heq|Hin].
  - simplify_eq. rewrite Hout by done.
    destruct (c mod p =? 0); cbn; [by rewrite decide_True|done].
  - apply list_elem_of_In in Hin. rewrite IH by done. assert (i <> j).
    { intros ->. apply Hj. apply list_elem_of_fmap. by exists (j, p). }
    destruct (c mod q =? 0); cbn; [by rewrite decide_False|]; lia.
Qed.

Lemma div_succ n p : 0 < p -> (n + 1) / p = n / p + if (n + 1) mod p =? 0 then 1 else 0.
Proof.
  intros Hp. pose proof (Z.div_mod n p). pose proof (Z.mod_pos_bound n p Hp).
  pose proof (Z.div_mod (n + 1) p). pose proof (Z.mod_pos_bound (n + 1) p Hp).
  set (q := n / p) in *. set (r := n mod p) in *. set (q' := (n + 1) / p) in *.
  set (r' := (n + 1) mod p) in *. zcase; nia.
Qed.

(** In [n] cycles, a service of period [p] is released [n / p] times. *)
Lemma nposts_cycles table i p n :
  NoDup table.*1 -> (i, p) ∈ table -> 0 < p -> nposts i (cycles table 1 n) = Z.of_nat n / p.
Proof.
  intros Hnd Hin Hp. induction n as [|n IH]; [cbn; by rewrite Z.div_0_l by lia|].
  rewrite cycles_snoc, nposts_app, IH, (nposts_release _ i p) by done.
  replace (Z.of_nat (S n)) with (Z.of_nat n + 1) by lia. rewrite div_succ by done.
  by rewrite (Z.add_comm 1).
Qed.

(** The run ends with cycle [n]: the first at which [abortTest] is read as
    set, or the last of [sequencePeriods]. *)
Definition ends_at (abortTest : Z -> bool) (sequencePeriods n : Z) : Prop :=
  1 <= n <= sequencePeriods /\ sequencePeriods < 2 ^ 64 /\
  (forall j, 1 <= j < n -> abortTest j = false) /\
  (abortTest n = true \/ n = sequencePeriods).

(** Before cycle [n] the loop goes on, at cycle [n] it stops. *)
Lemma ends_at_step abortTest P n c :
  ends_at abortTest P n -> 0 <= c < n ->
  u64 (c + 1) = c + 1 /\
  (if decide (c + 1 = n) then negb (abortTest (c + 1)) && (c + 1 <? P) = false
   else negb (abortTest (c + 1)) && (c + 1 <? P) = true).
Proof.
  intros (Hn & HP & Hbefore & Hend) Hc. split; [apply wrap_small; unfold in_range; lia|].
  case_decide as Heq.
  - subst n. destruct Hend as [->|Heq]; [done|]. destruct (abortTest (c + 1)); cbn; lia.
  - rewrite Hbefore by lia. cbn. lia.
Qed.

Lemma nposts_post_all i n : (i < n)%nat -> nposts i (post_all n) = 1.
Proof.
  intros Hi. unfold post_all.
  assert (forall a, nposts i (map Post (seq a n)) = if decide (a <= i < a + n)%nat then 1 else 0) as H.
  { clear Hi. induction n as [|n IH]; intros a; cbn; [case_decide; lia|].
    rewrite IH. repeat case_decide; lia. }
  rewrite H, decide_True by lia. done.
Qed.

Lemma nposts_abort_all i n : nposts i (abort_all n) = 0.
Proof.
  unfold abort_all. assert (forall l, nposts i (map (fun i => Abort [i]) l) = 0) as H; [|apply H].
  induction l; cbn; lia.
Qed.

(** The posts of a whole run, the one of the shutdown included. *)
Lemma nposts_run table i p n :
  NoDup table.*1 -> (i, p) ∈ table -> 0 < p -> (i < 7)%nat -> 0 <= n ->
  nposts i (cycles table 1 (Z.to_nat n) ++ post_all 7 ++ abort_all 7) = n / p + 1.
Proof.
  intros. rewrite !nposts_app, (nposts_cycles _ i p), nposts_post_all, nposts_abort_all by done.
  rewrite Z2Nat.id by lia. lia.
Qed.

(** A table whose entries are all different services of the seven, with
    positive periods. *)
Definition proper_table (table : list (nat * Z)) : bool :=
  bool_decide (NoDup table.*1) && forallb (fun '(i, p) => (i <? 7)%nat && (0 <? p)) table.

Lemma proper_entry table i p :
  proper_table table = true -> (i, p) ∈ table -> NoDup table.*1 /\ (i < 7)%nat /\ 0 < p.
Proof.
  intros [Hnd Hall]%andb_true_iff Hin. apply bool_decide_eq_true in Hnd.
  rewrite forallb_forall in Hall. apply list_elem_of_In in Hin. specialize (Hall _ Hin).
  by apply andb_true_iff in Hall as [Hi%Nat.ltb_lt Hp%Z.ltb_lt].
Qed.

Lemma nposts_proper table i p n :
  proper_table table = true -> (i, p) ∈ table -> 0 <= n ->
  nposts i (cycles table 1 (Z.to_nat n) ++ post_all 7 ++ abort_all 7) = n / p + 1.
Proof. intros Ht Hin Hn. destruct (proper_entry _ _ _ Ht Hin) as (? & ? & ?). by apply nposts_run. Qed.

(** A [nanosleep] that returns 0 at once ends the delay loop. *)
Lemma seqgen_delay fuel nanosleep k :
  (nanosleep k).1 = 0 -> Seqgen.delay_loop (S fuel) nanosleep k 0 0 = Ret (Some 0).
Proof. cbn [Seqgen.delay_loop]. destruct (nanosleep k) as [rc [sec nsec]]. cbn. by intros ->. Qed.

(** A [nanosleep] that a signal interrupts returns -1, not [EINTR]. *)
Lemma seqgen_delay_interrupted fuel nanosleep k :
  (nanosleep k).1 = -1 -> Seqgen.delay_loop (S fuel) nanosleep k 0 0 = Ret None.
Proof. cbn [Seqgen.delay_loop]. destruct (nanosleep k) as [rc [sec nsec]]. cbn. by intros ->. Qed.

Lemma seqgen2_sleeps nanosleep abortTest P n k c :
  ends_at abortTest P n -> 0 <= c -> c + Z.of_nat (S k) = n ->
  (forall j, c <= j < n -> nanosleep j = 0) -> forall fuel, (k < fuel)%nat ->
  Seqgen2.Sequencer_loop fuel nanosleep abortTest P c
  = Ret (cycles Seqgen2.table (c + 1) (S k) ++ post_all 7 ++ abort_all 7).
Proof.
  intros He. revert c. induction k as [|k IH]; intros c Hc Heq Hs [|fuel] Hf; try lia;
    cbn [Seqgen2.Sequencer_loop]; rewrite (Hs c) by lia;
    destruct (ends_at_step _ _ _ c He) as [-> Hgo]; try lia; cbn [negb Z.eqb].
  - rewrite decide_True in Hgo by lia. rewrite Hgo. by rewrite cycles_S, cycles_O, app_nil_r.
  - rewrite decide_False in Hgo by lia. rewrite Hgo.
    rewrite (IH (c + 1)) by (intros; first [apply Hs; lia | lia]). step_run.
    by rewrite (cycles_S _ (c + 1)), <- app_assoc.
Qed.

(** The [k]-th sleep from here is the first that fails: the process exits. *)
Lemma seqgen2_sleep_fails nanosleep abortTest P n k c :
  ends_at abortTest P n -> 0 <= c -> c + Z.of_nat k < n ->
  (forall j, c <= j < c + Z.of_nat k -> nanosleep j = 0) -> nanosleep (c + Z.of_nat k) <> 0 ->
  forall fuel, (k < fuel)%nat ->
  Seqgen2.Sequencer_loop fuel nanosleep abortTest P c
  = Ret (cycles Seqgen2.table (c + 1) k ++ [Exit]).
Proof.
  intros He. revert c. induction k as [|k IH]; intros c Hc Heq Hs Hfail [|fuel] Hf; try lia;
    cbn [Seqgen2.Sequencer_loop].
  - rewrite Z.add_0_r in Hfail. by rewrite (proj2 (Z.eqb_neq _ _) Hfail).
  - rewrite (Hs c) by lia. destruct (ends_at_step _ _ _ c He) as [-> Hgo]; [lia|].
    cbn [negb Z.eqb]. rewrite decide_False in Hgo by lia. rewrite Hgo.
    rewrite (IH (c + 1)); [| lia | lia | intros; apply Hs; lia | | lia].
    + step_run. by rewrite (cycles_S _ (c + 1)), <- app_assoc.
    + by replace (c + 1 + Z.of_nat k) with (c + Z.of_nat (S k)) by lia.
Qed.

Lemma seqgen2_loop abortTest P n k c :
  ends_at abortTest P n -> 0 <= c -> c + Z.of_nat (S k) = n -> forall fuel, (k < fuel)%nat ->
  Seqgen2.Sequencer_loop fuel (fun _ => 0) abortTest P c
  = Ret (cycles Seqgen2.table (c + 1) (S k) ++ post_all 7 ++ abort_all 7).
Proof. intros. by eapply seqgen2_sleeps. Qed.

Lemma seqgen_loop nanosleep abortTest P n k c :
  (forall i, (nanosleep i 0).1 = 0) ->
  ends_at abortTest P n -> 0 <= c -> c + Z.of_nat (S k) = n -> forall fuel, (k < fuel)%nat ->
  Seqgen.Sequencer_loop fuel nanosleep abortTest P c
  = Ret (cycles Seqgen.table (c + 1) (S k) ++ post_all 7 ++ abort_all 7).
Proof.
  intros Hsleep He. revert c. induction k as [|k IH]; intros c Hc Heq [|fuel] Hf; try lia;
    cbn [Seqgen.Sequencer_loop]; rewrite seqgen_delay by done; step_run;
    destruct (ends_at_step _ _ _ c He) as [-> Hgo]; try lia.
  - rewrite decide_True in Hgo by lia. rewrite Hgo. by rewrite cycles_S, cycles_O, app_nil_r.
  - rewrite decide_False in Hgo by lia. rewrite Hgo. rewrite (IH (c + 1)) by lia. step_run.
    by rewrite (cycles_S _ (c + 1)), <- app_assoc.
Qed.

Lemma seqgen3_signals abortTest P n k c :
  ends_at abortTest P n -> 0 <= c -> c + Z.of_nat (S k) = n -> forall fuel, (k < fuel)%nat ->
  Seqgen3.signals fuel abortTest P {| Seqgen3.seqCnt := c; Seqgen3.armed := true |}
  = Ret (cycles Seqgen3.table (c + 1) (S k) ++ post_all 7 ++ abort_all 7).
Proof.
  intros He. revert c. induction k as [|k IH]; intros c Hc Heq [|fuel] Hf; try lia;
    cbn [Seqgen3.signals Seqgen3.armed Seqgen3.seqCnt]; unfold Seqgen3.Sequencer; cbn [Seqgen3.seqCnt];
    destruct (ends_at_step _ _ _ c He) as [-> Hgo]; try lia;
    rewrite <- (negb_involutive (_ || _)), negb_orb, <- Z.ltb_antisym.
  - rewrite decide_True in Hgo by lia. rewrite Hgo. cbn [negb].
    destruct fuel; cbn [Seqgen3.signals Seqgen3.armed]; step_run;
      by rewrite cycles_S, cycles_O, !app_nil_r.
  - rewrite decide_False in Hgo by lia. rewrite Hgo. cbn [negb Seqgen3.armed].
    rewrite (IH (c + 1)) by lia. step_run. by rewrite (cycles_S _ (c + 1)), <- app_assoc.
Qed.

(** ** Posting before setting the flags *)

(** Every service waits, no token is left, no flag is set. *)
Definition quiescent (N : nat) (s : sys) : Prop :=
  forall i, (i < N)%nat -> pcs s i = Wait /\ sem s i = 0 /\ flag s i = false.

(** Service [i] moves from [Check] to [Wait] while its flag is not set. *)
Lemma check_wait k N i s :
  (i < N)%nat -> pcs s i = Check -> flag s i = false ->
  step k N s {| prog := prog s; sem := sem s; flag := flag s; pcs := upd (pcs s) i Wait; cnt := cnt s |}.
Proof. intros Hi Hc Hf. apply (step_service _ _ _ i _ Hi). unfold service_step. by rewrite Hc, Hf. Qed.

(** The services reach their first [sem_wait]. *)
Lemma start_quiescent k N p :
  exists s, reachable k N p s /\ quiescent N s /\ prog s = p.
Proof.
  assert (forall m, (m <= N)%nat -> exists s, reachable k N p s /\ prog s = p /\
    forall i, sem s i = 0 /\ flag s i = false /\
              pcs s i = if decide (i < m)%nat then Wait else Check) as H.
  { induction m as [|m IH]; intros Hm.
    - exists (start p). split; [apply rtc_refl|]. split; [done|]. intros i. cbn. done.
    - destruct (IH ltac:(lia)) as (s & Hr & Hp & Hs). eexists. split; [eapply rtc_r; [exact Hr|]|].
      + apply (check_wait k N m); [lia|..]; destruct (Hs m) as (_ & Hf & Hc); [|done].
        by rewrite Hc, decide_False by lia.
      + split; [done|]. intros i. cbn. destruct (Hs i) as (? & ? & Hi). unfold upd. rewrite Hi.
        repeat split; try done. repeat case_decide; lia || done. }
  destruct (H N ltac:(lia)) as (s & Hr & Hp & Hs). exists s. split; [done|]. split; [|done].
  intros i Hi. destruct (Hs i) as (? & ? & Hc). by rewrite decide_True in Hc by lia.
Qed.

(** A post is consumed and the service waits again. *)
Lemma post_quiescent k N s i rest :
  quiescent N s -> prog s = Post i :: rest -> (i < N)%nat ->
  exists s', rtc (step k N) s s' /\ quiescent N s' /\ prog s' = rest.
Proof.
  intros Hq Hp Hi. destruct (Hq i Hi) as (Hw & Hs & Hf). eexists. split; [|split].
  - eapply rtc_l; [apply step_seq; unfold seq_step; rewrite Hp; reflexivity|].
    eapply rtc_l.
    { apply (step_service _ _ _ i); [done|]. unfold service_step. cbn. rewrite Hw, upd_eq, Hs.
      reflexivity. }
    eapply rtc_l.
    { apply (step_service _ _ _ i); [done|]. unfold service_step. cbn.
      rewrite upd_eq, Hf, andb_false_r. reflexivity. }
    apply rtc_once. apply (check_wait k N i); [done|..]; cbn; [by rewrite upd_eq|done].
  - intros j Hj. cbn. destruct (Hq j Hj) as (? & ? & ?). unfold upd.
    repeat case_decide; subst; repeat split; try done; lia.
  - done.
Qed.

Lemma posts_quiescent k N p : forall s rest,
  quiescent N s -> prog s = p ++ rest -> (forall a, a ∈ p -> exists i, a = Post i /\ (i < N)%nat) ->
  exists s', rtc (step k N) s s' /\ quiescent N s' /\ prog s' = rest.
Proof.
  induction p as [|a p IH]; intros s rest Hq Hp Ha; [by exists s|].
  destruct (Ha a ltac:(set_solver)) as (i & -> & Hi).
  destruct (post_quiescent k N s i (p ++ rest) Hq Hp Hi) as (s1 & H1 & Hq1 & Hp1).
  destruct (IH s1 rest Hq1 Hp1 ltac:(set_solver)) as (s2 & H2 & ? & ?).
  exists s2. split; [by transitivity s1|done].
Qed.

(** The flags are set while the services wait. *)
Lemma aborts_waiting k N l : forall s,
  prog s = map (fun i => Abort [i]) l -> (forall i, (i < N)%nat -> pcs s i = Wait /\ sem s i = 0) ->
  exists s', rtc (step k N) s s' /\ prog s' = [] /\
    (forall i, (i < N)%nat -> pcs s' i = Wait /\ sem s' i = 0) /\
    (forall i, i ∈ l \/ flag s i = true -> flag s' i = true).
Proof.
  induction l as [|a l IH]; intros s Hp Hw.
  - exists s. repeat split; try done; try by apply Hw. intros i [H|H]; [set_solver|done].
  - destruct (IH {| prog := map (fun i => Abort [i]) l; sem := sem s;
        flag := (fun i => if decide (i ∈ [a]) then true else flag s i); pcs := pcs s; cnt := cnt s |}
        eq_refl Hw) as (s' & H1 & ? & ? & Hf). exists s'. split; [|split; [done|split; [done|]]].
    + eapply rtc_l; [|exact H1]. apply step_seq. unfold seq_step. by rewrite Hp.
    + intros i Hi. apply Hf. cbn. case_decide; [by right|]. destruct Hi as [Hi|Hi]; [|by right].
      left. set_solver.
Qed.

Lemma waiting_stuck k N s :
  prog s = [] -> (forall i, (i < N)%nat -> pcs s i = Wait /\ sem s i = 0) -> stuck k N s.
Proof.
  intros Hp Hw s' [s1 H|i s1 Hi H]; [unfold seq_step in H; by rewrite Hp in H|].
  unfold service_step in H. destruct (Hw i Hi) as [E E']. by rewrite E, E' in H.
Qed.

(** Posts followed by flags: some interleaving leaves every service waiting
    for ever, its flag set. *)
Lemma posts_then_flags_hang k N p :
  (forall a, a ∈ p -> exists i, a = Post i /\ (i < N)%nat) ->
  exists s, reachable k N (p ++ abort_all N) s /\ stuck k N s /\ prog s = [] /\
    forall i, (i < N)%nat -> pcs s i = Wait /\ flag s i = true.
Proof.
  intros Hp. destruct (start_quiescent k N (p ++ abort_all N)) as (s0 & H0 & Hq0 & Hp0).
  destruct (posts_quiescent k N p s0 _ Hq0 Hp0 Hp) as (s1 & H1 & Hq1 & Hp1).
  destruct (aborts_waiting k N (seq 0 N) s1 Hp1) as (s2 & H2 & Hp2 & Hw2 & Hf2).
  { intros i Hi. by destruct (Hq1 i Hi) as (? & ? & _). }
  exists s2. split; [unfold reachable in *; by do 2 (etransitivity; [eassumption|])|].
  split; [by apply waiting_stuck|]. split; [done|]. intros i Hi. split; [by apply Hw2|].
  apply Hf2. left. apply elem_of_seq. lia.
Qed.

Lemma shutdown_no_exit n : Exit ∉ post_all n ++ abort_all n.
Proof.
  intros [Hin | Hin]%elem_of_app; apply list_elem_of_In, in_map_iff in Hin as (i & ? & _); done.
Qed.

(** The posts of a run, all of services below 7. *)
Lemma run_posts table n a :
  proper_table table = true -> a ∈ cycles table 1 n ++ post_all 7 ->
  exists i, a = Post i /\ (i < 7)%nat.
Proof.
  intros [_ Hall]%andb_true_iff Ha. rewrite forallb_forall in Hall.
  apply elem_of_app in Ha as [Ha|Ha]; apply list_elem_of_In in Ha.
  - unfold cycles, release in Ha. apply in_flat_map in Ha as (c & _ & Ha).
    apply in_flat_map in Ha as ([i p] & Hin & Ha). specialize (Hall _ Hin).
    apply andb_true_iff in Hall as [Hi%Nat.ltb_lt _]. case_match; [|by destruct Ha].
    destruct Ha as [<-|[]]. eauto.
  - unfold post_all in Ha. apply in_map_iff in Ha as (i & <- & Hin). apply in_seq in Hin. exists i.
    split; [done|lia].
Qed.

Lemma run_no_exit table n :
  proper_table table = true -> Exit ∉ cycles table 1 n ++ post_all 7 ++ abort_all 7.
Proof.
  intros Ht Hin. rewrite app_assoc in Hin. apply elem_of_app in Hin as [Hin|Hin].
  - by destruct (run_posts _ _ _ Ht Hin) as (i & ? & _).
  - apply list_elem_of_In, in_map_iff in Hin as (i & ? & _). done.
Qed.

(** ** The properties of the four sequencers and of lab1 *)

(** The 100 Hz sequencer thread of seqgen2.c, with sleeps that succeed,
    runs to its end and its actions are the releases of cycles 1 to [n], then
    the posts and then the flags of the shutdown; a service of period [p] is
    posted [n / p] times and once more to shut down. *)
Theorem seqgen2_release_rates (abortTest : Z -> bool) (sequencePeriods n : Z) :
  ends_at abortTest sequencePeriods n ->
  exists acts, Seqgen2.Sequencer (fun _ => 0) abortTest sequencePeriods = Ret acts /\
    acts = cycles Seqgen2.table 1 (Z.to_nat n) ++ post_all 7 ++ abort_all 7 /\
    forall i p, (i, p) ∈ Seqgen2.table -> nposts i acts = n / p + 1.
Proof.
  intros He. assert (Hn := He). destruct Hn as (Hn & _). eexists. split; [|split; [reflexivity|]].
  - unfold Seqgen2.Sequencer. rewrite (seqgen2_loop _ _ n (Z.to_nat (n - 1))) by (done || lia).
    by replace (S (Z.to_nat (n - 1))) with (Z.to_nat n) by lia.
  - intros i p Hin. apply nposts_proper; [vm_compute; reflexivity|done|lia].
Qed.

Lemma seqgen2_release_rates_witness :
  exists acts, Seqgen2.Sequencer (fun _ => 0) (fun _ => false) 2000 = Ret acts /\
    nposts 0 acts = 1001 /\ nposts 6 acts = 21.
Proof.
  destruct (seqgen2_release_rates (fun _ => false) 2000 2000) as (acts & H & _ & Hn).
  { split; [lia|]. split; [lia|]. split; [done|by right]. }
  exists acts. split; [exact H|].
  rewrite (Hn 0%nat 2), (Hn 6%nat 100); [try split; reflexivity|apply (bool_decide_unpack _); exact I..].
Defined.

(** The same for the timer signals of seqgen3.c: they end, disarming the
    timer, and release services 4 and 7 at a twentieth and a hundredth of the
    timer's rate. *)
Theorem seqgen3_release_rates (abortTest : Z -> bool) (sequencePeriods n : Z) (fuel : nat) :
  ends_at abortTest sequencePeriods n -> (Z.to_nat n <= fuel)%nat ->
  exists acts,
    Seqgen3.signals fuel abortTest sequencePeriods Seqgen3.itime_armed = Ret acts /\
    acts = cycles Seqgen3.table 1 (Z.to_nat n) ++ post_all 7 ++ abort_all 7 /\
    nposts 3 acts = n / 20 + 1 /\ nposts 6 acts = n / 100 + 1.
Proof.
  intros He Hf. assert (Hn := He). destruct Hn as (Hn & _).
  eexists. split; [|split; [reflexivity|]].
  - unfold Seqgen3.itime_armed. rewrite (seqgen3_signals _ _ n (Z.to_nat (n - 1))) by (done || lia).
    by replace (S (Z.to_nat (n - 1))) with (Z.to_nat n) by lia.
  - split; apply nposts_proper; try (vm_compute; reflexivity); try lia; unfold Seqgen3.table; set_solver.
Qed.

Lemma seqgen3_release_rates_witness :
  exists acts, Seqgen3.signals 2000 (fun _ => false) Seqgen3.sequencePeriods Seqgen3.itime_armed
               = Ret acts /\ nposts 3 acts = 101 /\ nposts 6 acts = 21.
Proof.
  destruct (seqgen3_release_rates (fun _ => false) Seqgen3.sequencePeriods 2000 2000)
    as (acts & H & _ & H3 & H6).
  { unfold Seqgen3.sequencePeriods. split; [lia|]. split; [lia|]. split; [done|by right]. }
  { lia. }
  exists acts. split; [exact H|]. rewrite H3, H6. split; reflexivity.
Defined.

(** The 30 Hz sequencer thread of seqgen.c does the same when every
    [nanosleep] returns 0; a sleep that a signal interrupts, for which
    [nanosleep] returns -1, ends the whole process instead of being resumed. *)
Theorem seqgen_release_rates (nanosleep : Z -> Z -> Z * (Z * Z)) (abortTest : Z -> bool)
    (sequencePeriods n : Z) :
  ends_at abortTest sequencePeriods n ->
  ((forall c, (nanosleep c 0).1 = 0) ->
   exists acts, Seqgen.Sequencer nanosleep abortTest sequencePeriods = Ret acts /\
     acts = cycles Seqgen.table 1 (Z.to_nat n) ++ post_all 7 ++ abort_all 7 /\
     forall i p, (i, p) ∈ Seqgen.table -> nposts i acts = n / p + 1) /\
  ((nanosleep 0 0).1 = -1 ->
   Seqgen.Sequencer nanosleep abortTest sequencePeriods = Ret [Exit]).
Proof.
  intros He. assert (Hn := He). destruct Hn as (Hn & _). split; intros Hsleep.
  - eexists. split; [|split; [reflexivity|]].
    + unfold Seqgen.Sequencer.
      rewrite (seqgen_loop _ _ _ n (Z.to_nat (n - 1))) by (done || lia).
      by replace (S (Z.to_nat (n - 1))) with (Z.to_nat n) by lia.
    + intros i p Hin. apply nposts_proper; [vm_compute; reflexivity|done|lia].
  - unfold Seqgen.Sequencer. cbn [Seqgen.Sequencer_loop].
    rewrite seqgen_delay_interrupted by done. reflexivity.
Qed.

Lemma seqgen_release_rates_witness :
  (exists acts, Seqgen.Sequencer (fun _ _ => (0, (0, 0))) (fun _ => false) 900 = Ret acts /\
    nposts 6 acts = 4) /\
  Seqgen.Sequencer (fun _ _ => (-1, (0, 5))) (fun _ => false) 900 = Ret [Exit].
Proof.
  assert (ends_at (fun _ => false) 900 900) as He.
  { split; [lia|]. split; [lia|]. split; [done|by right]. }
  split.
  - destruct (seqgen_release_rates (fun _ _ => (0, (0, 0))) _ _ _ He) as [H _].
    destruct H as (acts & H & _ & Hn); [intros c; reflexivity|]. exists acts. split; [exact H|].
    rewrite (Hn 6%nat 300); [try split; reflexivity|apply (bool_decide_unpack _); exact I].
  - apply (seqgen_release_rates (fun _ _ => (-1, (0, 5))) _ _ _ He). reflexivity.
Defined.

(** What the sequencer of seqgen2.c does when [m] sleeps succeed: [m] is the
    last cycle, or the next sleep fails and the process exits. *)
Lemma seqgen2_actions nanosleep abortTest P n m :
  ends_at abortTest P n -> 0 <= m <= n -> (forall j, 0 <= j < m -> nanosleep j = 0) ->
  m = n \/ nanosleep m <> 0 ->
  Seqgen2.Sequencer nanosleep abortTest P
  = Ret (cycles Seqgen2.table 1 (Z.to_nat m) ++
         if m =? n then post_all 7 ++ abort_all 7 else [Exit]).
Proof.
  intros He Hm Hs Hend. assert (Hn := He). destruct Hn as (Hn & HP & _).
  unfold Seqgen2.Sequencer. destruct (Z.eqb_spec m n) as [-> | Hne].
  - rewrite (seqgen2_sleeps _ _ _ n (Z.to_nat (n - 1))) by (intros; first [done | lia | apply Hs; lia]).
    by replace (S (Z.to_nat (n - 1))) with (Z.to_nat n) by lia.
  - apply (seqgen2_sleep_fails _ _ _ n); rewrite ?Z2Nat.id by lia; try done; try lia.
    by destruct Hend.
Qed.

(** C21: in every interleaving of the sequencer of seqgen2.c with its seven
    service threads, at every moment, the posts a service of period [p] still
    gets, the tokens in its semaphore, the token its thread has just taken and
    the releases it has counted add up to the posts of the run: [m / p] for the
    [m] cycles the sequencer reaches, and one more for the shutdown if it
    reaches it.  The results of the sleeps are arbitrary: [m] is the last cycle,
    or the number of the first sleep that fails, after which the process exits
    and only the token just taken can be missing. *)
Theorem seqgen2_no_release_lost (nanosleep : Z -> Z) (abortTest : Z -> bool)
    (sequencePeriods n m : Z) :
  ends_at abortTest sequencePeriods n ->
  0 <= m <= n -> (forall j, 0 <= j < m -> nanosleep j = 0) -> m = n \/ nanosleep m <> 0 ->
  exists acts, Seqgen2.Sequencer nanosleep abortTest sequencePeriods = Ret acts /\
    forall s i p, reachable seqgen_service 7 acts s -> (i, p) ∈ Seqgen2.table ->
      let posts := m / p + (if m =? n then 1 else 0) in
      0 <= sem s i /\ 0 <= cnt s i /\
      (nposts i (prog s) + sem s i + taken (pcs s i) + cnt s i = posts \/
       m < n /\ exited s /\ posts - 1 <= sem s i + cnt s i <= posts).
Proof.
  intros He Hm Hs Hend. eexists. split; [by apply (seqgen2_actions _ _ _ n)|].
  intros s i p Hr Hin posts. assert (Hn := He). destruct Hn as (Hn & HP & _).
  assert (proper_table Seqgen2.table = true) as Hpt by (vm_compute; reflexivity).
  pose proof (run_no_exit _ (Z.to_nat m) Hpt) as [Hno _]%not_elem_of_app.
  set (acts := cycles _ _ _ ++ _) in *.
  assert (Hposts : nposts i acts = posts).
  { destruct (proper_entry _ _ _ Hpt Hin) as (Hnd & Hi & Hp). unfold acts, posts.
    rewrite nposts_app, (nposts_cycles _ i p), Z2Nat.id by (done || lia).
    destruct (m =? n); [rewrite nposts_app, nposts_post_all, nposts_abort_all by done|]; cbn; lia. }
  assert (Hexit : Exit ∈ acts -> m < n).
  { unfold acts. intros [? | Hx]%elem_of_app; [done|]. destruct (Z.eqb_spec m n); [|lia].
    by apply shutdown_no_exit in Hx. }
  assert (Hlast : exit_last acts = true).
  { unfold acts. rewrite exit_last_app by done. by destruct (m =? n). }
  assert (2 <= p) as Hp by (unfold Seqgen2.table in Hin; set_unfold; naive_solver lia).
  assert (Hlt : nposts i acts < 2 ^ 64).
  { rewrite Hposts. unfold posts. assert (m / p <= m / 2) by (apply Z.div_le_compat_l; lia).
    pose proof (Z.mul_div_le m 2 ltac:(lia)). destruct (m =? n); lia. }
  destruct (reachable_conserved 7 acts i s Hlast Hlt Hr) as (Hsem & Hcnt & _ & _ & Heq).
  rewrite Hposts in Heq. split; [done|]. split; [done|].
  destruct Heq as [Heq | (Hx & Hover & Hb)]; [by left|]. right. auto.
Qed.

(** The program of two cycles, the second of which releases service 1. *)
Definition one_release_program : list action :=
  cycles Seqgen2.table 1 2 ++ post_all 7 ++ abort_all 7.

(** One release of service 1 is counted, and the post of the shutdown is to
    come.  Where the third sleep fails, the process ends after two cycles. *)
Lemma seqgen2_no_release_lost_witness :
  (exists s, reachable seqgen_service 7 one_release_program s /\
     cnt s 0%nat = 1 /\ pcs s 0%nat = Check /\
     nposts 0 (prog s) + sem s 0%nat + taken (pcs s 0%nat) + cnt s 0%nat = 2) /\
  exists acts, Seqgen2.Sequencer (fun k => if k =? 2 then -1 else 0) (fun _ => false) 2000 = Ret acts /\
    acts = [Post 0; Exit].
Proof.
  assert (He : ends_at (fun _ => false) 2 2) by (split; [lia|]; split; [lia|]; split; [done|by right]).
  assert (He' : ends_at (fun _ => false) 2000 2000)
    by (split; [lia|]; split; [lia|]; split; [done|by right]).
  split.
  - eassert (Hr : reachable seqgen_service 7 one_release_program _).
    { eapply rtc_l; [eapply (step_service _ _ _ 0); [lia | reflexivity]|].
      eapply rtc_l; [eapply step_seq; reflexivity|].
      eapply rtc_l; [eapply (step_service _ _ _ 0); [lia | reflexivity]|].
      eapply rtc_l; [eapply (step_service _ _ _ 0); [lia | reflexivity]|]. apply rtc_refl. }
    destruct (seqgen2_no_release_lost (fun _ => 0) (fun _ => false) 2 2 2 He) as (acts & Ha & H);
      [lia | done | by left |]. injection Ha as <-.
    destruct (H _ 0%nat 2 Hr) as (_ & _ & [Heq | [Hlt _]]);
      [apply (bool_decide_unpack _); exact I | | lia].
    eexists. split; [exact Hr|]. split; [reflexivity|]. split; [reflexivity|]. exact Heq.
  - destruct (seqgen2_no_release_lost (fun k => if k =? 2 then -1 else 0) (fun _ => false) 2000 2000 2 He')
      as (acts & Ha & _); [lia | | by right |].
    + intros j Hj. destruct (Z.eqb_spec j 2); [lia|done].
    + exists acts. split; [exact Ha|]. vm_compute in Ha. by injection Ha as <-.
Defined.

(** C26: the sequencers of seqgen.c, seqgen2.c and seqgen3.c post the
    semaphores before they set the abort flags.  In each of them some
    interleaving, in which every service is back in [sem_wait] before its flag
    is set, ends with the sequencer finished and all seven services waiting
    for ever, so that [pthread_join] does not return. *)
Theorem seqgen_shutdown_can_hang (abortTest : Z -> bool) (sequencePeriods n : Z)
    (acts : list action) :
  ends_at abortTest sequencePeriods n ->
  Seqgen.Sequencer (fun _ _ => (0, (0, 0))) abortTest sequencePeriods = Ret acts \/
  Seqgen2.Sequencer (fun _ => 0) abortTest sequencePeriods = Ret acts \/
  Seqgen3.signals (Z.to_nat n) abortTest sequencePeriods Seqgen3.itime_armed = Ret acts ->
  exists s, reachable seqgen_service 7 acts s /\ stuck seqgen_service 7 s /\ prog s = [] /\
    forall i, (i < 7)%nat -> pcs s i = Wait /\ flag s i = true.
Proof.
  intros He Hacts. assert (Hn := He). destruct Hn as (Hn & _).
  assert (exists table, proper_table table = true /\
            acts = (cycles table 1 (Z.to_nat n) ++ post_all 7) ++ abort_all 7) as (table & Ht & ->).
  { replace (Z.to_nat n) with (S (Z.to_nat (n - 1))) in * by lia.
    destruct Hacts as [H|[H|H]]; [exists Seqgen.table|exists Seqgen2.table|exists Seqgen3.table];
      (split; [vm_compute; reflexivity|]); rewrite <- app_assoc.
    - unfold Seqgen.Sequencer in H.
      rewrite (seqgen_loop _ _ _ n (Z.to_nat (n - 1))) in H by (done || lia). by injection H as <-.
    - unfold Seqgen2.Sequencer in H.
      rewrite (seqgen2_loop _ _ n (Z.to_nat (n - 1))) in H by (done || lia). by injection H as <-.
    - unfold Seqgen3.itime_armed in H.
      rewrite (seqgen3_signals _ _ n (Z.to_nat (n - 1))) in H by (done || lia).
      by injection H as <-. }
  apply posts_then_flags_hang. intros a Ha. by apply (run_posts table (Z.to_nat n)).
Qed.

Lemma seqgen_shutdown_can_hang_witness :
  exists s, reachable seqgen_service 7 one_release_program s /\ stuck seqgen_service 7 s /\
    prog s = [] /\ forall i, (i < 7)%nat -> pcs s i = Wait /\ flag s i = true.
Proof.
  apply (seqgen_shutdown_can_hang (fun _ => false) 2 2).
  - split; [lia|]. split; [lia|]. split; [done|by right].
  - right. left. reflexivity.
Defined.

(** ** Setting the flags before posting *)

Lemma stops_app i p q : stops i q = true -> stops i (p ++ q) = true.
Proof.
  intros Hq. induction p as [|[j|svcs|] p IH]; cbn; auto. rewrite IH. apply orb_true_r.
Qed.

Lemma seqv4l2_signals abortTest n k c :
  0 <= c -> c + Z.of_nat k + 1 = n -> n < 2 ^ 64 ->
  (forall j, 1 <= j < n -> abortTest j = false) -> abortTest n = true ->
  forall fuel, (k < fuel)%nat ->
  Seqv4l2.signals fuel abortTest {| Seqv4l2.seqCnt := c; Seqv4l2.armed := true |}
  = Ret (cycles Seqv4l2.table (c + 1) k ++ abort_all 3 ++ post_all 3 ++ release Seqv4l2.table n).
Proof.
  intros Hc Heq Hn Hbefore Hat. revert c Hc Heq. induction k as [|k IH]; intros c Hc Heq [|fuel] Hf;
    try lia; cbn [Seqv4l2.signals Seqv4l2.armed Seqv4l2.seqCnt]; unfold Seqv4l2.Sequencer;
    cbn [Seqv4l2.seqCnt Seqv4l2.armed]; rewrite (wrap_small 64) by (unfold in_range; lia).
  - replace (c + 1) with n by lia. rewrite Hat.
    destruct fuel; cbn [Seqv4l2.signals Seqv4l2.armed]; step_run;
      rewrite cycles_O, app_nil_r, app_nil_l, <- app_assoc; reflexivity.
  - rewrite Hbefore by lia. rewrite (IH (c + 1)) by lia. step_run.
    by rewrite app_nil_l, (cycles_S _ (c + 1)), <- app_assoc.
Qed.

(** C25: the timer handler of seqv4l2.c sets the flags before it posts: once
    [abortTest] is read as set, at signal [n], the timer is disarmed, every
    interleaving of the handler with the three frame services ends within a
    bound, and it ends with all three services finished. *)
Theorem seqv4l2_shutdown (abortTest : Z -> bool) (n : Z) (fuel : nat) :
  1 <= n < 2 ^ 64 -> (Z.to_nat n <= fuel)%nat ->
  (forall j, 1 <= j < n -> abortTest j = false) -> abortTest n = true ->
  exists acts, Seqv4l2.signals fuel abortTest Seqv4l2.itime_armed = Ret acts /\
    (forall m s, nsteps (step Seqv4l2.frame_service 3) m (start acts) s ->
       (m <= 4 * length acts + 6)%nat) /\
    (forall s, reachable Seqv4l2.frame_service 3 acts s -> stuck Seqv4l2.frame_service 3 s ->
       prog s = [] /\ forall i, (i < 3)%nat -> pcs s i = Done).
Proof.
  intros Hn Hf Hbefore Hat. eexists. split.
  - unfold Seqv4l2.itime_armed. apply (seqv4l2_signals _ n (Z.to_nat (n - 1))); try done; lia.
  - apply shutdown_complete. intros i Hi. apply stops_app.
    destruct i as [|[|[|i]]]; [reflexivity..|lia].
Qed.

Lemma seqv4l2_shutdown_witness :
  exists acts, Seqv4l2.signals 100 (fun c => c =? 100) Seqv4l2.itime_armed = Ret acts /\
    forall s, reachable Seqv4l2.frame_service 3 acts s -> stuck Seqv4l2.frame_service 3 s ->
       prog s = [] /\ forall i, (i < 3)%nat -> pcs s i = Done.
Proof.
  destruct (seqv4l2_shutdown (fun c => c =? 100) 100 100) as (acts & H & _ & Hs).
  - lia.
  - lia.
  - intros j Hj. apply Z.eqb_neq. lia.
  - reflexivity.
  - exists acts. split; [exact H|exact Hs].
Defined.

(** The sequencer of lab1.c runs its major period at least once, posts
    [fib10] five times and [fib20] twice in each and once more at the end, and
    sets [abortTest] before those last posts: every interleaving with the two
    services ends within a bound, with both of them finished. *)
Theorem lab1_shutdown (MajorPeriods : Z) :
  let acts := Lab1.actions (Lab1.Sequencer MajorPeriods) in
  nposts 0 acts = 5 * Z.max 1 MajorPeriods + 1 /\ nposts 1 acts = 2 * Z.max 1 MajorPeriods + 1 /\
  (forall m s, nsteps (step Lab1.fib_service 2) m (start acts) s ->
     (m <= 4 * length acts + 4)%nat) /\
  (forall s, reachable Lab1.fib_service 2 acts s -> stuck Lab1.fib_service 2 s ->
     prog s = [] /\ forall i, (i < 2)%nat -> pcs s i = Done).
Proof.
  set (n := Z.to_nat (Z.max 1 MajorPeriods)).
  replace (Z.max 1 MajorPeriods) with (Z.of_nat n) by lia.
  assert (Lab1.actions (Lab1.Sequencer MajorPeriods)
          = Lab1.actions (concat (replicate n Lab1.major_period))
            ++ [Abort [0%nat; 1%nat]; Post 0; Post 1]) as ->.
  { unfold Lab1.Sequencer, Lab1.actions. apply flat_map_app. }
  assert (forall i, nposts i (Lab1.actions (concat (replicate n Lab1.major_period)))
            = Z.of_nat n * nposts i (Lab1.actions Lab1.major_period)) as Hmany.
  { intros i. clearbody n. induction n as [|n IH]; [done|]. cbn [replicate concat].
    unfold Lab1.actions in *. rewrite flat_map_app, nposts_app, IH. lia. }
  cbv zeta. rewrite !nposts_app, !Hmany.
  change (nposts 0 (Lab1.actions Lab1.major_period)) with 5.
  change (nposts 1 (Lab1.actions Lab1.major_period)) with 2.
  change (nposts 0 [Abort [0%nat; 1%nat]; Post 0; Post 1]) with 1.
  change (nposts 1 [Abort [0%nat; 1%nat]; Post 0; Post 1]) with 1.
  split; [lia|]. split; [lia|].
  apply shutdown_complete. intros i Hi. apply stops_app.
  destruct i as [|[|i]]; [reflexivity..|lia].
Qed.

(** *** When lab1 posts *)

(** The actions with the time, in milliseconds, at which they happen if every
    sleep takes exactly its time. *)
Fixpoint timeline (t : Z) (es : list Lab1.event) : list (Z * action) :=
  match es with
  | [] => []
  | Lab1.Sleep ms :: es => timeline (t + ms) es
  | Lab1.Do a :: es => (t, a) :: timeline t es
  end.

Definition total_sleep (es : list Lab1.event) : Z :=
  foldr (fun e d => match e with Lab1.Sleep ms => ms + d | Lab1.Do _ => d end) 0 es.

Lemma timeline_app t es es' :
  timeline t (es ++ es') = timeline t es ++ timeline (t + total_sleep es) es'.
Proof.
  revert t. induction es as [|[ms|a] es IH]; intros t; cbn.
  - by rewrite Z.add_0_r.
  - rewrite IH. by rewrite Z.add_assoc.
  - by rewrite IH.
Qed.

(** One major period from a multiple of 100. *)
Lemma major_period_times k t :
  ((t, Post 0) ∈ timeline (100 * k) Lab1.major_period <->
     100 * k <= t < 100 * k + 100 /\ t mod 20 = 0) /\
  ((t, Post 1) ∈ timeline (100 * k) Lab1.major_period <->
     100 * k <= t < 100 * k + 100 /\ t mod 50 = 0).
Proof.
  rewrite !list_elem_of_In. unfold Lab1.major_period. cbn [timeline In].
  split; split; intros H.
  - assert (exists j, t = 20 * (5 * k + j) /\ 0 <= j < 5) as (j & -> & Hj).
    { repeat (destruct H as [H|H]); try contradiction; simplify_eq;
        [exists 0|exists 1|exists 2|exists 3|exists 4]; lia. }
    split; [lia|]. rewrite Z.mul_comm. apply Z.mod_mul. lia.
  - destruct H as [Ht Hm]. apply Z.mod_divide in Hm as [q ->]; [|lia].
    assert (q = 5 * k \/ q = 5 * k + 1 \/ q = 5 * k + 2 \/ q = 5 * k + 3 \/ q = 5 * k + 4)
      as Hq by lia.
    destruct Hq as [->|[->|[->|[->| ->]]]].
    + left. f_equal. lia.
    + do 2 right. left. f_equal. lia.
    + do 3 right. left. f_equal. lia.
    + do 5 right. left. f_equal. lia.
    + do 6 right. left. f_equal. lia.
  - assert (t = 50 * (2 * k) \/ t = 50 * (2 * k + 1)) as [-> | ->]
      by (repeat (destruct H as [H|H]); try contradiction; simplify_eq; lia);
      (split; [lia|]); rewrite Z.mul_comm; apply Z.mod_mul; lia.
  - destruct H as [Ht Hm]. apply Z.mod_divide in Hm as [q ->]; [|lia].
    assert (q = 2 * k \/ q = 2 * k + 1) as [-> | ->] by lia.
    + right. left. f_equal. lia.
    + do 4 right. left. f_equal. lia.
Qed.

(** If the sleeps take exactly their time, the sequencer of lab1.c
    releases [fib10] at the multiples of 20 ms and [fib20] at the multiples of
    50 ms, and at no other time, through all its 100 ms major periods. *)
Theorem lab1_release_times (n : nat) (t : Z) :
  ((t, Post 0) ∈ timeline 0 (concat (replicate n Lab1.major_period)) <->
     0 <= t < 100 * Z.of_nat n /\ t mod 20 = 0) /\
  ((t, Post 1) ∈ timeline 0 (concat (replicate n Lab1.major_period)) <->
     0 <= t < 100 * Z.of_nat n /\ t mod 50 = 0).
Proof.
  assert (forall k, let es := concat (replicate n Lab1.major_period) in
    ((t, Post 0) ∈ timeline (100 * k) es <-> 100 * k <= t < 100 * (k + Z.of_nat n) /\ t mod 20 = 0) /\
    ((t, Post 1) ∈ timeline (100 * k) es <-> 100 * k <= t < 100 * (k + Z.of_nat n) /\ t mod 50 = 0))
    as H; [|exact (H 0)].
  induction n as [|n IH]; intros k; cbn zeta in *.
  - cbn [replicate concat timeline]. rewrite !elem_of_nil. lia.
  - cbn [replicate concat]. rewrite timeline_app, !elem_of_app.
    change (total_sleep Lab1.major_period) with 100.
    replace (100 * k + 100) with (100 * (k + 1)) by lia.
    destruct (major_period_times k t) as [-> ->]. destruct (IH (k + 1)) as [-> ->].
    generalize (t mod 20), (t mod 50). intros. lia.
Qed.

(** *** The synthetic load *)

Lemma fib_pass_F seqCnt j :
  Z.to_nat (seqCnt - 1) = j -> Lab1.fib_pass seqCnt = (u32 (Fib j), u32 (Fib (S j)), u32 (Fib (S (S j)))).
Proof.
  intros Hj. unfold Lab1.fib_pass. rewrite Hj. clear Hj. induction j as [|j IH]; [reflexivity|].
  rewrite Nat.iter_succ, IH. rewrite (Fib_SS (S j)). unfold wrap. by rewrite <- Zplus_mod.
Qed.

(** A run of [FIB_TEST(seqCnt, iterCnt)] leaves in [fib] the Fibonacci
    number after the one at [seqCnt] modulo 2^32; it is the number itself
    exactly up to [seqCnt] 46: with 47, the value of [FIB_LIMIT_FOR_32_BIT],
    the 32-bit sum has overflowed. *)
Theorem fib_test_value (seqCnt iterCnt : Z) (old : Z * Z * Z) :
  1 <= seqCnt -> 1 <= iterCnt ->
  let fib := snd (Lab1.FIB_TEST seqCnt iterCnt old) in
  fib = u32 (Fib (Z.to_nat (seqCnt + 1))) /\
  (fib = Fib (Z.to_nat (seqCnt + 1)) <-> seqCnt <= 46).
Proof.
  intros Hs Hi. cbv zeta. unfold Lab1.FIB_TEST.
  replace (Z.to_nat iterCnt) with (S (Z.to_nat (iterCnt - 1))) by lia. rewrite Nat.iter_succ.
  rewrite (fib_pass_F _ (Z.to_nat (seqCnt - 1))) by done. cbn [snd].
  replace (Z.to_nat (seqCnt + 1)) with (S (S (Z.to_nat (seqCnt - 1)))) by lia.
  split; [done|]. set (n := S (S (Z.to_nat (seqCnt - 1)))). split; intros H.
  - assert (Fib n < 2 ^ 32) as Hlt by (rewrite <- H; apply wrap_range; lia).
    apply Z.nlt_ge. intros Hgt. assert (Fib 48 <= Fib n) as Hm by (apply Fib_mono; lia).
    assert (Fib 48 = 4807526976) by reflexivity. lia.
  - apply wrap_small. pose proof (Fib_mono n 47 ltac:(lia)).
    assert (Fib 47 = 2971215073) by reflexivity. unfold in_range. lia.
Qed.

Lemma fib_test_value_witness : snd (Lab1.FIB_TEST 10 100 (0, 1, 0)) = 89.
Proof. destruct (fib_test_value 10 100 (0, 1, 0)) as [H _]; [lia..|]. rewrite H. reflexivity. Defined.

(** ** Rate-monotonic priorities *)

(** Threads of services with shorter periods have priorities in [R] with
    those of longer ones. *)
Definition by_rate (R : Z -> Z -> Prop) (table : list (nat * Z)) (threads : list thread) : Prop :=
  forall i p j q t u, (i, p) ∈ table -> (j, q) ∈ table -> p < q ->
    t ∈ threads -> u ∈ threads -> service t = i -> service u = j ->
    R (sched_priority u) (sched_priority t).

(** It is enough to know the priority as a function of the service. *)
Lemma by_rate_function R table threads prio :
  (forall t, t ∈ threads -> sched_priority t = prio (service t)) ->
  (forall i p j q, (i, p) ∈ table -> (j, q) ∈ table -> p < q -> R (prio j) (prio i)) ->
  by_rate R table threads.
Proof. intros Ht HR i p j q t u Hi Hj Hpq Htt Hu <- <-. rewrite !Ht by done. eauto. Qed.

(** All pairs of a table of constants. *)
Ltac table_pairs :=
  intros i p j q Hi Hj; apply list_elem_of_In in Hi, Hj; cbn [In] in Hi, Hj;
  repeat (destruct Hi as [Hi|Hi]); try contradiction; simplify_eq;
  repeat (destruct Hj as [Hj|Hj]); try contradiction; simplify_eq; cbn; lia.

(** The threads of seqgen2.c, seqgen3.c and seqv4l2.c have rate-monotonic
    priorities: of two services with different periods, the one released more
    often has the higher priority.  In seqgen.c it does not have the lower
    one, but service 4, released at 1 Hz, has the priority of service 3,
    released at 0.5 Hz. *)
Theorem priorities_rate_monotonic (rt_max_prio rt_min_prio : Z) :
  rt_min_prio < rt_max_prio - 6 ->
  by_rate Z.lt Seqgen2.table (Seqgen2.created rt_max_prio rt_min_prio) /\
  by_rate Z.lt Seqgen3.table (Seqgen3.created rt_max_prio rt_min_prio) /\
  by_rate Z.lt Seqv4l2.table (Seqv4l2.created rt_max_prio) /\
  by_rate Z.le Seqgen.table (Seqgen.created rt_max_prio rt_min_prio) /\
  ~ by_rate Z.lt Seqgen.table (Seqgen.created rt_max_prio rt_min_prio).
Proof.
  intros Hp. split; [|split; [|split; [|split]]].
  - apply (by_rate_function _ _ _
      (fun i => if (i =? 6)%nat then rt_min_prio else rt_max_prio - (Z.of_nat i + 1))); [|table_pairs].
    intros t Ht. apply list_elem_of_In, in_map_iff in Ht as (i & <- & Hi%in_seq). cbn.
    destruct (Nat.eqb_spec i 7), (Nat.eqb_spec (i - 1) 6); lia.
  - apply (by_rate_function _ _ _
      (fun i => if (i =? 6)%nat then rt_min_prio else rt_max_prio - (Z.of_nat i + 1))); [|table_pairs].
    intros t Ht. apply list_elem_of_In, in_map_iff in Ht as (i & <- & Hi%in_seq). done.
  - apply (by_rate_function _ _ _ (fun i => rt_max_prio - (Z.of_nat i + 1))); [|table_pairs].
    intros t Ht. apply list_elem_of_In, in_map_iff in Ht as (i & <- & Hi%in_seq). done.
  - apply (by_rate_function _ _ _ (fun i => nth i
      [rt_max_prio - 1; rt_max_prio - 2; rt_max_prio - 3; rt_max_prio - 3; rt_max_prio - 3;
       rt_max_prio - 2; rt_min_prio] 0)); [|table_pairs].
    intros t Ht. apply list_elem_of_In, in_map_iff in Ht as ([i prio] & <- & Hi). cbn in Hi |- *.
    repeat (destruct Hi as [Hi|Hi]); try contradiction; by simplify_eq.
  - intros H. specialize (H 3%nat 30 2%nat 60
      {| service := 3; sched_priority := rt_max_prio - 3; cpu := None |}
      {| service := 2; sched_priority := rt_max_prio - 3; cpu := None |}). cbn in H.
    unfold Seqgen.table, Seqgen.created in H. cbn in H.
    apply (Z.lt_irrefl (rt_max_prio - 3)). apply H; try reflexivity;
      rewrite list_elem_of_In; cbn; auto 8.
Qed.

Lemma priorities_rate_monotonic_witness :
  by_rate Z.lt Seqgen2.table (Seqgen2.created 99 1).
Proof. apply (priorities_rate_monotonic 99 1). reflexivity. Defined.
