(* ===== verification/CString.v ===== *)
(** * C strings in fixed arrays

    What the image dumpers of the capture programs use of the C library's
    string functions: [%d] conversions with a width, [snprintf] and [strncat]
    into an array, whose characters are the numbers of their bytes.  A write
    past the end of the array, or a search that finds no terminator in it, is
    undefined ([None]). *)
From Stdlib Require Import Ascii String.
From stdpp Require Import option list sets.
From S2P Require Import Prelude.
#[local] Open Scope Z_scope.

(** The bytes of a literal. *)
Definition bytes (s : string) : list Z :=
  map (fun c => Z.of_nat (nat_of_ascii c)) (list_ascii_of_string s).

(** ** Decimal conversions *)

(** The last [n] decimal digits of [z]. *)
Fixpoint digits (n : nat) (z : Z) : list Z :=
  match n with O => [] | S n => digits n (z / 10) ++ [48 + z mod 10] end.

(** The number of decimal digits of [z]; an [int] has at most ten. *)
Fixpoint ndigits (fuel : nat) (z : Z) : nat :=
  match fuel with
  | O => 1
  | S fuel => if z <? 10 then 1 else S (ndigits fuel (z / 10))
  end.

(** [%0wd] of an [int]. *)
Definition format_d (w : nat) (z : Z) : list Z :=
  if z <? 0 then 45 :: digits (max (w - 1) (ndigits 9 (- z))) (- z)
  else digits (max w (ndigits 9 z)) z.

(** The number that a string of digits spells. *)
Definition undigits (s : list Z) : Z := fold_left (fun acc c => 10 * acc + (c - 48)) s 0.

Lemma length_digits n z : length (digits n z) = n.
Proof. revert z. induction n as [|n IH]; intros z; cbn; [done|]. rewrite length_app, IH. cbn. lia. Qed.

(** Converting to digits and back, modulo the digits kept. *)
Lemma undigits_digits n z : 0 <= z -> undigits (digits n z) = z mod 10 ^ Z.of_nat n.
Proof.
  revert z. induction n as [|n IH]; intros z Hz; cbn [digits]; [by rewrite Z.mod_1_r|].
  unfold undigits in *. rewrite fold_left_app, IH by (apply Z.div_pos; lia). cbn [fold_left].
  rewrite Nat2Z.inj_succ, Z.pow_succ_r, Z.rem_mul_r by lia. lia.
Qed.

Lemma digits_char n z c : c ∈ digits n z -> 48 <= c <= 57.
Proof.
  revert z. induction n as [|n IH]; intros z; cbn; [set_solver|].
  intros [H|H]%elem_of_app; [by eapply IH|]. apply list_elem_of_singleton in H as ->.
  pose proof (Z.mod_pos_bound z 10). lia.
Qed.

Lemma ndigits_small fuel z n :
  (1 <= n)%nat -> 0 <= z < 10 ^ Z.of_nat n -> (ndigits fuel z <= n)%nat.
Proof.
  revert z n. induction fuel as [|fuel IH]; intros z n Hn Hz; cbn; [done|].
  destruct (Z.ltb_spec z 10) as [|Hge]; [done|]. destruct n as [|[|n]]; [lia|cbn in Hz; lia|].
  apply le_n_S, IH; [lia|]. split; [apply Z.div_pos; lia|].
  rewrite Nat2Z.inj_succ, Z.pow_succ_r in Hz by lia. apply Z.div_lt_upper_bound; lia.
Qed.

Lemma ndigits_large fuel z n :
  (n <= fuel)%nat -> 10 ^ Z.of_nat n <= z -> (n < ndigits fuel z)%nat.
Proof.
  revert z n. induction fuel as [|fuel IH]; intros z n Hn Hz; cbn; [lia|].
  assert (1 <= 10 ^ Z.of_nat n) by (apply Z.pow_le_mono_r with (a := 10) (b := 0); lia || done).
  destruct n as [|n]; [case_match; lia|].
  rewrite Nat2Z.inj_succ, Z.pow_succ_r in Hz by lia.
  assert (1 <= 10 ^ Z.of_nat n) by (apply Z.pow_le_mono_r with (a := 10) (b := 0); lia || done).
  rewrite (proj2 (Z.ltb_ge z 10)) by lia.
  assert (n < ndigits fuel (z / 10))%nat; [|lia].
  apply IH; [lia|]. apply Z.div_le_lower_bound; lia.
Qed.

(** ** snprintf and strncat *)

(** [strlen]: the characters before the first 0. *)
Fixpoint strlen (s : list Z) : option nat :=
  match s with
  | [] => None
  | c :: s => if c =? 0 then Some O else S <$> strlen s
  end.

(** [snprintf(&a[off], n, ...)] of the text [s]. *)
Definition snprintf (a : list Z) (off n : nat) (s : list Z) : option (list Z) :=
  store a off (take (n - 1) s ++ [0]).

(** [strncat(&a[off], s, n)]. *)
Definition strncat (a : list Z) (off : nat) (s : list Z) (n : nat) : option (list Z) :=
  k ← strlen (drop off a); store a (off + k) (take n s ++ [0]).

Lemma strlen_app s b :
  (forall c, c ∈ s -> c <> 0) -> strlen (s ++ 0 :: b) = Some (length s).
Proof.
  induction s as [|c s IH]; intros Hs; [done|]. cbn.
  rewrite (proj2 (Z.eqb_neq c 0)) by (apply Hs; set_solver).
  by rewrite IH by set_solver.
Qed.

Lemma store_app {A} (a b c : list A) :
  (length c <= length b)%nat ->
  store (a ++ b) (length a) c = Some (a ++ c ++ drop (length c) b).
Proof.
  intros H. rewrite store_Some by (rewrite length_app; lia). unfold splice.
  by rewrite take_app_length, drop_app_ge, Nat.add_comm, Nat.add_sub by lia.
Qed.

Lemma store_at {A} k (a b c : list A) :
  k = length a -> (length c <= length b)%nat ->
  store (a ++ b) k c = Some (a ++ c ++ drop (length c) b).
Proof. intros ->. apply store_app. Qed.

Lemma store_overflow {A} (a : list A) o c : (length a < o + length c)%nat -> store a o c = None.
Proof. intros H. unfold store. by rewrite (proj2 (Nat.leb_gt _ _)). Qed.

(** A text that fits before the rest of the array. *)
Lemma snprintf_app a b n s :
  (length s < n)%nat -> (length s < length b)%nat ->
  snprintf (a ++ b) (length a) n s = Some (a ++ s ++ 0 :: drop (S (length s)) b).
Proof.
  intros Hn Hb. unfold snprintf. rewrite take_ge by lia.
  rewrite store_app by (rewrite length_app; cbn; lia).
  by rewrite length_app, Nat.add_comm, <- app_assoc.
Qed.

(** A text appended at the terminator. *)
Lemma strncat_app a b n s :
  (length s <= n)%nat -> (length s <= length b)%nat ->
  strncat (a ++ 0 :: b) (length a) s n = Some (a ++ s ++ 0 :: drop (length s) b).
Proof.
  intros Hn Hb. unfold strncat. rewrite drop_app_length. cbn [strlen Z.eqb mbind option_bind].
  rewrite Nat.add_0_r, take_ge by lia.
  rewrite store_app by (rewrite length_app; cbn; lia).
  by rewrite length_app, Nat.add_comm, <- app_assoc.
Qed.
