(* ===== verification/Timespec.v ===== *)
(** * Time stamps: struct timespec

    Shared by the components that read clocks: the record, the instant it
    denotes in nanoseconds, and when it is normalised. *)
From stdpp Require Import option.
From S2P Require Import Prelude.
#[local] Open Scope Z_scope.

Record timespec := { tv_sec : Z; tv_nsec : Z }.

Definition NSEC_PER_SEC : Z := 1000000000.

(** The instant or duration in nanoseconds. *)
Definition nsecs (t : timespec) : Z := tv_sec t * NSEC_PER_SEC + tv_nsec t.

(** What the kernel accepts and returns: nanoseconds below a second. *)
Definition normalised (t : timespec) : Prop := 0 <= tv_nsec t < NSEC_PER_SEC.

Lemma nsecs_sec t : normalised t -> tv_sec t = nsecs t / NSEC_PER_SEC.
Proof.
  unfold normalised, nsecs. intros Ht. rewrite Z.add_comm, Z.div_add by done.
  by rewrite Z.div_small.
Qed.

Lemma nsecs_nsec t : normalised t -> tv_nsec t = nsecs t mod NSEC_PER_SEC.
Proof.
  unfold normalised, nsecs. intros Ht. rewrite Z.add_comm, Z.mod_add by done.
  by rewrite Z.mod_small.
Qed.

(** A normalised time stamp is determined by the instant. *)
Lemma nsecs_inj t t' : normalised t -> normalised t' -> nsecs t = nsecs t' -> t = t'.
Proof.
  intros H H' E. pose proof (nsecs_sec t H) as Hs. pose proof (nsecs_nsec t H) as Hn.
  rewrite E, <- nsecs_sec in Hs by done. rewrite E, <- nsecs_nsec in Hn by done.
  destruct t, t'; cbn in *; congruence.
Qed.
