(* ===== verification/Capture.v ===== *)
(** * Frame capture: sequencer_generic/capturelib.c

    Frames read from a V4L2 camera go into a ring buffer of three, are
    converted from YUYV to RGB into a scratchpad and written to numbered PPM
    files.  The state is a record of the file's globals; the results of the
    driver's ioctls, of [select], [nanosleep], [clock_gettime] and [write] are
    arguments.  [frame_size] is [HRES*VRES*PIXEL_SIZE].  [None] as a result is
    the end of the process ([exit] or a failed [assert]); [Undef] is an access
    outside an array. *)
From Stdlib Require Import String.
From stdpp Require Import option list sets.
From S2P Require Import Prelude CString Timespec Sequencer.
#[local] Open Scope Z_scope.

(** ** The dumpers: dump_ppm and dump_pgm *)

(** The two static character arrays of a dumper. *)
Record dumper := { header : list Z; dumpname : list Z }.

(** [HRES_STR" "VRES_STR"\n255\n"], and the initial arrays. *)
Definition size_lines : list Z := bytes "640 480" ++ [10] ++ bytes "255" ++ [10].
Definition initial_header (magic : string) : list Z :=
  bytes magic ++ [10] ++ bytes "#9999999999 sec 9999999999 msec " ++ [10] ++ size_lines ++ [0].
Definition initial_dumpname (suffix : string) : list Z :=
  bytes "frames/test0000" ++ bytes suffix ++ [0].

Definition ppm0 : dumper :=
  {| header := initial_header "P6"; dumpname := initial_dumpname ".ppm" |}.
Definition pgm0 : dumper :=
  {| header := initial_header "P5"; dumpname := initial_dumpname ".pgm" |}.

(** The [do ... while(total < size)] loop; [wr i] is the result of the [i]-th
    [write], an [int], which transfers that many bytes from the start of [p].
    [total] is an [int] as well: a sum that is not one is undefined.  (Of 0 and
    an [int] it always is one.) *)
Fixpoint write_loop (fuel : nat) (wr : nat -> Z) (i : nat) (p : list Z) (size total : Z)
    (file : list Z) : outcome (list Z) :=
  match fuel with
  | O => NoFuel
  | S fuel =>
      let written := wr i in
      let file := file ++ take (Z.to_nat written) p in
      if negb ((total =? 0) || in_int (total + written)) then Undef else
      let total := total + written in
      if total <? size then write_loop fuel wr (i + 1) p size total file else Ret file
  end.

(** The [snprintf] and [strncat] calls on the two arrays. *)
Definition dump_name (suffix : string) (d : dumper) (tag : Z) : option (list Z) :=
  name ← snprintf (dumpname d) 11 9 (format_d 4 (swrap 32 tag));
  strncat name 15 (bytes suffix) 5.

Definition dump_header (d : dumper) (time : timespec) : option (list Z) :=
  hdr ← snprintf (header d) 4 11 (format_d 10 (swrap 32 (tv_sec time)));
  hdr ← strncat hdr 14 (bytes " sec ") 5;
  hdr ← snprintf hdr 19 11 (format_d 10 (swrap 32 (tv_nsec time ÷ 1000000)));
  strncat hdr 29 (bytes " msec " ++ [10] ++ size_lines) 19.

(** The new arrays and the file written: its name and contents. *)
Definition dump (suffix : string) (fuel : nat) (wr : nat -> Z) (d : dumper) (p : list Z)
    (size tag : Z) (time : timespec) : outcome (dumper * (list Z * list Z)) :=
  name ← lift (dump_name suffix d tag);
  hdr ← lift (dump_header d time);
  n ← lift (strlen name);
  let file := take (Z.to_nat (wr O)) (take (length hdr - 1) hdr) in
  if Z.of_nat (length p) <? size then Undef else
  file ← write_loop fuel wr 1 (take (Z.to_nat size) p) size 0 file;
  Ret ({| header := hdr; dumpname := name |}, (take n name, file)).

Definition dump_ppm := dump ".ppm".
Definition dump_pgm := dump ".pgm".

(** ** yuv2rgb *)

(** [if (x > 255) x = 255; ... if (x < 0) x = 0;] *)
Definition clip (x : Z) : Z :=
  let x := if 255 <? x then 255 else x in
  if x <? 0 then 0 else x.

Definition yuv2rgb (y u v : Z) : list Z :=
  let c := y - 16 in
  let d := u - 128 in
  let e := v - 128 in
  let r1 := (298 * c + 409 * e + 128) .>> 8 in
  let g1 := (298 * c - 100 * d - 208 * e + 128) .>> 8 in
  let b1 := (298 * c + 516 * d + 128) .>> 8 in
  [u8 (clip r1); u8 (clip g1); u8 (clip b1)].

(** ** The globals *)

Inductive pixelformat := GREY | YUYV | RGB24 | OtherFormat.

Record ring_buffer_t := {
  ring_size : Z;
  tail_idx : Z;
  head_idx : Z;
  count : Z;
  save_frame : list (list Z)
}.

Record capture := {
  ring_buffer : ring_buffer_t;
  read_framecnt : Z;
  process_framecnt : Z;
  save_framecnt : Z;
  scratchpad_buffer : list Z;
  ppm : dumper;
  pgm : dumper;
  files : list (list Z * list Z)      (** written so far, the last one first *)
}.

Definition set_ring (st : capture) (r : ring_buffer_t) : capture :=
  {| ring_buffer := r; read_framecnt := read_framecnt st; process_framecnt := process_framecnt st;
     save_framecnt := save_framecnt st; scratchpad_buffer := scratchpad_buffer st;
     ppm := ppm st; pgm := pgm st; files := files st |}.

Definition HRES : Z := 640.
Definition VRES : Z := 480.
Definition PIXEL_SIZE : Z := 2.
Definition MAX_HRES : Z := 1920.
Definition MAX_VRES : Z := 1080.
Definition MAX_PIXEL_SIZE : Z := 3.
Definition FRAMES_PER_SEC : Z := 1.
Definition STARTUP_FRAMES : Z := 30.

(** Projections of known states. *)
Ltac capture_simpl :=
  cbn [set_ring ring_buffer read_framecnt process_framecnt save_framecnt scratchpad_buffer ppm pgm
       files ring_size tail_idx head_idx count save_frame].

(** ** save_image and process_image *)

(** Dump [p] through the ppm or the pgm arrays and record the file. *)
Definition save_ppm (fuel : nat) (wr : nat -> Z) (st : capture) (p : list Z) (size tag : Z)
    (time : timespec) : outcome capture :=
  '(d, f) ← dump_ppm fuel wr (ppm st) p size tag time;
  Ret {| ring_buffer := ring_buffer st; read_framecnt := read_framecnt st;
         process_framecnt := process_framecnt st; save_framecnt := save_framecnt st;
         scratchpad_buffer := scratchpad_buffer st; ppm := d; pgm := pgm st;
         files := f :: files st |}.

Definition save_pgm (fuel : nat) (wr : nat -> Z) (st : capture) (p : list Z) (size tag : Z)
    (time : timespec) : outcome capture :=
  '(d, f) ← dump_pgm fuel wr (pgm st) p size tag time;
  Ret {| ring_buffer := ring_buffer st; read_framecnt := read_framecnt st;
         process_framecnt := process_framecnt st; save_framecnt := save_framecnt st;
         scratchpad_buffer := scratchpad_buffer st; ppm := ppm st; pgm := d;
         files := f :: files st |}.

(** Returns the new [save_framecnt] as well. *)
Definition save_image (fmt : pixelformat) (fuel : nat) (wr : nat -> Z) (st : capture)
    (p : list Z) (size : Z) (frame_time : timespec) : outcome (capture * Z) :=
  let cnt := swrap 32 (save_framecnt st + 1) in
  let st := {| ring_buffer := ring_buffer st; read_framecnt := read_framecnt st;
               process_framecnt := process_framecnt st; save_framecnt := cnt;
               scratchpad_buffer := scratchpad_buffer st; ppm := ppm st; pgm := pgm st;
               files := files st |} in
  st ←
    match fmt with
    | GREY => save_pgm fuel wr st p size cnt frame_time
    | YUYV => if 0 <? cnt then save_ppm fuel wr st p ((size * 6) ÷ 4) cnt frame_time else Ret st
    | RGB24 => save_ppm fuel wr st p size (process_framecnt st) frame_time
    | OtherFormat => Ret st
    end;
  Ret (st, cnt).

(** One iteration of the conversion loop: four bytes give two pixels. *)
Definition convert_quad (frame_ptr : list Z) (k : nat) (scratch : list Z) : option (list Z) :=
  let i := 4 * Z.of_nat k in
  y_temp ← aget frame_ptr i;
  u_temp ← aget frame_ptr (i + 1);
  y2_temp ← aget frame_ptr (i + 2);
  v_temp ← aget frame_ptr (i + 3);
  store scratch (6 * k) (yuv2rgb y_temp u_temp v_temp ++ yuv2rgb y2_temp u_temp v_temp).

(** The loop [for(i=0, newi=0; i<size; i=i+4, newi=newi+6)]. *)
Definition convert (frame_ptr scratch : list Z) (size : Z) : option (list Z) :=
  for_loop (Z.to_nat ((size + 3) / 4)) 0 (convert_quad frame_ptr) scratch.

Definition process_image (fmt : pixelformat) (st : capture) (p : list Z) (size : Z)
    : outcome (capture * Z) :=
  let cnt := swrap 32 (process_framecnt st + 1) in
  scratch ←
    match fmt with
    | YUYV => lift (convert p (scratchpad_buffer st) size)
    | _ => Ret (scratchpad_buffer st)
    end;
  Ret ({| ring_buffer := ring_buffer st; read_framecnt := read_framecnt st;
          process_framecnt := cnt; save_framecnt := save_framecnt st;
          scratchpad_buffer := scratch; ppm := ppm st; pgm := pgm st; files := files st |}, cnt).

(** ** Reading a frame *)

(** What [VIDIOC_DQBUF] returns: a filled buffer, [EAGAIN], [EIO] or another
    error. *)
Inductive dequeue := Dequeued (index bytesused : Z) | Eagain | Eio | DequeueError.

(** Returns the state, [frame_buf]'s index and [bytesused], which are zero
    after [CLEAR], and the result 0 or 1. *)
Definition read_frame (n_buffers : Z) (dq : dequeue) (st : capture)
    : option (capture * (Z * Z) * Z) :=
  match dq with
  | Eagain | Eio => Some (st, (0, 0), 0)
  | DequeueError => None
  | Dequeued index bytesused =>
      let st := {| ring_buffer := ring_buffer st;
                   read_framecnt := swrap 32 (read_framecnt st + 1);
                   process_framecnt := process_framecnt st; save_framecnt := save_framecnt st;
                   scratchpad_buffer := scratchpad_buffer st; ppm := ppm st; pgm := pgm st;
                   files := files st |} in
      if index <? n_buffers then Some (st, (index, bytesused), 1) else None
  end.

(** [memcpy] of the buffer's first [bytesused] bytes to the frame at the tail,
    then the advance of the tail. *)
Definition ring_put (r : ring_buffer_t) (buffer : list Z) (bytesused : Z)
    : option ring_buffer_t :=
  slot ← aget (save_frame r) (tail_idx r);
  if Z.of_nat (length buffer) <? bytesused then None else
  slot ← store slot 0 (take (Z.to_nat bytesused) buffer);
  fs ← aset (save_frame r) (tail_idx r) slot;
  Some {| ring_size := ring_size r;
          tail_idx := u32 (tail_idx r + 1) mod ring_size r;
          head_idx := head_idx r; count := swrap 32 (count r + 1); save_frame := fs |}.

(** [buffers] is what the driver's mapped buffers hold; [requeued] says
    whether [VIDIOC_QBUF] succeeded. *)
Definition seq_frame_read (buffers : list (list Z)) (dq : dequeue) (requeued : bool)
    (st : capture) : outcome (option capture) :=
  match read_frame (Z.of_nat (length buffers)) dq st with
  | None => Ret None
  | Some (st, (index, bytesused), _) =>
      buffer ← lift (aget buffers index);
      r ← lift (ring_put (ring_buffer st) buffer bytesused);
      Ret (if requeued then Some (set_ring st r) else None)
  end.

Section services.
Context (frame_size : Z).

Definition set_head (r : ring_buffer_t) (head count : Z) : ring_buffer_t :=
  {| ring_size := ring_size r; tail_idx := tail_idx r; head_idx := head; count := count;
     save_frame := save_frame r |}.

Definition seq_frame_process (fmt : pixelformat) (st : capture) : outcome (capture * Z) :=
  let r := ring_buffer st in
  let r := set_head r (u32 (head_idx r + 2) mod ring_size r) (count r) in
  frame ← lift (aget (save_frame r) (head_idx r));
  '(st, cnt) ← process_image fmt (set_ring st r) frame frame_size;
  let r := set_head r (u32 (head_idx r + 3) mod ring_size r) (swrap 32 (count r - 5)) in
  Ret (set_ring st r, cnt).

Definition seq_frame_store (fmt : pixelformat) (fuel : nat) (wr : nat -> Z) (time_now : timespec)
    (st : capture) : outcome (capture * Z) :=
  save_image fmt fuel wr st (scratchpad_buffer st) frame_size time_now.
End services.

(** ** The conversion of a frame *)

(** The two RGB pixels of the [k]-th group of four bytes. *)
Definition rgb_quad (frame : list Z) (k : nat) : list Z :=
  yuv2rgb (elt frame (4 * k)) (elt frame (4 * k + 1)) (elt frame (4 * k + 3)) ++
  yuv2rgb (elt frame (4 * k + 2)) (elt frame (4 * k + 1)) (elt frame (4 * k + 3)).

(** The RGB image of the first [4 * n] bytes. *)
Definition rgb (frame : list Z) (n : nat) : list Z := concat (map (rgb_quad frame) (seq 0 n)).

Lemma rgb_S frame n : rgb frame (S n) = rgb frame n ++ rgb_quad frame n.
Proof. unfold rgb. rewrite seq_S, map_app, concat_app. cbn [map concat]. by rewrite app_nil_r. Qed.

Lemma length_rgb frame n : length (rgb frame n) = (6 * n)%nat.
Proof. induction n as [|n IH]; [done|]. rewrite rgb_S, length_app, IH. cbn. lia. Qed.

Lemma aget_elt (l : list Z) (i : nat) : (i < length l)%nat -> aget l (Z.of_nat i) = Some (elt l i).
Proof.
  intros Hi. unfold aget. rewrite (proj2 (Z.leb_le 0 _)), Nat2Z.id by lia. by apply elt_Some.
Qed.

Lemma convert_quad_spec frame k scratch :
  (4 * k + 3 < length frame)%nat -> (6 * k + 6 <= length scratch)%nat ->
  convert_quad frame k (rgb frame k ++ drop (6 * k) scratch)
  = Some (rgb frame (S k) ++ drop (6 * S k) scratch).
Proof.
  intros Hf Hs. unfold convert_quad.
  replace (4 * Z.of_nat k) with (Z.of_nat (4 * k)) by lia.
  replace (Z.of_nat (4 * k) + 1) with (Z.of_nat (4 * k + 1)) by lia.
  replace (Z.of_nat (4 * k) + 2) with (Z.of_nat (4 * k + 2)) by lia.
  replace (Z.of_nat (4 * k) + 3) with (Z.of_nat (4 * k + 3)) by lia.
  rewrite !aget_elt by lia. cbn [mbind option_bind].
  rewrite (store_at (6 * k)) by (rewrite ?length_rgb, ?length_drop; cbn; lia).
  rewrite rgb_S, drop_drop. unfold rgb_quad. rewrite <- !app_assoc.
  by replace (6 * S k)%nat with (6 * k + 6)%nat by lia.
Qed.

Lemma convert_spec frame scratch n :
  (4 * n <= length frame)%nat -> (6 * n <= length scratch)%nat ->
  convert frame scratch (4 * Z.of_nat n) = Some (rgb frame n ++ drop (6 * n) scratch).
Proof.
  intros Hf Hs. unfold convert.
  replace (Z.to_nat ((4 * Z.of_nat n + 3) / 4)) with n.
  2: { replace ((4 * Z.of_nat n + 3) / 4) with (Z.of_nat n); [lia|].
       apply (Z.div_unique _ _ _ 3); lia. }
  destruct (for_loop_option (fun k s => s = rgb frame k ++ drop (6 * k) scratch)
              (convert_quad frame) n 0 scratch) as (s & Hs' & ->); [done| |by rewrite Hs'].
  intros k s Hk ->. eexists. split; [apply convert_quad_spec; lia|by rewrite Nat.add_1_r].
Qed.

(** ** The files written *)

(** The arrays of a dumper keep their fixed prefixes and their sizes. *)
Definition dumper_ok (magic : list Z) (d : dumper) : Prop :=
  length magic = 4%nat /\
  (exists r, header d = magic ++ r /\ length r = 45%nat) /\
  (exists r, dumpname d = bytes "frames/test" ++ r /\ length r = 9%nat).

Definition ppm_magic : list Z := bytes "P6" ++ [10] ++ bytes "#".
Definition pgm_magic : list Z := bytes "P5" ++ [10] ++ bytes "#".

Lemma ppm0_ok : dumper_ok ppm_magic ppm0.
Proof. split; [done|]. split; eexists; by vm_compute. Qed.
Lemma pgm0_ok : dumper_ok pgm_magic pgm0.
Proof. split; [done|]. split; eexists; by vm_compute. Qed.

(** The name of file number [tag] and the header with a time stamp. *)
Definition file_name (suffix : string) (tag : Z) : list Z :=
  bytes "frames/test" ++ digits 4 tag ++ bytes suffix.
Definition header_text (magic : list Z) (time : timespec) : list Z :=
  magic ++ digits 10 (tv_sec time) ++ bytes " sec " ++
  digits 10 (tv_nsec time / 1000000) ++ bytes " msec " ++ [10] ++ size_lines.

Definition time_ok (time : timespec) : Prop :=
  0 <= tv_sec time <= INT_MAX /\ 0 <= tv_nsec time < 1000000000.

Lemma format_digits w z :
  (1 <= w)%nat -> 0 <= z < 10 ^ Z.of_nat w -> format_d w z = digits w z.
Proof.
  intros Hw Hz. unfold format_d. rewrite (proj2 (Z.ltb_ge z 0)) by lia.
  f_equal. pose proof (ndigits_small 9 z w Hw Hz). lia.
Qed.

(** A text written at the end of the known part [a] of an array of [n] more
    characters, with its terminator. *)
Lemma snprintf_step arr a b n k s :
  arr = a ++ b -> k = length a -> (length s < n)%nat -> (length s < length b)%nat ->
  exists b', snprintf arr k n s = Some (a ++ s ++ 0 :: b') /\
    length b' = (length b - S (length s))%nat.
Proof.
  intros -> -> Hn Hb. eexists. split; [by apply snprintf_app|]. by rewrite length_drop.
Qed.

Lemma strncat_step a b n k s :
  k = length a -> (length s <= n)%nat -> (length s <= length b)%nat ->
  exists b', strncat (a ++ 0 :: b) k s n = Some (a ++ s ++ 0 :: b') /\
    length b' = (length b - length s)%nat.
Proof.
  intros -> Hn Hb. eexists. split; [by apply strncat_app|]. by rewrite length_drop.
Qed.

(** The name: the [snprintf] and the [strncat] of a dumper. *)
Lemma dumpname_spec suffix d magic tag :
  dumper_ok magic d -> length (bytes suffix) = 4%nat -> 0 <= tag <= 9999 ->
  dump_name suffix d tag = Some (file_name suffix tag ++ [0]).
Proof.
  intros (_ & _ & r & Hr & Hlen) Hs Ht. unfold dump_name.
  rewrite swrap_small, format_digits by (cbn; lia).
  destruct (snprintf_step (dumpname d) (bytes "frames/test") r 9 11 (digits 4 tag) Hr)
    as (b & -> & Hb); [done|rewrite length_digits; lia..|].
  cbn [mbind option_bind]. rewrite app_assoc.
  destruct (strncat_step (bytes "frames/test" ++ digits 4 tag) b 5 15 (bytes suffix))
    as (b' & -> & Hb').
  - by rewrite length_app, length_digits.
  - lia.
  - rewrite length_digits in Hb. lia.
  - rewrite length_digits in Hb. destruct b'; [|cbn in Hb'; lia].
    unfold file_name. by rewrite <- app_assoc.
Qed.

(** The header: the two time stamps and the texts between them.  The array is
    filled to its last character. *)
Lemma header_spec d magic time :
  dumper_ok magic d -> time_ok time ->
  dump_header d time = Some (header_text magic time ++ [0]).
Proof.
  intros (Hm & (r & Hr & Hlen) & _) [Hsec Hnsec]. unfold INT_MAX in Hsec. unfold dump_header.
  rewrite Z.quot_div_nonneg by lia.
  assert (0 <= tv_nsec time / 1000000 < 1000).
  { split; [apply Z.div_pos; lia|]. apply Z.div_lt_upper_bound; lia. }
  rewrite !swrap_small, !format_digits by (cbn; lia).
  destruct (snprintf_step (header d) magic r 11 4 (digits 10 (tv_sec time)) Hr)
    as (b1 & -> & H1); [done|rewrite length_digits; lia..|].
  rewrite length_digits in H1. cbn [mbind option_bind]. rewrite (app_assoc magic).
  destruct (strncat_step (magic ++ digits 10 (tv_sec time)) b1 5 14 (bytes " sec "))
    as (b2 & -> & H2); [by rewrite length_app, length_digits, Hm|cbn; lia..|].
  change (length (bytes " sec ")) with 5%nat in H2. cbn [mbind option_bind].
  set (pre := (magic ++ digits 10 (tv_sec time)) ++ bytes " sec ").
  assert (length pre = 19%nat) as Hpre by (unfold pre; by rewrite !length_app, length_digits, Hm).
  rewrite (app_assoc _ (bytes " sec ")). fold pre.
  destruct (snprintf_step (pre ++ 0 :: b2) pre (0 :: b2) 11 19
              (digits 10 (tv_nsec time / 1000000))) as (b3 & -> & H3);
    [done|done|rewrite length_digits; cbn; lia..|].
  rewrite length_digits in H3. cbn [length] in H3. cbn [mbind option_bind]. rewrite (app_assoc pre).
  destruct (strncat_step (pre ++ digits 10 (tv_nsec time / 1000000)) b3 19 29
              (bytes " msec " ++ [10] ++ size_lines)) as (b4 & -> & H4);
    [by rewrite length_app, length_digits, Hpre|cbn; lia..|].
  change (length (bytes " msec " ++ [10] ++ size_lines)) with 19%nat in H4.
  assert (b4 = []) as -> by (destruct b4; [done|cbn in H4; lia]).
  unfold header_text, pre. by rewrite <- !app_assoc.
Qed.

Lemma length_header_text magic time : length magic = 4%nat -> length (header_text magic time) = 48%nat.
Proof. intros Hm. unfold header_text. by rewrite !length_app, !length_digits, Hm. Qed.

(** The arrays after a dump: the name and the header, both terminated. *)
Lemma dump_arrays suffix d magic tag time :
  dumper_ok magic d -> suffix = ".ppm"%string \/ suffix = ".pgm"%string -> 0 <= tag <= 9999 ->
  time_ok time ->
  let name := file_name suffix tag in
  let hdr := header_text magic time in
  dump_name suffix d tag = Some (name ++ [0]) /\ dump_header d time = Some (hdr ++ [0]) /\
  strlen (name ++ [0]) = Some (length name) /\ length hdr = 48%nat /\
  dumper_ok magic {| header := hdr ++ [0]; dumpname := name ++ [0] |}.
Proof.
  intros Hd Hs Ht Htime. cbv zeta. assert (length magic = 4%nat) as Hm by apply Hd.
  assert (length (bytes suffix) = 4%nat) as Hls by by destruct Hs as [-> | ->].
  rewrite (dumpname_spec suffix d magic), (header_spec d magic) by done.
  pose proof (length_header_text magic time Hm) as Hlen.
  split; [done|]. split; [done|]. split; [|split; [done|]].
  - apply strlen_app. intros c Hc. unfold file_name in Hc. rewrite !elem_of_app in Hc.
    destruct Hc as [Hc|[Hc%digits_char|Hc]]; [| lia |].
    + vm_compute in Hc. set_unfold in Hc. lia.
    + destruct Hs as [-> | ->]; vm_compute in Hc; set_unfold in Hc; lia.
  - split; [done|]. cbn [header dumpname]. unfold header_text, file_name in *.
    split; eexists; (split; [by rewrite <- app_assoc|]).
    + rewrite length_app. rewrite length_app, Hm in Hlen. cbn. lia.
    + rewrite !length_app, length_digits, Hls. done.
Qed.

(** A dump with complete writes leaves the header and the image in the file,
    and arrays for the next dump. *)
Lemma dump_spec suffix fuel wr d magic p size tag time :
  dumper_ok magic d -> suffix = ".ppm"%string \/ suffix = ".pgm"%string -> 0 <= tag <= 9999 ->
  time_ok time -> 0 <= size <= Z.of_nat (length p) -> wr 0%nat = 48 -> wr 1%nat = size ->
  exists d', dump suffix (S fuel) wr d p size tag time
    = Ret (d', (file_name suffix tag, header_text magic time ++ take (Z.to_nat size) p)) /\
    dumper_ok magic d'.
Proof.
  intros Hd Hs Ht Htime Hsize H0 H1.
  destruct (dump_arrays suffix d magic tag time Hd Hs Ht Htime) as (Hn & Hh & Hl & Hlen & Hok).
  unfold dump. rewrite Hn, Hh. step_run. rewrite Hl. step_run.
  rewrite (proj2 (Z.ltb_ge _ _)) by lia. cbn [write_loop]. rewrite H0, H1.
  cbn [Z.eqb orb negb]. rewrite Z.add_0_l, Z.ltb_irrefl. step_run. eexists. split; [do 3 f_equal|exact Hok].
  - apply take_app_length.
  - rewrite length_app, Hlen. cbn [length]. change (Z.to_nat 48) with 48%nat.
    rewrite Nat.add_sub, take_take, take_app_le, take_ge by lia. by rewrite take_idemp.
Qed.

(** From file 10000 on, the suffix is appended past the end of the array. *)
Lemma dump_name_overflow suffix d magic tag :
  dumper_ok magic d -> length (bytes suffix) = 4%nat -> 10000 <= tag <= INT_MAX ->
  dump_name suffix d tag = None.
Proof.
  intros (_ & _ & r & Hr & Hlen) Hs Ht. unfold INT_MAX in Ht. unfold dump_name.
  rewrite swrap_small by (cbn; lia). unfold format_d.
  rewrite (proj2 (Z.ltb_ge tag 0)) by lia.
  pose proof (ndigits_large 9 tag 4 ltac:(lia) ltac:(change (10 ^ Z.of_nat 4) with 10000; lia)) as Hn.
  set (n := max 4 (ndigits 9 tag)). assert (5 <= n)%nat by lia.
  assert (snprintf (dumpname d) 11 9 (digits n tag)
          = Some (bytes "frames/test" ++ take 8 (digits n tag)
                  ++ 0 :: drop (S (length (take 8 (digits n tag)))) r)) as ->.
  { unfold snprintf. rewrite Hr. rewrite (store_at 11); [|done|].
    - by rewrite length_app, Nat.add_comm, <- app_assoc.
    - rewrite length_app, length_take, length_digits. cbn [length]. lia. }
  cbn [mbind option_bind]. unfold strncat. rewrite drop_app_ge by (cbn; lia).
  change (15 - length (bytes "frames/test"))%nat with 4%nat.
  rewrite drop_app_le by (rewrite length_take, length_digits; lia).
  rewrite strlen_app.
  2: { intros c [i Hi]%list_elem_of_lookup. rewrite lookup_drop in Hi.
       apply lookup_take_Some in Hi as [Hi _]. apply list_elem_of_lookup_2, digits_char in Hi. lia. }
  cbn [mbind option_bind]. apply store_overflow.
  rewrite (take_ge (bytes suffix)) by lia. rewrite !length_app, length_drop, length_take, length_digits, Hs. cbn [length].
  rewrite length_drop, Hlen. change (length (bytes "frames/test")) with 11%nat.
  lia.
Qed.

(** ** The services of seqv4l2.c on the frames

    The actions of the sequencer are served in their order, each to its end
    before the next: the services are pinned to one core and released together
    the frame acquisition has the highest priority, the storage the lowest.  A
    service that is not done when the next one of higher priority is released is
    not covered.  [camera n] is the [n]-th frame the driver delivers.  A store is
    stamped with [time_now], which the service before it has set last; that is
    the processing, so [clock c] is the time when [c] frames were processed. *)

Section services_run.
Context (frame_size : Z) (fmt : pixelformat) (camera : nat -> list Z) (clock : Z -> timespec)
  (fuel : nat) (wr : nat -> Z).

Definition seq_read (n : nat) (st : capture) : outcome (option capture) :=
  seq_frame_read [camera n] (Dequeued 0 (Z.of_nat (length (camera n)))) true st.

(** One action; the number counts the frames delivered. *)
Definition serve (a : action) (s : capture * nat) : outcome (option (capture * nat)) :=
  match a with
  | Post 0 =>
      r ← seq_read (snd s) (fst s);
      Ret (match r with Some st => Some (st, S (snd s)) | None => None end)
  | Post 1 =>
      r ← seq_frame_process frame_size fmt (fst s); Ret (Some (fst r, snd s))
  | Post 2 =>
      r ← seq_frame_store frame_size fmt fuel wr (clock (process_framecnt (fst s))) (fst s);
      Ret (Some (fst r, snd s))
  | _ => Ret (Some s)
  end.

Fixpoint serve_all (acts : list action) (s : capture * nat) : outcome (option (capture * nat)) :=
  match acts with
  | [] => Ret (Some s)
  | a :: acts =>
      r ← serve a s;
      match r with None => Ret None | Some s => serve_all acts s end
  end.

Lemma serve_all_app acts acts' s s' :
  serve_all acts s = Ret (Some s') -> serve_all (acts ++ acts') s = serve_all acts' s'.
Proof.
  revert s. induction acts as [|a acts IH]; intros s H; cbn in *; [congruence|].
  destruct (serve a s) as [[s1|]| |]; cbn in *; try done. by apply IH.
Qed.
End services_run.

(** The globals after [init_mmap], with a scratchpad of [scratch] bytes. *)
Definition capture0 (frame_size : Z) (scratch : nat) : capture :=
  {| ring_buffer := {| ring_size := 3 * FRAMES_PER_SEC; tail_idx := 0; head_idx := 0; count := 0;
                       save_frame := replicate (Z.to_nat (3 * FRAMES_PER_SEC))
                                       (replicate (Z.to_nat frame_size) 0) |};
     read_framecnt := - STARTUP_FRAMES; process_framecnt := 0; save_framecnt := 0;
     scratchpad_buffer := replicate scratch 0; ppm := ppm0; pgm := pgm0; files := [] |}.

(** ** The invariant of the ring *)

Section ring.
Context (q : nat) (camera : nat -> list Z).
Let frame_size : Z := 4 * Z.of_nat q.
Hypothesis Hcam : forall n, length (camera n) = (4 * q)%nat.

(** After [n] frames were read and [k] processed: the indices and the count,
    and the last three frames where the ring keeps them. *)
Record ring_inv (n k : nat) (r : ring_buffer_t) : Prop := {
  ring_size3 : ring_size r = 3;
  ring_tail : tail_idx r = Z.of_nat n mod 3;
  ring_head : head_idx r = 5 * Z.of_nat k mod 3;
  ring_count : count r = Z.of_nat n - 5 * Z.of_nat k;
  ring_slots : length (save_frame r) = 3%nat;
  ring_sizes : forall i s, save_frame r !! i = Some s -> length s = (4 * q)%nat;
  ring_last : forall j, (j < n)%nat -> (n <= j + 3)%nat ->
    save_frame r !! Z.to_nat (Z.of_nat j mod 3) = Some (camera j)
}.

Lemma ring0_inv : ring_inv 0 0 (ring_buffer (capture0 frame_size 0)).
Proof using Type.
  split; try done.
  - intros i s Hs. apply lookup_replicate in Hs as [-> _]. rewrite length_replicate.
    unfold frame_size. lia.
  - intros j Hj. lia.
Qed.

Lemma mod3_succ x : (x mod 3 + 1) mod 3 = (x + 1) mod 3.
Proof using Type. clear. by rewrite Zplus_mod_idemp_l. Qed.

(** Reading puts the next frame at the tail. *)
Lemma ring_put_inv n k r :
  (Z.of_nat n + 1 <= INT_MAX) -> (5 * k <= n + 1)%nat -> ring_inv n k r ->
  exists r', ring_put r (camera n) (Z.of_nat (length (camera n))) = Some r' /\
    ring_inv (S n) k r'.
Proof using Hcam.
  intros Hn Hk [Hsz Htl Hhd Hct Hsl Hss Hlast]. unfold INT_MAX in Hn.
  pose proof (Z.mod_pos_bound (Z.of_nat n) 3) as Hb.
  unfold ring_put. rewrite Htl. unfold aget. rewrite (proj2 (Z.leb_le 0 _)) by lia.
  set (i := Z.to_nat (Z.of_nat n mod 3)). assert (i < 3)%nat by lia.
  destruct (lookup_lt_is_Some_2 (save_frame r) i ltac:(lia)) as [slot Hslot].
  rewrite Hslot. cbn [mbind option_bind]. rewrite Z.ltb_irrefl, Nat2Z.id, firstn_all.
  rewrite store_Some by (rewrite (Hss _ _ Hslot), Hcam; lia). cbn [mbind option_bind].
  assert (splice slot 0 (camera n) = camera n) as ->.
  { unfold splice. cbn [take app]. rewrite drop_ge by (rewrite (Hss _ _ Hslot), Hcam; lia).
    by rewrite app_nil_r. }
  rewrite aset_Some by lia. fold i. cbn [mbind option_bind].
  eexists. split; [reflexivity|]. split; cbn [ring_size tail_idx head_idx count save_frame].
  - done.
  - rewrite Hsz, wrap_small by (unfold in_range; lia). rewrite mod3_succ. f_equal. lia.
  - done.
  - rewrite Hct, swrap_small by (cbn; lia). lia.
  - by rewrite length_insert.
  - intros j s Hj. apply list_lookup_insert_Some in Hj as [(_ & <- & _)|[_ Hj]]; [apply Hcam|eauto].
  - intros j Hj Hnj. destruct (decide (j = n)) as [->|Hne].
    + fold i. apply list_lookup_insert_eq. lia.
    + rewrite list_lookup_insert_ne; [apply Hlast; lia|]. unfold i. intros Heq.
      pose proof (Z.mod_pos_bound (Z.of_nat j) 3).
      assert (Z.of_nat n mod 3 = Z.of_nat j mod 3) as Hm by lia. clear -Hm Hj Hnj Hne.
      Z.to_euclidean_division_equations. lia.
Qed.

(** ** The services *)

Context (clock : Z -> timespec) (fuel : nat) (wr : nat -> Z).
Hypothesis Hclock : forall c, time_ok (clock c).
Hypothesis Hwr : wr 0%nat = 48 /\ wr 1%nat = 6 * Z.of_nat q.

(** [n] frames read, [k] processed and [m] saved, the scratchpad starts with
    [img], and the files are [fl]. *)
Record st_ok (n k m : nat) (img : list Z) (fl : list (list Z * list Z)) (st : capture) : Prop := {
  ok_ring : ring_inv n k (ring_buffer st);
  ok_process : process_framecnt st = Z.of_nat k;
  ok_save : save_framecnt st = Z.of_nat m;
  ok_scratch : (6 * q <= length (scratchpad_buffer st))%nat;
  ok_img : take (6 * q) (scratchpad_buffer st) = img;
  ok_ppm : dumper_ok ppm_magic (ppm st);
  ok_files : files st = fl
}.

Lemma frame_read_ok n k m img fl st :
  Z.of_nat n + 1 <= INT_MAX -> (5 * k <= n + 1)%nat -> st_ok n k m img fl st ->
  exists st', seq_read camera n st = Ret (Some st') /\ st_ok (S n) k m img fl st'.
Proof using Hcam.
  intros Hn Hk [Hr Hp Hs Hl Hi Hd Hf].
  destruct (ring_put_inv n k _ Hn Hk Hr) as (r' & Hput & Hr').
  unfold seq_read, seq_frame_read, read_frame. cbn [length Z.ltb ring_buffer].
  change (0 <? Z.of_nat 1) with true. cbn [ring_buffer]. change (aget [camera n] 0) with (Some (camera n)).
  step_run. rewrite Hput. step_run. eexists. split; [reflexivity|]. by split.
Qed.

(** The frame processed after the [5 * k + 6]-th read is the last one read. *)
Lemma process_ok k m img fl st :
  5 * Z.of_nat k + 6 <= INT_MAX -> st_ok (5 * k + 6) k m img fl st ->
  exists st' c, seq_frame_process frame_size YUYV st = Ret (st', c) /\
    st_ok (5 * k + 6) (S k) m (rgb (camera (5 * k + 5)) q) fl st'.
Proof using Hcam.
  intros Hk [[Hsz Htl Hhd Hct Hsl Hss Hlast] Hp Hs Hl Hi Hd Hf]. unfold INT_MAX in Hk.
  pose proof (Z.mod_pos_bound (5 * Z.of_nat k) 3).
  unfold seq_frame_process, process_image. rewrite Hhd, Hsz, Hct.
  rewrite (wrap_small 32) by (unfold in_range; lia). rewrite Zplus_mod_idemp_l.
  pose proof (Z.mod_pos_bound (5 * Z.of_nat k + 2) 3).
  unfold set_head. capture_simpl.
  assert (aget (save_frame (ring_buffer st)) ((5 * Z.of_nat k + 2) mod 3)
          = Some (camera (5 * k + 5))) as ->.
  { unfold aget. rewrite (proj2 (Z.leb_le 0 _)) by lia. rewrite <- (Hlast (5 * k + 5)%nat) by lia.
    do 2 f_equal. Z.to_euclidean_division_equations. lia. }
  step_run. unfold frame_size. rewrite convert_spec by (rewrite ?Hcam; lia). step_run.
  rewrite Hp, swrap_small by lia.
  capture_simpl.
  rewrite (wrap_small 32) by (unfold in_range; lia). rewrite Hsz, Zplus_mod_idemp_l.
  do 2 eexists. split; [reflexivity|]. split; capture_simpl; try done.
  - split; capture_simpl; try done.
    + f_equal. lia.
    + rewrite swrap_small by lia. lia.
  - lia.
  - rewrite length_app, length_rgb, length_drop. lia.
  - rewrite <- (length_rgb (camera (5 * k + 5)) q) at 1. apply take_app_length.
Qed.

(** The file of one store. *)
Definition frame_file (m : nat) (time : timespec) (img : list Z) : list Z * list Z :=
  (file_name ".ppm" (Z.of_nat m), header_text ppm_magic time ++ img).

Lemma store_ok n k m img fl st :
  Z.of_nat m < 9999 -> st_ok n k m img fl st ->
  exists st' c, seq_frame_store frame_size YUYV (S fuel) wr (clock (process_framecnt st)) st
      = Ret (st', c) /\
    st_ok n k (S m) img (frame_file (S m) (clock (Z.of_nat k)) img :: fl) st'.
Proof using Hclock Hwr.
  intros Hm [Hr Hp Hs Hl Hi Hd Hf]. destruct Hwr as [Hwr0 Hwr1].
  unfold seq_frame_store, save_image. rewrite Hs, swrap_small by lia.
  rewrite (proj2 (Z.ltb_lt 0 _)) by lia. unfold save_ppm, dump_ppm.
  capture_simpl.
  assert (frame_size * 6 ÷ 4 = 6 * Z.of_nat q) as ->.
  { unfold frame_size. rewrite Z.quot_div_nonneg by lia. symmetry. apply (Z.div_unique _ _ _ 0); lia. }
  destruct (dump_spec ".ppm" fuel wr (ppm st) ppm_magic (scratchpad_buffer st) (6 * Z.of_nat q)
              (Z.of_nat m + 1) (clock (process_framecnt st)) Hd) as (d' & Hdump & Hd'); try done.
  { by left. } { lia. } { lia. }
  rewrite Hdump. step_run. do 2 eexists. split; [reflexivity|].
  split; capture_simpl; try done; [lia|].
  rewrite Hf, Hp. unfold frame_file.
  replace (Z.of_nat (S m)) with (Z.of_nat m + 1) by lia.
  replace (Z.to_nat (6 * Z.of_nat q)) with (6 * q)%nat by lia. by rewrite Hi.
Qed.
(** *** A hundred cycles *)

Abbreviation serve_acts := (serve_all frame_size YUYV camera clock (S fuel) wr).

Lemma serve_read n k m img fl st acts :
  Z.of_nat n + 1 <= INT_MAX -> (5 * k <= n + 1)%nat -> st_ok n k m img fl st ->
  exists st', serve_acts (Post 0 :: acts) (st, n) = serve_acts acts (st', S n) /\
    st_ok (S n) k m img fl st'.
Proof using Hcam.
  intros Hn Hk Hok. destruct (frame_read_ok n k m img fl st Hn Hk Hok) as (st' & Hr & Hok').
  exists st'. split; [|done]. cbn [serve_all serve fst snd]. by rewrite Hr.
Qed.

(** Five reads, a process and a store. *)
Lemma serve_batch m img fl st acts :
  Z.of_nat m < 9999 -> st_ok (5 * m + 1) m m img fl st ->
  exists st', serve_acts ([Post 0; Post 0; Post 0; Post 0; Post 0; Post 1; Post 2] ++ acts)
                (st, (5 * m + 1)%nat)
    = serve_acts acts (st', (5 * S m + 1)%nat) /\
    st_ok (5 * S m + 1) (S m) (S m) (rgb (camera (5 * S m)) q)
      (frame_file (S m) (clock (Z.of_nat (S m))) (rgb (camera (5 * S m)) q) :: fl) st'.
Proof using Hcam Hclock Hwr.
  intros Hm Hok. unfold INT_MAX. cbn [app].
  do 5 (match goal with H : st_ok ?n ?k ?m ?i ?f ?s |- context [serve_acts (Post 0 :: ?a) (?s, ?n)] =>
    destruct (serve_read n k m i f s a ltac:(unfold INT_MAX; lia) ltac:(lia) H) as (? & -> & ?);
    clear H end).
  match goal with H : st_ok ?n _ _ _ _ ?s |- _ =>
    replace (S (S (S (S (S (5 * m + 1)))))) with (5 * m + 6)%nat in * by lia;
    destruct (process_ok m m img fl s ltac:(unfold INT_MAX; lia) H) as (s1 & c1 & H1 & Hok1) end.
  destruct (store_ok _ _ _ _ _ _ Hm Hok1) as (s2 & c2 & H2 & Hok2).
  exists s2. replace (5 * S m)%nat with (5 * m + 5)%nat in * by lia.
  replace (5 * m + 5 + 1)%nat with (5 * m + 6)%nat by lia. split; [|done].
  cbn [serve_all serve fst snd]. rewrite H1. step_run. cbn [fst snd].
  rewrite H2. step_run. done.
Qed.

Lemma hundred_cycles m :
  cycles Seqv4l2.table (1 + 100 * Z.of_nat m) 100
  = [Post 0; Post 0; Post 0; Post 0; Post 0; Post 1; Post 2].
Proof using Type.
  clear.
  assert (forall j, release Seqv4l2.table (100 * Z.of_nat m + j) = release Seqv4l2.table j) as H.
  { intros j. unfold release, Seqv4l2.table. cbn [flat_map].
    replace (100 * Z.of_nat m + j) with (j + 5 * Z.of_nat m * 20) at 1 by lia.
    replace (100 * Z.of_nat m + j) with (j + Z.of_nat m * 100) by lia.
    by rewrite !Z_mod_plus_full. }
  rewrite (Z.add_comm 1), cycles_shift by done. by vm_compute.
Qed.

(** The files of [m] hundreds of cycles, the last one first. *)
Definition frame_files (m : nat) : list (list Z * list Z) :=
  map (fun j => frame_file j (clock (Z.of_nat j)) (rgb (camera (5 * j)) q)) (rev (seq 1 m)).

Lemma frame_files_S m :
  frame_files (S m)
  = frame_file (S m) (clock (Z.of_nat (S m))) (rgb (camera (5 * S m)) q) :: frame_files m.
Proof using Type. unfold frame_files. rewrite seq_S, rev_app_distr. done. Qed.

Lemma serve_batches m : forall st img,
  Z.of_nat m <= 9999 -> st_ok 1 0 0 img [] st ->
  exists st' img', serve_acts (cycles Seqv4l2.table 1 (100 * m)) (st, 1%nat)
      = Ret (Some (st', (5 * m + 1)%nat)) /\
    st_ok (5 * m + 1) m m img' (frame_files m) st'.
Proof using Hcam Hclock Hwr.
  intros st img. induction m as [|m IH]; intros Hm Hok; [by exists st, img|].
  destruct (IH ltac:(lia) Hok) as (s1 & i1 & H1 & Hok1).
  destruct (serve_batch m i1 _ s1 [] ltac:(lia) Hok1) as (s2 & H2 & Hok2).
  exists s2. eexists. split; [|rewrite frame_files_S; exact Hok2].
  replace (100 * S m)%nat with (100 * m + 100)%nat by lia. rewrite cycles_app.
  rewrite (serve_all_app _ _ _ _ _ _ _ _ _ _ H1).
  replace (1 + Z.of_nat (100 * m)) with (1 + 100 * Z.of_nat m) by lia. rewrite hundred_cycles.
  rewrite app_nil_r in H2. exact H2.
Qed.
End ring.

(** The state after initialisation. *)
Lemma capture0_ok (q : nat) (camera : nat -> list Z) (scratch : nat) :
  (6 * q <= scratch)%nat ->
  st_ok q camera 0 0 0 (replicate (6 * q) 0) [] (capture0 (4 * Z.of_nat q) scratch).
Proof.
  intros Hs. split; capture_simpl; try done.
  - apply (ring0_inv q camera).
  - cbn. by rewrite length_replicate.
  - cbn. by rewrite take_replicate, Nat.min_l by lia.
  - apply ppm0_ok.
Qed.

(** C8: the programs together, with a camera that delivers complete YUYV
    frames and complete writes: after main's first frame, [100 * m] timer
    signals of seqv4l2.c make its services read [5 * m] more frames and write
    [m] files; the [j]-th is numbered [j], carries the time stamp of its
    processing and is the RGB conversion of frame [5 * j], the newest frame
    read when it was processed. *)
Theorem frames_saved (q scratch m fuel : nat) (camera : nat -> list Z) (clock : Z -> timespec)
    (wr : nat -> Z) :
  let frame_size := 4 * Z.of_nat q in
  (forall n, length (camera n) = (4 * q)%nat) -> (forall c, time_ok (clock c)) ->
  wr 0%nat = 48 -> wr 1%nat = 6 * Z.of_nat q -> (6 * q <= scratch)%nat -> Z.of_nat m <= 9999 ->
  exists st, serve_all frame_size YUYV camera clock (S fuel) wr
      (Post 0 :: cycles Seqv4l2.table 1 (100 * m)) (capture0 frame_size scratch, 0%nat)
    = Ret (Some (st, (5 * m + 1)%nat)) /\
    files st = map (fun j =>
      (file_name ".ppm" (Z.of_nat j),
       header_text ppm_magic (clock (Z.of_nat j)) ++ rgb (camera (5 * j)%nat) q)) (rev (seq 1 m)).
Proof.
  intros frame_size Hcam Hclock Hw0 Hw1 Hs Hm.
  pose proof (capture0_ok q camera scratch Hs) as Hok.
  edestruct (serve_read q camera Hcam clock fuel wr) with (acts := cycles Seqv4l2.table 1 (100 * m))
    as (s1 & H1 & Hok1); [| |exact Hok|]; [unfold INT_MAX; lia|lia|].
  destruct (serve_batches q camera Hcam clock fuel wr Hclock (conj Hw0 Hw1) m s1 _ Hm Hok1)
    as (s2 & img & H2 & Hok2).
  exists s2. split; [|exact (ok_files _ _ _ _ _ _ _ _ Hok2)]. etransitivity; [exact H1|exact H2].
Qed.

(** A witness with frames of one group of four bytes. *)
Lemma frames_saved_witness :
  exists st, serve_all 4 YUYV (fun n => [Z.of_nat n; 128; 16; 128])
      (fun c => {| tv_sec := c; tv_nsec := 5000000 |}) 1
      (fun i => match i with O => 48 | _ => 6 end)
      (Post 0 :: cycles Seqv4l2.table 1 200) (capture0 4 8, 0%nat)
    = Ret (Some (st, 11%nat)) /\ length (files st) = 2%nat.
Proof.
  destruct (frames_saved 1 8 2 0 (fun n => [Z.of_nat n; 128; 16; 128])
      (fun c => {| tv_sec := Z.max 0 (Z.min c INT_MAX); tv_nsec := 5000000 |})
      (fun i => match i with O => 48 | _ => 6 end)) as (st & H & Hf).
  - done.
  - intros c. unfold time_ok, INT_MAX. cbn [tv_sec tv_nsec]. lia.
  - done.
  - done.
  - lia.
  - lia.
  - exists st. split; [|by rewrite Hf].
    etransitivity; [|exact H]. vm_compute. reflexivity.
Defined.

(** ** Well-formed states *)

(** Writes that make progress, and write no more than they are asked to, end the
    loop. *)
Lemma write_loop_ends wr p size fuel : forall i total file,
  (forall i, 1 <= wr (S i) <= size) -> (1 <= i)%nat -> 0 <= total < size \/ total = 0 -> 2 * size <= 2 ^ 31 ->
  (1 <= fuel)%nat -> size - total <= Z.of_nat fuel ->
  exists file', write_loop fuel wr i p size total file = Ret file'.
Proof.
  induction fuel as [|fuel IH]; intros i total file Hwr Hi Ht Hint Hf Hsz; [lia|]. cbn [write_loop].
  pose proof (Hwr (i - 1)%nat) as Hw. replace (S (i - 1)) with i in Hw by lia.
  assert (negb ((total =? 0) || in_int (total + wr i)) = false) as ->.
  { unfold in_int, INT_MIN, INT_MAX. destruct (Z.eqb_spec total 0); [done|]. cbn.
    rewrite !(proj2 (Z.leb_le _ _)) by lia. done. }
  destruct (Z.ltb_spec (total + wr i) size); [|by eexists].
  apply IH; (done || lia).
Qed.

(** Any dump that makes progress ends and keeps the arrays. *)
Lemma dump_ends suffix fuel wr d magic p size tag time :
  dumper_ok magic d -> suffix = ".ppm"%string \/ suffix = ".pgm"%string -> 0 <= tag <= 9999 ->
  time_ok time -> (forall i, 1 <= wr (S i) <= size) -> 0 <= size <= Z.of_nat (length p) ->
  2 * size <= 2 ^ 31 -> size < Z.of_nat fuel ->
  exists d' f, dump suffix fuel wr d p size tag time = Ret (d', f) /\ dumper_ok magic d'.
Proof.
  intros Hd Hs Ht Htime Hwr Hsize Hint Hfuel.
  destruct (dump_arrays suffix d magic tag time Hd Hs Ht Htime) as (Hn & Hh & Hl & _ & Hok).
  unfold dump. rewrite Hn, Hh. step_run. rewrite Hl. step_run.
  rewrite (proj2 (Z.ltb_ge _ _)) by lia.
  match goal with |- context [write_loop fuel wr 1 ?p size 0 ?f] =>
    destruct (write_loop_ends wr p size fuel 1 0 f Hwr) as [file Hfile]; [lia..|] end.
  rewrite Hfile. step_run. eexists _, _. by split.
Qed.

(** From file 10000 on, the name is written past the end of its array. *)
Lemma dump_overflow suffix d magic fuel wr p size tag time :
  dumper_ok magic d -> length (bytes suffix) = 4%nat -> 10000 <= tag <= INT_MAX ->
  dump suffix fuel wr d p size tag time = Undef.
Proof. intros Hd Hs Ht. unfold dump. by rewrite (dump_name_overflow suffix d magic). Qed.

Lemma yuv2rgb_bytes y u v : Forall (in_range 8) (yuv2rgb y u v).
Proof. unfold yuv2rgb. repeat constructor; apply wrap_range; lia. Qed.

Lemma rgb_bytes frame n : Forall (in_range 8) (rgb frame n).
Proof.
  induction n as [|n IH]; [constructor|]. rewrite rgb_S. apply Forall_app. split; [done|].
  unfold rgb_quad. apply Forall_app. split; apply yuv2rgb_bytes.
Qed.

Section wf.
Context (q : nat).
Let frame_size : Z := 4 * Z.of_nat q.

(** Indices inside the ring, frames of [frame_size] bytes, a scratchpad large
    enough, arrays of the dumpers as the dumpers need them. *)
Record wf (st : capture) : Prop := {
  wf_size : ring_size (ring_buffer st) = 3;
  wf_tail : 0 <= tail_idx (ring_buffer st) < 3;
  wf_head : 0 <= head_idx (ring_buffer st) < 3;
  wf_slots : length (save_frame (ring_buffer st)) = 3%nat;
  wf_frames : forall i s, save_frame (ring_buffer st) !! i = Some s ->
    length s = (4 * q)%nat /\ Forall (in_range 8) s;
  wf_scratch : (6 * q <= length (scratchpad_buffer st))%nat /\
    Forall (in_range 8) (scratchpad_buffer st);
  wf_ppm : dumper_ok ppm_magic (ppm st);
  wf_pgm : dumper_ok pgm_magic (pgm st)
}.

Lemma wf_set_ring st r :
  wf st -> ring_size r = 3 -> 0 <= tail_idx r < 3 -> 0 <= head_idx r < 3 ->
  length (save_frame r) = 3%nat ->
  (forall i s, save_frame r !! i = Some s -> length s = (4 * q)%nat /\ Forall (in_range 8) s) ->
  wf (set_ring st r).
Proof using Type. intros [] ?????. by split. Qed.

Lemma ring_put_wf st buffer bytesused :
  wf st -> Forall (in_range 8) buffer -> 0 <= bytesused <= frame_size ->
  bytesused <= Z.of_nat (length buffer) ->
  exists r, ring_put (ring_buffer st) buffer bytesused = Some r /\ wf (set_ring st r).
Proof using Type.
  intros Hwf Hbuf Hused Hlen. pose proof Hwf as [Hsz Ht Hh Hsl Hfr _ _ _]. unfold frame_size in Hused.
  unfold ring_put. unfold aget. rewrite (proj2 (Z.leb_le 0 _)) by lia.
  destruct (lookup_lt_is_Some_2 (save_frame (ring_buffer st)) (Z.to_nat (tail_idx (ring_buffer st)))
              ltac:(lia)) as [slot Hslot].
  destruct (Hfr _ _ Hslot) as [Hsl1 Hsl2].
  rewrite Hslot. cbn [mbind option_bind]. rewrite (proj2 (Z.ltb_ge _ _)) by lia.
  rewrite store_Some by (rewrite length_take; lia). cbn [mbind option_bind].
  rewrite aset_Some by lia. cbn [mbind option_bind]. eexists. split; [reflexivity|].
  pose proof (Z.mod_pos_bound (u32 (tail_idx (ring_buffer st) + 1)) 3 ltac:(lia)).
  apply wf_set_ring; capture_simpl; try done; [by rewrite Hsz|by rewrite length_insert|].
  intros i s [(_ & <- & _)|[_ Hi]]%list_lookup_insert_Some; [|eauto]. split.
  - rewrite length_splice, length_take by lia. lia.
  - unfold splice. rewrite take_0, app_nil_l. apply Forall_app.
    split; [by apply Forall_take|by apply Forall_drop].
Qed.

(** *** Every service, on every input *)

(** A frame that is longer than an element of the ring, or than its buffer. *)
Definition overlong (buffers : list (list Z)) (dq : dequeue) : bool :=
  match dq with
  | Dequeued index bytesused =>
      match aget buffers index with
      | Some b => (frame_size <? bytesused) || (Z.of_nat (length b) <? bytesused)
      | None => false
      end
  | _ => false
  end.

Lemma ring_put_overlong st buffer bytesused :
  wf st -> 0 <= bytesused ->
  (frame_size <? bytesused) || (Z.of_nat (length buffer) <? bytesused) = true ->
  ring_put (ring_buffer st) buffer bytesused = None.
Proof using Type.
  intros [Hsz Ht Hh Hsl Hfr _ _ _] Hu Hlong. unfold ring_put, aget.
  rewrite (proj2 (Z.leb_le 0 _)) by lia.
  destruct (lookup_lt_is_Some_2 (save_frame (ring_buffer st)) (Z.to_nat (tail_idx (ring_buffer st)))
              ltac:(lia)) as [slot Hslot].
  destruct (Hfr _ _ Hslot) as [Hlen _]. rewrite Hslot. cbn [mbind option_bind].
  destruct (Z.ltb_spec (Z.of_nat (length buffer)) bytesused); [done|].
  rewrite orb_false_r in Hlong. apply Z.ltb_lt in Hlong. unfold frame_size in Hlong.
  rewrite store_overflow; [done|]. rewrite length_take. lia.
Qed.

Lemma copy_wf buffers index bytesused (requeued : bool) st :
  wf st -> (forall b, b ∈ buffers -> Forall (in_range 8) b) ->
  0 <= index < Z.of_nat (length buffers) -> 0 <= bytesused ->
  let copied := (buffer ← lift (aget buffers index);
                 r ← lift (ring_put (ring_buffer st) buffer bytesused);
                 Ret (if requeued then Some (set_ring st r) else None)) in
  if overlong buffers (Dequeued index bytesused) then copied = Undef
  else exists r, copied = Ret r /\ forall st', r = Some st' -> wf st'.
Proof using Type.
  intros Hwf Hbytes Hi Hu. cbv zeta. unfold overlong.
  destruct (lookup_lt_is_Some_2 buffers (Z.to_nat index) ltac:(lia)) as [b Hlk].
  assert (aget buffers index = Some b) as Hget.
  { unfold aget. by rewrite (proj2 (Z.leb_le 0 _)) by lia. }
  rewrite Hget. step_run. destruct (_ || _) eqn:Hlong.
  { by rewrite ring_put_overlong. }
  apply orb_false_iff in Hlong as [H1%Z.ltb_ge H2%Z.ltb_ge].
  destruct (ring_put_wf st b bytesused Hwf) as (r & -> & Hr);
    [by apply Hbytes, list_elem_of_lookup_2 with (Z.to_nat index)|done|done|].
  step_run. eexists. split; [reflexivity|]. destruct requeued; intros st' Heq; simplify_eq; exact Hr.
Qed.

Lemma seq_frame_read_wf buffers dq requeued st :
  wf st -> buffers <> [] ->
  (forall b, b ∈ buffers -> Forall (in_range 8) b) ->
  (forall index bytesused, dq = Dequeued index bytesused -> 0 <= bytesused /\ 0 <= index) ->
  if overlong buffers dq then seq_frame_read buffers dq requeued st = Undef
  else exists r, seq_frame_read buffers dq requeued st = Ret r /\ forall st', r = Some st' -> wf st'.
Proof using Type.
  intros Hwf Hne Hbytes Hdq. unfold seq_frame_read.
  assert (0 < Z.of_nat (length buffers)) by (destruct buffers; [done|cbn; lia]).
  assert (Hempty : overlong buffers (Dequeued 0 0) = false).
  { cbn. destruct buffers as [|b bs]; [done|]. cbn. apply orb_false_iff.
    split; apply Z.ltb_ge; unfold frame_size; lia. }
  destruct dq as [index bytesused| | |]; cbn [read_frame].
  - destruct (Hdq _ _ eq_refl) as (Hu & Hi). destruct (Z.ltb_spec index (Z.of_nat (length buffers))).
    + apply copy_wf; try done. by destruct Hwf.
    + cbn [overlong]. unfold aget. rewrite (proj2 (Z.leb_le 0 _)), lookup_ge_None_2 by lia.
      eexists. by split.
  - pose proof (copy_wf buffers 0 0 requeued st Hwf Hbytes ltac:(lia) ltac:(lia)) as Hc.
    by rewrite Hempty in Hc.
  - pose proof (copy_wf buffers 0 0 requeued st Hwf Hbytes ltac:(lia) ltac:(lia)) as Hc.
    by rewrite Hempty in Hc.
  - eexists. by split.
Qed.

Lemma seq_frame_process_wf fmt st :
  wf st -> exists st' c, seq_frame_process frame_size fmt st = Ret (st', c) /\ wf st'.
Proof using Type.
  intros Hwf. pose proof Hwf as [Hsz Ht Hh Hsl Hfr [Hs1 Hs2] Hp1 Hp2].
  unfold seq_frame_process, set_head, process_image. capture_simpl. rewrite Hsz.
  set (h := u32 (head_idx (ring_buffer st) + 2) mod 3).
  assert (0 <= h < 3) by (apply Z.mod_pos_bound; lia).
  unfold aget. rewrite (proj2 (Z.leb_le 0 _)) by lia.
  destruct (lookup_lt_is_Some_2 (save_frame (ring_buffer st)) (Z.to_nat h) ltac:(lia)) as [p Hp].
  destruct (Hfr _ _ Hp) as [Hlen _]. rewrite Hp. step_run.
  assert (exists scratch, match fmt with
      | YUYV => lift (convert p (scratchpad_buffer st) frame_size)
      | _ => Ret (scratchpad_buffer st) end = Ret scratch /\
      (6 * q <= length scratch)%nat /\ Forall (in_range 8) scratch) as (scratch & -> & Hl & Hb).
  { destruct fmt; try (eexists; split; [reflexivity|done]). unfold frame_size.
    rewrite convert_spec by lia. eexists. split; [reflexivity|]. split.
    - rewrite length_app, length_rgb, length_drop. lia.
    - apply Forall_app. split; [apply rgb_bytes|by apply Forall_drop]. }
  step_run. do 2 eexists. split; [reflexivity|].
  pose proof (Z.mod_pos_bound (u32 (h + 3)) 3 ltac:(lia)). by split; capture_simpl.
Qed.

(** The number the next file gets. *)
Definition next_tag (fmt : pixelformat) (st : capture) : Z :=
  match fmt with RGB24 => process_framecnt st | _ => swrap 32 (save_framecnt st + 1) end.

(** The bytes a store asks to be written. *)
Definition asked (fmt : pixelformat) : Z :=
  match fmt with YUYV => 6 * Z.of_nat q | _ => frame_size end.

Lemma rgb_size : frame_size * 6 ÷ 4 = 6 * Z.of_nat q.
Proof using Type.
  unfold frame_size. rewrite Z.quot_div_nonneg by lia. symmetry. apply (Z.div_unique _ _ _ 0); lia.
Qed.

Lemma seq_frame_store_wf fmt fuel wr time st :
  wf st -> 0 <= next_tag fmt st <= 9999 -> time_ok time -> (forall i, 1 <= wr (S i) <= asked fmt) ->
  12 * Z.of_nat q <= 2 ^ 31 -> 6 * Z.of_nat q < Z.of_nat fuel ->
  exists st' c, seq_frame_store frame_size fmt fuel wr time st = Ret (st', c) /\ wf st'.
Proof using Type.
  intros Hwf Htag Htime Hwr Hint Hfuel. pose proof Hwf as [Hsz Ht Hh Hsl Hfr [Hs1 Hs2] Hp1 Hp2].
  assert (frame_size = 4 * Z.of_nat q) as Hfs by done.
  unfold seq_frame_store, save_image. rewrite rgb_size.
  destruct fmt; cbn [next_tag asked] in *; unfold save_pgm, save_ppm, dump_pgm, dump_ppm; capture_simpl.
  - edestruct (dump_ends ".pgm" fuel wr (pgm st) pgm_magic) as (d' & f & -> & Hd); eauto; [lia..|].
    step_run. do 2 eexists. split; [reflexivity|]. by split; capture_simpl.
  - case_match; [|do 2 eexists; split; [reflexivity|]; by split].
    edestruct (dump_ends ".ppm" fuel wr (ppm st) ppm_magic) as (d' & f & -> & Hd); eauto; [lia..|].
    step_run. do 2 eexists. split; [reflexivity|]. by split; capture_simpl.
  - edestruct (dump_ends ".ppm" fuel wr (ppm st) ppm_magic) as (d' & f & -> & Hd); eauto; [lia..|].
    step_run. do 2 eexists. split; [reflexivity|]. by split; capture_simpl.
  - step_run. do 2 eexists. split; [reflexivity|]. by split; capture_simpl.
Qed.

Lemma seq_frame_store_overflow fmt fuel wr time st :
  wf st -> fmt <> OtherFormat -> 10000 <= next_tag fmt st <= INT_MAX ->
  seq_frame_store frame_size fmt fuel wr time st = Undef.
Proof using Type.
  intros [_ _ _ _ _ _ Hp1 Hp2] Hfmt Htag. unfold seq_frame_store, save_image.
  destruct fmt; cbn [next_tag] in Htag; unfold save_pgm, save_ppm, dump_pgm, dump_ppm; capture_simpl;
    [| rewrite (proj2 (Z.ltb_lt 0 _)) by lia | |done];
    first [by rewrite (dump_overflow _ _ pgm_magic) | by rewrite (dump_overflow _ _ ppm_magic)].
Qed.

Lemma capture0_wf scratch : (6 * q <= scratch)%nat -> wf (capture0 frame_size scratch).
Proof using Type.
  intros Hs. split; capture_simpl; try done.
  - intros i s Hi. apply lookup_replicate in Hi as [-> _]. rewrite length_replicate.
    split; [unfold frame_size; lia|]. apply Forall_replicate. unfold in_range. lia.
  - cbn. rewrite length_replicate. split; [lia|]. apply Forall_replicate. unfold in_range. lia.
  - apply ppm0_ok.
  - apply pgm0_ok.
Qed.
End wf.


(** Three frames of two pixels in the ring, one of them white, one black. *)
Definition three_frames : capture :=
  {| ring_buffer := {| ring_size := 3; tail_idx := 0; head_idx := 0; count := 3;
                       save_frame := [[235; 128; 235; 128]; [81; 90; 81; 240]; [16; 128; 235; 128]] |};
     read_framecnt := 3; process_framecnt := 0; save_framecnt := 0;
     scratchpad_buffer := replicate 8 0; ppm := ppm0; pgm := pgm0; files := [] |}.

Lemma three_frames_wf : wf 1 three_frames.
Proof.
  split; try done.
  - intros [|[|[|i]]] s Hs; cbn in Hs; [injection Hs as <-..|done];
      (split; [done|repeat constructor; done]).
  - split; [cbn; lia|]. apply Forall_replicate. done.
  - apply ppm0_ok.
  - apply pgm0_ok.
Qed.


(** The file name array holds four digits: dumping frame 10000 or any
    later one writes past its end. *)
Theorem dump_name_overflows (suffix : string) (magic : list Z) (d : dumper) (fuel : nat)
    (wr : nat -> Z) (p : list Z) (size tag : Z) (time : timespec) :
  dumper_ok magic d -> suffix = ".ppm"%string \/ suffix = ".pgm"%string -> 10000 <= tag <= INT_MAX ->
  dump suffix fuel wr d p size tag time = Undef.
Proof.
  intros Hd Hs Ht. apply (dump_overflow suffix d magic); try done.
  by destruct Hs as [-> | ->].
Qed.

Lemma dump_name_overflows_witness :
  dump_ppm 1 (fun _ => 1) ppm0 [0] 1 10000 {| tv_sec := 0; tv_nsec := 0 |} = Undef.
Proof. apply (dump_name_overflows ".ppm" ppm_magic ppm0); [apply ppm0_ok|by left|unfold INT_MAX; lia]. Defined.

(** ** Formats that are not converted *)

(** What follows the header of a file is zero. *)
Definition blank_file (f : list Z * list Z) : Prop := Forall (eq 0) (drop 48 f.2).

(** A scratchpad that was never written, files with blank images. *)
Definition blank (st : capture) : Prop :=
  Forall (eq 0) (scratchpad_buffer st) /\ Forall blank_file (files st) /\
  length (header (ppm st)) = 49%nat /\ length (header (pgm st)) = 49%nat.

Lemma store_length {A} (l l' : list A) o b : store l o b = Some l' -> length l' = length l.
Proof.
  unfold store. destruct (Nat.leb_spec (o + length b) (length l)); [|done]. intros [= <-].
  rewrite length_splice; lia.
Qed.

Lemma dump_header_length d time hdr : dump_header d time = Some hdr -> length hdr = length (header d).
Proof.
  unfold dump_header, snprintf, strncat. intros H.
  repeat match goal with H : _ ≫= _ = Some _ |- _ =>
    apply bind_Some in H as (? & ? & H) end.
  repeat match goal with H : store _ _ _ = Some _ |- _ => apply store_length in H end. congruence.
Qed.

Lemma drop_app_zero n (l b : list Z) :
  Forall (eq 0) (drop n l) -> Forall (eq 0) b -> Forall (eq 0) (drop n (l ++ b)).
Proof. intros. rewrite drop_app. apply Forall_app. split; [done|by apply Forall_drop]. Qed.

Lemma write_loop_blank wr p size fuel : forall i total file file',
  Forall (eq 0) p -> Forall (eq 0) (drop 48 file) ->
  write_loop fuel wr i p size total file = Ret file' -> Forall (eq 0) (drop 48 file').
Proof.
  induction fuel as [|fuel IH]; intros i total file file' Hp Hf H; [done|]. cbn [write_loop] in H.
  assert (Forall (eq 0) (drop 48 (file ++ take (Z.to_nat (wr i)) p))) as Hf'.
  { apply drop_app_zero; [done|by apply Forall_take]. }
  case_match; [done|]. case_match; [by eapply IH|]. by injection H as <-.
Qed.

(** A dump of a blank image. *)
Lemma dump_blank suffix fuel wr d p size tag time d' f :
  length (header d) = 49%nat -> Forall (eq 0) p ->
  dump suffix fuel wr d p size tag time = Ret (d', f) ->
  blank_file f /\ length (header d') = 49%nat.
Proof.
  intros Hd Hp H. unfold dump in H. destruct (dump_name suffix d tag) as [name|]; [|done].
  cbn [lift] in H. destruct (dump_header d time) as [hdr|] eqn:Eh; [|done].
  apply dump_header_length in Eh. revert H. step_run. destruct (strlen name) as [n|]; [|done]. step_run.
  destruct (_ <? size); [done|]. intros H.
  destruct (write_loop _ _ _ _ _ _ _) as [file| |] eqn:Ew; [|done..]. cbn in H.
  injection H as <- <-. split; [|cbn; lia]. unfold blank_file. cbn [snd].
  eapply write_loop_blank; [| |exact Ew]; [by apply Forall_take|].
  rewrite drop_ge; [constructor|]. rewrite !length_take. lia.
Qed.

Section unconverted.
Context (frame_size : Z) (fmt : pixelformat) (camera : nat -> list Z) (clock : Z -> timespec)
  (fuel : nat) (wr : nat -> Z).
Hypothesis Hfmt : fmt <> YUYV.

Lemma seq_read_blank n st st' :
  blank st -> seq_read camera n st = Ret (Some st') -> blank st'.
Proof using Type.
  clear Hfmt. unfold seq_read, seq_frame_read, read_frame. intros Hb H.
  case_match; [|done]. case_match. case_match. simplify_eq.
  revert H. case_match; simplify_eq.
  destruct (aget _ _); [|done]. step_run. destruct (ring_put _ _ _); [|done]. step_run.
  intros [= <-]. exact Hb.
Qed.

Lemma process_blank st st' c :
  blank st -> seq_frame_process frame_size fmt st = Ret (st', c) -> blank st'.
Proof using Hfmt.
  intros Hb H. unfold seq_frame_process in H. destruct (aget _ _) as [p|]; [|done].
  revert H. cbn [lift]. unfold process_image. destruct fmt; step_run; intros H; simplify_eq; exact Hb.
Qed.

Lemma store_blank time st st' c :
  blank st -> seq_frame_store frame_size fmt fuel wr time st = Ret (st', c) -> blank st'.
Proof using Hfmt.
  intros (Hs & Hf & Hp & Hg) H. unfold seq_frame_store, save_image in H.
  destruct fmt; try done; unfold save_pgm, save_ppm, dump_pgm, dump_ppm in H; revert H;
    capture_simpl; try (step_run; intros H; simplify_eq; by split).
  all: match goal with |- context [dump ?a ?b ?c ?d ?e ?f ?g ?h] =>
    destruct (dump a b c d e f g h) as [[d' fl]| |] eqn:Ed; [|done..] end;
    step_run; intros H; simplify_eq; apply dump_blank in Ed as [? ?]; try done;
    split; [done|]; split; [by constructor|]; done.
Qed.

Lemma serve_blank acts : forall st n st' n',
  blank st -> serve_all frame_size fmt camera clock fuel wr acts (st, n) = Ret (Some (st', n')) ->
  blank st'.
Proof using Hfmt.
  induction acts as [|a acts IH]; intros st n st' n' Hb H; cbn [serve_all] in H; [by simplify_eq|].
  destruct (serve frame_size fmt camera clock fuel wr a (st, n)) as [[[s1 n1]|]| |] eqn:Ea;
    try done. revert H. step_run. intros H. eapply IH; [|exact H]. clear H IH.
  destruct a as [[|[|[|i]]]|svcs|]; cbn [serve fst snd] in Ea; try (by simplify_eq).
  - destruct (seq_read _ _ _) as [[s2|]| |] eqn:Er; try done. revert Ea. step_run. intros Ea.
    simplify_eq. by eapply seq_read_blank.
  - destruct (seq_frame_process _ _ _) as [[s2 c]| |] eqn:Er; try done. revert Ea. step_run.
    cbn [fst]. intros Ea. simplify_eq. by eapply process_blank.
  - destruct (seq_frame_store _ _ _ _ _ _) as [[s2 c]| |] eqn:Er; try done. revert Ea. step_run.
    cbn [fst]. intros Ea. simplify_eq. by eapply store_blank.
Qed.
End unconverted.

(** The conversion to RGB is the only place that fills the scratchpad, and
    the store service dumps the scratchpad: with a grey or an RGB24 camera,
    whatever the frames, the order of the services and the writes, every file
    has a blank image. *)
Theorem unconverted_frames_lost (frame_size : Z) (fmt : pixelformat) (camera : nat -> list Z)
    (clock : Z -> timespec) (fuel : nat) (wr : nat -> Z) (acts : list action) (scratch n : nat)
    (st : capture) :
  fmt <> YUYV ->
  serve_all frame_size fmt camera clock fuel wr acts (capture0 frame_size scratch, 0%nat)
    = Ret (Some (st, n)) ->
  Forall (eq 0) (scratchpad_buffer st) /\ Forall blank_file (files st).
Proof.
  intros Hfmt H. eapply serve_blank in H as (? & ? & _); [done|done|].
  split; [|split; [constructor|by split]]. by apply Forall_replicate.
Qed.

Lemma unconverted_frames_lost_witness :
  exists st, serve_all 4 GREY (fun _ => [200; 201; 202; 203])
      (fun _ => {| tv_sec := 1; tv_nsec := 0 |}) 1
      (fun i => match i with O => 48 | _ => 4 end) [Post 0; Post 1; Post 2] (capture0 4 8, 0%nat)
    = Ret (Some (st, 1%nat)) /\ length (files st) = 1%nat /\ Forall blank_file (files st).
Proof.
  eexists. split; [vm_compute; reflexivity|]. split; [reflexivity|].
  eapply (unconverted_frames_lost 4 GREY (fun _ => [200; 201; 202; 203])
      (fun _ => {| tv_sec := 1; tv_nsec := 0 |}) 1
      (fun i => match i with O => 48 | _ => 4 end) [Post 0; Post 1; Post 2] 8 1); [done|].
  vm_compute. reflexivity.
Defined.
