(* ===== verification/CaptureLoop.v ===== *)
(** * The capture loop of capturelib.c: mainloop

    The stand-alone program of sequencer_generic/capture.c: one loop selects,
    reads, converts and saves.  An event is what the driver and the system do
    in one pass of the inner loop; the loop runs on a list of events and says
    whether it finished, left the process or waits for more. *)
From Stdlib Require Import String.
From stdpp Require Import option list sets.
From S2P Require Import Prelude CString Timespec Capture.
#[local] Open Scope Z_scope.

Definition LAST_FRAMES : Z := 1.
Definition CAPTURE_FRAMES : Z := 300 + LAST_FRAMES.
Definition FRAMES_TO_ACQUIRE : Z := CAPTURE_FRAMES + STARTUP_FRAMES + LAST_FRAMES.

(** [select]: the device is ready, a signal arrived, another error, or two
    seconds passed. *)
Inductive selection := Ready | Interrupted | SelectError | Timeout.

Record event := {
  rc : selection;
  dq : dequeue;                 (** [VIDIOC_DQBUF] in [read_frame] *)
  mapped : list (list Z);       (** the driver's buffers *)
  nap : bool;                   (** [nanosleep] returned 0 *)
  now : timespec;               (** [clock_gettime] *)
  requeued : bool               (** [VIDIOC_QBUF] succeeded *)
}.

(** [Finished]: the loop returned; [Exited]: [exit] or a failed [assert];
    [Waiting]: all events are consumed. *)
Inductive ended := Finished (st : capture) | Exited | Waiting (count : Z) (st : capture).

Section mainloop.
Context (frame_size : Z) (fmt : pixelformat) (fuel : nat) (wr : nat -> Z).

(** From the [memcpy] to the advance of the head. *)
Definition keep_frame (e : event) (index bytesused : Z) (st : capture) : outcome capture :=
  buffer ← lift (aget (mapped e) index);
  r ← lift (ring_put (ring_buffer st) buffer bytesused);
  let st := set_ring st r in
  let head_idx := head_idx r in
  frame ← lift (aget (save_frame r) head_idx);
  '(st, _) ← process_image fmt st frame frame_size;
  '(st, _) ← process_image fmt st frame frame_size;
  '(st, _) ← save_image fmt fuel wr st (scratchpad_buffer st) frame_size (now e);
  Ret (set_ring st (set_head r (u32 (head_idx + 1) mod ring_size r) (swrap 32 (count r - 1)))).

(** The two loops; [count] is the frames still to acquire. *)
Fixpoint mainloop_from (events : list event) (count : Z) (st : capture) : outcome ended :=
  if 0 <? count then
    match events with
    | [] => Ret (Waiting count st)
    | e :: events =>
        match rc e with
        | Interrupted => mainloop_from events count st
        | SelectError | Timeout => Ret Exited
        | Ready =>
            match read_frame (Z.of_nat (length (mapped e))) (dq e) st with
            | None => Ret Exited
            | Some (st, (index, bytesused), got) =>
                if got =? 0 then mainloop_from events count st else
                st ←
                  (if nap e && (1 <? read_framecnt st) then keep_frame e index bytesused st
                   else Ret st);
                if requeued e then mainloop_from events (u32 (count - 1)) st else Ret Exited
            end
        end
    end
  else Ret (Finished st).

Definition mainloop (events : list event) (st : capture) : outcome ended :=
  mainloop_from events FRAMES_TO_ACQUIRE st.
End mainloop.

(** ** What is saved *)

(** Whether an event delivers a frame, and the frame. *)
Definition delivered (e : event) : option (list Z) :=
  match rc e, dq e with Ready, Dequeued index _ => aget (mapped e) index | _, _ => None end.

(** The frames to save, with their times: those read after the first 31, unless
    the sleep before was interrupted, until [left] frames were read.  [n] is
    [read_framecnt]. *)
Fixpoint kept (events : list event) (n : Z) (left : nat) : list (list Z * timespec) :=
  match events, left with
  | [], _ | _, O => []
  | e :: events, S left' =>
      match delivered e with
      | None => kept events n left
      | Some frame =>
          (if nap e && (1 <? n + 1) then [(frame, now e)] else []) ++ kept events (n + 1) left'
      end
  end.

(** How many of the frames are still to be read at the end. *)
Fixpoint missing (events : list event) (left : nat) : nat :=
  match events, left with
  | [], _ | _, O => left
  | e :: events, S left' =>
      match delivered e with None => missing events left | Some _ => missing events left' end
  end.

(** The files of the frames, numbered from [m + 1], the last one first. *)
Fixpoint numbered (q m : nat) (frames : list (list Z * timespec)) (files : list (list Z * list Z))
    : list (list Z * list Z) :=
  match frames with
  | [] => files
  | (frame, time) :: frames =>
      numbered q (S m) frames
        ((file_name ".ppm" (Z.of_nat (S m)), header_text ppm_magic time ++ rgb frame q) :: files)
  end.

(** A driver without fatal errors that delivers complete frames: [select] may
    be interrupted, a frame may be missing ([EAGAIN], [EIO]) and the sleep may
    be interrupted. *)
Definition event_ok (q : nat) (e : event) : Prop :=
  (rc e = Ready \/ rc e = Interrupted) /\ requeued e = true /\ time_ok (now e) /\
  match dq e with
  | Dequeued index bytesused =>
      0 <= index < Z.of_nat (length (mapped e)) /\ bytesused = 4 * Z.of_nat q /\
      forall b, aget (mapped e) index = Some b -> length b = (4 * q)%nat
  | Eagain | Eio => True
  | DequeueError => False
  end.

Section loop.
Context (q fuel : nat) (wr : nat -> Z).
Let frame_size : Z := 4 * Z.of_nat q.
Hypothesis Hwr : wr 0%nat = 48 /\ wr 1%nat = 6 * Z.of_nat q.

(** Between two passes: [n] is [read_framecnt], [m] files were written; the
    ring is empty and its two indices agree. *)
Record loop_ok (n : Z) (m : nat) (fl : list (list Z * list Z)) (st : capture) : Prop := {
  lp_size : ring_size (ring_buffer st) = 3;
  lp_tail : 0 <= tail_idx (ring_buffer st) < 3;
  lp_head : head_idx (ring_buffer st) = tail_idx (ring_buffer st);
  lp_count : count (ring_buffer st) = 0;
  lp_slots : length (save_frame (ring_buffer st)) = 3%nat;
  lp_frames : forall i s, save_frame (ring_buffer st) !! i = Some s -> length s = (4 * q)%nat;
  lp_read : read_framecnt st = n;
  lp_process : process_framecnt st = 2 * Z.of_nat m;
  lp_save : save_framecnt st = Z.of_nat m;
  lp_scratch : (6 * q <= length (scratchpad_buffer st))%nat;
  lp_ppm : dumper_ok ppm_magic (ppm st);
  lp_files : files st = fl
}.

Lemma capture0_loop scratch :
  (6 * q <= scratch)%nat -> loop_ok (- STARTUP_FRAMES) 0 [] (capture0 frame_size scratch).
Proof using Type.
  clear Hwr. intros Hs. split; capture_simpl; try done.
  - intros i s Hi. apply lookup_replicate in Hi as [-> _]. rewrite length_replicate.
    unfold frame_size. lia.
  - cbn. by rewrite length_replicate.
  - apply ppm0_ok.
Qed.

(** [ring_put] of a complete frame. *)
Lemma ring_put_full r frame :
  ring_size r = 3 -> 0 <= tail_idx r < 3 -> count r = 0 -> length (save_frame r) = 3%nat ->
  (forall i s, save_frame r !! i = Some s -> length s = (4 * q)%nat) ->
  length frame = (4 * q)%nat ->
  ring_put r frame frame_size
  = Some {| ring_size := 3; tail_idx := (tail_idx r + 1) mod 3; head_idx := head_idx r; count := 1;
            save_frame := <[Z.to_nat (tail_idx r) := frame]> (save_frame r) |}.
Proof using Type.
  clear Hwr. intros Hsz Ht Hc Hsl Hfr Hlen. unfold ring_put, aget.
  rewrite (proj2 (Z.leb_le 0 _)) by lia.
  destruct (lookup_lt_is_Some_2 (save_frame r) (Z.to_nat (tail_idx r)) ltac:(lia)) as [slot Hs].
  rewrite Hs. cbn [mbind option_bind]. unfold frame_size.
  rewrite (proj2 (Z.ltb_ge _ _)) by lia.
  rewrite (take_ge frame) by lia. rewrite store_Some by (rewrite (Hfr _ _ Hs); lia).
  cbn [mbind option_bind]. rewrite aset_Some by lia. cbn [mbind option_bind].
  rewrite Hsz, Hc, wrap_small by (unfold in_range; lia). do 2 f_equal. f_equal.
  unfold splice. cbn [take app]. rewrite drop_ge by (rewrite (Hfr _ _ Hs); lia). by rewrite app_nil_r.
Qed.

(** [process_image] of a complete YUYV frame. *)
Lemma process_frame st frame :
  length frame = (4 * q)%nat -> (6 * q <= length (scratchpad_buffer st))%nat ->
  - 2 ^ 31 < process_framecnt st + 1 < 2 ^ 31 -> 0 <= process_framecnt st ->
  exists st' c, process_image YUYV st frame frame_size = Ret (st', c) /\
    process_framecnt st' = process_framecnt st + 1 /\
    scratchpad_buffer st' = rgb frame q ++ drop (6 * q) (scratchpad_buffer st) /\
    ring_buffer st' = ring_buffer st /\ read_framecnt st' = read_framecnt st /\
    save_framecnt st' = save_framecnt st /\ ppm st' = ppm st /\ files st' = files st.
Proof using Type.
  clear Hwr. intros Hlen Hs Hp Hp0. unfold process_image, frame_size.
  rewrite convert_spec by lia. step_run. rewrite swrap_small by lia.
  do 2 eexists. split; [reflexivity|]. by capture_simpl.
Qed.

(** [save_image] of the scratchpad. *)
Lemma save_scratch m img st time :
  save_framecnt st = Z.of_nat m -> Z.of_nat m < 9999 -> time_ok time ->
  (6 * q <= length (scratchpad_buffer st))%nat -> take (6 * q) (scratchpad_buffer st) = img ->
  dumper_ok ppm_magic (ppm st) ->
  exists st' c, save_image YUYV (S fuel) wr st (scratchpad_buffer st) frame_size time = Ret (st', c) /\
    files st' = (file_name ".ppm" (Z.of_nat (S m)), header_text ppm_magic time ++ img) :: files st /\
    dumper_ok ppm_magic (ppm st') /\ save_framecnt st' = Z.of_nat (S m) /\
    ring_buffer st' = ring_buffer st /\ read_framecnt st' = read_framecnt st /\
    process_framecnt st' = process_framecnt st /\ scratchpad_buffer st' = scratchpad_buffer st.
Proof using Hwr.
  intros Hs Hm Ht Hl Hi Hd. destruct Hwr as [Hwr0 Hwr1].
  unfold save_image. rewrite Hs, swrap_small by lia. rewrite (proj2 (Z.ltb_lt 0 _)) by lia.
  unfold save_ppm, dump_ppm. capture_simpl.
  assert (frame_size * 6 ÷ 4 = 6 * Z.of_nat q) as ->.
  { unfold frame_size. rewrite Z.quot_div_nonneg by lia. symmetry. apply (Z.div_unique _ _ _ 0); lia. }
  destruct (dump_spec ".ppm" fuel wr (ppm st) ppm_magic (scratchpad_buffer st) (6 * Z.of_nat q)
              (Z.of_nat m + 1) time Hd) as (d' & Hdump & Hd'); [by left|lia|done|lia|done|done|].
  rewrite Hdump. step_run. do 2 eexists. split; [reflexivity|]. capture_simpl.
  replace (Z.of_nat (S m)) with (Z.of_nat m + 1) by lia.
  replace (Z.to_nat (6 * Z.of_nat q)) with (6 * q)%nat by lia. rewrite Hi.
  by split.
Qed.

(** A frame kept. *)
Lemma keep_ok n m fl st e index frame :
  loop_ok n m fl st -> Z.of_nat m < 9999 -> time_ok (now e) ->
  aget (mapped e) index = Some frame -> length frame = (4 * q)%nat ->
  exists st', keep_frame frame_size YUYV (S fuel) wr e index frame_size st = Ret st' /\
    loop_ok n (S m) ((file_name ".ppm" (Z.of_nat (S m)),
      header_text ppm_magic (now e) ++ rgb frame q) :: fl) st'.
Proof using Hwr.
  intros [Hsz Ht Hh Hc Hsl Hfr Hr Hp Hs Hl Hd Hf] Hm Htime Hframe Hlen.
  unfold keep_frame. rewrite Hframe. step_run. rewrite ring_put_full by done. step_run. capture_simpl.
  rewrite Hh. unfold aget at 1. rewrite (proj2 (Z.leb_le 0 _)) by lia.
  rewrite list_lookup_insert_eq by lia. step_run.
  set (r := {| ring_size := 3; tail_idx := _; head_idx := _; count := 1; save_frame := _ |}).
  destruct (process_frame (set_ring st r) frame Hlen) as
    (s1 & c1 & -> & Hp1 & Hs1 & Hr1 & Hn1 & Hv1 & Hd1 & Hf1); [capture_simpl; lia..|].
  step_run.
  destruct (process_frame s1 frame Hlen) as
    (s2 & c2 & -> & Hp2 & Hs2 & Hr2 & Hn2 & Hv2 & Hd2 & Hf2).
  { rewrite Hs1, length_app, length_rgb, length_drop. capture_simpl. lia. }
  { rewrite Hp1. capture_simpl. lia. } { rewrite Hp1. capture_simpl. lia. }
  step_run.
  destruct (save_scratch m (rgb frame q) s2 (now e)) as
    (s3 & c3 & -> & Hf3 & Hd3 & Hv3 & Hr3 & Hn3 & Hp3 & Hs3).
  { by rewrite Hv2, Hv1. } { done. } { done. }
  { rewrite Hs2, Hs1. rewrite length_app, length_rgb, length_drop, length_app, length_rgb. lia. }
  { rewrite Hs2. rewrite <- (length_rgb frame q) at 1. apply take_app_length. }
  { by rewrite Hd2, Hd1. }
  step_run. eexists. split; [reflexivity|].
  subst r. unfold set_head. rewrite ?Hr3, ?Hr2, ?Hr1. split; capture_simpl; try done.
  - apply Z.mod_pos_bound. lia.
  - rewrite wrap_small by (unfold in_range; lia). done.
  - by rewrite length_insert.
  - intros i s Hi. apply list_lookup_insert_Some in Hi as [(_ & <- & _)|[_ Hi]]; [done|eauto].
  - by rewrite Hn3, Hn2, Hn1.
  - rewrite Hp3, Hp2, Hp1. capture_simpl. lia.
  - rewrite Hs3, Hs2, length_app, length_rgb, length_drop. lia.
  - by rewrite Hf3, Hf2, Hf1, <- Hf.
Qed.

(** A frame read: the count of frames goes up and nothing else changes. *)
Lemma read_delivered n m fl st e index bytesused nb :
  loop_ok n m fl st -> dq e = Dequeued index bytesused -> index < nb ->
  - 2 ^ 31 <= n + 1 < 2 ^ 31 ->
  exists st', read_frame nb (dq e) st = Some (st', (index, bytesused), 1) /\ loop_ok (n + 1) m fl st'.
Proof using Type.
  clear Hwr. intros [Hsz Ht Hh Hc Hsl Hfr Hr Hp Hs Hl Hd Hf] Hdq Hi Hn. rewrite Hdq. cbn [read_frame].
  rewrite (proj2 (Z.ltb_lt _ _)) by done. eexists. split; [reflexivity|].
  split; capture_simpl; try done. rewrite Hr. unfold swrap. rewrite Z.mod_small by lia. lia.
Qed.

Lemma mainloop_from_spec events : forall left n m fl st,
  loop_ok n m fl st -> Forall (event_ok q) events -> Z.of_nat m + Z.of_nat left <= 9999 ->
  - 2 ^ 30 <= n <= 2 ^ 30 - Z.of_nat left ->
  exists st',
    mainloop_from frame_size YUYV (S fuel) wr events (Z.of_nat left) st
    = Ret (match missing events left with
           | O => Finished st' | S k => Waiting (Z.of_nat (S k)) st' end) /\
    loop_ok (n + Z.of_nat left - Z.of_nat (missing events left)) (m + length (kept events n left))
      (numbered q m (kept events n left) fl) st'.
Proof using Hwr.
  induction events as [|e events IH]; intros left n m fl st Hok Hev Hm Hn.
  { exists st. cbn [missing kept numbered mainloop_from length]. destruct left as [|left].
    - split; [done|]. by rewrite Z.add_simpl_r, Nat.add_0_r.
    - rewrite (proj2 (Z.ltb_lt _ _)) by lia. split; [done|].
      by rewrite Z.add_simpl_r, Nat.add_0_r. }
  destruct left as [|left].
  { exists st. cbn. split; [done|]. by rewrite Z.add_0_r, Z.sub_0_r, Nat.add_0_r. }
  inversion Hev as [|? ? (Hrc & Hq & Ht & Hdq) Hev']; subst. clear Hev. rename Hev' into Hev.
  cbn [mainloop_from missing kept]. rewrite (proj2 (Z.ltb_lt _ _)) by lia. unfold delivered.
  destruct Hrc as [Hrc|Hrc]; rewrite Hrc; [|by apply IH].
  destruct (dq e) as [index bytesused| | |] eqn:Edq; cbn [read_frame Z.eqb]; [|by apply IH..|done].
  destruct Hdq as (Hi & -> & Hlen).
  destruct (aget_Some (mapped e) index Hi) as [frame Hframe]. rewrite Hframe.
  specialize (Hlen frame Hframe).
  destruct (read_delivered n m fl st e index (4 * Z.of_nat q) (Z.of_nat (length (mapped e))))
    as (s1 & H1 & Hok1); [done..|lia|lia|].
  rewrite Edq in H1. cbn [read_frame] in H1. rewrite H1. cbn [Z.eqb]. rewrite Hq.
  assert (u32 (Z.of_nat (S left) - 1) = Z.of_nat left) as ->.
  { rewrite wrap_small by (unfold in_range; lia). lia. }
  rewrite (lp_read _ _ _ _ Hok1).
  destruct (nap e && (1 <? n + 1)).
  - destruct (keep_ok _ _ _ _ e index frame Hok1) as (s2 & H2 & Hok2); [lia|done..|].
    unfold frame_size in H2 |- *. rewrite H2. step_run.
    destruct (IH left (n + 1) (S m) _ s2 Hok2 Hev) as (s3 & H3 & Hok3); [lia|lia|].
    unfold frame_size in H3. rewrite H3. exists s3. split; [done|]. cbn [app length numbered].
    replace (n + Z.of_nat (S left)) with (n + 1 + Z.of_nat left) by lia.
    by replace (m + S (length (kept events (n + 1) left)))%nat
      with (S m + length (kept events (n + 1) left))%nat by lia.
  - step_run. destruct (IH left (n + 1) m _ s1 Hok1 Hev) as (s3 & H3 & Hok3); [lia|lia|].
    rewrite H3. exists s3. split; [done|]. cbn [app].
    by replace (n + Z.of_nat (S left)) with (n + 1 + Z.of_nat left) by lia.
Qed.
End loop.

(** With a frame in every event and no interrupted sleep, the first frames,
    until [read_framecnt] is 1, are dropped and all others kept. *)
Lemma kept_all events : forall n left,
  Forall (fun e => is_Some (delivered e) /\ nap e = true) events -> (left <= length events)%nat ->
  missing events left = 0%nat /\
  Z.of_nat (length (kept events n left)) = Z.max 0 (Z.of_nat left - Z.max 0 (1 - n)).
Proof.
  induction events as [|e events IH]; intros n [|left] Hall Hlen; cbn [length] in Hlen;
    [split; [done|cbn; lia]|lia|split; [done|cbn; lia]|].
  inversion Hall as [|? ? [[frame Hd] Hnap] Hrest]; subst. cbn [missing kept]. rewrite Hd, Hnap.
  destruct (IH (n + 1) left Hrest ltac:(lia)) as [-> Hk]. split; [done|].
  cbn [andb]. destruct (Z.ltb_spec 1 (n + 1)); cbn [app length]; lia.
Qed.

(** C10: the capture loop, with a driver without fatal errors: whatever mixture
    of signals, missing frames, interrupted sleeps and frames it delivers, the
    files are the RGB conversions of the frames after the 31 first ones whose
    sleep was not interrupted, numbered from 1 without gaps and stamped with
    their times; every saved frame is converted twice; and the loop finishes
    exactly when 332 frames were read.  When every event delivers a frame and
    no sleep is interrupted these are [CAPTURE_FRAMES] files. *)
Theorem mainloop_saves (q scratch fuel : nat) (wr : nat -> Z) (events : list event) :
  wr 0%nat = 48 -> wr 1%nat = 6 * Z.of_nat q -> (6 * q <= scratch)%nat ->
  Forall (event_ok q) events ->
  let todo := Z.to_nat FRAMES_TO_ACQUIRE in
  let frames := kept events (- STARTUP_FRAMES) todo in
  exists st,
    mainloop (4 * Z.of_nat q) YUYV (S fuel) wr events (capture0 (4 * Z.of_nat q) scratch)
    = Ret (match missing events todo with
           | O => Finished st | S k => Waiting (Z.of_nat (S k)) st end) /\
    files st = numbered q 0 frames [] /\
    save_framecnt st = Z.of_nat (length frames) /\
    process_framecnt st = 2 * Z.of_nat (length frames) /\
    (Forall (fun e => is_Some (delivered e) /\ nap e = true) events ->
     FRAMES_TO_ACQUIRE <= Z.of_nat (length events) ->
     missing events todo = 0%nat /\ Z.of_nat (length frames) = CAPTURE_FRAMES).
Proof.
  intros Hw0 Hw1 Hs Hev todo frames.
  assert (Z.of_nat todo = FRAMES_TO_ACQUIRE) as Htodo by done.
  destruct (mainloop_from_spec q fuel wr (conj Hw0 Hw1) events todo (- STARTUP_FRAMES) 0 []
    (capture0 (4 * Z.of_nat q) scratch)) as (st & Hrun & Hok).
  - by apply capture0_loop.
  - done.
  - rewrite Htodo. unfold FRAMES_TO_ACQUIRE, CAPTURE_FRAMES, LAST_FRAMES, STARTUP_FRAMES. lia.
  - rewrite Htodo. unfold FRAMES_TO_ACQUIRE, CAPTURE_FRAMES, LAST_FRAMES, STARTUP_FRAMES. lia.
  - exists st. unfold mainloop. rewrite <- Htodo. split; [exact Hrun|].
    split; [exact (lp_files _ _ _ _ _ Hok)|]. split; [exact (lp_save _ _ _ _ _ Hok)|].
    split; [exact (lp_process _ _ _ _ _ Hok)|]. intros Hall Hlen.
    destruct (kept_all events (- STARTUP_FRAMES) todo Hall) as [Hm Hk]; [lia|].
    split; [exact Hm|]. unfold frames. rewrite Hk, Htodo. done.
Qed.

(** A camera that delivers the same four bytes 340 times. *)
Definition frame_event : event :=
  {| rc := Ready; dq := Dequeued 0 4; mapped := [[235; 128; 16; 128]]; nap := true;
     now := {| tv_sec := 9; tv_nsec := 0 |}; requeued := true |}.

Lemma mainloop_saves_witness :
  exists st,
    mainloop 4 YUYV 1 (fun i => match i with O => 48 | _ => 6 end) (replicate 340 frame_event)
      (capture0 4 8) = Ret (Finished st) /\
    save_framecnt st = 301 /\ process_framecnt st = 602.
Proof.
  destruct (mainloop_saves 1 8 0 (fun i => match i with O => 48 | _ => 6 end)
    (replicate 340 frame_event)) as (st & H & _ & Hs & Hp & Hall); [reflexivity|reflexivity|lia| |].
  - apply Forall_replicate. split; [by left|]. split; [reflexivity|]. split; [by split|].
    split; [by split|]. split; [reflexivity|]. by intros b [= <-].
  - destruct Hall as [Hm Hk].
    + apply Forall_replicate. split; [by eexists|reflexivity].
    + rewrite length_replicate. vm_compute. discriminate.
    + rewrite Hm in H. exists st. split; [exact H|]. rewrite Hs, Hp, Hk. split; reflexivity.
Defined.
