(* ===== verification/Sys.v ===== *)
(** * Programs of system calls

    A program is a tree of calls, each with what follows its reply.  The other
    side is a [Protocol]: which calls may be made in a state, which replies may
    come, and the state after.  [behaves] gives the runs of a program against a
    protocol, [ok] the weakest precondition that rules out the bad ones.  The
    models of the capture programs instantiate it with the video device. *)
From S2P Require Import Prelude.
From stdpp Require Import option list.
#[local] Open Scope Z_scope.

Inductive errno := EINTR | EAGAIN | EIO | EINVAL | OtherError (n : Z).

(** An error, or the values the call returns and fills in. *)
Inductive reply := Fail (e : errno) | Done (values : list Z).

Definition value (i : nat) (v : list Z) : Z := nth i v 0.

(** A value, the end of the process, an access outside an array, more passes
    of a loop than the fuel, or a call and what follows its reply. *)
Inductive prog (C A : Type) : Type :=
  | Value (a : A)
  | Exit
  | Wild
  | Running
  | Call (c : C) (k : reply -> prog C A).
Arguments Value {C A} a.
Arguments Exit {C A}.
Arguments Wild {C A}.
Arguments Running {C A}.
Arguments Call {C A} c k.

#[export] Instance prog_ret C : MRet (prog C) := @Value C.
#[export] Instance prog_bind C : MBind (prog C) := fun A B f =>
  fix go (m : prog C A) : prog C B :=
    match m with
    | Value a => f a
    | Exit => Exit
    | Wild => Wild
    | Running => Running
    | Call c k => Call c (fun r => go (k r))
    end.

Definition sys {C} (c : C) : prog C reply := Call c Value.

(** [if(-1 == ...) errno_exit(...)] *)
Definition or_exit {C} (r : reply) : prog C (list Z) :=
  match r with Done v => Value v | Fail _ => Exit end.

(** An access to an array. *)
Definition or_wild {C A} (o : option A) : prog C A :=
  match o with Some a => Value a | None => Wild end.

(** The other side: calls in order, the replies that can come (a [willing] side
    does what it is asked; what one that [fits] hands over has the size the
    program has room for), and the state after. *)
Class Protocol (K C : Type) := {
  allowed : K -> C -> Prop;
  legal : K -> C -> reply -> Prop;
  next : K -> C -> reply -> K;
  willing : bool;
  fits : bool
}.

(** How a program can go. *)
Inductive verdict (C A : Type) :=
  | Returned (a : A) | Exited | StillRunning | OutOfBounds | Violation (c : C).
Arguments Returned {C A}.
Arguments Exited {C A}.
Arguments StillRunning {C A}.
Arguments OutOfBounds {C A}.
Arguments Violation {C A}.

Section protocol.
Context {K C : Type} {P : Protocol K C}.

Inductive behaves {A} : K -> prog C A -> K -> verdict C A -> Prop :=
  | behaves_value s a : behaves s (Value a) s (Returned a)
  | behaves_exit s : behaves s Exit s Exited
  | behaves_running s : behaves s Running s StillRunning
  | behaves_wild s : behaves s Wild s OutOfBounds
  | behaves_violation s c k : ~ allowed s c -> behaves s (Call c k) s (Violation c)
  | behaves_call s c k a s' v :
      allowed s c -> legal s c a -> behaves (next s c a) (k a) s' v -> behaves s (Call c k) s' v.

(** The program keeps to the protocol and ends in [Q], or with the process, or
    runs on, or leaves an array; the second and the third only against a side
    that is not willing, the last only against one that does not fit. *)
Fixpoint ok {A} (s : K) (m : prog C A) (Q : K -> A -> Prop) : Prop :=
  match m with
  | Value a => Q s a
  | Exit | Running => willing = false
  | Wild => fits = false
  | Call c k => allowed s c /\ forall a, legal s c a -> ok (next s c a) (k a) Q
  end.

Lemma ok_behaves {A} (s : K) (m : prog C A) Q s' v :
  ok s m Q -> behaves s m s' v ->
  match v with
  | Returned a => Q s' a
  | Exited | StillRunning => willing = false
  | OutOfBounds => fits = false
  | Violation _ => False
  end.
Proof.
  intros Ho Hb. induction Hb as [| | | |s c k Hn|s c k a s' v _ Hl _ IH]; cbn in Ho; try done.
  - by destruct Ho.
  - apply IH, Ho, Hl.
Qed.

Lemma ok_bind {A B} (m : prog C A) (f : A -> prog C B) s Q R :
  ok s m R -> (forall s a, R s a -> ok s (f a) Q) -> ok s (m ≫= f) Q.
Proof.
  revert s; induction m as [a| | | |c k IH]; intros s Hm Hf; cbn in *; auto.
  destruct Hm as [Ha Hk]. split; [done|]. intros r Hr. apply IH; auto.
Qed.

Lemma ok_bind_wp {A B} (m : prog C A) (f : A -> prog C B) s Q :
  ok s m (fun s a => ok s (f a) Q) -> ok s (m ≫= f) Q.
Proof. intros Hm. by eapply ok_bind. Qed.

Lemma ok_mono {A} (m : prog C A) s (Q R : K -> A -> Prop) :
  ok s m Q -> (forall s a, Q s a -> R s a) -> ok s m R.
Proof.
  revert s; induction m as [a| | | |c k IH]; intros s Hm Hf; cbn in *; auto.
  destruct Hm as [Ha Hk]. split; [done|]. intros r Hr. eapply IH; eauto.
Qed.

Lemma ok_for_loop {T} (I : nat -> K -> T -> Prop) (body : nat -> T -> prog C T) n i s x :
  I i s x ->
  (forall j s x, (i <= j < i + n)%nat -> I j s x -> ok s (body j x) (I (j + 1)%nat)) ->
  ok s (for_loop n i body x) (I (i + n)%nat).
Proof.
  revert i s x; induction n as [|n IH]; intros i s x H0 Hb; cbn [for_loop].
  - cbn. by rewrite Nat.add_0_r.
  - eapply ok_bind; [apply (Hb i); [lia|exact H0]|]. intros s' x' HI.
    replace (i + S n)%nat with (i + 1 + n)%nat by lia. apply IH; [exact HI|].
    intros j s1 x1 Hj. apply Hb. lia.
Qed.

(** A run of [m] and then [f]. *)
Lemma behaves_bind {A B} (m : prog C A) (f : A -> prog C B) s s' v :
  behaves s (m ≫= f) s' v ->
  exists s1 v1, behaves s m s1 v1 /\
    match v1 with
    | Returned a => behaves s1 (f a) s' v
    | Exited => v = Exited
    | StillRunning => v = StillRunning
    | OutOfBounds => v = OutOfBounds
    | Violation c => v = Violation c
    end.
Proof.
  revert s; induction m as [a| | | |c k IH]; intros s Hb.
  - exists s, (Returned a). split; [constructor | exact Hb].
  - inversion Hb; subst. exists s', Exited. split; [constructor|done].
  - inversion Hb; subst. exists s', OutOfBounds. split; [constructor|done].
  - inversion Hb; subst. exists s', StillRunning. split; [constructor|done].
  - inversion Hb as [| | | | ??? Hn | ??? a ?? Ha Hl Hk]; subst.
    + exists s', (Violation c). split; [by constructor|done].
    + destruct (IH a _ Hk) as (s1 & v1 & H1 & H2). exists s1, v1. split; [|exact H2].
      by eapply behaves_call.
Qed.

(** Where the other side always has a reply to a call it takes, in the states
    of an invariant that it keeps, a program that keeps to the protocol has a
    run. *)
Lemma ok_runs {A} (Inv : K -> Prop) (m : prog C A) Q s :
  (forall s c, Inv s -> allowed s c -> exists a, legal s c a /\ Inv (next s c a)) ->
  Inv s -> ok s m Q ->
  exists s' v, behaves s m s' v.
Proof.
  intros Hr. revert s; induction m as [a| | | |c k IH]; intros s Hi Ho; [eexists _, _; constructor..|].
  destruct Ho as [Ha Ho]. destruct (Hr s c Hi Ha) as (a & Hl & Hn).
  destruct (IH a _ Hn (Ho a Hl)) as (s' & v & Hb). exists s', v. by eapply behaves_call.
Qed.

Lemma ok_sys {A} c s (f : reply -> prog C A) Q :
  allowed s c -> (forall a, legal s c a -> ok (next s c a) (f a) Q) -> ok s (sys c ≫= f) Q.
Proof. intros Ha Hf. split; [done|exact Hf]. Qed.

(** A call, left at once when it fails. *)
Lemma ok_sys_or_exit {A} c s (f : list Z -> prog C A) Q :
  allowed s c -> (forall e, legal s c (Fail e) -> willing = false) ->
  (forall v, legal s c (Done v) -> ok (next s c (Done v)) (f v) Q) ->
  ok s (a ← sys c; v ← or_exit a; f v) Q.
Proof.
  intros Ha He Hf. apply ok_sys; [done|]. intros [e|v] Hl; cbn; [by eapply He | by apply Hf].
Qed.

(** A call made again while it is interrupted, as [xioctl] makes it. *)
Fixpoint retry (n : nat) (c : C) : prog C reply :=
  match n with
  | O => Running
  | S n => Call c (fun a => match a with Fail EINTR => retry n c | _ => Value a end)
  end.

Lemma ok_retry n c s (Q : K -> reply -> Prop) :
  (willing = true -> (0 < n)%nat) ->
  allowed s c -> (forall e, legal s c (Fail e) -> willing = false) ->
  (forall e, next s c (Fail e) = s) ->
  (forall e, e <> EINTR -> willing = false -> Q s (Fail e)) ->
  (forall v, legal s c (Done v) -> Q (next s c (Done v)) (Done v)) ->
  ok s (retry n c) Q.
Proof.
  intros Hw Ha He Hs Hf Hd. revert Hw; induction n as [|n IH]; intros Hw; cbn [retry ok].
  { destruct willing; [|done]. specialize (Hw eq_refl). lia. }
  split; [done|]. intros [e|v] Hl; [|by apply Hd]. pose proof (He e Hl) as Hno.
  rewrite Hs. destruct e; cbn [ok]; try (by apply Hf). apply IH. congruence.
Qed.
End protocol.
