(* ===== verification/V4l2.v ===== *)
(** * The capture device: sequencer_generic/capturelib.c, from open to close

    The functions that open, configure, start, read, stop and close the V4L2
    device are programs of system calls.  The kernel's side is a protocol: which
    calls a device in a given state takes, and which replies it may give.  What
    is done with a frame is modelled in [Capture] and [CaptureLoop]. *)
From S2P Require Import Prelude Sys.
From stdpp Require Import option list gmap.
#[local] Open Scope Z_scope.

(** ** System calls *)

Inductive request :=
  | VIDIOC_QUERYCAP | VIDIOC_CROPCAP | VIDIOC_S_CROP
  | VIDIOC_S_FMT (width height : Z) | VIDIOC_G_FMT
  | VIDIOC_REQBUFS (count : Z) | VIDIOC_QUERYBUF (index : Z)
  | VIDIOC_QBUF (index : Z) | VIDIOC_DQBUF
  | VIDIOC_STREAMON | VIDIOC_STREAMOFF.

Inductive call :=
  | Stat | Open | Close (fd : Z)
  | Ioctl (fd : Z) (r : request)
  | Calloc (count : Z)
  | Mmap (fd length offset : Z) | Munmap (start length : Z)
  | Select (fd : Z) | Nanosleep.

#[local] Abbreviation prog := (prog call).

(** ** The library *)

Definition HRES : Z := 640.
Definition VRES : Z := 480.
Definition PIXEL_SIZE : Z := 2.
Definition DRIVER_MMAP_BUFFERS : Z := 6.

Record pix := { width : Z; height : Z; bytesperline : Z; sizeimage : Z }.

(** The file's globals: a mapped buffer is its start and its length, and
    [buffers] the array of them, empty where none is allocated.  Of [frame_buf]
    the fields that are read again: [start_capturing] is the first
    to leave a value in them that is. *)
Record globals := {
  camera_device_fd : Z; buffers : list (Z * Z); n_buffers : Z;
  frame_index : Z; frame_bytesused : Z; read_framecnt : Z; fmt : pix
}.

Definition set_fd (fd : Z) (g : globals) : globals :=
  {| camera_device_fd := fd; buffers := buffers g; n_buffers := n_buffers g;
     frame_index := frame_index g; frame_bytesused := frame_bytesused g;
     read_framecnt := read_framecnt g; fmt := fmt g |}.
Definition set_buffers (l : list (Z * Z)) (n : Z) (g : globals) : globals :=
  {| camera_device_fd := camera_device_fd g; buffers := l; n_buffers := n;
     frame_index := frame_index g; frame_bytesused := frame_bytesused g;
     read_framecnt := read_framecnt g; fmt := fmt g |}.
Definition set_frame (index used cnt : Z) (g : globals) : globals :=
  {| camera_device_fd := camera_device_fd g; buffers := buffers g; n_buffers := n_buffers g;
     frame_index := index; frame_bytesused := used; read_framecnt := cnt; fmt := fmt g |}.
Definition set_fmt (p : pix) (g : globals) : globals :=
  {| camera_device_fd := camera_device_fd g; buffers := buffers g; n_buffers := n_buffers g;
     frame_index := frame_index g; frame_bytesused := frame_bytesused g;
     read_framecnt := read_framecnt g; fmt := p |}.

(** [n] bytes from the start of an array of [size]. *)
Definition within (n size : Z) : bool := (n =? 0) || (n <=? size).

Section library.
(** The bits of [cap.capabilities], from the kernel's header; the retries of a
    call that is interrupted and the passes of the main loop are fuel. *)
Context (V4L2_CAP_VIDEO_CAPTURE V4L2_CAP_STREAMING : Z) (retries fuel : nat).

Definition xioctl (fd : Z) (r : request) : prog reply := retry retries (Ioctl fd r).

Definition open_device (g : globals) : prog globals :=
  a ← sys Stat; v ← or_exit a;
  if value 0 v =? 0 then Exit                        (* not a character device *)
  else a ← sys Open; v ← or_exit a; Value (set_fd (value 0 v) g).

Definition close_device (g : globals) : prog globals :=
  a ← sys (Close (camera_device_fd g)); _ ← or_exit a; Value (set_fd (-1) g).

(** One buffer mapped. *)
Definition map_buffer (g : globals) : prog globals :=
  a ← xioctl (camera_device_fd g) (VIDIOC_QUERYBUF (n_buffers g)); v ← or_exit a;
  a ← sys (Mmap (camera_device_fd g) (value 0 v) (value 1 v)); s ← or_exit a;
  Value (set_buffers (buffers g ++ [(value 0 s, value 0 v)]) (n_buffers g + 1) g).

Definition init_mmap (g : globals) : prog globals :=
  a ← xioctl (camera_device_fd g) (VIDIOC_REQBUFS DRIVER_MMAP_BUFFERS); v ← or_exit a;
  if value 0 v <? 2 then Exit
  else
    a ← sys (Calloc (value 0 v)); _ ← or_exit a;
    for_loop (Z.to_nat (value 0 v)) 0 (fun _ => map_buffer) (set_buffers [] 0 g).

(** "Buggy driver paranoia". *)
Definition fix_pix (p : pix) : pix :=
  let m := u32 (width p * 2) in
  let bpl := if bytesperline p <? m then m else bytesperline p in
  let m := u32 (bpl * height p) in
  {| width := width p; height := height p; bytesperline := bpl;
     sizeimage := if sizeimage p <? m then m else sizeimage p |}.

Definition init_device (force_format : bool) (g : globals) : prog globals :=
  let fd := camera_device_fd g in
  a ← xioctl fd VIDIOC_QUERYCAP; cap ← or_exit a;
  if value 0 cap .& V4L2_CAP_VIDEO_CAPTURE =? 0 then Exit
  else if value 0 cap .& V4L2_CAP_STREAMING =? 0 then Exit
  else
    a ← xioctl fd VIDIOC_CROPCAP;
    _ ← (match a with Done _ => xioctl fd VIDIOC_S_CROP | Fail e => Value (Fail e) end);
    a ← (if force_format then xioctl fd (VIDIOC_S_FMT HRES VRES) else xioctl fd VIDIOC_G_FMT);
    v ← or_exit a;
    init_mmap (set_fmt (fix_pix {| width := value 0 v; height := value 1 v;
                                   bytesperline := value 2 v; sizeimage := value 3 v |}) g).

Definition start_capturing (g : globals) : prog globals :=
  let fd := camera_device_fd g in
  _ ← for_loop (Z.to_nat (n_buffers g)) 0
        (fun i _ => a ← xioctl fd (VIDIOC_QBUF (Z.of_nat i)); _ ← or_exit a; Value tt) tt;
  a ← xioctl fd VIDIOC_STREAMON; _ ← or_exit a;
  Value (set_frame (n_buffers g - 1) 0 (read_framecnt g) g).

Definition stop_capturing (g : globals) : prog globals :=
  a ← xioctl (camera_device_fd g) VIDIOC_STREAMOFF; _ ← or_exit a; Value g.

(** [free(buffers)]: what reads the array after it finds nothing. *)
Definition free_buffers (g : globals) : globals := set_buffers [] (n_buffers g) g.

Definition uninit_device (g : globals) : prog globals :=
  _ ← for_loop (Z.to_nat (n_buffers g)) 0
        (fun i _ =>
           match buffers g !! i with
           | Some (start, length) => a ← sys (Munmap start length); _ ← or_exit a; Value tt
           | None => Wild
           end) tt;
  Value (free_buffers g).

(** Returns 0 or 1; [CLEAR] zeroes [frame_buf]. *)
Definition read_frame (g : globals) : prog (globals * Z) :=
  a ← xioctl (camera_device_fd g) VIDIOC_DQBUF;
  match a with
  | Fail EAGAIN | Fail EIO => Value (set_frame 0 0 (read_framecnt g) g, 0)
  | Fail _ => Exit
  | Done v =>
      if value 0 v <? n_buffers g
      then Value (set_frame (value 0 v) (u32 (value 1 v)) (swrap 32 (read_framecnt g + 1)) g, 1)
      else Exit
  end.

(** [memcpy] of the frame from its buffer to an element of the ring, whose
    [frame] has [HRES*VRES*PIXEL_SIZE] bytes: the bytes copied are within both.
    The value is the address they are copied from. *)
Definition frame_start (g : globals) : prog Z :=
  match (if frame_index g <? 0 then None else buffers g !! Z.to_nat (frame_index g)) with
  | Some (start, length) =>
      if within (frame_bytesused g) length && within (frame_bytesused g) (HRES * VRES * PIXEL_SIZE)
      then Value start
      else Wild
  | None => Wild
  end.

Definition requeue (g : globals) : prog unit :=
  a ← xioctl (camera_device_fd g) (VIDIOC_QBUF (frame_index g)); _ ← or_exit a; Value tt.

Definition seq_frame_read (g : globals) : prog globals :=
  _ ← sys (Select (camera_device_fd g));
  '(g, _) ← read_frame g;
  _ ← frame_start g;
  _ ← requeue g;
  Value g.

Fixpoint mainloop (n : nat) (count : Z) (g : globals) : prog globals :=
  if count <=? 0 then Value g
  else
    match n with
    | O => Running
    | S n =>
        a ← sys (Select (camera_device_fd g));
        match a with
        | Fail EINTR => mainloop n count g
        | Fail _ => Exit
        | Done v =>
            if value 0 v =? 0 then Exit                (* timeout *)
            else
              '(g, r) ← read_frame g;
              if r =? 0 then mainloop n count g
              else
                a ← sys Nanosleep;
                _ ← (match a with
                     | Done _ => if 1 <? read_framecnt g then frame_start g else Value 0
                     | Fail _ => Value 0
                     end);
                _ ← requeue g;
                mainloop n (count - 1) g
        end
    end.

Definition FRAMES_TO_ACQUIRE : Z := (300 + 1) + 30 + 1.

Definition v4l2_frame_acquisition_initialization (force_format : bool) (g : globals)
    : prog globals :=
  g ← open_device g;
  g ← init_device force_format g;
  start_capturing g.

Definition v4l2_frame_acquisition_shutdown (g : globals) : prog globals :=
  g ← stop_capturing g;
  g ← uninit_device g;
  close_device g.

Definition v4l2_frame_acquisition_loop (force_format : bool) (g : globals) : prog globals :=
  g ← open_device g;
  g ← init_device force_format g;
  g ← start_capturing g;
  g ← mainloop fuel FRAMES_TO_ACQUIRE g;
  g ← stop_capturing g;
  g ← uninit_device g;
  close_device g.
End library.

(** ** The kernel's side *)

(** A device: the descriptor it is open under, the number of buffers allocated,
    what is known of each (length and offset), the mappings (start and length),
    the buffers queued, and whether it streams. *)
Record kernel := {
  k_fd : option Z; k_bufs : Z; k_info : gmap Z (Z * Z); k_maps : gmap Z Z;
  k_queued : gset Z; k_on : bool
}.

Definition idle : kernel := Build_kernel None 0 ∅ ∅ ∅ false.

(** The requests a device in state [s] takes: the format is set before buffers
    are allocated; a buffer is queued when it is not; frames are taken while
    streaming, and from a buffer that is queued; streaming needs one. *)
Definition takes (s : kernel) (r : request) : Prop :=
  match r with
  | VIDIOC_QUERYCAP | VIDIOC_CROPCAP | VIDIOC_S_CROP | VIDIOC_G_FMT => True
  | VIDIOC_S_FMT _ _ => k_bufs s = 0
  | VIDIOC_REQBUFS _ => k_on s = false /\ k_maps s = ∅
  | VIDIOC_QUERYBUF i => 0 <= i < k_bufs s
  | VIDIOC_QBUF i => 0 <= i < k_bufs s /\ i ∉ k_queued s
  | VIDIOC_DQBUF => k_on s = true /\ k_queued s <> ∅
  | VIDIOC_STREAMON => k_on s = false /\ k_queued s <> ∅
  | VIDIOC_STREAMOFF => k_on s = true
  end.

(** Calls in order: nothing on a closed descriptor, a mapping only of a buffer
    the device described, unmapped as it was mapped, and closed with nothing
    mapped and no stream. *)
Definition device_allowed (s : kernel) (c : call) : Prop :=
  match c with
  | Stat | Calloc _ | Nanosleep => True
  | Open => k_fd s = None
  | Close fd => k_fd s = Some fd /\ k_maps s = ∅ /\ k_on s = false
  | Ioctl fd r => k_fd s = Some fd /\ takes s r
  | Mmap fd length offset => k_fd s = Some fd /\ exists i, k_info s !! i = Some (length, offset)
  | Munmap start length => k_maps s !! start = Some length
  | Select fd => k_fd s = Some fd
  end.

Definition next_ioctl (s : kernel) (r : request) (v : list Z) : kernel :=
  match r with
  | VIDIOC_REQBUFS _ => Build_kernel (k_fd s) (value 0 v) ∅ (k_maps s) ∅ (k_on s)
  | VIDIOC_QUERYBUF i =>
      Build_kernel (k_fd s) (k_bufs s) (<[i := (value 0 v, value 1 v)]> (k_info s)) (k_maps s)
        (k_queued s) (k_on s)
  | VIDIOC_QBUF i =>
      Build_kernel (k_fd s) (k_bufs s) (k_info s) (k_maps s) ({[i]} ∪ k_queued s) (k_on s)
  | VIDIOC_DQBUF =>
      Build_kernel (k_fd s) (k_bufs s) (k_info s) (k_maps s) (k_queued s ∖ {[value 0 v]}) (k_on s)
  | VIDIOC_STREAMON =>
      Build_kernel (k_fd s) (k_bufs s) (k_info s) (k_maps s) (k_queued s) true
  | VIDIOC_STREAMOFF => Build_kernel (k_fd s) (k_bufs s) (k_info s) (k_maps s) ∅ false
  | _ => s
  end.

(** A call that fails changes nothing. *)
Definition device_next (s : kernel) (c : call) (a : reply) : kernel :=
  match a with
  | Fail _ => s
  | Done v =>
      match c with
      | Open => Build_kernel (Some (value 0 v)) 0 ∅ ∅ ∅ false
      | Close _ => idle
      | Ioctl _ r => next_ioctl s r v
      | Mmap _ length _ =>
          Build_kernel (k_fd s) (k_bufs s) (k_info s) (<[value 0 v := length]> (k_maps s))
            (k_queued s) (k_on s)
      | Munmap start _ =>
          Build_kernel (k_fd s) (k_bufs s) (k_info s) (delete start (k_maps s)) (k_queued s) (k_on s)
      | _ => s
      end
  end.

(** What the documentation says of the values: a frame is in a queued buffer, a
    mapping starts where there is none. *)
Definition documented (s : kernel) (c : call) (a : reply) : Prop :=
  match c, a with
  | Ioctl _ VIDIOC_DQBUF, Done v => value 0 v ∈ k_queued s
  | Mmap _ _ _, Done v => k_maps s !! value 0 v = None
  | _, _ => True
  end.

(** A frame is no longer than an element of the ring nor than a mapped buffer.
    The second is documented; the first is not, it is the format that was asked
    for, and the program does not look whether it got it. *)
Definition fitting (s : kernel) (c : call) (a : reply) : Prop :=
  match c, a with
  | Ioctl _ VIDIOC_DQBUF, Done v =>
      within (u32 (value 1 v)) (HRES * VRES * PIXEL_SIZE) = true /\
      map_Forall (fun _ length => within (u32 (value 1 v)) length = true) (k_maps s)
  | _, _ => True
  end.

Section protocol.
Context (V4L2_CAP_VIDEO_CAPTURE V4L2_CAP_STREAMING : Z).

(** A device that does everything asked of it. *)
Definition obliging (c : call) (a : reply) : Prop :=
  match a with
  | Fail _ => False
  | Done v =>
      match c with
      | Stat | Select _ => value 0 v <> 0
      | Ioctl _ VIDIOC_QUERYCAP =>
          value 0 v .& V4L2_CAP_VIDEO_CAPTURE <> 0 /\ value 0 v .& V4L2_CAP_STREAMING <> 0
      | Ioctl _ (VIDIOC_REQBUFS _) => 2 <= value 0 v
      | _ => True
      end
  end.

(** [fits]: its frames are [fitting]. *)
Context (willing fits : bool).

Definition device_legal (s : kernel) (c : call) (a : reply) : Prop :=
  documented s c a /\ (willing = true -> obliging c a) /\ (fits = true -> fitting s c a).

Definition device : Protocol kernel call :=
  {| Sys.allowed := device_allowed; Sys.legal := device_legal; Sys.next := device_next;
     Sys.willing := willing; Sys.fits := fits |}.

#[local] Existing Instance device.

(** A call, left at once when it fails; only an unwilling device fails one. *)
Lemma legal_fail s c e : device_legal s c (Fail e) -> willing = false.
Proof. intros (_ & Hw & _). destruct willing; [|done]. by destruct (Hw eq_refl). Qed.

Lemma ok_call_or_exit {A} c s (f : list Z -> prog A) Q :
  device_allowed s c ->
  (forall v, device_legal s c (Done v) -> ok (device_next s c (Done v)) (f v) Q) ->
  ok s (a ← sys c; v ← or_exit a; f v) Q.
Proof. intros Ha Hf. apply ok_sys_or_exit; [done | apply legal_fail | done]. Qed.

Context (retries : nat) (Hretries : willing = true -> (0 < retries)%nat).

Lemma ok_xioctl s fd r (Q : kernel -> reply -> Prop) :
  device_allowed s (Ioctl fd r) ->
  (forall e, e <> EINTR -> willing = false -> Q s (Fail e)) ->
  (forall v, device_legal s (Ioctl fd r) (Done v) -> Q (device_next s (Ioctl fd r) (Done v)) (Done v)) ->
  ok s (xioctl retries fd r) Q.
Proof.
  intros Ha Hf Hd. apply ok_retry; [done | done | apply legal_fail | done..].
Qed.

Lemma ok_xioctl_or_exit {B} s fd r (f : list Z -> prog B) Q :
  device_allowed s (Ioctl fd r) ->
  (forall v, device_legal s (Ioctl fd r) (Done v) -> ok (device_next s (Ioctl fd r) (Done v)) (f v) Q) ->
  ok s (a ← xioctl retries fd r; v ← or_exit a; f v) Q.
Proof.
  intros Ha Hd. eapply (ok_bind _ _ _ _ (fun s' a => match a with
    | Fail _ => willing = false | Done v => ok s' (f v) Q end)).
  - apply ok_xioctl; auto.
  - intros s' [e|v] Hv; cbn; [done|exact Hv].
Qed.

(** ** The library keeps to the protocol *)

(** The first [n] buffers are mapped as the globals say. *)
Record mapped (n : nat) (g : globals) (s : kernel) : Prop := {
  m_fd : k_fd s = Some (camera_device_fd g);
  m_n : n_buffers g = Z.of_nat n;
  m_length : length (buffers g) = n;
  m_nodup : NoDup (buffers g).*1;
  m_maps : k_maps s = list_to_map (buffers g)
}.

(** All are, those in [q] are queued. *)
Record ready (q : Z -> Prop) (on : bool) (g : globals) (s : kernel) : Prop := {
  r_mapped : mapped (length (buffers g)) g s;
  r_two : 2 <= n_buffers g;
  r_bufs : k_bufs s = n_buffers g;
  r_queued i : i ∈ k_queued s <-> q i;
  r_on : k_on s = on
}.

Definition none (i : Z) : Prop := False.
Definition every (g : globals) (i : Z) : Prop := 0 <= i < n_buffers g.
Definition others (g : globals) (i : Z) : Prop := every g i /\ i <> frame_index g.

Lemma ok_open g :
  ok idle (open_device g)
    (fun s g' => exists fd, g' = set_fd fd g /\ s = Build_kernel (Some fd) 0 ∅ ∅ ∅ false).
Proof.
  apply ok_call_or_exit; [done|]. intros v (_ & Hw & _).
  destruct (Z.eqb_spec (value 0 v) 0) as [Hz|_].
  { cbn. destruct willing; [|done]. by destruct (Hw eq_refl). }
  apply ok_call_or_exit; [done|]. intros w _. cbn. by exists (value 0 w).
Qed.

Lemma ok_map_buffer N j g s :
  mapped j g s -> k_bufs s = N -> Z.of_nat j < N -> k_queued s = ∅ -> k_on s = false ->
  ok s (map_buffer retries g)
    (fun s' g' => mapped (j + 1) g' s' /\ k_bufs s' = N /\ k_queued s' = ∅ /\ k_on s' = false /\
       read_framecnt g' = read_framecnt g).
Proof.
  intros [Hf Hn Hl Hd Hm] Hb Hj Hq Ho. unfold map_buffer.
  apply ok_xioctl_or_exit; [cbn; rewrite Hn, Hb; split; [done|lia]|]. intros v _. cbn [device_next next_ioctl].
  apply ok_call_or_exit.
  { cbn. split; [done|]. exists (n_buffers g). by rewrite lookup_insert_eq. }
  intros w [Hfree _]. cbn in Hfree |- *.
  split; [|done]. split; cbn; [done | lia | rewrite length_app; cbn; lia | |].
  - rewrite fmap_app, NoDup_app. split; [done|]. split; [|by apply NoDup_singleton].
    intros x Hx ->%list_elem_of_singleton. rewrite Hm in Hfree.
    apply not_elem_of_list_to_map_2 in Hfree. by destruct Hfree.
  - rewrite Hm, list_to_map_snoc; [done|]. rewrite Hm in Hfree.
    by apply not_elem_of_list_to_map_2.
Qed.

Lemma ok_init_mmap g fd :
  camera_device_fd g = fd ->
  ok (Build_kernel (Some fd) 0 ∅ ∅ ∅ false) (init_mmap retries g)
    (fun s g' => ready none false g' s /\ read_framecnt g' = read_framecnt g).
Proof.
  intros Hfd. unfold init_mmap. apply ok_xioctl_or_exit; [cbn; by rewrite Hfd|].
  intros v (_ & Hw & _). destruct (Z.ltb_spec (value 0 v) 2) as [Hlt|Hge].
  { cbn. destruct willing; [|done]. specialize (Hw eq_refl). cbn in Hw. lia. }
  apply ok_call_or_exit; [done|]. intros w _. cbn [device_next next_ioctl k_fd k_maps k_on].
  set (n := Z.to_nat (value 0 v)).
  eapply ok_mono; [apply (ok_for_loop (fun j s g' => mapped j g' s /\ k_bufs s = value 0 v /\
      k_queued s = ∅ /\ k_on s = false /\ read_framecnt g' = read_framecnt g))|].
  - split; [split; cbn; try done; [by rewrite Hfd | by apply NoDup_nil]|done].
  - intros j s g' Hj (Hm & Hb & Hq & Ho & Hr).
    eapply ok_mono; [apply (ok_map_buffer (value 0 v) j); (done || lia)|].
    cbn. intros s' g1 (Hm1 & Hb1 & Hq1 & Ho1 & Hr1). by rewrite Hr1.
  - intros s g' (Hm & Hb & Hq & Ho & Hr). split; [|done]. cbn in Hm. destruct Hm as [Hf Hn Hl Hd Hm].
    split; [split; try done; by rewrite Hl | lia | lia | | done].
    intros i. rewrite Hq. unfold none. set_solver.
Qed.

(** The retries of [init_device]; a failure of the crop calls is ignored. *)
Lemma ok_init_device force g fd :
  camera_device_fd g = fd ->
  ok (Build_kernel (Some fd) 0 ∅ ∅ ∅ false)
    (init_device V4L2_CAP_VIDEO_CAPTURE V4L2_CAP_STREAMING retries force g)
    (fun s g' => ready none false g' s /\ read_framecnt g' = read_framecnt g).
Proof.
  intros Hfd. unfold init_device. cbv zeta. rewrite Hfd.
  apply ok_xioctl_or_exit; [done|]. intros v (_ & Hw & _). cbn [device_next next_ioctl].
  destruct (Z.eqb_spec (value 0 v .& V4L2_CAP_VIDEO_CAPTURE) 0) as [Hz|_].
  { cbn. destruct willing; [|done]. by destruct (Hw eq_refl). }
  destruct (Z.eqb_spec (value 0 v .& V4L2_CAP_STREAMING) 0) as [Hz|_].
  { cbn. destruct willing; [|done]. by destruct (Hw eq_refl). }
  set (s0 := Build_kernel (Some fd) 0 ∅ ∅ ∅ false).
  eapply (ok_bind _ _ _ _ (fun s _ => s = s0)); [by apply ok_xioctl|]. intros s a ->.
  eapply (ok_bind _ _ _ _ (fun s _ => s = s0)); [destruct a; [done | by apply ok_xioctl]|].
  intros s _ ->.
  destruct force; (apply ok_xioctl_or_exit; [done|]; intros w _; cbn [device_next next_ioctl];
    eapply ok_mono; [by apply ok_init_mmap | done]).
Qed.

Lemma ok_start g s :
  ready none false g s ->
  ok s (start_capturing retries g)
    (fun s' g' => ready (every g') true g' s' /\ read_framecnt g' = read_framecnt g).
Proof.
  intros [[Hf Hn Hl Hd Hm] H2 Hb Hq Ho]. unfold start_capturing. cbv zeta.
  eapply (ok_bind _ _ _ _ (fun s' _ => k_fd s' = k_fd s /\ k_maps s' = k_maps s /\
    k_bufs s' = k_bufs s /\ k_on s' = false /\ (forall i, i ∈ k_queued s' <-> every g i))).
  - eapply ok_mono; [apply (ok_for_loop (fun j s' _ => k_fd s' = k_fd s /\ k_maps s' = k_maps s /\
      k_bufs s' = k_bufs s /\ k_on s' = false /\
      (forall i, i ∈ k_queued s' <-> 0 <= i < Z.of_nat j)))|].
    + repeat (split; [done|]). intros i. rewrite Hq. unfold none. lia.
    + intros j s' _ Hj (Hf' & Hm' & Hb' & Ho' & Hq').
      apply ok_xioctl_or_exit.
      { cbn. rewrite Hf'. split; [done|]. split; [lia|]. rewrite Hq'. lia. }
      intros v _. cbn. repeat (split; [done|]). intros i.
      rewrite elem_of_union, elem_of_singleton, Hq'. lia.
    + intros s' _ (Hf' & Hm' & Hb' & Ho' & Hq'). repeat (split; [done|]).
      intros i. rewrite Hq'. unfold every. lia.
  - intros s' _ (Hf' & Hm' & Hb' & Ho' & Hq').
    apply ok_xioctl_or_exit.
    { cbn. rewrite Hf'. split; [done|]. split; [done|]. intros He.
      assert (0 ∈ k_queued s') as H0 by (apply Hq'; unfold every; lia). rewrite He in H0. set_solver. }
    intros v _. cbn. split; [|done].
    split; cbn; try done; [|by rewrite Hb'].
    split; cbn; try done; [by rewrite Hf' | by rewrite Hm'].
Qed.

Lemma wrap_add_l w a b : wrap w (wrap w a + b) = wrap w (a + b).
Proof. unfold wrap. apply Zplus_mod_idemp_l. Qed.

(** The frame in [frame_buf] can be copied, from every buffer. *)
Definition sized (g : globals) : Prop :=
  fits = true -> within (frame_bytesused g) (HRES * VRES * PIXEL_SIZE) = true /\
    Forall (fun b => within (frame_bytesused g) b.2 = true) (buffers g).

Lemma sized_nothing g cnt : sized (set_frame 0 0 cnt g).
Proof. intros _. split; [done|]. apply list.Forall_true. intros b. done. Qed.

Lemma sized_fitting n g s fd i v cnt :
  mapped n g s -> (fits = true -> fitting s (Ioctl fd VIDIOC_DQBUF) (Done v)) ->
  sized (set_frame i (u32 (value 1 v)) cnt g).
Proof.
  intros [_ _ _ Hd Hm] Hf Ht. destruct (Hf Ht) as [Hs Ha]. split; [exact Hs|].
  apply list.Forall_forall. intros [a l] Hin. rewrite Hm in Ha. apply (Ha a l).
  by apply elem_of_list_to_map_1.
Qed.

(** A frame is taken out of the queue, or nothing changes. *)
Lemma ok_read_frame g s :
  ready (every g) true g s ->
  ok s (read_frame retries g) (fun s' '(g', r) =>
    n_buffers g' = n_buffers g /\
    u32 (read_framecnt g') = u32 (read_framecnt g + r) /\ sized g' /\
    (willing = false /\ r = 0 /\ frame_index g' = 0 /\ ready (every g') true g' s' \/
     r = 1 /\ every g' (frame_index g') /\ ready (others g') true g' s')).
Proof.
  intros R. pose proof R as [[Hf Hn Hl Hd Hm] H2 Hb Hq Ho]. unfold read_frame.
  eapply (ok_bind _ _ _ _ (fun s' a => match a with
    | Fail e => willing = false /\ s' = s
    | Done v => value 0 v ∈ k_queued s /\
        (fits = true -> fitting s (Ioctl 0 VIDIOC_DQBUF) (Done v)) /\ s' = device_next s (Ioctl 0 VIDIOC_DQBUF) (Done v) end)).
  - apply ok_xioctl; [|done|by intros v (Hv & _ & Hfit)]. cbn. split; [done|]. split; [done|].
    intros He. assert (0 ∈ k_queued s) as H0 by (apply Hq; unfold every; lia).
    rewrite He in H0. set_solver.
  - intros s' [e|v].
    + intros [Hw ->].
      assert (ok s (Value (set_frame 0 0 (read_framecnt g) g, 0)) (fun s' '(g', r) =>
        n_buffers g' = n_buffers g /\ u32 (read_framecnt g') = u32 (read_framecnt g + r) /\ sized g' /\
        (willing = false /\ r = 0 /\ frame_index g' = 0 /\ ready (every g') true g' s' \/
         r = 1 /\ every g' (frame_index g') /\ ready (others g') true g' s'))) as HV.
      { cbn. rewrite Z.add_0_r. do 2 (split; [done|]). split; [apply sized_nothing|]. left. do 3 (split; [done|]).
        split; cbn; [by split | done..]. }
      destruct e; try exact HV; exact Hw.
    + intros (Hv & Hfit & ->). apply Hq in Hv. unfold every in Hv.
      destruct (Z.ltb_spec (value 0 v) (n_buffers g)); [|lia].
      cbn. split; [done|]. split; [apply wrap_swrap; lia|].
      split; [eapply sized_fitting; [by split | exact Hfit]|]. right. split; [done|]. split; [done|].
      split; cbn; [by split | done | done | | done]. intros i. rewrite elem_of_difference, elem_of_singleton, Hq. done.
Qed.

Lemma ok_frame_start q on g s Q :
  ready q on g s -> every g (frame_index g) -> sized g -> (forall a, Q s a) -> ok s (frame_start g) Q.
Proof.
  intros [[_ Hn _ _ _] _ _ _ _] Hi Hs HQ. unfold frame_start, every in *.
  destruct (Z.ltb_spec (frame_index g) 0); [lia|].
  destruct (lookup_lt_is_Some_2 (buffers g) (Z.to_nat (frame_index g))) as [[a l] Ha]; [lia|].
  rewrite Ha. destruct (within _ l && within _ _) eqn:Hw; [apply HQ|].
  cbn. destruct fits eqn:Hf; [|done]. exfalso. destruct (Hs Hf) as [H1 H2].
  rewrite list.Forall_lookup in H2. specialize (H2 _ _ Ha). cbn in H2. by rewrite H1, H2 in Hw.
Qed.

Lemma ok_requeue g s :
  ready (others g) true g s -> every g (frame_index g) ->
  ok s (requeue retries g) (fun s' _ => ready (every g) true g s').
Proof.
  intros [[Hf Hn Hl Hd Hm] H2 Hb Hq Ho] Hi. unfold requeue.
  apply ok_xioctl_or_exit.
  { cbn. split; [done|]. rewrite Hb. split; [exact Hi|]. rewrite Hq. unfold others. tauto. }
  intros v _. cbn. split; cbn; [by split | done | done | | done].
  intros i. rewrite elem_of_union, elem_of_singleton, Hq. unfold others.
  destruct (decide (i = frame_index g)) as [->|]; tauto.
Qed.

Lemma ok_mainloop n : forall count g s,
  ready (every g) true g s -> (willing = true -> count <= Z.of_nat n) ->
  ok s (mainloop retries n count g) (fun s' g' => ready (every g') true g' s' /\
    u32 (read_framecnt g') = u32 (read_framecnt g + Z.max 0 count)).
Proof.
  induction n as [|n IH]; intros count g s R Hn; cbn [mainloop];
    (destruct (Z.leb_spec count 0);
     [split; [exact R | by rewrite Z.max_l, Z.add_0_r by lia]|]).
  { cbn. destruct willing; [|done]. specialize (Hn eq_refl). lia. }
  pose proof R as [[Hf _ _ _ _] _ _ _ _].
  cbn [ok mbind prog_bind sys]. split; [exact Hf|]. intros a (_ & Hw & _).
  assert (Hno : forall e, a = Fail e -> willing = false)
    by (intros e ->; destruct willing; [by destruct (Hw eq_refl)|done]).
  destruct a as [e|v]; cbn [device_next].
  { pose proof (Hno e eq_refl) as Hfalse. destruct e; try exact Hfalse.
    apply IH; [exact R | congruence]. }
  destruct (Z.eqb_spec (value 0 v) 0) as [Hz|_].
  { cbn. destruct willing; [|done]. by destruct (Hw eq_refl). }
  eapply ok_bind; [by apply ok_read_frame|]. intros s' [g' r] [_ [Hcnt [Hsz [(Hfalse & -> & _ & R') | (-> & Hi & R')]]]].
  { cbn [Z.eqb]. eapply ok_mono; [apply IH; [exact R' | congruence]|]. cbv beta.
    intros s1 g1 [R1 H1]. split; [exact R1|]. rewrite H1, <- wrap_add_l, Hcnt, wrap_add_l. f_equal. lia. }
  cbn [Z.eqb]. cbn [ok mbind prog_bind sys]. split; [done|]. intros b _.
  assert (Hs : next s' Nanosleep b = s') by (by destruct b). rewrite Hs.
  eapply (ok_bind _ _ _ _ (fun s1 _ => s1 = s')).
  { destruct b; [done|]. destruct (1 <? read_framecnt g'); [|done]. by eapply ok_frame_start. }
  intros s1 _ ->. eapply ok_bind; [by apply ok_requeue|]. intros s2 [] R2. cbv beta in R2.
  eapply ok_mono; [apply IH; [exact R2 | intros Ht; specialize (Hn Ht); lia]|]. cbv beta.
  intros s1 g1 [R1 H1]. split; [exact R1|]. rewrite H1, <- wrap_add_l, Hcnt, wrap_add_l. f_equal. lia.
Qed.

Lemma ok_stop g s :
  ready (every g) true g s ->
  ok s (stop_capturing retries g) (fun s' g' => g' = g /\ ready none false g s').
Proof.
  intros [[Hf Hn Hl Hd Hm] H2 Hb Hq Ho]. unfold stop_capturing.
  apply ok_xioctl_or_exit; [done|]. intros v _. cbn. split; [done|].
  split; cbn; [by split | done | done | | done]. intros i. unfold none. set_solver.
Qed.

(** Every mapping is removed as it was made. *)
Lemma ok_uninit g s :
  ready none false g s ->
  ok s (uninit_device g) (fun s' g' => g' = free_buffers g /\ k_fd s' = Some (camera_device_fd g) /\
    k_maps s' = ∅ /\ k_on s' = false).
Proof.
  intros [[Hf Hn Hl Hd Hm] H2 Hb Hq Ho]. unfold uninit_device.
  eapply (ok_bind _ _ _ _ (fun s' _ => k_fd s' = Some (camera_device_fd g) /\ k_maps s' = ∅ /\
    k_on s' = false)); [|by intros s' _ H].
  eapply ok_mono; [apply (ok_for_loop (fun j s' _ => k_fd s' = Some (camera_device_fd g) /\
    k_maps s' = list_to_map (drop j (buffers g)) /\ k_on s' = false))|].
  - done.
  - intros j s' _ Hj (Hf' & Hm' & Ho').
    destruct (lookup_lt_is_Some_2 (buffers g) j) as [[a l] Ha]; [lia|]. rewrite Ha.
    pose proof (drop_S _ _ _ Ha) as Hdrop.
    assert (Hfresh : a ∉ (drop (S j) (buffers g)).*1).
    { assert (Hd' : NoDup (drop j (buffers g)).*1).
      { rewrite fmap_drop. pose proof Hd as Hd0. rewrite <- (take_drop j (buffers g).*1) in Hd0.
        by apply NoDup_app in Hd0 as (_ & _ & ?). }
      rewrite Hdrop in Hd'. cbn in Hd'. by apply NoDup_cons in Hd' as [? _]. }
    apply ok_call_or_exit.
    { cbn. rewrite Hm', Hdrop. cbn. by rewrite lookup_insert_eq. }
    intros v _. cbn. split; [done|]. split; [|done].
    rewrite Hm', Hdrop. cbn. rewrite Nat.add_1_r, delete_insert_id; [done|].
    by apply not_elem_of_list_to_map_1.
  - intros s' _ (Hf' & Hm' & Ho'). split; [done|]. split; [|done].
    rewrite Hm', drop_ge by (cbn; lia). done.
Qed.

Lemma ok_close g s :
  k_fd s = Some (camera_device_fd g) -> k_maps s = ∅ -> k_on s = false ->
  ok s (close_device g) (fun s' g' => s' = idle /\ camera_device_fd g' = -1 /\ buffers g' = buffers g).
Proof. intros Hf Hm Ho. by apply ok_call_or_exit. Qed.

Lemma ok_shutdown g s :
  ready (every g) true g s ->
  ok s (v4l2_frame_acquisition_shutdown retries g) (fun s' g' => s' = idle /\ camera_device_fd g' = -1 /\ buffers g' = []).
Proof.
  intros R. unfold v4l2_frame_acquisition_shutdown.
  eapply ok_bind; [by apply ok_stop|]. intros s1 g1 [-> R1].
  eapply ok_bind; [by apply ok_uninit|]. intros s2 g2 (-> & Hf & Hm & Ho). by apply ok_close.
Qed.

Lemma ok_initialization force g :
  ok idle (v4l2_frame_acquisition_initialization V4L2_CAP_VIDEO_CAPTURE V4L2_CAP_STREAMING retries
             force g)
    (fun s' g' => ready (every g') true g' s').
Proof.
  unfold v4l2_frame_acquisition_initialization.
  eapply ok_bind; [apply ok_open|]. intros s1 g1 (fd & -> & ->).
  eapply ok_bind; [by apply ok_init_device|]. intros s2 g2 [R2 _].
  eapply ok_mono; [by apply ok_start | by intros s3 g3 [R3 _]].
Qed.

(** The first buffer is queued, so a frame can be taken. *)
Lemma ready_frames g s : ready (every g) true g s -> 0 ∈ k_queued s /\ k_queued s <> ∅.
Proof.
  intros [_ H2 _ Hq _]. assert (H0 : 0 ∈ k_queued s) by (apply Hq; unfold every; lia).
  split; [done|]. intros He. rewrite He in H0. set_solver.
Qed.

(** A frame of one byte more than an element of the ring. *)
Lemma too_long_leaves g s :
  (0 < retries)%nat -> ready (every g) true g s -> fits = false ->
  exists s', behaves s (seq_frame_read retries g) s' OutOfBounds.
Proof.
  intros Hr R Hfits. destruct (ready_frames g s R) as [H0 Hne].
  destruct R as [[Hf Hn Hl Hd Hm] H2 Hb Hq Ho].
  destruct retries as [|n]; [lia|]. eexists.
  eapply (behaves_call _ _ _ (Done [1])); [exact Hf | by split; [|split; [|congruence]]|].
  eapply (behaves_call _ _ _ (Done [0; HRES * VRES * PIXEL_SIZE + 1])); [by split|by split; [|split; [|congruence]]|].
  cbn [prog_bind value nth]. rewrite (proj2 (Z.ltb_lt 0 (n_buffers g))) by lia.
  cbn [prog_bind mbind]. unfold frame_start. cbn.
  destruct (buffers g) as [|[a l] bs]; [cbn in *; lia|]. change (Z.to_nat 0) with O. cbn [lookup list_lookup].
  assert (Hlong : within (u32 (HRES * VRES * PIXEL_SIZE + 1)) (HRES * VRES * PIXEL_SIZE) = false) by done.
  rewrite Hlong.
  rewrite andb_false_r. constructor.
Qed.

(** Queueing a buffer that is queued. *)
Lemma requeue_queued g s s' v :
  (0 < retries)%nat -> frame_index g ∈ k_queued s -> behaves s (requeue retries g) s' v ->
  s' = s /\ v = Violation (Ioctl (camera_device_fd g) (VIDIOC_QBUF (frame_index g))).
Proof.
  intros Hr Hq Hb. unfold requeue, xioctl in Hb. destruct retries as [|n]; [lia|].
  cbn [retry mbind prog_bind] in Hb.
  inversion Hb as [| | | | | ??? a ?? Ha]; subst; [done|]. by destruct Ha as [_ [_ ?]].
Qed.

Lemma ok_seq_read_frame g s s' v :
  (0 < retries)%nat -> ready (every g) true g s -> behaves s (seq_frame_read retries g) s' v ->
  match v with
  | Returned g' => ready (every g') true g' s'
  | Exited | StillRunning => willing = false
  | OutOfBounds => fits = false
  | Violation c => willing = false /\ exists fd, c = Ioctl fd (VIDIOC_QBUF 0)
  end.
Proof.
  intros Hr R Hb. unfold seq_frame_read in Hb.
  apply behaves_bind in Hb as (s1 & v1 & H1 & Hb).
  assert (s1 = s /\ exists a, v1 = Returned a) as (-> & a & ->).
  { pose proof R as [[Hf _ _ _ _] _ _ _ _].
    inversion H1 as [| | | | ??? Hn | ??? a ?? _ _ Hk]; subst; [by destruct Hn|].
    cbn in Hk. inversion Hk; subst. split; [by destruct a | by exists a]. }
  apply behaves_bind in Hb as (s2 & v2 & H2 & Hb).
  pose proof (ok_behaves _ _ _ _ _ (ok_read_frame g s R) H2) as Ho.
  destruct v2 as [[g' r]| | | |c]; try (subst; done).
  destruct Ho as (_ & _ & Hsz & Ho).
  assert (Hi : every g' (frame_index g')).
  { destruct Ho as [(_ & _ & Hi & R')|(_ & Hi & _)]; [|exact Hi]. rewrite Hi. unfold every.
    destruct R'. lia. }
  apply behaves_bind in Hb as (s3 & v3 & H3 & Hb).
  assert (Hok : ok s2 (frame_start g') (fun s _ => s = s2))
    by (destruct Ho as [(_ & _ & _ & R')|(_ & _ & R')]; by eapply ok_frame_start).
  pose proof (ok_behaves _ _ _ _ _ Hok H3) as H3'.
  destruct v3 as [x| | | |]; try (subst; done). subst s3.
  apply behaves_bind in Hb as (s4 & v4 & H4 & Hb).
  destruct Ho as [(Hw & _ & H0 & R')|(_ & _ & R')].
  - apply requeue_queued in H4 as [-> ->]; [|done|].
    + subst v. split; [done|]. exists (camera_device_fd g'). by rewrite H0.
    + destruct R' as [_ _ _ Hq _]. rewrite Hq. by rewrite H0 in *.
  - pose proof (ok_behaves _ _ _ _ _ (ok_requeue g' s2 R' Hi) H4) as Ho.
    destruct v4 as [[]| | | |c]; try (subst; done). inversion Hb; subst. exact Ho.
Qed.
End protocol.

(** A willing device has a reply for every call it takes, so a program that keeps
    to the protocol has a run on it; its buffers and its frames can have the
    640 by 480 pixels of two bytes that were asked for. *)
Definition yuyv_sized (s : kernel) : Prop :=
  map_Forall (fun _ length => length = 614400) (k_maps s) /\
  map_Forall (fun _ b => b.1 = 614400) (k_info s).

Lemma willing_replies capv caps s c :
  capv <> 0 -> caps <> 0 -> yuyv_sized s -> device_allowed s c ->
  exists a, device_legal capv caps true true s c a /\ yuyv_sized (device_next s c a).
Proof.
  intros Hv Hc [Hm Hi] Ha. unfold device_legal, yuyv_sized.
  destruct c as [| |fd|fd r|n|fd l o|a l|fd|].
  - by exists (Done [1]).
  - exists (Done [3]). split; [done|]. split; apply map_Forall_empty.
  - exists (Done []). split; [done|]. split; apply map_Forall_empty.
  - destruct r as [| | | | |n|i|i| | |]; try (by exists (Done [])).
    + exists (Done [-1]). split; [|done]. split; [done|]. split; [|done]. intros _.
      cbn [obliging value nth]. by rewrite !Z.land_m1_l.
    + exists (Done [2]). split; [|by split; [|apply map_Forall_empty]]. split; [done|]. split; [|done].
      intros _. cbn. lia.
    + exists (Done [614400]). split; [done|]. split; [done|]. cbn.
      by apply map_Forall_insert_2.
    + destruct Ha as [_ [_ Hq]]. destruct (set_choose_L (k_queued s) Hq) as [i Hk].
      exists (Done [i; 614400]). split; [|done]. split; [done|]. split; [done|]. intros _.
      split; [done|]. intros x l Hl. by rewrite (Hm x l Hl).
  - by exists (Done []).
  - exists (Done [fresh (dom (k_maps s))]). split.
    + split; [|done]. cbn. apply not_elem_of_dom. apply is_fresh.
    + split; [|done]. apply map_Forall_insert_2; [|done]. destruct Ha as [_ [i Hl]]. by apply (Hi i _ Hl).
  - exists (Done []). split; [done|]. split; [|done]. by apply map_Forall_delete.
  - by exists (Done [1]).
  - by exists (Done []).
Qed.

Section theorems.
Context (capv caps : Z).

Lemma acquisition_ok willing fits retries fuel force g :
  (willing = true -> (0 < retries)%nat /\ FRAMES_TO_ACQUIRE <= Z.of_nat fuel) ->
  ok (P := device capv caps willing fits) idle (v4l2_frame_acquisition_loop capv caps retries fuel force g)
    (fun s g' => s = idle /\ camera_device_fd g' = -1 /\ buffers g' = [] /\
       u32 (read_framecnt g') = u32 (read_framecnt g + 332)).
Proof.
  intros Hw. assert (Hr : willing = true -> (0 < retries)%nat) by (intros H; apply Hw, H).
  unfold v4l2_frame_acquisition_loop.
  eapply ok_bind; [by eapply ok_open|]. intros s1 g1 (fd & -> & ->).
  eapply ok_bind; [by eapply ok_init_device|]. intros s2 g2 [R2 H2].
  eapply ok_bind; [by eapply ok_start|]. intros s3 g3 [R3 H3].
  eapply ok_bind; [eapply ok_mainloop; [exact Hr | exact R3 | intros H; by apply Hw]|].
  intros s4 g4 [R4 H4].
  eapply ok_bind; [by eapply ok_stop|]. intros s5 g5 [-> R5].
  eapply ok_bind; [by eapply ok_uninit|]. intros s6 g6 (-> & Hf & Hm & Ho).
  rewrite H3, H2 in H4.
  assert (Hc : ok (P := device capv caps willing fits) s6 (close_device (free_buffers g4)) (fun s g' =>
    (s = idle /\ camera_device_fd g' = -1 /\ buffers g' = []) /\
    read_framecnt g' = read_framecnt g4)).
  { eapply ok_call_or_exit; [done|]. intros w _. by cbn. }
  eapply ok_mono; [exact Hc|]. intros s g' [(-> & -> & ->) ->]. by rewrite H4.
Qed.


(** C16: seq_frame_read, the read of the sequencer's service, on a device that streams with all buffers queued: it leaves all of them queued again, or the process ends, or it queues a buffer that is queued, index 0; and it does the last whenever the device answers EAGAIN or EIO, because the result of read_frame is not looked at.  It leaves an array only on a device that gives a frame longer than its buffer or than the element of the ring, and then it can, because bytesused is not looked at either. *)
Theorem seq_frame_read_protocol willing fits retries g s :
  (0 < retries)%nat -> ready (every g) true g s ->
  (forall s' v, behaves (P := device capv caps willing fits) s (seq_frame_read retries g) s' v ->
     match v with
     | Returned g' => ready (every g') true g' s'
     | Exited | StillRunning => willing = false
     | OutOfBounds => fits = false
     | Violation c => willing = false /\ exists fd, c = Ioctl fd (VIDIOC_QBUF 0)
     end) /\
  (forall e, willing = false -> e = EAGAIN \/ e = EIO ->
     behaves (P := device capv caps willing fits) s (seq_frame_read retries g) s
       (Violation (Ioctl (camera_device_fd g) (VIDIOC_QBUF 0)))) /\
  (fits = false -> exists s',
     behaves (P := device capv caps willing fits) s (seq_frame_read retries g) s' OutOfBounds).
Proof.
  intros Hr R. split; [intros s' v; eapply ok_seq_read_frame; auto|].
  split; [|by apply too_long_leaves].
  intros e Hw He. pose proof R as [[Hf Hn Hl Hd Hm] H2 Hb Hq Ho].
  destruct retries as [|n]; [lia|].
  eapply (behaves_call _ _ _ (Done [1])); [exact Hf | split; [done | by split; [congruence|]]|].
  eapply (behaves_call _ _ _ (Fail e)); [|split; [done | by split; [congruence|]]|].
  { cbn. split; [done|]. split; [done|]. intros Hempty.
    assert (0 ∈ k_queued s) as Hin by (apply Hq; unfold every; lia). rewrite Hempty in Hin. set_solver. }
  cbn [device_next].
  assert (H0 : exists x, buffers g !! Z.to_nat 0 = Some x).
  { destruct (buffers g) as [|x l]; [cbn in *; lia | by exists x]. }
  destruct H0 as [[x l] H0].
  destruct He as [-> | ->]; cbn; unfold frame_start; cbn; rewrite H0; cbn;
    apply behaves_violation; intros [_ [_ Hnot]]; apply Hnot, Hq; unfold every; lia.
Qed.

(** Between the initialisation and the shutdown of the sequencer's interface
    the device streams with all buffers queued; the shutdown closes it with
    nothing left. *)
Theorem sequencer_interface willing fits retries force g s' g' s'' v :
  (willing = true -> (0 < retries)%nat) ->
  behaves (P := device capv caps willing fits) idle (v4l2_frame_acquisition_initialization capv caps retries force g) s'
    (Returned g') ->
  ready (every g') true g' s' /\
  (behaves (P := device capv caps willing fits) s' (v4l2_frame_acquisition_shutdown retries g') s'' v ->
   match v with
   | Returned g'' => s'' = idle /\ camera_device_fd g'' = -1 /\ buffers g'' = []
   | Exited | StillRunning => willing = false
   | OutOfBounds => fits = false
   | Violation _ => False
   end).
Proof.
  intros Hr Hb.
  assert (R : ready (every g') true g' s')
    by exact (ok_behaves _ _ _ _ _ (ok_initialization capv caps willing fits retries Hr force g) Hb).
  split; [exact R|]. intros Hs.
  exact (ok_behaves _ _ _ _ _ (ok_shutdown capv caps willing fits retries Hr g' s' R) Hs).
Qed.
End theorems.

(** ** Formats *)

(** After the corrections the line and the image are at least as long as the
    format needs, where no product exceeds 32 bits. *)
Theorem fix_pix_bounds p :
  0 <= width p -> 0 <= height p -> width p * 2 < 2 ^ 32 ->
  bytesperline (fix_pix p) * height p < 2 ^ 32 -> 0 <= bytesperline p ->
  width p * 2 <= bytesperline (fix_pix p) /\
  bytesperline (fix_pix p) * height p <= sizeimage (fix_pix p).
Proof.
  unfold fix_pix. cbn. intros Hw Hh H1 H2 H3.
  assert (Hm : u32 (width p * 2) = width p * 2) by (apply wrap_small; unfold in_range; lia).
  rewrite Hm in *.
  set (bpl := if bytesperline p <? width p * 2 then width p * 2 else bytesperline p) in *.
  assert (Hbpl : width p * 2 <= bpl /\ 0 <= bpl)
    by (unfold bpl; destruct (Z.ltb_spec (bytesperline p) (width p * 2)); lia).
  rewrite wrap_small by (unfold in_range; nia).
  split; [lia|]. destruct (Z.ltb_spec (sizeimage p) (bpl * height p)); lia.
Qed.

(** ** Examples *)

Definition closed_globals : globals :=
  {| camera_device_fd := -1; buffers := []; n_buffers := 0; frame_index := 0; frame_bytesused := 0;
     read_framecnt := -30; fmt := Build_pix 0 0 0 0 |}.


Definition two_buffers : globals :=
  {| camera_device_fd := 3; buffers := [(4096, 614400); (8192, 614400)]; n_buffers := 2;
     frame_index := 1; frame_bytesused := 0; read_framecnt := 5; fmt := Build_pix 640 480 1280 614400 |}.

Definition streaming : kernel :=
  Build_kernel (Some 3) 2 ∅ (list_to_map [(4096, 614400); (8192, 614400)]) {[0; 1]} true.

Lemma streaming_ready : ready (every two_buffers) true two_buffers streaming.
Proof.
  split; [split; try done | done | done | | done].
  - cbn. repeat constructor; set_solver.
  - intros i. unfold every. cbn. rewrite elem_of_union, !elem_of_singleton. lia.
Qed.

Lemma seq_frame_read_protocol_witness :
  behaves (P := device 1 0x04000000 false true) streaming (seq_frame_read 1 two_buffers) streaming
    (Violation (Ioctl 3 (VIDIOC_QBUF 0))).
Proof.
  apply (seq_frame_read_protocol 1 0x04000000 false true 1 two_buffers streaming
    ltac:(lia) streaming_ready) with (e := EAGAIN); [done | by left].
Defined.
