(* ===== verification/Camera.v ===== *)
(** * camera/simplev4l2.c and simplev4l2nb.c

    Two capture programs that leave by [goto cleanup]: one waits in DQBUF, the
    other polls and then takes all the frames there are.  They run against the
    video device of [V4l2]; what is shown is that they release everything on
    every path, whichever call fails but those that release: munmap, close and
    VIDIOC_STREAMOFF. *)
From S2P Require Import Prelude Sys V4l2.
From stdpp Require Import option list gmap.
#[local] Open Scope Z_scope.

#[local] Abbreviation prog := (prog call).

(** The variables of [main]: an element of [buffers] is [data], [None] for NULL,
    and [length]; [frames] counts the frames processed; simplev4l2.c has no
    [streaming] and does not read it here. *)
Record locals := {
  fd : Z; streaming : bool; buffers : list (option Z * Z); buffer_count : Z; frames : Z
}.

Definition set_streaming (b : bool) (x : locals) : locals :=
  {| fd := fd x; streaming := b; buffers := buffers x; buffer_count := buffer_count x; frames := frames x |}.
Definition set_count (n : Z) (x : locals) : locals :=
  {| fd := fd x; streaming := streaming x; buffers := buffers x; buffer_count := n; frames := frames x |}.
Definition set_buffer (i : nat) (b : option Z * Z) (x : locals) : locals :=
  {| fd := fd x; streaming := streaming x; buffers := <[i := b]> (buffers x);
     buffer_count := buffer_count x; frames := frames x |}.
Definition frame_done (x : locals) : locals :=
  {| fd := fd x; streaming := streaming x; buffers := buffers x; buffer_count := buffer_count x;
     frames := frames x + 1 |}.

(** A step of [main]: [inl] goes on, [inr] is a [goto] out of it. *)
Definition step : Type := prog (locals + locals).

Definition seq_step (m : step) (f : locals -> step) : step :=
  r ← m; match r with inl x => f x | inr x => Value (inr x) end.

Section programs.
(** The constants of the kernel's header. *)
Context (V4L2_CAP_VIDEO_CAPTURE V4L2_CAP_STREAMING V4L2_PIX_FMT_YUYV POLLIN_MASK POLLERR_MASK : Z).
Context (retries fuel : nat).

Definition xioctl (fd : Z) (r : request) : prog reply := retry retries (Ioctl fd r).

(** [if (xioctl(...) == -1) { perror(...); goto ...; }] *)
Definition or_goto (x : locals) (r : request) (f : list Z -> step) : step :=
  a ← xioctl (fd x) r; match a with Fail _ => Value (inr x) | Done v => f v end.

(** simplev4l2nb.c: [device_caps], or [capabilities] where that is 0. *)
Definition check_capability (x : locals) : step :=
  or_goto x VIDIOC_QUERYCAP (fun v =>
    let caps := if value 1 v =? 0 then value 0 v else value 1 v in
    if caps .& V4L2_CAP_VIDEO_CAPTURE =? 0 then Value (inr x)
    else if caps .& V4L2_CAP_STREAMING =? 0 then Value (inr x)
    else Value (inl x)).

Definition set_format (x : locals) : step :=
  or_goto x (VIDIOC_S_FMT 640 480) (fun v =>
    if value 4 v =? V4L2_PIX_FMT_YUYV then Value (inl x) else Value (inr x)).

(** simplev4l2.c takes no more buffers than it has room for; simplev4l2nb.c does
    without the rest. *)
Definition request_exactly (BUFFER_COUNT : Z) (x : locals) : step :=
  or_goto x (VIDIOC_REQBUFS BUFFER_COUNT) (fun v =>
    if (value 0 v =? 0) || (BUFFER_COUNT <? value 0 v) then Value (inr x)
    else Value (inl (set_count (value 0 v) x))).

Definition request_at_most (BUFFER_COUNT : Z) (x : locals) : step :=
  or_goto x (VIDIOC_REQBUFS BUFFER_COUNT) (fun v =>
    if value 0 v <? 2 then Value (inr x)
    else Value (inl (set_count (if BUFFER_COUNT <? value 0 v then BUFFER_COUNT else value 0 v) x))).

Definition for_buffers (body : nat -> locals -> step) (x : locals) : step :=
  for_loop (Z.to_nat (buffer_count x)) 0
    (fun i (r : locals + locals) => match r with inl x => body i x | inr x => Value (inr x) end) (inl x).

Definition map_one (i : nat) (x : locals) : step :=
  or_goto x (VIDIOC_QUERYBUF (Z.of_nat i)) (fun v =>
    if (i <? length (buffers x))%nat
    then
      a ← sys (Mmap (fd x) (value 0 v) (value 1 v));
      match a with
      | Fail _ => Value (inr (set_buffer i (None, value 0 v) x))
      | Done s => Value (inl (set_buffer i (Some (value 0 s), value 0 v) x))
      end
    else Wild).

Definition queue_one (i : nat) (x : locals) : step :=
  or_goto x (VIDIOC_QBUF (Z.of_nat i)) (fun _ => Value (inl x)).

Definition start_stream (x : locals) : step :=
  or_goto x VIDIOC_STREAMON (fun _ => Value (inl (set_streaming true x))).

(** The frame in buffer [i] is processed: its address is read. *)
Definition process_frame (i : Z) (x : locals) : prog unit :=
  or_wild (if i <? 0 then None else b ← buffers x !! Z.to_nat i; _ ← b.1; Some tt).

(** *** simplev4l2.c *)

Fixpoint blocking_loop (n : nat) (x : locals) : prog locals :=
  match n with
  | O => Value x
  | S n =>
      a ← xioctl (fd x) VIDIOC_DQBUF;
      match a with
      | Fail _ => Value x
      | Done v =>
          if buffer_count x <=? value 0 v then Value x
          else
            _ ← process_frame (value 0 v) x;
            a ← xioctl (fd x) (VIDIOC_QBUF (value 0 v));
            match a with Fail _ => Value x | Done _ => blocking_loop n (frame_done x) end
      end
  end.

(** *** simplev4l2nb.c *)

(** [for (;;)]: every frame currently available; [inr] is [goto capture_done]. *)
Fixpoint drain (n : nat) (x : locals) : step :=
  match n with
  | O => Running
  | S n =>
      a ← xioctl (fd x) VIDIOC_DQBUF;
      match a with
      | Fail EAGAIN => Value (inl x)
      | Fail _ => Value (inr x)
      | Done v =>
          if buffer_count x <=? value 0 v then Value (inr x)
          else
            _ ← process_frame (value 0 v) x;
            a ← xioctl (fd x) (VIDIOC_QBUF (value 0 v));
            match a with
            | Fail _ => Value (inr x)
            | Done _ =>
                let x := frame_done x in
                if 100 <=? frames x then Value (inl x) else drain n x
            end
      end
  end.

(** [poll], as the call [Select]: its reply is the result and [revents]. *)
Fixpoint polling_loop (n : nat) (x : locals) : prog locals :=
  if 100 <=? frames x then Value x
  else
    match n with
    | O => Running
    | S n =>
        a ← retry retries (Select (fd x));
        match a with
        | Fail _ => Value x
        | Done v =>
            if value 0 v =? 0 then polling_loop n x
            else if negb (value 1 v .& POLLERR_MASK =? 0) then Value x
            else if value 1 v .& POLLIN_MASK =? 0 then polling_loop n x
            else
              r ← drain fuel x;
              match r with inl x => polling_loop n x | inr x => Value x end
        end
    end.

(** [if (streaming) { STREAMOFF; streaming = 0; }] *)
Definition stop_stream (x : locals) : prog locals :=
  if streaming x then _ ← xioctl (fd x) VIDIOC_STREAMOFF; Value (set_streaming false x) else Value x.

Definition cleanup (x : locals) : prog unit :=
  _ ← for_loop (Z.to_nat (buffer_count x)) 0
        (fun i _ =>
           b ← or_wild (buffers x !! i);
           match b.1 with
           | Some data => _ ← sys (Munmap data b.2); Value tt
           | None => Value tt
           end) tt;
  if fd x =? -1 then Value tt else _ ← sys (Close (fd x)); Value tt.

Definition first_locals (BUFFER_COUNT : nat) (fd : Z) : locals :=
  {| fd := fd; streaming := false; buffers := replicate BUFFER_COUNT (None, 0); buffer_count := 0;
     frames := 0 |}.

Definition EXIT_SUCCESS : Z := 0.
Definition EXIT_FAILURE : Z := 1.

(** The exit status, and the frames processed. *)
Definition blocking_main : prog (Z * Z) :=
  a ← sys Open;
  match a with
  | Fail _ => Value (EXIT_FAILURE, 0)
  | Done v =>
      r ← seq_step (set_format (first_locals 2 (value 0 v))) (fun x =>
          seq_step (request_exactly 2 x) (fun x =>
          seq_step (for_buffers map_one x) (fun x =>
          seq_step (for_buffers queue_one x) start_stream)));
      x ← match r with
          | inl x => x ← blocking_loop 100 x; _ ← xioctl (fd x) VIDIOC_STREAMOFF; Value x
          | inr x => Value x
          end;
      _ ← cleanup x;
      Value (EXIT_SUCCESS, frames x)
  end.

Definition polling_main : prog (Z * Z) :=
  a ← sys Open;
  match a with
  | Fail _ => Value (EXIT_FAILURE, 0)
  | Done v =>
      r ← seq_step (check_capability (first_locals 4 (value 0 v))) (fun x =>
          seq_step (set_format x) (fun x =>
          seq_step (request_at_most 4 x) (fun x =>
          seq_step (for_buffers map_one x) (fun x =>
          seq_step (for_buffers queue_one x) start_stream))));
      x ← match r with
          | inl x => x ← polling_loop fuel x; stop_stream x
          | inr x => Value x
          end;
      x ← stop_stream x;
      _ ← cleanup x;
      Value (EXIT_SUCCESS, frames x)
  end.
End programs.

(** ** A device that stops and lets go *)

Section release.
Context (V4L2_CAP_VIDEO_CAPTURE V4L2_CAP_STREAMING V4L2_PIX_FMT_YUYV POLLIN_MASK POLLERR_MASK : Z).
Context (w : bool) (retries fuel : nat).

(** Stopping a stream, unmapping a mapping and closing the device do not fail;
    a descriptor and a number of buffers are not negative. *)
Definition reliable (c : call) (a : reply) : Prop :=
  match c, a with
  | Munmap _ _, Fail _ | Close _, Fail _ | Ioctl _ VIDIOC_STREAMOFF, Fail _ => False
  | Open, Done v | Ioctl _ (VIDIOC_REQBUFS _), Done v => 0 <= value 0 v
  | _, _ => True
  end.

(** A camera that gives a YUYV frame whenever it is asked. *)
Definition agreeable (c : call) (a : reply) : Prop :=
  match a with
  | Fail _ => False
  | Done v =>
      match c with
      | Ioctl _ VIDIOC_QUERYCAP =>
          value 1 v = 0 /\ value 0 v .& V4L2_CAP_VIDEO_CAPTURE <> 0 /\ value 0 v .& V4L2_CAP_STREAMING <> 0
      | Ioctl _ (VIDIOC_S_FMT _ _) => value 4 v = V4L2_PIX_FMT_YUYV
      | Ioctl _ (VIDIOC_REQBUFS n) => 0 <= n -> value 0 v = n
      | Select _ => value 0 v <> 0 /\ value 1 v .& POLLERR_MASK = 0 /\ value 1 v .& POLLIN_MASK <> 0
      | _ => True
      end
  end.

Definition camera : Protocol kernel call :=
  {| Sys.allowed := device_allowed;
     Sys.legal s c a := documented s c a /\ reliable c a /\ (w = true -> agreeable c a);
     Sys.next := device_next; Sys.willing := w; Sys.fits := true |}.
#[local] Existing Instance camera.

Context (Hretries : w = true -> (0 < retries)%nat).

(** *** Invariants *)

Definition live (l : list (option Z * Z)) : list (Z * Z) :=
  omap (fun b => d ← b.1; Some (d, b.2)) l.

Lemma live_app l l' : live (l ++ l') = live l ++ live l'.
Proof. apply omap_app. Qed.

Lemma live_cons d n l : live ((d, n) :: l) = match d with Some a => (a, n) :: live l | None => live l end.
Proof. by destruct d. Qed.

Lemma live_none l : Forall (fun b => b.1 = None) l -> live l = [].
Proof. unfold live. induction 1 as [|[d n] l Hd _ IH]; cbn in *; [done|]. by rewrite Hd. Qed.

(** What is mapped is what [buffers] says, within [buffer_count]. *)
Record holds (x : locals) (s : kernel) : Prop := {
  h_fd : k_fd s = Some (fd x);
  h_pos : 0 <= fd x;
  h_maps : k_maps s = list_to_map (live (buffers x));
  h_nodup : NoDup (live (buffers x)).*1;
  h_count : 0 <= buffer_count x <= Z.of_nat (length (buffers x));
  h_rest : Forall (fun b => b.1 = None) (drop (Z.to_nat (buffer_count x)) (buffers x))
}.

Definition off (s : kernel) (x : locals) : Prop := k_on s = false /\ streaming x = false.

(** Out of a step: on with [I], or to the cleanup. *)
Definition leaves (I : kernel -> locals -> Prop) (s : kernel) (r : locals + locals) : Prop :=
  match r with
  | inl x => I s x
  | inr x => w = false /\ holds x s /\ off s x
  end.

Lemma ok_seq_step (m : step) (f : locals -> step) s I Q :
  ok s m (leaves I) -> (forall s x, I s x -> ok s (f x) (leaves Q)) -> ok s (seq_step m f) (leaves Q).
Proof.
  intros Hm Hf. eapply ok_bind; [exact Hm|]. intros s' [x|x] H; [by apply Hf | exact H].
Qed.

Lemma camera_legal_fail s c e : Sys.legal s c (Fail e) -> w = false.
Proof. intros (_ & _ & Ha). destruct w; [by destruct (Ha eq_refl)|done]. Qed.

Lemma ok_camera_ioctl s fd r (Q : kernel -> reply -> Prop) :
  k_fd s = Some fd -> takes s r ->
  (forall e, w = false -> Q s (Fail e)) ->
  (forall v, documented s (Ioctl fd r) (Done v) -> reliable (Ioctl fd r) (Done v) ->
     (w = true -> agreeable (Ioctl fd r) (Done v)) -> Q (next_ioctl s r v) (Done v)) ->
  ok s (xioctl retries fd r) Q.
Proof.
  intros Hfd Ht Hf Hd. apply ok_retry; [done | by split | by apply camera_legal_fail | done | by intros e _; apply Hf |].
  intros v (H1 & H2 & H3). by apply Hd.
Qed.

(** [or_goto]: the label it goes to cleans up. *)
Lemma ok_or_goto s x r (f : list Z -> step) I :
  holds x s -> off s x -> takes s r ->
  (forall v, documented s (Ioctl (fd x) r) (Done v) -> reliable (Ioctl (fd x) r) (Done v) ->
     (w = true -> agreeable (Ioctl (fd x) r) (Done v)) -> ok (next_ioctl s r v) (f v) (leaves I)) ->
  ok s (or_goto retries x r f) (leaves I).
Proof.
  intros H Ho Ht Hf. apply ok_bind_wp, ok_camera_ioctl; [apply H | done | |exact Hf].
  intros e Hw. by split.
Qed.

(** *** Set up *)

(** Opened, nothing allocated: [B] elements, all NULL. *)
Record fresh_start (B : nat) (s : kernel) (x : locals) : Prop := {
  fs_fd : 0 <= fd x;
  fs_state : s = Build_kernel (Some (fd x)) 0 ∅ ∅ ∅ false;
  fs_buffers : buffers x = replicate B (None, 0);
  fs_count : buffer_count x = 0;
  fs_frames : frames x = 0;
  fs_streaming : streaming x = false
}.

Lemma replicate_none B : Forall (fun b : option Z * Z => b.1 = None) (replicate B (None, 0)).
Proof. by apply Forall_replicate. Qed.

Lemma fresh_holds B s x : fresh_start B s x -> holds x s /\ off s x.
Proof.
  intros [Hp -> Hb Hc Hf Hs]. split; [|by split]. split; [done|done|..].
  - by rewrite Hb, live_none by apply replicate_none.
  - rewrite Hb, live_none by apply replicate_none. constructor.
  - rewrite Hc. lia.
  - rewrite Hc, Hb. apply replicate_none.
Qed.

(** The first [j] buffers are mapped, of those that the device described. *)
Record mapping (B j : nat) (s : kernel) (x : locals) : Prop := {
  mp_holds : holds x s;
  mp_length : length (buffers x) = B;
  mp_count : 1 <= buffer_count x <= k_bufs s;
  mp_full : exists bs, buffers x = bs ++ replicate (B - j) (None, 0) /\ length bs = j /\
              Forall (fun b => b.1 <> None) bs;
  mp_queued : k_queued s = ∅;
  mp_off : k_on s = false /\ streaming x = false;
  mp_frames : frames x = 0
}.

Lemma ok_check_capability B s x :
  fresh_start B s x ->
  ok s (check_capability V4L2_CAP_VIDEO_CAPTURE V4L2_CAP_STREAMING retries x) (leaves (fresh_start B)).
Proof.
  intros F. pose proof (fresh_holds B s x F) as [H Ho]. unfold check_capability.
  apply ok_or_goto; [done|done|done|]. intros v _ _ Hw. cbn [next_ioctl].
  assert (Hgo : forall b : bool, (w = true -> b = false) ->
    forall m, ok s m (leaves (fresh_start B)) -> ok s (if b then Value (inr x) else m) (leaves (fresh_start B))).
  { intros [] Hb m Hm; [|done]. cbn. split; [|done]. destruct w; [by discriminate Hb|done]. }
  apply Hgo; [|apply Hgo; [|exact F]]; intros Hwt; destruct (Hw Hwt) as (H1 & H2 & H3); rewrite H1; by apply Z.eqb_neq.
Qed.

Lemma ok_set_format B s x :
  fresh_start B s x -> ok s (set_format V4L2_PIX_FMT_YUYV retries x) (leaves (fresh_start B)).
Proof.
  intros F. pose proof (fresh_holds B s x F) as [H Ho]. unfold set_format.
  apply ok_or_goto; [done|done|by destruct F as [_ -> _ _ _ _]|]. intros v _ _ Hw. cbn [next_ioctl].
  destruct (Z.eqb_spec (value 4 v) V4L2_PIX_FMT_YUYV) as [_|Hne]; [exact F|].
  cbn. split; [|done]. destruct w; [|done]. by destruct Hne, Hw.
Qed.

(** The number of buffers used, [n], once granted. *)
Lemma granted (B : nat) s x v n k :
  fresh_start B s x -> 1 <= n <= value 0 v -> n <= Z.of_nat B ->
  mapping B 0 (next_ioctl s (VIDIOC_REQBUFS k) v) (set_count n x).
Proof.
  intros [Hp -> Hb Hc Hf Hs] Hn HB. split; cbn; try done.
  - split; cbn; [done|done|..].
    + by rewrite Hb, live_none by apply replicate_none.
    + rewrite Hb, live_none by apply replicate_none. constructor.
    + rewrite Hb, length_replicate. lia.
    + rewrite Hb. apply Forall_drop, replicate_none.
  - by rewrite Hb, length_replicate.
  - exists []. rewrite Hb, Nat.sub_0_r. split; [done|]. split; [done|constructor].
Qed.

Lemma fresh_set_bufs (B : nat) s x v k :
  fresh_start B s x -> holds x (next_ioctl s (VIDIOC_REQBUFS k) v) /\
    off (next_ioctl s (VIDIOC_REQBUFS k) v) x.
Proof.
  intros F. pose proof (fresh_holds B s x F) as [[Hf Hp Hm Hd Hc Hr] Ho]. split; [by split|done].
Qed.

Lemma ok_request_exactly (B : nat) s x :
  (1 <= B)%nat -> fresh_start B s x ->
  ok s (request_exactly retries (Z.of_nat B) x) (leaves (mapping B 0)).
Proof.
  intros HB F. pose proof (fresh_holds B s x F) as [H Ho]. unfold request_exactly.
  apply ok_or_goto; [done|done|by destruct F as [_ -> _ _ _ _]|]. intros v _ Hpos Hw. cbn in Hpos.
  pose proof (fresh_set_bufs B s x v (Z.of_nat B) F) as [H' Ho'].
  destruct (Z.eqb_spec (value 0 v) 0) as [Hz|Hz]; cbn [orb].
  { split; [|done]. destruct w; [|done]. specialize (Hw eq_refl). cbn in Hw. lia. }
  destruct (Z.ltb_spec (Z.of_nat B) (value 0 v)) as [Hlt|Hge].
  { split; [|done]. destruct w; [|done]. specialize (Hw eq_refl). cbn in Hw. lia. }
  apply granted; [done|lia|lia].
Qed.

Lemma ok_request_at_most (B : nat) s x :
  (2 <= B)%nat -> fresh_start B s x ->
  ok s (request_at_most retries (Z.of_nat B) x) (leaves (mapping B 0)).
Proof.
  intros HB F. pose proof (fresh_holds B s x F) as [H Ho]. unfold request_at_most.
  apply ok_or_goto; [done|done|by destruct F as [_ -> _ _ _ _]|]. intros v _ _ Hw.
  pose proof (fresh_set_bufs B s x v (Z.of_nat B) F) as [H' Ho'].
  destruct (Z.ltb_spec (value 0 v) 2) as [Hlt|Hge].
  { split; [|done]. destruct w; [|done]. specialize (Hw eq_refl). cbn in Hw. lia. }
  destruct (Z.ltb_spec (Z.of_nat B) (value 0 v)); apply granted; (done || lia).
Qed.

Lemma ok_for_buffers (I : nat -> kernel -> locals -> Prop) body s x :
  I 0%nat s x ->
  (forall j s x', (j < Z.to_nat (buffer_count x))%nat -> I j s x' -> ok s (body j x') (leaves (I (S j)))) ->
  ok s (for_buffers body x) (leaves (I (Z.to_nat (buffer_count x)))).
Proof.
  intros H0 Hb. unfold for_buffers.
  eapply ok_mono; [apply (ok_for_loop (fun j => leaves (I j)))|]; [exact H0| |done].
  intros j s1 [x1|x1] Hj H1; [|exact H1]. rewrite Nat.add_1_r. apply Hb; [lia|done].
Qed.

Lemma mapping_insert B j x (b : option Z * Z) bs :
  buffers x = bs ++ replicate (B - j) (None, 0) -> length bs = j -> (j < B)%nat ->
  <[j := b]> (buffers x) = bs ++ b :: replicate (B - S j) (None, 0).
Proof.
  intros -> Hl Hj. replace (B - j)%nat with (S (B - S j)) by lia. cbn.
  by rewrite <- Hl, insert_app_r_alt, Nat.sub_diag by done.
Qed.

Ltac camera_simpl :=
  cbn [Sys.next camera device_next next_ioctl k_fd k_bufs k_info k_maps k_queued k_on fd buffers
       buffer_count streaming frames set_buffer set_streaming set_count frame_done].

Lemma ok_map_one B j s x :
  mapping B j s x -> Z.of_nat j < buffer_count x ->
  ok s (map_one retries j x) (leaves (fun s' x' => mapping B (S j) s' x' /\ buffer_count x' = buffer_count x)).
Proof.
  intros [H Hl Hc (bs & Hb & Hbl & Hall) Hq [Ho Hs] Hf] Hj. unfold map_one.
  pose proof H as [Hfd Hpos Hm Hd Hcount Hrest].
  assert (HjB : (j < B)%nat) by lia.
  apply ok_or_goto; [done|by split|cbn; lia|]. intros v _ _ _.
  rewrite (proj2 (Nat.ltb_lt _ _)) by lia.
  apply ok_sys.
  { cbn. split; [done|]. exists (Z.of_nat j). by rewrite lookup_insert_eq. }
  assert (Hins : forall b, <[j := b]> (buffers x) = bs ++ b :: replicate (B - S j) (None, 0))
    by (intros b; by apply (mapping_insert B)).
  assert (Hnone : live (replicate (B - j) (None, 0)) = []) by apply live_none, replicate_none.
  assert (Hnone' : live (replicate (B - S j) (None, 0)) = []) by apply live_none, replicate_none.
  rewrite Hb, live_app, Hnone, app_nil_r in Hm, Hd.
  assert (Hdrop : forall b, Forall (fun b => b.1 = None) (drop (Z.to_nat (buffer_count x)) (bs ++ b :: replicate (B - S j) (None, 0)))).
  { intros b. rewrite drop_app_ge by lia.
    destruct (Z.to_nat (buffer_count x) - length bs)%nat as [|k] eqn:Hk; [lia|].
    cbn. apply Forall_drop, replicate_none. }
  intros [e|u] (Hdoc & _ & Hag); cbn in Hdoc.
  - cbn. split; [destruct w; [by destruct (Hag eq_refl)|done]|]. split; [|by split].
    split; cbn; [done|done| | | |].
    + by rewrite Hins, live_app, live_cons, Hnone', app_nil_r.
    + by rewrite Hins, live_app, live_cons, Hnone', app_nil_r.
    + rewrite length_insert. lia.
    + rewrite Hins. apply Hdrop.
  - assert (Hna : value 0 u ∉ (live bs).*1) by (rewrite Hm in Hdoc; by apply not_elem_of_list_to_map_2).
    assert (Hlive : live (<[j := (Some (value 0 u), value 0 v)]> (buffers x)) = live bs ++ [(value 0 u, value 0 v)]).
    { by rewrite Hins, live_app, live_cons, Hnone'. }
    cbn [ok leaves]. split; [|done]. split; camera_simpl; [|by rewrite length_insert|done| |done|done|done].
    + split; camera_simpl; [done|done| | | |].
      * rewrite Hlive, list_to_map_snoc by done. by rewrite Hm.
      * rewrite Hlive, fmap_app. apply NoDup_app. split; [done|]. split; [|by apply NoDup_singleton].
        intros y Hy ->%list_elem_of_singleton. done.
      * rewrite length_insert. lia.
      * rewrite Hins. apply Hdrop.
    + exists (bs ++ [(Some (value 0 u), value 0 v)]). rewrite Hins. split; [by rewrite <- app_assoc|].
      split; [rewrite length_app; cbn; lia|]. apply Forall_app. split; [done|]. by constructor.
Qed.

(** All are mapped; those below [j] are queued. *)
Record queueing (j : nat) (s : kernel) (x : locals) : Prop := {
  qu_holds : holds x s;
  qu_count : 1 <= buffer_count x <= k_bufs s;
  qu_full i : 0 <= i < buffer_count x -> exists d n, buffers x !! Z.to_nat i = Some (Some d, n);
  qu_queued i : i ∈ k_queued s <-> 0 <= i < Z.of_nat j;
  qu_off : k_on s = false /\ streaming x = false;
  qu_frames : frames x = 0
}.

(** Streaming, with the buffers of [q] queued. *)
Record filming (q : Z -> Prop) (s : kernel) (x : locals) : Prop := {
  fi_holds : holds x s;
  fi_count : 1 <= buffer_count x <= k_bufs s;
  fi_full i : 0 <= i < buffer_count x -> exists d n, buffers x !! Z.to_nat i = Some (Some d, n);
  fi_queued i : i ∈ k_queued s <-> 0 <= i < buffer_count x /\ q i;
  fi_on : k_on s = true /\ streaming x = true
}.

Definition every (i : Z) : Prop := True.

Lemma mapping_queueing B s x :
  mapping B (Z.to_nat (buffer_count x)) s x -> queueing 0 s x.
Proof.
  intros [H Hl Hc (bs & Hb & Hbl & Hall) Hq Hoff Hf]. split; try done.
  - intros i Hi. rewrite Hb, lookup_app_l by lia.
    destruct (lookup_lt_is_Some_2 bs (Z.to_nat i)) as [[d n] Hd]; [lia|]. rewrite Hd.
    rewrite Forall_forall in Hall. specialize (Hall _ (list_elem_of_lookup_2 _ _ _ Hd)). cbn in Hall.
    destruct d as [d|]; [by eexists _, _ | done].
  - intros i. rewrite Hq. split; [by intros ?%not_elem_of_empty | lia].
Qed.

Lemma ok_map_all B s x :
  mapping B 0 s x -> ok s (for_buffers (map_one retries) x) (leaves (queueing 0)).
Proof.
  intros M. eapply ok_mono; [apply (ok_for_buffers (fun j s' x' => mapping B j s' x' /\
    buffer_count x' = buffer_count x)); [done|]|].
  - intros j s1 x1 Hj [M1 Hc1]. rewrite <- Hc1. apply ok_map_one; [done|]. rewrite Hc1. lia.
  - intros s1 [x1|x1]; [|done]. intros [M1 Hc1]. apply (mapping_queueing B). by rewrite Hc1.
Qed.

Lemma ok_queue_both s x :
  queueing 0 s x ->
  ok s (for_buffers (queue_one retries) x) (leaves (fun s' x' => queueing (Z.to_nat (buffer_count x')) s' x')).
Proof.
  intros Q. eapply ok_mono; [apply (ok_for_buffers (fun j s' x' => queueing j s' x' /\
    buffer_count x' = buffer_count x)); [done|]|].
  - intros j s1 x1 Hj [[H Hc Hf Hq [Ho Hs] Hn] Hc1]. unfold queue_one.
    apply ok_or_goto; [done|by split|split; [lia|]; rewrite Hq; lia|]. intros v _ _ _.
    cbn [ok leaves]. split; [|done]. split; try done; [by destruct H|]. camera_simpl.
    intros i. rewrite elem_of_union, elem_of_singleton, Hq. lia.
  - intros s1 [x1|x1]; [|done]. intros [Q1 Hc1]. cbn [leaves]. by rewrite Hc1.
Qed.

Lemma ok_start_stream s x :
  queueing (Z.to_nat (buffer_count x)) s x ->
  ok s (start_stream retries x) (leaves (fun s' x' => filming every s' x' /\ frames x' = 0)).
Proof.
  intros [H Hc Hf Hq [Ho Hs] Hn]. unfold start_stream.
  apply ok_or_goto; [done|by split| |].
  - split; [done|]. intros He. assert (0 ∈ k_queued s) as H0 by (apply Hq; lia). rewrite He in H0. set_solver.
  - intros v _ _ _. cbn [ok leaves]. split; [|done]. split; try done; [by destruct H|]. camera_simpl.
    intros i. rewrite Hq. unfold every. lia.
Qed.

(** *** Frames *)

Lemma filming_dequeue s x :
  filming every s x -> takes s VIDIOC_DQBUF.
Proof.
  intros [H Hc Hf Hq [Ho Hs]]. split; [done|]. intros He.
  assert (0 ∈ k_queued s) as H0 by (apply Hq; split; [lia|done]). rewrite He in H0. set_solver.
Qed.

(** Take a frame, process it and give the buffer back, whatever follows. *)
Lemma ok_frame {A} s x (stop : reply -> prog A) (go : locals -> prog A) (Q : kernel -> A -> Prop) :
  filming every s x ->
  (forall e, w = false -> ok s (stop (Fail e)) Q) ->
  (forall s' q, w = false -> filming q s' x -> ok s' (stop (Fail EINVAL)) Q) ->
  (forall s', filming every s' (frame_done x) -> ok s' (go (frame_done x)) Q) ->
  ok s (a ← xioctl retries (fd x) VIDIOC_DQBUF;
        match a with
        | Fail e => stop (Fail e)
        | Done v =>
            if buffer_count x <=? value 0 v then stop (Fail EINVAL)
            else
              _ ← process_frame (value 0 v) x;
              a ← xioctl retries (fd x) (VIDIOC_QBUF (value 0 v));
              match a with Fail _ => stop (Fail EINVAL) | Done _ => go (frame_done x) end
        end) Q.
Proof.
  intros F Hfail Hstop Hgo. pose proof F as [H Hc Hf Hq [Ho Hs]]. apply ok_bind_wp, ok_camera_ioctl.
  - apply H.
  - by eapply filming_dequeue.
  - exact Hfail.
  - intros v Hv _ _. cbn in Hv. apply Hq in Hv as [Hr _].
    rewrite (proj2 (Z.leb_gt _ _)) by lia. unfold process_frame.
    rewrite (proj2 (Z.ltb_ge _ _)) by lia. destruct (Hf (value 0 v) Hr) as (d & n & Hb). rewrite Hb.
    apply ok_bind_wp. change (or_wild _) with (Value tt : prog unit). cbn [ok].
    assert (Hh : holds x (next_ioctl s VIDIOC_DQBUF v)) by (destruct H; by split).
    apply ok_bind_wp, ok_camera_ioctl.
    + apply Hh.
    + split; [cbn; lia|]. cbn. set_solver.
    + intros e Hw. apply (Hstop _ (fun i => i <> value 0 v)); [done|]. split; try done. camera_simpl.
      intros i. rewrite elem_of_difference, elem_of_singleton, Hq. unfold every. tauto.
    + intros u _ _ _. apply Hgo. split; try done; [by destruct H|]. camera_simpl.
      intros i. rewrite elem_of_union, elem_of_difference, elem_of_singleton, Hq. unfold every.
      destruct (decide (i = value 0 v)) as [->|]; tauto.
Qed.

Lemma frame_done_frames x : frames (frame_done x) = frames x + 1.
Proof. done. Qed.

(** After a loop: streaming still; on a willing device with all frames taken. *)
Definition filmed (s : kernel) (x : locals) : Prop :=
  (exists q, filming q s x) /\ (w = true -> frames x = 100).

Lemma ok_blocking_loop n : forall s x,
  filming every s x -> frames x = 100 - Z.of_nat n -> ok s (blocking_loop retries n x) filmed.
Proof.
  induction n as [|n IH]; intros s x F Hf; cbn [blocking_loop].
  { split; [by eexists|]. intros _. lia. }
  apply (ok_frame s x (fun _ => Value x) (blocking_loop retries n)); [done| | |].
  - intros e Hw. split; [by eexists|]. congruence.
  - intros s' q Hw F'. split; [by eexists|]. congruence.
  - intros s' F'. apply IH; [done|]. rewrite frame_done_frames. lia.
Qed.

(** [drain] takes frames until there is none, the hundredth or an error. *)
Lemma ok_drain n : forall s x,
  filming every s x -> frames x < 100 -> (w = true -> 100 - frames x <= Z.of_nat n) ->
  ok s (drain retries n x) (fun s' r => match r with
    | inl x' => filming every s' x' /\ (w = true -> frames x' = 100)
    | inr x' => w = false /\ exists q, filming q s' x'
    end).
Proof.
  induction n as [|n IH]; intros s x F Hlt Hn; cbn [drain].
  { cbn. destruct w; [|done]. specialize (Hn eq_refl). lia. }
  apply (ok_frame s x (fun a => match a with Fail EAGAIN => Value (inl x) | _ => Value (inr x) end)
    (fun x => if 100 <=? frames x then Value (inl x) else drain retries n x)); [done| | |].
  - intros e Hw. destruct e; cbn; try (split; [done|by eexists]). split; [done|]. congruence.
  - intros s' q Hw F'. split; [done|by eexists].
  - intros s' F'. cbv beta. destruct (Z.leb_spec 100 (frames (frame_done x))) as [Hge|Hlt'].
    + split; [done|]. intros _. rewrite frame_done_frames in *. lia.
    + apply IH; [done|done|]. intros Hw. specialize (Hn Hw). rewrite frame_done_frames. lia.
Qed.

Lemma ok_polling_loop n : forall s x,
  (w = true -> 100 <= Z.of_nat fuel) ->
  filming every s x -> frames x = 0 \/ 100 <= frames x \/ w = false ->
  (w = true -> (0 < n)%nat \/ 100 <= frames x) -> (w = true -> frames x <= 100) ->
  ok s (polling_loop POLLIN_MASK POLLERR_MASK retries fuel n x) filmed.
Proof.
  induction n as [|n IH]; intros s x Hfuel F H0 Hn Hle; cbn [polling_loop];
    (destruct (Z.leb_spec 100 (frames x)) as [Hge|Hlt];
     [split; [by eexists|]; intros Hw; specialize (Hle Hw); lia|]).
  { cbn. destruct w; [|done]. destruct (Hn eq_refl); lia. }
  pose proof F as [[Hfd Hpos Hm Hd Hcount Hrest] Hc Hf Hq [Ho Hs]].
  apply ok_bind_wp, ok_retry.
  - done.
  - exact Hfd.
  - apply camera_legal_fail.
  - done.
  - intros e _ Hw. split; [by eexists|]. cbn in Hw. congruence.
  - intros v (_ & _ & Hag). cbn [Sys.next camera device_next].
    assert (Hgo : forall m, (w = true -> False) -> (w = false -> ok s m filmed) -> ok s m filmed)
      by (intros m H1 H2; destruct w; [by destruct H1|by apply H2]).
    destruct (Z.eqb_spec (value 0 v) 0) as [Hz|_].
    { apply Hgo; [intros Hw; by destruct (Hag Hw) as [? _]|]. intros Hw. apply IH; (done || congruence || tauto). }
    destruct (Z.eqb_spec (value 1 v .& POLLERR_MASK) 0) as [_|Herr]; cbn [negb].
    2: { apply Hgo; [intros Hw; by destruct (Hag Hw) as (_ & ? & _)|]. intros Hw. split; [by eexists|]. congruence. }
    destruct (Z.eqb_spec (value 1 v .& POLLIN_MASK) 0) as [Hin|_].
    { apply Hgo; [intros Hw; by destruct (Hag Hw) as (_ & _ & ?)|]. intros Hw. apply IH; (done || congruence || tauto). }
    eapply ok_bind; [apply (ok_drain fuel s x F Hlt)|].
    { intros Hw. specialize (Hfuel Hw). destruct H0 as [H0|[H0|H0]]; [lia|lia|congruence]. }
    intros s' [x'|x'].
    + intros [F' Hall]. apply IH; [done|done| | |].
      * destruct w; [|tauto]. rewrite (Hall eq_refl). lia.
      * intros Hw. rewrite (Hall Hw). lia.
      * intros Hw. rewrite (Hall Hw). lia.
    + intros [Hw [q F']]. split; [by eexists|]. congruence.
Qed.

(** *** Release *)

Lemma ok_streamoff s x (Q : kernel -> reply -> Prop) :
  holds x s -> k_on s = true ->
  (forall s' v, holds x s' -> k_on s' = false -> Q s' (Done v)) ->
  ok s (xioctl retries (fd x) VIDIOC_STREAMOFF) Q.
Proof.
  intros [Hfd Hpos Hm Hd Hcount Hrest] Ho HQ. unfold xioctl. destruct retries as [|n].
  { cbn. destruct w; [|done]. specialize (Hretries eq_refl). lia. }
  split; [by split|]. intros [e|v] (_ & Hr & _); [done|]. by apply HQ.
Qed.

Lemma ok_stop_stream s x :
  holds x s -> k_on s = streaming x ->
  ok s (stop_stream retries x) (fun s' x' => holds x' s' /\ k_on s' = false /\ streaming x' = false /\
    frames x' = frames x).
Proof.
  intros H Ho. unfold stop_stream. destruct (streaming x) eqn:Hs.
  - apply ok_bind_wp, ok_streamoff; [done|done|]. intros s' v [Hfd Hpos Hm Hd Hcount Hrest] Ho'. cbn.
    by split.
  - cbn. by rewrite Hs.
Qed.

Lemma live_take x s : holds x s -> live (buffers x) = live (take (Z.to_nat (buffer_count x)) (buffers x)).
Proof.
  intros H. rewrite <- (take_drop (Z.to_nat (buffer_count x)) (buffers x)) at 1.
  by rewrite live_app, (live_none _ (h_rest x s H)), app_nil_r.
Qed.

(** Every mapping is removed, and the device closed. *)
Lemma ok_cleanup s x :
  holds x s -> k_on s = false -> ok s (cleanup x) (fun s' _ => s' = idle).
Proof.
  intros H Ho. pose proof (live_take x s H) as Hlive. pose proof H as [Hfd Hpos Hm Hd Hcount Hrest].
  set (n := Z.to_nat (buffer_count x)) in *. rewrite Hlive in Hm, Hd. unfold cleanup. fold n.
  eapply (ok_bind _ _ _ _ (fun s' _ => k_fd s' = Some (fd x) /\ k_maps s' = ∅ /\ k_on s' = false)).
  - eapply ok_mono; [apply (ok_for_loop (fun j s' _ => k_fd s' = Some (fd x) /\ k_on s' = false /\
      k_maps s' = list_to_map (live (drop j (take n (buffers x)))) /\
      NoDup (live (drop j (take n (buffers x)))).*1))|].
    + by rewrite drop_0.
    + intros j s' _ Hj (Hfd' & Ho' & Hm' & Hd').
      destruct (lookup_lt_is_Some_2 (buffers x) j) as [[d l] Hb]; [lia|]. rewrite Hb.
      cbn [or_wild mbind prog_bind fst snd].
      assert (Ht : take n (buffers x) !! j = Some (d, l)) by by rewrite lookup_take_lt by lia.
      pose proof (drop_S _ _ _ Ht) as Hdrop. rewrite Hdrop, live_cons in Hm', Hd'. rewrite Nat.add_1_r.
      destruct d as [a|]; [|by cbn].
      cbn in Hm', Hd'. apply NoDup_cons in Hd' as [Hna Hd'].
      apply ok_sys; [cbn; by rewrite Hm', lookup_insert_eq|].
      intros [e|v] (_ & Hr & _); [done|]. camera_simpl. cbn [ok]. do 2 (split; [done|]). split; [|done].
      rewrite Hm', delete_insert_id; [done|]. by apply not_elem_of_list_to_map_1.
    + intros s' _ (Hfd' & Ho' & Hm' & _). split; [done|]. split; [|done].
      by rewrite Hm', drop_ge by (rewrite length_take; lia).
  - intros s' _ (Hfd' & Hm' & Ho'). rewrite (proj2 (Z.eqb_neq _ _)) by lia.
    apply ok_sys; [by cbn|]. by intros [e|v] (_ & Hr & _).
Qed.

(** *** The programs *)

Lemma filmed_holds s x : filmed s x -> holds x s /\ k_on s = true /\ streaming x = true.
Proof. intros [[q [H _ _ _ [Ho Hs]]] _]. done. Qed.

Lemma first_fresh B f : 0 <= f -> fresh_start B (Build_kernel (Some f) 0 ∅ ∅ ∅ false) (first_locals B f).
Proof. by split. Qed.

Definition released (s : kernel) (r : Z * Z) : Prop :=
  s = idle /\ (w = true -> r = (EXIT_SUCCESS, 100)).

Lemma ok_blocking_main : ok idle (blocking_main V4L2_PIX_FMT_YUYV retries) released.
Proof.
  unfold blocking_main. apply ok_sys; [done|]. intros [e|v] (_ & Hf & Hag).
  { split; [done|]. intros Hw. by destruct (Hag Hw). }
  eapply ok_bind.
  { eapply ok_seq_step; [by apply ok_set_format, (first_fresh 2)|]. intros s1 x1 F1.
    eapply ok_seq_step; [apply (ok_request_exactly 2); [lia|exact F1]|]. intros s2 x2 F2.
    eapply ok_seq_step; [by eapply ok_map_all|]. intros s3 x3 F3.
    eapply ok_seq_step; [by apply ok_queue_both|]. intros s4 x4 F4. by apply ok_start_stream. }
  intros s1 r1 H1. apply ok_bind_wp.
  apply (ok_mono _ _ (fun s' x' => holds x' s' /\ k_on s' = false /\ (w = true -> frames x' = 100))).
  - destruct r1 as [x1|x1].
    + destruct H1 as [F1 Hn1]. eapply ok_bind; [by apply (ok_blocking_loop 100)|]. intros s2 x2 F2.
      destruct (filmed_holds _ _ F2) as (Hh & Ho & _). apply ok_bind_wp, ok_streamoff; [done|done|].
      intros s3 u Hh3 Ho3. split; [done|]. split; [done|]. apply F2.
    + destruct H1 as (Hw & Hh & Ho & _). cbn. split; [done|]. split; [done|]. congruence.
  - intros s2 x2 (Hh & Ho & Hn). eapply ok_bind; [by apply ok_cleanup|]. intros s3 [] ->. cbn.
    split; [done|]. intros Hw. by rewrite (Hn Hw).
Qed.

Lemma ok_polling_main :
  (w = true -> 100 <= Z.of_nat fuel) ->
  ok idle (polling_main V4L2_CAP_VIDEO_CAPTURE V4L2_CAP_STREAMING V4L2_PIX_FMT_YUYV POLLIN_MASK
             POLLERR_MASK retries fuel) released.
Proof.
  intros Hfuel. unfold polling_main. apply ok_sys; [done|]. intros [e|v] (_ & Hf & Hag).
  { split; [done|]. intros Hw. by destruct (Hag Hw). }
  eapply ok_bind.
  { eapply ok_seq_step; [by apply ok_check_capability, (first_fresh 4)|]. intros s0 x0 F0.
    eapply ok_seq_step; [by apply ok_set_format|]. intros s1 x1 F1.
    eapply ok_seq_step; [apply (ok_request_at_most 4); [lia|exact F1]|]. intros s2 x2 F2.
    eapply ok_seq_step; [by eapply ok_map_all|]. intros s3 x3 F3.
    eapply ok_seq_step; [by apply ok_queue_both|]. intros s4 x4 F4. by apply ok_start_stream. }
  intros s1 r1 H1. apply ok_bind_wp.
  apply (ok_mono _ _ (fun s' x' => holds x' s' /\ k_on s' = streaming x' /\ (w = true -> frames x' = 100))).
  - destruct r1 as [x1|x1].
    + destruct H1 as [F1 Hn1]. eapply ok_bind.
      { apply ok_polling_loop; [done|exact F1|by left| |lia]. intros Hw. left. specialize (Hfuel Hw). lia. }
      intros s2 x2 F2. destruct (filmed_holds _ _ F2) as (Hh & Ho & Hs).
      eapply ok_mono; [by apply ok_stop_stream; [|congruence]|].
      intros s3 x3 (Hh3 & Ho3 & Hs3 & Hf3). split; [done|]. split; [congruence|]. rewrite Hf3. apply F2.
    + destruct H1 as (Hw & Hh & Ho & Hs). cbn. split; [done|]. split; congruence.
  - intros s2 x2 (Hh & Ho & Hn). eapply ok_bind; [by apply ok_stop_stream|].
    intros s3 x3 (Hh3 & Ho3 & _ & Hf3). eapply ok_bind; [by apply ok_cleanup|]. intros s4 [] ->. cbn.
    split; [done|]. intros Hw. by rewrite Hf3, (Hn Hw).
Qed.
End release.

Section theorems.
Context (capv caps yuyv pollin pollerr : Z).

(** C15: the two camera programs, whichever call fails and wherever, except
    munmap, close and VIDIOC_STREAMOFF, which succeed (their results are not
    looked at), on a device whose descriptor and number of buffers are not
    negative: no call is made that the device does not take, no array is left,
    and when the program ends the device is closed with nothing mapped; on a
    camera that gives a frame whenever it is asked they end after exactly 100
    frames. *)
Theorem cleanup_releases_all (w polls : bool) (retries fuel : nat) s v :
  (w = true -> (0 < retries)%nat /\ (100 <= fuel)%nat) ->
  behaves (P := camera capv caps yuyv pollin pollerr w) idle
    (if polls then polling_main capv caps yuyv pollin pollerr retries fuel
     else blocking_main yuyv retries) s v ->
  match v with
  | Returned r => s = idle /\ (w = true -> r = (EXIT_SUCCESS, 100))
  | Exited | StillRunning => w = false
  | OutOfBounds | Violation _ => False
  end.
Proof.
  intros Hw Hb.
  assert (Hr : w = true -> (0 < retries)%nat) by (intros H; apply Hw, H).
  assert (Hf : w = true -> 100 <= Z.of_nat fuel) by (intros H; destruct (Hw H); lia).
  assert (Hok : ok (P := camera capv caps yuyv pollin pollerr w) idle
    (if polls then polling_main capv caps yuyv pollin pollerr retries fuel
     else blocking_main yuyv retries) (released w))
    by (destruct polls; [by apply ok_polling_main | by apply ok_blocking_main]).
  pose proof (ok_behaves (P := camera capv caps yuyv pollin pollerr w) _ _ _ _ _ Hok Hb) as H.
  by destruct v.
Qed.
End theorems.

(** ** Examples *)

(** A camera with the constants of the headers always has a reply. *)
Lemma camera_reply s c :
  device_allowed s c ->
  exists a, Sys.legal (Protocol := camera 1 0x04000000 0x56595559 0x41 0x38 true) s c a /\ True.
Proof.
  intros Ha. enough (exists a, documented s c a /\ reliable c a /\ agreeable 1 0x04000000 0x56595559 0x41 0x38 c a)
    as (a & ? & ? & ?) by by exists a.
  destruct c as [| |fd|fd r|n|fd l o|a l|fd|]; try (by exists (Done [])).
  - destruct r as [| | | | |n| | | | |]; try (by exists (Done [])).
    + by exists (Done [0x04000001; 0]).
    + by exists (Done [0; 0; 0; 0; 0x56595559]).
    + exists (Done [Z.max 0 n]). cbn. repeat split; lia.
    + destruct Ha as (_ & _ & Hne). destruct (set_choose_L _ Hne) as [i Hi]. by exists (Done [i]).
  - exists (Done [fresh (dom (k_maps s))]). split; [|done]. cbn. apply not_elem_of_dom, is_fresh.
  - by exists (Done [1; 1]).
Qed.

Lemma cleanup_releases_all_witness :
  exists s v, behaves (P := camera 1 0x04000000 0x56595559 0x41 0x38 true) idle
      (polling_main 1 0x04000000 0x56595559 0x41 0x38 1 100) s (Returned v) /\
    s = idle /\ v = (EXIT_SUCCESS, 100).
Proof.
  assert (Hw : true = true -> (0 < 1)%nat /\ (100 <= 100)%nat) by (intros _; lia).
  destruct (ok_runs (P := camera 1 0x04000000 0x56595559 0x41 0x38 true) (fun _ => True) _ _ idle
    (fun s c _ => camera_reply s c) I
    (ok_polling_main 1 0x04000000 0x56595559 0x41 0x38 true 1 100 ltac:(lia) ltac:(lia))) as (s & v & Hb).
  pose proof (cleanup_releases_all 1 0x04000000 0x56595559 0x41 0x38 true true 1 100 s v Hw Hb) as H.
  destruct v as [r| | | |]; try done. destruct H as (-> & H). exists idle, r. split; [exact Hb|]. split; [done|by apply H].
Defined.
