(* ===== verification/FrameDump.v ===== *)
(** * Writing frames: the dumpers and conversions of the stand-alone capture programs

    simple-capture, simple-capture-1800, simple-capture-1800-syslog and
    simple-capture-1800-gprof share dump_ppm, dump_pgm, yuv2rgb and the loops of
    process_image; they differ in the name of the files, the resolution in the
    header and whether its terminator is written too, which a [layout] gives.
    The dumps are programs of system calls; the calls are a parameter here, and
    [SimpleCapture] supplies them. *)
From Stdlib Require Import String.
From stdpp Require Import option list sets.
From S2P Require Import Prelude CString Timespec Capture.
#[local] Open Scope Z_scope.

(** ** The arrays *)

(** [stem] comes before the number in a name, [width] digits of it are printed;
    [resolution] is HRES_STR" "VRES_STR. *)
Record layout := { stem : list Z; width : nat; resolution : list Z; terminator : bool }.

Definition size_text (L : layout) : list Z := resolution L ++ [10] ++ bytes "255" ++ [10].

Definition first_header (L : layout) (magic : string) : list Z :=
  bytes magic ++ [10] ++ bytes "#9999999999 sec 9999999999 msec " ++ [10] ++ size_text L ++ [0].
Definition first_name (L : layout) (suffix : string) : list Z :=
  stem L ++ repeat 48 (width L) ++ bytes suffix ++ [0].

(** The [snprintf] and the [strncat] on the name, then those on the header. *)
Definition next_name (L : layout) (suffix : string) (d : dumper) (tag : Z) : option (list Z) :=
  name ← snprintf (dumpname d) (length (stem L)) 9 (format_d (width L) (swrap 32 tag));
  strncat name (length (stem L) + width L) (bytes suffix) 5.

Definition next_header (L : layout) (d : dumper) (time : timespec) : option (list Z) :=
  hdr ← snprintf (header d) 4 11 (format_d 10 (swrap 32 (tv_sec time)));
  hdr ← strncat hdr 14 (bytes " sec ") 5;
  hdr ← snprintf hdr 19 11 (format_d 10 (swrap 32 (tv_nsec time ÷ 1000000)));
  strncat hdr 29 (bytes " msec " ++ [10] ++ size_text L) 19.

(** [sizeof(ppm_header)], less one where the program takes it. *)
Definition header_written (L : layout) (hdr : list Z) : list Z :=
  if terminator L then hdr else take (length hdr - 1) hdr.

(** ** The conversions *)

(** [for(i=0, newi=0; i<size; i=i+4, newi=newi+2)]: the luminance of two pixels. *)
Definition y_pair (p : list Z) (k : nat) (big : list Z) : option (list Z) :=
  let i := 4 * Z.of_nat k in
  y1 ← aget p i;
  y2 ← aget p (i + 2);
  store big (2 * k) [y1; y2].

Definition convert_y (p big : list Z) (size : Z) : option (list Z) :=
  for_loop (Z.to_nat ((size + 3) / 4)) 0 (y_pair p) big.

(** [for(i=0, newi=0; i<size; i=i+4, newi=newi+6)]: the colours of two pixels. *)
Definition rgb_pair (p : list Z) (k : nat) (big : list Z) : option (list Z) :=
  let i := 4 * Z.of_nat k in
  y_temp ← aget p i;
  u_temp ← aget p (i + 1);
  y2_temp ← aget p (i + 2);
  v_temp ← aget p (i + 3);
  store big (6 * k) (yuv2rgb y_temp u_temp v_temp ++ yuv2rgb y2_temp u_temp v_temp).

Definition convert_rgb (p big : list Z) (size : Z) : option (list Z) :=
  for_loop (Z.to_nat ((size + 3) / 4)) 0 (rgb_pair p) big.

(** ** What the conversions compute *)

(** The first [n] pairs of an image. *)
Definition lumas (p : list Z) (n : nat) : list Z :=
  concat (map (fun k => [elt p (4 * k); elt p (4 * k + 2)]) (seq 0 n)).

Lemma lumas_S p n : lumas p (S n) = lumas p n ++ [elt p (4 * n); elt p (4 * n + 2)].
Proof. unfold lumas. by rewrite seq_S, map_app, concat_app. Qed.

Lemma length_lumas p n : length (lumas p n) = (2 * n)%nat.
Proof. induction n as [|n IH]; [done|]. rewrite lumas_S, length_app, IH. cbn. lia. Qed.

(** The next group of a conversion is stored after those before. *)
Lemma store_group {A} (pre g big : list A) :
  (length pre + length g <= length big)%nat ->
  store (pre ++ drop (length pre) big) (length pre) g
    = Some ((pre ++ g) ++ drop (length (pre ++ g)) big).
Proof.
  intros H. rewrite store_app by (rewrite length_drop; lia).
  by rewrite drop_drop, length_app, <- app_assoc.
Qed.

Lemma convert_y_spec p big n :
  (4 * n <= length p)%nat -> (2 * n <= length big)%nat ->
  convert_y p big (4 * Z.of_nat n) = Some (lumas p n ++ drop (2 * n) big).
Proof.
  intros Hp Hb. unfold convert_y.
  replace (Z.to_nat ((4 * Z.of_nat n + 3) / 4)) with n
    by (rewrite Z.mul_comm, Z.div_add_l by lia; change (3 / 4) with 0; lia).
  destruct (for_loop_option (fun k s => s = lumas p k ++ drop (2 * k) big) (y_pair p) n 0 big)
    as (s & Hs & ->); [done| |by rewrite Hs].
  intros k s Hk ->. eexists. split; [|by rewrite Nat.add_1_r]. unfold y_pair.
  replace (4 * Z.of_nat k) with (Z.of_nat (4 * k)) by lia.
  replace (Z.of_nat (4 * k) + 2) with (Z.of_nat (4 * k + 2)) by lia.
  rewrite !aget_elt by lia. cbn [mbind option_bind].
  pose proof (store_group (lumas p k) [elt p (4 * k); elt p (4 * k + 2)] big) as H.
  rewrite length_app, length_lumas in H. cbn [length] in H. rewrite H by lia.
  rewrite lumas_S. do 3 f_equal. lia.
Qed.

Lemma convert_rgb_spec p big n :
  (4 * n <= length p)%nat -> (6 * n <= length big)%nat ->
  convert_rgb p big (4 * Z.of_nat n) = Some (rgb p n ++ drop (6 * n) big).
Proof. apply convert_spec. Qed.

(** ** What a dump writes *)

(** A layout whose texts fit: the number has at most eight digits, the
    resolution seven characters, and no text holds a terminator. *)
Record layout_ok (L : layout) : Prop := {
  lo_width : (2 <= width L <= 8)%nat;
  lo_resolution : length (resolution L) = 7%nat;
  lo_stem : Forall (fun c => c <> 0) (stem L)
}.

(** The arrays keep their fixed prefixes and their sizes. *)
Definition arrays_ok (L : layout) (magic : list Z) (d : dumper) : Prop :=
  length magic = 4%nat /\
  (exists r, header d = magic ++ r /\ length r = 45%nat) /\
  (exists r, dumpname d = stem L ++ r /\ length r = (width L + 5)%nat).

(** The name of file [tag], and the header. *)
Definition name_of (L : layout) (suffix : string) (tag : Z) : list Z :=
  stem L ++ format_d (width L) tag ++ bytes suffix.
Definition text_of (L : layout) (magic : list Z) (time : timespec) : list Z :=
  magic ++ digits 10 (tv_sec time) ++ bytes " sec " ++
  digits 10 (tv_nsec time / 1000000) ++ bytes " msec " ++ [10] ++ size_text L.

(** The numbers that fit the width, with their sign. *)
Definition tag_fits (L : layout) (tag : Z) : Prop :=
  - 10 ^ Z.of_nat (width L - 1) < tag < 10 ^ Z.of_nat (width L).

Lemma format_d_length w z :
  (2 <= w)%nat -> - 10 ^ Z.of_nat (w - 1) < z < 10 ^ Z.of_nat w -> length (format_d w z) = w.
Proof.
  intros Hw Hz. unfold format_d. destruct (Z.ltb_spec z 0).
  - cbn [length]. rewrite length_digits.
    pose proof (ndigits_small 9 (- z) (w - 1)). lia.
  - rewrite length_digits. pose proof (ndigits_small 9 z w). lia.
Qed.

Lemma format_d_char w z : Forall (fun c => c <> 0) (format_d w z).
Proof.
  apply list.Forall_forall. intros c. unfold format_d. destruct (z <? 0).
  - intros [-> | H%digits_char]%elem_of_cons; lia.
  - intros H%digits_char. lia.
Qed.

Lemma bytes_fit (s : string) : Forall (fun c => c <> 0) (bytes s) -> forall c, c ∈ bytes s -> c <> 0.
Proof. rewrite list.Forall_forall. auto. Qed.

Definition suffix_ok (suffix : string) : Prop := suffix = ".ppm"%string \/ suffix = ".pgm"%string.

Lemma suffix_length suffix : suffix_ok suffix -> length (bytes suffix) = 4%nat.
Proof. by intros [-> | ->]. Qed.

Lemma suffix_chars suffix : suffix_ok suffix -> Forall (fun c => c <> 0) (bytes suffix).
Proof. intros [-> | ->]; repeat (constructor; [by vm_compute|]); constructor. Qed.

Section arrays.
Context (L : layout) (HL : layout_ok L).

Lemma first_arrays_ok magic suffix :
  length (bytes magic) = 2%nat -> suffix_ok suffix ->
  arrays_ok L (bytes magic ++ [10] ++ bytes "#")
    {| header := first_header L magic; dumpname := first_name L suffix |}.
Proof.
  intros Hm Hs. destruct HL as [_ Hr _]. split; [by rewrite length_app, Hm|]. split.
  - exists (bytes "9999999999 sec 9999999999 msec " ++ [10] ++ size_text L ++ [0]).
    unfold first_header. cbn [header]. split.
    + rewrite <- !app_assoc. do 2 f_equal.
    + unfold size_text. rewrite !length_app, Hr. done.
  - eexists. split; [reflexivity|].
    rewrite !length_app, repeat_length, suffix_length by done. done.
Qed.

Lemma next_name_spec suffix magic d tag :
  arrays_ok L magic d -> suffix_ok suffix -> tag_fits L tag ->
  next_name L suffix d tag = Some (name_of L suffix tag ++ [0]).
Proof.
  intros (_ & _ & r & Hr & Hlen) Hs Ht. destruct HL as [Hw _ _]. unfold next_name, tag_fits in *.
  assert (10 ^ Z.of_nat (width L - 1) <= 10 ^ 7) by (apply Z.pow_le_mono_r; lia).
  assert (10 ^ Z.of_nat (width L) <= 10 ^ 8) by (apply Z.pow_le_mono_r; lia).
  rewrite swrap_int by (unfold INT_MIN, INT_MAX; lia).
  pose proof (format_d_length (width L) tag ltac:(lia) Ht) as Hf.
  destruct (snprintf_step (dumpname d) (stem L) r 9 _ (format_d (width L) tag) Hr eq_refl)
    as (b & -> & Hb); [lia..|].
  cbn [mbind option_bind]. rewrite app_assoc.
  destruct (strncat_step (stem L ++ format_d (width L) tag) b 5 (length (stem L) + width L)
              (bytes suffix)) as (b' & -> & Hb').
  - by rewrite length_app, Hf.
  - rewrite suffix_length by done. lia.
  - rewrite suffix_length by done. lia.
  - rewrite suffix_length in Hb' by done. destruct b'; [|cbn in Hb'; lia].
    unfold name_of. by rewrite <- !app_assoc.
Qed.

Lemma next_header_spec magic d time :
  arrays_ok L magic d -> time_ok time ->
  next_header L d time = Some (text_of L magic time ++ [0]).
Proof.
  intros (Hm & (r & Hr & Hlen) & _) [Hsec Hnsec]. unfold INT_MAX in Hsec. unfold next_header.
  rewrite Z.quot_div_nonneg by lia.
  assert (0 <= tv_nsec time / 1000000 < 1000)
    by (split; [apply Z.div_pos; lia | apply Z.div_lt_upper_bound; lia]).
  rewrite !swrap_small, !format_digits by (cbn; lia).
  destruct (snprintf_step (header d) magic r 11 4 (digits 10 (tv_sec time)) Hr)
    as (b1 & -> & H1); [done|rewrite length_digits; lia..|].
  rewrite length_digits in H1. cbn [mbind option_bind]. rewrite (app_assoc magic).
  destruct (strncat_step (magic ++ digits 10 (tv_sec time)) b1 5 14 (bytes " sec "))
    as (b2 & -> & H2); [by rewrite length_app, length_digits, Hm|cbn; lia..|].
  change (length (bytes " sec ")) with 5%nat in H2. cbn [mbind option_bind].
  set (pre := (magic ++ digits 10 (tv_sec time)) ++ bytes " sec ").
  assert (length pre = 19%nat) as Hpre by (unfold pre; by rewrite !length_app, length_digits, Hm).
  rewrite (app_assoc _ (bytes " sec ")). fold pre.
  destruct (snprintf_step (pre ++ 0 :: b2) pre (0 :: b2) 11 19
              (digits 10 (tv_nsec time / 1000000))) as (b3 & -> & H3);
    [done|done|rewrite length_digits; cbn; lia..|].
  rewrite length_digits in H3. cbn [length] in H3. cbn [mbind option_bind]. rewrite (app_assoc pre).
  assert (Ht : length (bytes " msec " ++ [10] ++ size_text L) = 19%nat)
    by (unfold size_text; by rewrite !length_app, (lo_resolution L HL)).
  destruct (strncat_step (pre ++ digits 10 (tv_nsec time / 1000000)) b3 19 29
              (bytes " msec " ++ [10] ++ size_text L)) as (b4 & -> & H4);
    [by rewrite length_app, length_digits, Hpre|lia..|].
  rewrite Ht in H4. assert (b4 = []) as -> by (destruct b4; [done|cbn in H4; lia]).
  unfold text_of, pre. by rewrite <- !app_assoc.
Qed.

Lemma length_text_of magic time : length magic = 4%nat -> length (text_of L magic time) = 48%nat.
Proof.
  intros Hm. unfold text_of, size_text.
  by rewrite !length_app, !length_digits, Hm, (lo_resolution L HL).
Qed.

(** The arrays after a dump. *)
Lemma arrays_next magic suffix tag time :
  length magic = 4%nat -> suffix_ok suffix -> tag_fits L tag ->
  arrays_ok L magic {| header := text_of L magic time ++ [0];
                       dumpname := name_of L suffix tag ++ [0] |}.
Proof.
  intros Hm Hs Ht. destruct HL as [Hw _ _]. split; [done|]. cbn [header dumpname].
  split; eexists; (split; [unfold text_of, name_of; by rewrite <- app_assoc|]).
  - pose proof (length_text_of magic time Hm) as Hl. unfold text_of in Hl.
    rewrite length_app, Hm in Hl. rewrite length_app. change (length [0]) with 1%nat. lia.
  - rewrite !length_app, format_d_length, suffix_length by (done || lia). cbn. lia.
Qed.

Lemma strlen_name suffix tag :
  suffix_ok suffix -> strlen (name_of L suffix tag ++ [0]) = Some (length (name_of L suffix tag)).
Proof.
  intros Hs. apply strlen_app, list.Forall_forall. unfold name_of. rewrite !Forall_app.
  split; [apply HL|]. split; [apply format_d_char | by apply suffix_chars].
Qed.
End arrays.
