(* ===== verification/SimpleCapture.v ===== *)
(** * The stand-alone capture programs

    simple-capture-1800/capture.c as a whole, from its options to the closed
    device: a program of system calls, with the three ways to get at a frame
    (read, mapped buffers, buffers of the program's own).  The other three
    programs differ in [process_image], the delay and the clock readings of the
    main loop, which the class [Capturer] gives; [SimpleVariants] has them.  The
    kernel's side keeps what the process has open, mapped, allocated and queued,
    and the files it has written. *)
From Stdlib Require Import String.
From stdpp Require Import option list gmap.
From S2P Require Import Prelude CString Timespec Sys Capture FrameDump.
#[local] Open Scope Z_scope.

(** ** Calls *)

(** Where a queued buffer is: [v4l2_buffer.memory], [m.userptr] and [length]. *)
Inductive memory := V4L2_MEMORY_MMAP | V4L2_MEMORY_USERPTR (userptr length : Z).

Inductive request :=
  | VIDIOC_QUERYCAP | VIDIOC_CROPCAP | VIDIOC_S_CROP
  | VIDIOC_S_FMT (width height pixelformat : Z) | VIDIOC_G_FMT
  | VIDIOC_REQBUFS (count : Z) (user : bool) | VIDIOC_QUERYBUF (index : Z)
  | VIDIOC_QBUF (index : Z) (m : memory) | VIDIOC_DQBUF (user : bool)
  | VIDIOC_STREAMON | VIDIOC_STREAMOFF.

(** [Load] is an access to the memory at an address that the device writes:
    its reply is what is there. *)
Inductive call :=
  | Stat (path : string) | Open (path : string) | Close (fd : Z)
  | Ioctl (fd : Z) (r : request)
  | Read (fd start size : Z)
  | Calloc (count : Z) | Malloc (size : Z) | Free (start : Z)
  | Mmap (fd length offset : Z) | Munmap (start length : Z)
  | Select (fd : Z) | Nanosleep (t : timespec)
  | Realtime | Monotonic
  | Creat (path : list Z) | Write (fd : Z) (data : list Z) | CloseFile (fd : Z)
  | Load (start : Z).

#[local] Abbreviation prog := (prog call).

(** Constants of the kernel's header. *)
Class Videodev2 := {
  V4L2_CAP_VIDEO_CAPTURE : Z; V4L2_CAP_READWRITE : Z; V4L2_CAP_STREAMING : Z;
  V4L2_PIX_FMT_GREY : Z; V4L2_PIX_FMT_YUYV : Z; V4L2_PIX_FMT_RGB24 : Z
}.

(** What is known of them. *)
Class Sane (V : Videodev2) := {
  capture_bit : V4L2_CAP_VIDEO_CAPTURE <> 0;
  readwrite_bit : V4L2_CAP_READWRITE <> 0;
  streaming_bit : V4L2_CAP_STREAMING <> 0;
  grey_yuyv : V4L2_PIX_FMT_GREY <> V4L2_PIX_FMT_YUYV
}.

(** ** The globals *)

Inductive io_method := IO_METHOD_READ | IO_METHOD_MMAP | IO_METHOD_USERPTR.

(** What the options set. *)
Record options := {
  dev_name : string; io : io_method; out_buf : Z; force_format : Z; frame_count : Z
}.

Record pix := { width : Z; height : Z; pixelformat : Z; bytesperline : Z; sizeimage : Z }.

(** The device: [fd], the array [buffers] (its address, and the start and length
    of its elements), [n_buffers] and [fmt]. *)
Record camera := {
  fd : Z; array : Z; buffers : list (Z * Z); n_buffers : Z; fmt : pix
}.

(** What [process_image] keeps. *)
Record images := { framecnt : Z; ppm : dumper; pgm : dumper; bigbuffer : list Z }.

Definition set_dumpers (p q : dumper) (im : images) : images :=
  {| framecnt := framecnt im; ppm := p; pgm := q; bigbuffer := bigbuffer im |}.
Definition set_bigbuffer (big : list Z) (im : images) : images :=
  {| framecnt := framecnt im; ppm := ppm im; pgm := pgm im; bigbuffer := big |}.
Definition set_framecnt (n : Z) (im : images) : images :=
  {| framecnt := n; ppm := ppm im; pgm := pgm im; bigbuffer := bigbuffer im |}.

(** ** dump_ppm and dump_pgm *)

Definition file_result (a : reply) : Z := match a with Done v => value 0 v | Fail _ => -1 end.

(** [do { written=write(dumpfd, p, size); total+=written; } while(total < size);]
    An overflow of [total] is undefined. *)
Fixpoint write_all (fuel : nat) (dumpfd : Z) (p : list Z) (size total : Z) : prog Z :=
  match fuel with
  | O => Running
  | S fuel =>
      a ← sys (Write dumpfd p);
      let total := total + file_result a in
      if in_int total
      then if total <? size then write_all fuel dumpfd p size total else Value total
      else Wild
  end.

(** The new arrays; [timed] builds read the clock before they close the file. *)
Definition dump (L : layout) (timed : bool) (wfuel : nat) (suffix : string) (d : dumper)
    (p : list Z) (size tag : Z) (time : timespec) : prog dumper :=
  name ← or_wild (next_name L suffix d tag);
  n ← or_wild (strlen name);
  a ← sys (Creat (take n name));
  let dumpfd := file_result a in
  hdr ← or_wild (next_header L d time);
  _ ← sys (Write dumpfd (header_written L hdr));
  if Z.of_nat (length p) <? size then Wild
  else
    _ ← write_all wfuel dumpfd (take (Z.to_nat size) p) size 0;
    _ ← (if timed then sys Monotonic else Value (Done []));
    _ ← sys (CloseFile dumpfd);
    Value {| header := hdr; dumpname := name |}.

Definition dump_ppm L timed wfuel (im : images) p size tag time : prog images :=
  d ← dump L timed wfuel ".ppm" (ppm im) p size tag time;
  Value (set_dumpers d (pgm im) im).
Definition dump_pgm L timed wfuel (im : images) p size tag time : prog images :=
  d ← dump L timed wfuel ".pgm" (pgm im) p size tag time;
  Value (set_dumpers (ppm im) d im).

(** [clock_gettime(CLOCK_REALTIME, &frame_time)] *)
Definition now : prog timespec :=
  a ← sys Realtime;
  Value (match a with
         | Done v => {| tv_sec := value 0 v; tv_nsec := value 1 v |}
         | Fail _ => {| tv_sec := 0; tv_nsec := 0 |}
         end).

(** The bytes at [start]. *)
Definition memory_at (start : Z) : prog (list Z) := a ← sys (Load start); or_exit a.

(** What a program has of its own: the resolution it asks for, its frames, the
    delay of the main loop, whether it reads the clock for its rates, and
    [process_image], for the frame of [size] bytes at [start]. *)
Class Capturer := {
  HRES : Z; VRES : Z;
  default_count : Z;
  read_delay : timespec;
  timed : bool;
  first_images : images;
  process_image : Z -> Z -> Z -> images -> prog images
}.

Section program.
Context {V : Videodev2} {B : Capturer} (retries fuel : nat).

Definition xioctl (fd : Z) (r : request) : prog reply := retry retries (Ioctl fd r).

(** ** Opening *)

(** Returns [fd]. *)
Definition open_device (o : options) : prog Z :=
  a ← sys (Stat (dev_name o)); v ← or_exit a;
  if value 0 v =? 0 then Exit                        (* not a character device *)
  else a ← sys (Open (dev_name o)); v ← or_exit a; Value (value 0 v).

Definition close_device (c : camera) : prog unit :=
  a ← sys (Close (fd c)); _ ← or_exit a; Value tt.

Definition with_buffers (a : Z) (l : list (Z * Z)) (n : Z) (c : camera) : camera :=
  {| fd := fd c; array := a; buffers := l; n_buffers := n; fmt := fmt c |}.

(** One element; [n_buffers] stays 0. *)
Definition init_read (buffer_size : Z) (c : camera) : prog camera :=
  a ← sys (Calloc 1); v ← or_exit a;
  a ← sys (Malloc buffer_size); w ← or_exit a;
  Value (with_buffers (value 0 v) [(value 0 w, buffer_size)] (n_buffers c) c).

Definition map_buffer (c : camera) : prog camera :=
  a ← xioctl (fd c) (VIDIOC_QUERYBUF (n_buffers c)); v ← or_exit a;
  a ← sys (Mmap (fd c) (value 0 v) (value 1 v)); s ← or_exit a;
  Value (with_buffers (array c) (buffers c ++ [(value 0 s, value 0 v)]) (n_buffers c + 1) c).

Definition init_mmap (c : camera) : prog camera :=
  a ← xioctl (fd c) (VIDIOC_REQBUFS 6 false); v ← or_exit a;
  if value 0 v <? 2 then Exit
  else
    a ← sys (Calloc (value 0 v)); w ← or_exit a;
    for_loop (Z.to_nat (value 0 v)) 0 (fun _ => map_buffer) (with_buffers (value 0 w) [] 0 c).

Definition alloc_buffer (buffer_size : Z) (c : camera) : prog camera :=
  a ← sys (Malloc buffer_size); v ← or_exit a;
  Value (with_buffers (array c) (buffers c ++ [(value 0 v, buffer_size)]) (n_buffers c + 1) c).

(** The [count] that the device grants is not looked at. *)
Definition init_userp (buffer_size : Z) (c : camera) : prog camera :=
  a ← xioctl (fd c) (VIDIOC_REQBUFS 4 true); _ ← or_exit a;
  a ← sys (Calloc 4); w ← or_exit a;
  for_loop 4 0 (fun _ => alloc_buffer buffer_size) (with_buffers (value 0 w) [] 0 c).

(** "Buggy driver paranoia". *)
Definition fix_pix (p : pix) : pix :=
  let m := u32 (width p * 2) in
  let bpl := if bytesperline p <? m then m else bytesperline p in
  let m := u32 (bpl * height p) in
  {| width := width p; height := height p; pixelformat := pixelformat p; bytesperline := bpl;
     sizeimage := if sizeimage p <? m then m else sizeimage p |}.

Definition pix_of (v : list Z) : pix :=
  {| width := value 0 v; height := value 1 v; pixelformat := value 2 v;
     bytesperline := value 3 v; sizeimage := value 4 v |}.

Definition init_device (o : options) (fd : Z) : prog camera :=
  a ← xioctl fd VIDIOC_QUERYCAP; cap ← or_exit a;
  if value 0 cap .& V4L2_CAP_VIDEO_CAPTURE =? 0 then Exit
  else if value 0 cap .& (match io o with
                          | IO_METHOD_READ => V4L2_CAP_READWRITE
                          | _ => V4L2_CAP_STREAMING
                          end) =? 0 then Exit
  else
    a ← xioctl fd VIDIOC_CROPCAP;
    _ ← (match a with Done _ => xioctl fd VIDIOC_S_CROP | Fail e => Value (Fail e) end);
    a ← (if force_format o =? 0 then xioctl fd VIDIOC_G_FMT
         else xioctl fd (VIDIOC_S_FMT HRES VRES V4L2_PIX_FMT_YUYV));
    v ← or_exit a;
    let p := fix_pix (pix_of v) in
    let c := {| fd := fd; array := 0; buffers := []; n_buffers := 0; fmt := p |} in
    match io o with
    | IO_METHOD_READ => init_read (sizeimage p) c
    | IO_METHOD_MMAP => init_mmap c
    | IO_METHOD_USERPTR => init_userp (sizeimage p) c
    end.

(** ** Streaming *)

Definition nth_buffer (c : camera) (i : Z) : prog (Z * Z) :=
  or_wild (if i <? 0 then None else buffers c !! Z.to_nat i).

Definition memory_of (io : io_method) (b : Z * Z) : memory :=
  match io with IO_METHOD_USERPTR => V4L2_MEMORY_USERPTR b.1 b.2 | _ => V4L2_MEMORY_MMAP end.

(** The buffer is queued where it is. *)
Definition queue_buffer (io : io_method) (c : camera) (i : nat) : prog unit :=
  b ← nth_buffer c (Z.of_nat i);
  a ← xioctl (fd c) (VIDIOC_QBUF (Z.of_nat i) (memory_of io b));
  _ ← or_exit a; Value tt.

Definition start_capturing (o : options) (c : camera) : prog unit :=
  match io o with
  | IO_METHOD_READ => Value tt
  | _ =>
      _ ← for_loop (Z.to_nat (n_buffers c)) 0 (fun i _ => queue_buffer (io o) c i) tt;
      a ← xioctl (fd c) VIDIOC_STREAMON; _ ← or_exit a; Value tt
  end.

Definition stop_capturing (o : options) (c : camera) : prog unit :=
  match io o with
  | IO_METHOD_READ => Value tt
  | _ => a ← xioctl (fd c) VIDIOC_STREAMOFF; _ ← or_exit a; Value tt
  end.

Definition free (start : Z) : prog unit := _ ← sys (Free start); Value tt.

Definition uninit_device (o : options) (c : camera) : prog unit :=
  _ ← (match io o with
       | IO_METHOD_READ => b ← nth_buffer c 0; free b.1
       | IO_METHOD_MMAP =>
           for_loop (Z.to_nat (n_buffers c)) 0
             (fun i _ => b ← nth_buffer c (Z.of_nat i);
                         a ← sys (Munmap b.1 b.2); _ ← or_exit a; Value tt) tt
       | IO_METHOD_USERPTR =>
           for_loop (Z.to_nat (n_buffers c)) 0
             (fun i _ => b ← nth_buffer c (Z.of_nat i); free b.1) tt
       end);
  free (array c).

(** ** Frames *)

(** [for (i = 0; i < n_buffers; ++i) if (...) break; assert(i < n_buffers);] *)
Definition own_buffer (c : camera) (userptr length : Z) : bool :=
  existsb (fun b : Z * Z => (userptr =? b.1) && (length =? b.2))
          (take (Z.to_nat (n_buffers c)) (buffers c)).

(** [process_image(p, size)]: [size] becomes an [int]. *)
Definition process (c : camera) (start size : Z) (im : images) : prog images :=
  process_image (pixelformat (fmt c)) start (swrap 32 size) im.

(** The result is whether there was a frame. *)
Definition read_frame (o : options) (c : camera) (im : images) : prog (images * bool) :=
  match io o with
  | IO_METHOD_READ =>
      b ← nth_buffer c 0;
      a ← sys (Read (fd c) b.1 b.2);
      match a with
      | Fail EAGAIN => Value (im, false)
      | Fail _ => Exit
      | Done _ => im ← process c b.1 b.2 im; Value (im, true)
      end
  | IO_METHOD_MMAP =>
      a ← xioctl (fd c) (VIDIOC_DQBUF false);
      match a with
      | Fail EAGAIN | Fail EIO => Value (im, false)
      | Fail _ => Exit
      | Done v =>
          if value 0 v <? n_buffers c
          then
            b ← nth_buffer c (value 0 v);
            im ← process c b.1 (value 1 v) im;
            a ← xioctl (fd c) (VIDIOC_QBUF (value 0 v) V4L2_MEMORY_MMAP); _ ← or_exit a;
            Value (im, true)
          else Exit
      end
  | IO_METHOD_USERPTR =>
      a ← xioctl (fd c) (VIDIOC_DQBUF true);
      match a with
      | Fail EAGAIN => Value (im, false)
      | Fail _ => Exit
      | Done v =>
          if own_buffer c (value 2 v) (value 3 v)
          then
            im ← process c (value 2 v) (value 1 v) im;
            a ← xioctl (fd c) (VIDIOC_QBUF (value 0 v)
                                 (V4L2_MEMORY_USERPTR (value 2 v) (value 3 v))); _ ← or_exit a;
            Value (im, true)
          else Exit
      end
  end.

(** The clock readings of a [timed] program. *)
Definition clock_if (b : bool) : prog unit :=
  if b then _ ← sys Monotonic; Value tt else Value tt.

(** [count] is unsigned. *)
Fixpoint mainloop (n : nat) (o : options) (c : camera) (count : Z) (im : images) : prog images :=
  if count <=? 0 then _ ← clock_if timed; Value im
  else
    match n with
    | O => Running
    | S n =>
        a ← sys (Select (fd c));
        match a with
        | Fail EINTR => mainloop n o c count im
        | Fail _ => Exit
        | Done v =>
            if value 0 v =? 0 then Exit                (* timeout *)
            else
              '(im, r) ← read_frame o c im;
              if r : bool
              then
                a ← sys (Nanosleep read_delay);
                _ ← clock_if (timed && (1 <? framecnt im) &&
                              match a with Done _ => true | Fail _ => false end);
                mainloop n o c (count - 1) im
              else mainloop n o c count im
        end
    end.

(** ** main *)

(** The options as [getopt_long] hands them out; of [-c], what [strtol] returns
    and whether it set [errno]. *)
Inductive option_ :=
  | opt_d (optarg : string) | opt_h | opt_m | opt_r | opt_u | opt_o | opt_f
  | opt_c (n : Z) (errno : bool) | opt_unknown.

(** [None] is the end of the process. *)
Definition apply_option (x : option_) (o : options) : option options :=
  match x with
  | opt_d s => Some {| dev_name := s; io := io o; out_buf := out_buf o;
                       force_format := force_format o; frame_count := frame_count o |}
  | opt_h | opt_unknown => None
  | opt_m | opt_r | opt_u =>
      Some {| dev_name := dev_name o;
              io := match x with opt_r => IO_METHOD_READ | opt_u => IO_METHOD_USERPTR
                               | _ => IO_METHOD_MMAP end;
              out_buf := out_buf o; force_format := force_format o; frame_count := frame_count o |}
  | opt_o => Some {| dev_name := dev_name o; io := io o; out_buf := swrap 32 (out_buf o + 1);
                     force_format := force_format o; frame_count := frame_count o |}
  | opt_f => Some {| dev_name := dev_name o; io := io o; out_buf := out_buf o;
                     force_format := swrap 32 (force_format o + 1); frame_count := frame_count o |}
  | opt_c n errno =>
      if errno then None
      else Some {| dev_name := dev_name o; io := io o; out_buf := out_buf o;
                   force_format := force_format o; frame_count := swrap 32 n |}
  end.

(** [argv1] is [argv[1]], read before the options are. *)
Definition parse_options (argv1 : option string) (opts : list option_) : option options :=
  fold_left (fun o x => o ← o; apply_option x o) opts
    (Some {| dev_name := default "/dev/video0"%string argv1; io := IO_METHOD_MMAP; out_buf := 0;
             force_format := 1; frame_count := default_count |}).

Definition capture_with (o : options) : prog images :=
  fd ← open_device o;
  c ← init_device o fd;
  _ ← start_capturing o c;
  im ← mainloop fuel o c (u32 (frame_count o)) first_images;
  _ ← stop_capturing o c;
  _ ← uninit_device o c;
  _ ← close_device c;
  Value im.

Definition main (argv1 : option string) (opts : list option_) : prog images :=
  match parse_options argv1 opts with Some o => capture_with o | None => Exit end.
End program.

(** ** The kernel's side *)

(** The device: the descriptor it is open under, the kind and number of buffers
    granted, what is known of each (length and offset), those queued, and
    whether it streams. *)
Record device := {
  d_fd : option Z; d_grant : option (bool * Z); d_info : gmap Z (Z * Z);
  d_queued : gmap Z memory; d_on : bool
}.

(** Mappings (start, to length and offset) and heap blocks (start, to length);
    the dump file that is open (descriptor, name, contents), those written, and
    the number of frames that were looked at. *)
Record kernel := {
  dev : device; k_maps : gmap Z (Z * Z); k_heap : gmap Z Z;
  k_open : option (Z * (list Z * list Z)); k_saved : list (list Z * list Z); k_frames : nat
}.

Definition closed_device : device := Build_device None None ∅ ∅ false.
Definition idle (saved : list (list Z * list Z)) (n : nat) : kernel :=
  Build_kernel closed_device ∅ ∅ None saved n.

Definition set_dev (d : device) (s : kernel) : kernel :=
  Build_kernel d (k_maps s) (k_heap s) (k_open s) (k_saved s) (k_frames s).
Definition set_maps (m : gmap Z (Z * Z)) (s : kernel) : kernel :=
  Build_kernel (dev s) m (k_heap s) (k_open s) (k_saved s) (k_frames s).
Definition set_heap (h : gmap Z Z) (s : kernel) : kernel :=
  Build_kernel (dev s) (k_maps s) h (k_open s) (k_saved s) (k_frames s).
Definition set_open (f : option (Z * (list Z * list Z))) (s : kernel) : kernel :=
  Build_kernel (dev s) (k_maps s) (k_heap s) f (k_saved s) (k_frames s).

(** A block of memory of the process. *)
Definition block (s : kernel) (start length : Z) : Prop :=
  match k_maps s !! start with Some lo => Some lo.1 | None => k_heap s !! start end = Some length.

(** A buffer that is queued is the device's. *)
Definition busy (s : kernel) (start : Z) : Prop :=
  exists i m, d_queued (dev s) !! i = Some m /\
    match m with
    | V4L2_MEMORY_MMAP => exists lo, d_info (dev s) !! i = Some lo /\ k_maps s !! start = Some lo
    | V4L2_MEMORY_USERPTR p _ => p = start
    end.

Definition same_kind (d : device) (user : bool) : Prop := exists n, d_grant d = Some (user, n).
Definition is_user (m : memory) : bool :=
  match m with V4L2_MEMORY_USERPTR _ _ => true | V4L2_MEMORY_MMAP => false end.

(** The requests a device takes: the format is set before buffers are granted;
    a buffer is queued when it is not, of the kind granted, and memory of the
    process; frames are taken while streaming from a device that has a buffer. *)
Definition takes (s : kernel) (r : request) : Prop :=
  let d := dev s in
  match r with
  | VIDIOC_QUERYCAP | VIDIOC_CROPCAP | VIDIOC_S_CROP | VIDIOC_G_FMT => True
  | VIDIOC_S_FMT _ _ _ => d_grant d = None
  | VIDIOC_REQBUFS _ _ => d_on d = false /\ k_maps s = ∅
  | VIDIOC_QUERYBUF i => exists n, d_grant d = Some (false, n) /\ 0 <= i < n
  | VIDIOC_QBUF i m =>
      same_kind d (is_user m) /\ d_queued d !! i = None /\
      match m with
      | V4L2_MEMORY_USERPTR p l => k_heap s !! p = Some l /\ ~ busy s p
      | V4L2_MEMORY_MMAP => True
      end
  | VIDIOC_DQBUF user => same_kind d user /\ d_on d = true /\ d_queued d <> ∅
  | VIDIOC_STREAMON => d_on d = false /\ d_queued d <> ∅
  | VIDIOC_STREAMOFF => d_on d = true
  end.

(** Calls in order: nothing on a closed descriptor, a mapping only of a buffer
    the device described, unmapped as it was mapped, memory freed once and not
    while the device has it, read and loaded only where there is a block that
    the device has not, one dump file at a time, and the device closed with
    nothing mapped and no stream. *)
Definition allowed (s : kernel) (c : call) : Prop :=
  match c with
  | Stat _ | Calloc _ | Malloc _ | Nanosleep _ | Realtime | Monotonic | Write _ _ | CloseFile _ => True
  | Open _ => d_fd (dev s) = None
  | Close fd => d_fd (dev s) = Some fd /\ k_maps s = ∅ /\ d_on (dev s) = false
  | Ioctl fd r => d_fd (dev s) = Some fd /\ takes s r
  | Read fd start size =>
      d_fd (dev s) = Some fd /\ d_grant (dev s) = None /\
      exists n, k_heap s !! start = Some n /\ size <= n
  | Free start => is_Some (k_heap s !! start) /\ ~ busy s start
  | Mmap fd length offset =>
      d_fd (dev s) = Some fd /\ exists i, d_info (dev s) !! i = Some (length, offset)
  | Munmap start length => exists o, k_maps s !! start = Some (length, o)
  | Select fd => d_fd (dev s) = Some fd
  | Creat _ => k_open s = None
  | Load start => (exists n, block s start n) /\ ~ busy s start
  end.

Definition next_ioctl (d : device) (r : request) (v : list Z) : device :=
  match r with
  | VIDIOC_REQBUFS _ user => Build_device (d_fd d) (Some (user, value 0 v)) ∅ ∅ (d_on d)
  | VIDIOC_QUERYBUF i =>
      Build_device (d_fd d) (d_grant d) (<[i := (value 0 v, value 1 v)]> (d_info d)) (d_queued d) (d_on d)
  | VIDIOC_QBUF i m => Build_device (d_fd d) (d_grant d) (d_info d) (<[i := m]> (d_queued d)) (d_on d)
  | VIDIOC_DQBUF _ =>
      Build_device (d_fd d) (d_grant d) (d_info d) (delete (value 0 v) (d_queued d)) (d_on d)
  | VIDIOC_STREAMON => Build_device (d_fd d) (d_grant d) (d_info d) (d_queued d) true
  | VIDIOC_STREAMOFF => Build_device (d_fd d) (d_grant d) (d_info d) ∅ false
  | _ => d
  end.

(** A file is saved when it is closed. *)
Definition close_file (s : kernel) : kernel :=
  match k_open s with
  | Some (_, f) => Build_kernel (dev s) (k_maps s) (k_heap s) None (k_saved s ++ [f]) (k_frames s)
  | None => s
  end.

(** A call that fails changes nothing. *)
Definition next (s : kernel) (c : call) (a : reply) : kernel :=
  match a with
  | Fail _ => match c with CloseFile _ => close_file s | _ => s end
  | Done v =>
      match c with
      | Open _ => set_dev (Build_device (Some (value 0 v)) None ∅ ∅ false) s
      | Close _ => set_dev closed_device s
      | Ioctl _ r => set_dev (next_ioctl (dev s) r v) s
      | Calloc n | Malloc n => set_heap (<[value 0 v := n]> (k_heap s)) s
      | Free start => set_heap (delete start (k_heap s)) s
      | Mmap _ length offset => set_maps (<[value 0 v := (length, offset)]> (k_maps s)) s
      | Munmap start _ => set_maps (delete start (k_maps s)) s
      | Creat path => set_open (Some (value 0 v, (path, []))) s
      | Write _ data =>
          match k_open s with
          | Some (fd, (name, bs)) => set_open (Some (fd, (name, bs ++ take (Z.to_nat (value 0 v)) data))) s
          | None => s
          end
      | CloseFile _ => close_file s
      | Realtime =>
          Build_kernel (dev s) (k_maps s) (k_heap s) (k_open s) (k_saved s) (S (k_frames s))
      | _ => s
      end
  end.

(** What the device puts in memory and the clock shows when frame [n] is looked
    at; the largest frame; the frame of a willing device; whether dump files can
    be created. *)
Record world := {
  pixels : nat -> nat -> Z; clock : nat -> timespec; limit : Z; frame_size : Z; writable : bool
}.

(** The first [n] bytes of frame [k]. *)
Definition frame (W : world) (k n : nat) : list Z := map (pixels W k) (seq 0 n).

Lemma length_frame W k n : length (frame W k n) = n.
Proof. unfold frame. by rewrite length_map, length_seq. Qed.

(** Whole pairs of pixels, within the limit. *)
Definition sized (W : world) (n : Z) : Prop := 0 <= n <= limit W /\ (4 | n).

(** A buffer is queued if its index is one of those granted and it holds a
    frame. *)
Definition accepts (W : world) (s : kernel) (i : Z) (m : memory) : Prop :=
  (forall k n, d_grant (dev s) = Some (k, n) -> 0 <= i < n) /\
  match m with V4L2_MEMORY_USERPTR _ l => frame_size W <= l | V4L2_MEMORY_MMAP => True end.

(** What the documentation says of the values. *)
Definition documented (W : world) (s : kernel) (c : call) (a : reply) : Prop :=
  match c, a with
  | Ioctl _ (VIDIOC_QUERYBUF i), Done v =>
      forall j lo, j <> i -> d_info (dev s) !! j = Some lo -> lo.2 <> value 1 v
  | Ioctl _ (VIDIOC_QBUF i m), Done v => accepts W s i m
  | Ioctl _ (VIDIOC_DQBUF _), Done v =>
      exists m, d_queued (dev s) !! value 0 v = Some m /\
        match m with
        | V4L2_MEMORY_MMAP =>
            forall l o, d_info (dev s) !! value 0 v = Some (l, o) -> value 1 v <= l
        | V4L2_MEMORY_USERPTR p l => value 2 v = p /\ value 3 v = l /\ value 1 v <= l
        end
  | Calloc _, Done v | Malloc _, Done v | Mmap _ _ _, Done v =>
      k_maps s !! value 0 v = None /\ k_heap s !! value 0 v = None
  | Realtime, _ => a = Done [tv_sec (clock W (k_frames s)); tv_nsec (clock W (k_frames s))]
  | Creat _, Done v => 0 <= value 0 v /\ writable W = true
  | Free _, Fail _ => False
  | Write fd data, Done v =>
      (exists f, k_open s = Some (fd, f)) /\ 0 <= value 0 v <= Z.of_nat (length data)
  | Load start, _ => exists n, block s start n /\ a = Done (frame W (k_frames s - 1) (Z.to_nat n))
  | _, _ => True
  end.

(** Of the sizes it says nothing that the programs could rely on: that frames
    are [sized] is an assumption of its own. *)
Definition fitting (W : world) (c : call) (a : reply) : Prop :=
  match c, a with
  | Ioctl _ (VIDIOC_S_FMT _ _ _), Done v | Ioctl _ VIDIOC_G_FMT, Done v =>
      sized W (sizeimage (fix_pix (pix_of v)))
  | Ioctl _ (VIDIOC_DQBUF _), Done v => sized W (value 1 v)
  | _, _ => True
  end.

(** A device, and a disk, that do everything asked of them: YUYV frames of one
    size, complete writes. *)
Definition obliging {V : Videodev2} (W : world) (s : kernel) (c : call) (a : reply) : Prop :=
  match a with
  | Fail _ =>
      match c with
      | Write fd _ => forall f, k_open s <> Some (fd, f)
      | CloseFile _ => True
      | Ioctl _ (VIDIOC_QBUF i m) => ~ accepts W s i m
      | _ => False
      end
  | Done v =>
      match c with
      | Stat _ | Select _ => value 0 v <> 0
      | Ioctl _ VIDIOC_QUERYCAP =>
          value 0 v .& V4L2_CAP_VIDEO_CAPTURE <> 0 /\ value 0 v .& V4L2_CAP_STREAMING <> 0 /\
          value 0 v .& V4L2_CAP_READWRITE <> 0
      | Ioctl _ (VIDIOC_S_FMT _ _ _) | Ioctl _ VIDIOC_G_FMT =>
          value 2 v = V4L2_PIX_FMT_YUYV /\ sizeimage (fix_pix (pix_of v)) = frame_size W
      | Ioctl _ (VIDIOC_REQBUFS n user) => if user then n <= value 0 v else 2 <= value 0 v
      | Ioctl _ (VIDIOC_QUERYBUF _) => frame_size W <= value 0 v
      | Ioctl _ (VIDIOC_DQBUF _) => value 1 v = frame_size W
      | Write _ data => value 0 v = Z.of_nat (length data)
      | _ => True
      end
  end.

(** The protocol: [w] says whether the other side is obliging, [fits] whether its
    frames are [fitting]. *)
Definition linux {V : Videodev2} (W : world) (w fits : bool) : Protocol kernel call :=
  {| Sys.allowed := allowed;
     Sys.legal s c a :=
       documented W s c a /\ (w = true -> obliging W s c a) /\ (fits = true -> fitting W c a);
     Sys.next := next; Sys.willing := w; Sys.fits := fits |}.

(** ** Dumps *)

Lemma in_int_iff z : in_int z = true <-> INT_MIN <= z <= INT_MAX.
Proof. unfold in_int. rewrite andb_true_iff, !Z.leb_le. done. Qed.

(** Only the files and the frame count change. *)
Definition quiet (s s' : kernel) : Prop :=
  dev s' = dev s /\ k_maps s' = k_maps s /\ k_heap s' = k_heap s /\ k_open s' = None.

Section dumps.
Context {V : Videodev2} (W : world) (w fits : bool).
#[local] Instance dump_protocol : Protocol kernel call := linux W w fits.

Lemma ok_write_all fuel : forall s dumpfd p size total,
  (w = true -> (0 < fuel)%nat /\ total = 0 /\ exists f, k_open s = Some (dumpfd, f)) ->
  Z.of_nat (length p) = size -> 2 * size <= INT_MAX -> total <= size ->
  INT_MIN + Z.of_nat fuel <= total ->
  ok s (write_all fuel dumpfd p size total) (fun s' _ => exists f, s' = set_open f s /\
    (w = true -> forall fd name bs, k_open s = Some (fd, (name, bs)) -> f = Some (fd, (name, bs ++ p)))).
Proof.
  induction fuel as [|fuel IH]; intros s dumpfd p size total Hw Hp Hs Ht Hmin; cbn [write_all].
  { cbn. destruct w; [|done]. destruct (Hw eq_refl). lia. }
  apply ok_sys; [done|]. intros a (Hd & Ho & _). cbn [Sys.next dump_protocol linux].
  assert (Hr : -1 <= file_result a <= size /\ (w = true -> file_result a = size)).
  { destruct a as [e|v]; cbn in Hd, Ho |- *.
    - split; [lia|]. intros Hwt. destruct (Hw Hwt) as (_ & _ & f & Hf). by destruct (Ho Hwt f).
    - split; [lia|]. intros Hwt. rewrite (Ho Hwt). lia. }
  assert (Hn : exists f, next s (Write dumpfd p) a = set_open f s /\
    (w = true -> forall fd name bs, k_open s = Some (fd, (name, bs)) -> f = Some (fd, (name, bs ++ p)))).
  { destruct a as [e|v]; cbn in Hd, Ho, Hr |- *.
    - exists (k_open s). split; [by destruct s|]. intros Hwt. destruct (Hw Hwt) as (_ & _ & f & Hf).
      by destruct (Ho Hwt f).
    - destruct (k_open s) as [[fd [name bs]]|] eqn:Hopen; [|by destruct Hd as [[? ?] _]].
      eexists. split; [reflexivity|]. intros Hwt fd' name' bs' [= <- <- <-].
      rewrite (Ho Hwt). by rewrite Nat2Z.id, take_ge. }
  destruct Hn as (f & -> & Hf).
  rewrite (proj2 (in_int_iff _)) by (unfold INT_MIN, INT_MAX in *; lia).
  destruct (Z.ltb_spec (total + file_result a) size) as [Hlt|Hge].
  - assert (w = false) as Hwf.
    { destruct w; [|done]. destruct (Hw eq_refl) as (_ & -> & _). rewrite (proj2 Hr) in Hlt by done. lia. }
    eapply ok_mono; [apply IH; [congruence | done | done | lia | lia]|].
    intros s' _ (f' & -> & _). exists f'. split; [done|]. congruence.
  - cbn. exists f. by split.
Qed.

(** A dump keeps the arrays, closes its file, and on a willing side has written
    the header and the image to it. *)
Lemma ok_dump L tm wfuel suffix magic d p size tag time s :
  layout_ok L -> arrays_ok L magic d -> suffix_ok suffix -> tag_fits L tag -> time_ok time ->
  0 <= size <= Z.of_nat (length p) -> 2 * size <= INT_MAX -> k_open s = None ->
  (0 < wfuel)%nat -> Z.of_nat wfuel <= 2 ^ 31 ->
  ok s (dump L tm wfuel suffix d p size tag time) (fun s' d' =>
    arrays_ok L magic d' /\ quiet s s' /\ k_frames s' = k_frames s /\
    (w = true -> k_saved s' = k_saved s ++
       [(name_of L suffix tag, header_written L (text_of L magic time ++ [0]) ++ take (Z.to_nat size) p)])).
Proof.
  intros HL Hd Hs Ht Htime Hsize Hmax Hopen Hf0 Hf. unfold dump.
  rewrite (next_name_spec L HL suffix magic), (next_header_spec L HL magic) by done.
  cbn [mbind prog_bind or_wild]. rewrite strlen_name by done. cbn [mbind prog_bind or_wild].
  rewrite take_app_length.
  set (name := name_of L suffix tag). set (hdr := text_of L magic time ++ [0]).
  apply ok_sys; [exact Hopen|]. intros a (Hda & Hoa & _). cbn [Sys.next dump_protocol linux].
  set (s1 := next s (Creat name) a).
  assert (H1 : exists f1, s1 = set_open f1 s /\ (w = true -> f1 = Some (file_result a, (name, [])))).
  { unfold s1. destruct a as [e|v]; cbn in *.
    - exists (k_open s). split; [by destruct s|]. intros Hwt. by destruct (Hoa Hwt).
    - by eexists. }
  destruct H1 as (f1 & -> & Hf1).
  apply ok_sys; [done|]. intros b (Hdb & Hob & _). cbn [Sys.next dump_protocol linux].
  set (data := header_written L hdr) in *.
  assert (H2 : exists f2, next (set_open f1 s) (Write (file_result a) data) b = set_open f2 s /\
    (w = true -> f2 = Some (file_result a, (name, data)))).
  { destruct b as [e|v]; cbn in *.
    - exists f1. split; [done|]. intros Hwt. destruct (Hob Hwt _ (Hf1 Hwt)).
    - destruct f1 as [[fd [nm bs]]|]; [|by destruct Hdb as [[? ?] _]].
      eexists. split; [reflexivity|]. intros Hwt. specialize (Hf1 Hwt) as [= -> -> ->].
      by rewrite (Hob Hwt), Nat2Z.id, take_ge. }
  destruct H2 as (f2 & -> & Hf2).
  rewrite (proj2 (Z.ltb_ge _ _)) by lia.
  eapply ok_bind; [apply ok_write_all; [|rewrite length_take; lia|lia|lia|unfold INT_MIN; lia]|].
  { intros Hwt. split; [done|]. split; [done|]. eexists. exact (Hf2 Hwt). }
  intros s3 _ (f3 & -> & Hf3). cbn [k_open set_open] in Hf3.
  assert (Hm : forall m : reply -> prog dumper, forall Q,
    (forall r, ok (set_open f3 s) (m r) Q) ->
    ok (set_open f3 (set_open f2 s)) ((if tm then sys Monotonic else Value (Done [])) ≫= m) Q).
  { intros m Q Hm. destruct tm; [|apply Hm]. apply ok_sys; [done|]. intros r _.
    replace (Sys.next _ _ _) with (set_open f3 s) by (by destruct r). apply Hm. }
  apply Hm. intros _. clear Hm.
  apply ok_sys; [done|]. intros r _. cbn [ok].
  replace (Sys.next _ _ _) with (close_file (set_open f3 s)) by (by destruct r).
  split; [by apply arrays_next; [|apply Hd|..]|]. unfold close_file. cbn [k_open set_open].
  destruct f3 as [[fd f]|]; cbn; (split; [done|]; split; [done|]); intros Hwt.
  - specialize (Hf3 Hwt _ _ _ (Hf2 Hwt)) as [= -> ->]. done.
  - specialize (Hf3 Hwt _ _ _ (Hf2 Hwt)). done.
Qed.
End dumps.

(** Whatever is dumped, on a side that is neither willing nor fits: if no array
    is left the file is closed and nothing else has changed. *)
Section calm.
Context {V : Videodev2} (W : world).
#[local] Instance calm_protocol : Protocol kernel call := linux W false false.

Lemma calm_write_all fuel : forall s dumpfd p size total,
  ok s (write_all fuel dumpfd p size total) (fun s' _ => exists f, s' = set_open f s).
Proof.
  induction fuel as [|fuel IH]; intros s dumpfd p size total; cbn [write_all]; [done|].
  apply ok_sys; [done|]. intros a _.
  assert (Hf : exists f, Sys.next s (Write dumpfd p) a = set_open f s).
  { destruct a as [e|v]; cbn; [exists (k_open s); by destruct s|].
    destruct (k_open s) as [[fd [nm bs]]|] eqn:Ho; [by eexists|]. exists None. rewrite <- Ho. by destruct s. }
  destruct Hf as [f ->]. destruct (in_int _); [|done]. destruct (_ <? size); [|by exists f].
  eapply ok_mono; [apply IH|]. intros s' _ [f' ->]. by exists f'.
Qed.

Lemma calm_dump L tm wfuel suffix d p size tag time s :
  k_open s = None ->
  ok s (dump L tm wfuel suffix d p size tag time) (fun s' _ => quiet s s' /\ k_frames s' = k_frames s).
Proof.
  intros Hopen. unfold dump. destruct (next_name L suffix d tag) as [name|]; [|done].
  cbn [or_wild mbind prog_bind]. destruct (strlen name) as [n|]; [|done].
  cbn [or_wild mbind prog_bind]. apply ok_sys; [exact Hopen|]. intros a _.
  assert (H1 : exists f, Sys.next s (Creat (take n name)) a = set_open f s).
  { destruct a as [e|v]; cbn; [exists (k_open s); by destruct s | by eexists]. }
  destruct H1 as [f1 ->]. destruct (next_header L d time) as [hdr|]; [|done].
  cbn [or_wild mbind prog_bind]. apply ok_sys; [done|]. intros b _.
  assert (H2 : exists f, Sys.next (set_open f1 s) (Write (file_result a) (header_written L hdr)) b = set_open f s).
  { destruct b as [e|v]; cbn; [by exists f1|]. destruct f1 as [[fd [nm bs]]|]; [by eexists | by exists None]. }
  destruct H2 as [f2 ->]. destruct (Z.ltb_spec (Z.of_nat (length p)) size); [done|].
  eapply ok_bind; [apply calm_write_all|]. intros s3 _ [f3 ->].
  eapply (ok_bind _ _ _ _ (fun s' _ => s' = set_open f3 s)).
  { destruct tm; [|done]. split; [done|]. by intros [] _. }
  intros s4 _ ->. apply ok_sys; [done|]. intros c _. cbn [ok].
  replace (Sys.next _ _ _) with (close_file (set_open f3 s)) by (by destruct c).
  unfold close_file. by destruct f3 as [[? ?]|].
Qed.
End calm.

(** ** What a program's own part promises *)

(** [process_image], for a frame that the device does not have: it keeps what it
    needs for the next one, up to [most] frames of at most [capacity] bytes where
    no loop of writes makes more than [few_passes], and writes the files
    [written n] for the [n]-th.  Whatever the frame is, it leaves the device and
    the memory as they are, if it does not leave an array. *)
Class Lawful {V : Videodev2} (B : Capturer) := {
  few_passes : Prop;
  images_ok : nat -> images -> Prop;
  capacity : Z;
  most : Z;
  written : nat -> timespec -> list Z -> list (list Z * list Z);
  capacity_int : capacity <= INT_MAX;
  first_images_ok : images_ok 0 first_images;
  process_ok W w fits n im f start size len s :
    few_passes -> limit W <= capacity -> (forall k, time_ok (clock W k)) -> images_ok n im -> Z.of_nat n < most ->
    block s start len -> ~ busy s start -> sized W size -> size <= len -> k_open s = None ->
    ok (P := linux W w fits) s (process_image f start size im) (fun s' im' =>
      images_ok (S n) im' /\ quiet s s' /\ k_frames s' = S (k_frames s) /\
      (w = true -> f = V4L2_PIX_FMT_YUYV ->
       k_saved s' = k_saved s ++
         written n (clock W (k_frames s)) (frame W (k_frames s) (Z.to_nat size))));
  process_calm W im f start size len s :
    block s start len -> ~ busy s start -> k_open s = None ->
    ok (P := linux W false false) s (process_image f start size im) (fun s' _ =>
      quiet s s' /\ k_frames s' = S (k_frames s))
}.

Section protocol.
Context {V : Videodev2} {B : Capturer} {LB : Lawful B} (W : world) (w fits : bool) (retries fuel : nat).
Context (Hretries : w = true -> (0 < retries)%nat) (Hwilling : w = true -> fits = true).

(** What the program has room for. *)
Definition ample : Prop := few_passes /\ limit W <= capacity /\ (forall k, time_ok (clock W k)).
Context (Hample : fits = true -> ample).
#[local] Instance protocol : Protocol kernel call := linux W w fits.

Lemma sound_call_or_exit {A} c s (f : list Z -> prog A) Q :
  allowed s c -> (forall e, obliging W s c (Fail e) -> False) ->
  (forall v, documented W s c (Done v) -> (w = true -> obliging W s c (Done v)) ->
     ok (next s c (Done v)) (f v) Q) ->
  ok s (a ← sys c; v ← or_exit a; f v) Q.
Proof.
  intros Ha He Hf. apply ok_sys_or_exit; [done | |by intros v (Hd & Ho & _); apply Hf].
  intros e (_ & Ho & _). cbn. destruct w; [|done]. by destruct (He e (Ho eq_refl)).
Qed.

Lemma sound_xioctl s fd r (Q : kernel -> reply -> Prop) :
  d_fd (dev s) = Some fd -> takes s r ->
  (w = true -> forall e, obliging W s (Ioctl fd r) (Fail e) -> False) ->
  (forall e, e <> EINTR -> w = false -> Q s (Fail e)) ->
  (forall v, documented W s (Ioctl fd r) (Done v) -> (w = true -> obliging W s (Ioctl fd r) (Done v)) ->
     (fits = true -> fitting W (Ioctl fd r) (Done v)) -> Q (set_dev (next_ioctl (dev s) r v) s) (Done v)) ->
  ok s (xioctl retries fd r) Q.
Proof.
  intros Hfd Ht He Hf Hd. apply ok_retry; [done | by split | | done | done |].
  - intros e (_ & Ho & _). cbn. destruct w; [|done]. by destruct (He eq_refl e (Ho eq_refl)).
  - intros v (Hdoc & Ho & Hfit). by apply Hd.
Qed.

Lemma sound_xioctl_or_exit {A} s fd r (f : list Z -> prog A) Q :
  d_fd (dev s) = Some fd -> takes s r ->
  (w = true -> forall e, obliging W s (Ioctl fd r) (Fail e) -> False) ->
  (forall v, documented W s (Ioctl fd r) (Done v) -> (w = true -> obliging W s (Ioctl fd r) (Done v)) ->
     (fits = true -> fitting W (Ioctl fd r) (Done v)) -> ok (set_dev (next_ioctl (dev s) r v) s) (f v) Q) ->
  ok s (a ← xioctl retries fd r; v ← or_exit a; f v) Q.
Proof.
  intros Hfd Ht He Hd. eapply (ok_bind _ _ _ _ (fun s' a => match a with
    | Fail _ => w = false | Done v => ok s' (f v) Q end)).
  - by apply sound_xioctl.
  - intros s' [e|v] Hv; cbn; [exact Hv | exact Hv].
Qed.
(** *** Invariants *)

(** The buffers as the device and the process know them: [es] has the start, the
    length and the offset of each mapped buffer. *)
Definition mapped (n : nat) (c : camera) (es : list (Z * (Z * Z))) (s : kernel) : Prop :=
  length es = n /\ n_buffers c = Z.of_nat n /\ buffers c = map (fun e => (e.1, e.2.1)) es /\
  NoDup es.*1 /\ NoDup es.*2.*2 /\ k_maps s = list_to_map es /\
  (forall i lo, (d_info (dev s) !! i = Some lo) <->
     (0 <= i < Z.of_nat n /\ exists a, es !! Z.to_nat i = Some (a, lo))).

(** Buffers of the program's own, and the array of them. *)
Definition allocated (n : nat) (c : camera) (s : kernel) : Prop :=
  length (buffers c) = n /\ n_buffers c = Z.of_nat n /\ k_maps s = ∅ /\
  NoDup (buffers c).*1 /\ (array c ∉ (buffers c).*1) /\
  exists k, k_heap s = <[array c := k]> (list_to_map (buffers c)).

Definition buffers_ok (o : options) (c : camera) (s : kernel) : Prop :=
  match io o with
  | IO_METHOD_READ =>
      d_grant (dev s) = None /\ n_buffers c = 0 /\ k_maps s = ∅ /\
      exists a k, array c <> a /\ buffers c = [(a, sizeimage (fmt c))] /\
        k_heap s = <[array c := k]> {[a := sizeimage (fmt c)]}
  | IO_METHOD_MMAP =>
      2 <= n_buffers c /\ d_grant (dev s) = Some (false, n_buffers c) /\
      (exists k, k_heap s = {[array c := k]}) /\
      exists es, mapped (length es) c es s
  | IO_METHOD_USERPTR =>
      (exists g, d_grant (dev s) = Some (true, g) /\ (w = true -> 4 <= g)) /\
      Forall (fun b => b.2 = sizeimage (fmt c)) (buffers c) /\
      allocated 4 c s
  end.

(** Where buffer [i] is when it is queued. *)
Definition place (o : options) (c : camera) (i : Z) : option memory :=
  if (i <? 0) || (n_buffers c <=? i) then None
  else
    b ← buffers c !! Z.to_nat i; Some (memory_of (io o) b).

(** The camera as configured, the buffers of [q] queued. *)
Record ready (o : options) (q : Z -> Prop) (on : bool) (c : camera) (s : kernel) : Prop := {
  r_fd : d_fd (dev s) = Some (fd c);
  r_buffers : buffers_ok o c s;
  r_on : d_on (dev s) = on;
  r_queued i m : (d_queued (dev s) !! i = Some m) <-> (q i /\ place o c i = Some m);
  r_size : fits = true -> sized W (sizeimage (fmt c));
  r_yuyv : w = true -> pixelformat (fmt c) = V4L2_PIX_FMT_YUYV /\ sizeimage (fmt c) = frame_size W;
  r_open : k_open s = None
}.

Definition none (i : Z) : Prop := False.
Definition every (i : Z) : Prop := True.
Definition others (k i : Z) : Prop := i <> k.

(** What the state keeps of the frames. *)
Definition same_frames (s s' : kernel) : Prop := k_saved s' = k_saved s /\ k_frames s' = k_frames s.

Lemma quiet_ready o q on c s s' : ready o q on c s -> quiet s s' -> ready o q on c s'.
Proof.
  intros [Hf Hb Ho Hq Hs Hy Hp] (Hd & Hm & Hh & Hn).
  assert (Hb' : buffers_ok o c s')
    by (unfold buffers_ok, mapped, allocated in *; by rewrite Hd, Hm, Hh).
  by split; rewrite ?Hd.
Qed.

(** *** Opening *)

Definition opened (fd : Z) (s : kernel) : kernel := set_dev (Build_device (Some fd) None ∅ ∅ false) s.

Lemma ok_open_device o saved n :
  ok (idle saved n) (open_device o) (fun s' fd => s' = opened fd (idle saved n)).
Proof.
  apply sound_call_or_exit; [done | by intros e []|]. intros v _ Hw.
  destruct (Z.eqb_spec (value 0 v) 0) as [Hz|_].
  { cbn. destruct w; [|done]. by destruct (Hw eq_refl). }
  apply sound_call_or_exit; [done | by intros e []|]. intros u _ _. by cbn.
Qed.

(** The device between its opening and the first buffer queued. *)
Record opening (c : camera) (s : kernel) : Prop := {
  o_fd : d_fd (dev s) = Some (fd c);
  o_on : d_on (dev s) = false;
  o_queued : d_queued (dev s) = ∅;
  o_open : k_open s = None;
  o_size : fits = true -> sized W (sizeimage (fmt c));
  o_yuyv : w = true -> pixelformat (fmt c) = V4L2_PIX_FMT_YUYV /\ sizeimage (fmt c) = frame_size W
}.

Lemma opening_ready o c s : opening c s -> buffers_ok o c s -> ready o none false c s.
Proof.
  intros [Hf Ho Hq Hn Hs Hy] Hb. split; try done. intros i m. rewrite Hq, lookup_empty. by split; [|intros [? _]].
Qed.

Lemma ok_init_read o c s :
  io o = IO_METHOD_READ -> opening c s -> k_heap s = ∅ -> k_maps s = ∅ -> d_grant (dev s) = None ->
  n_buffers c = 0 ->
  ok s (init_read (sizeimage (fmt c)) c) (fun s' c' => ready o none false c' s' /\ same_frames s s').
Proof.
  intros Hio [Hf Ho Hq Hn Hs Hy] Hh Hm Hg Hnb. unfold init_read.
  apply sound_call_or_exit; [done | by intros e []|]. intros v _ _.
  apply sound_call_or_exit; [done | by intros e []|]. intros u [_ Hfresh] _. cbn in Hfresh.
  rewrite Hh in Hfresh. assert (Hne : value 0 v <> value 0 u).
  { intros He. by rewrite He, lookup_insert_eq in Hfresh. }
  cbn. split; [|done]. apply opening_ready; [by split|]. unfold buffers_ok. rewrite Hio. cbn.
  do 3 (split; [done|]). exists (value 0 u), 1. do 2 (split; [done|]). rewrite Hh.
  by rewrite insert_insert_ne.
Qed.

Lemma sound_map_buffer N j c es s :
  opening c s -> d_grant (dev s) = Some (false, N) -> mapped j c es s -> Z.of_nat j < N ->
  ok s (map_buffer retries c) (fun s' c' =>
    opening c' s' /\ d_grant (dev s') = Some (false, N) /\ array c' = array c /\
    k_heap s' = k_heap s /\ same_frames s s' /\ exists es', mapped (j + 1) c' es' s').
Proof.
  intros [Hf Ho Hq Hn Hs Hy] Hg (Hl & Hnb & Hb & Hd1 & Hd2 & Hm & Hi) Hj. unfold map_buffer.
  apply sound_xioctl_or_exit; [done | exists N; by rewrite Hnb; split; [|lia] | done |]. intros v Hnew _ _.
  apply sound_call_or_exit; [|by intros e []|].
  { cbn. split; [done|]. exists (n_buffers c). by rewrite lookup_insert_eq. }
  intros u [Hfresh _] _. cbn in Hfresh |- *.
  split; [by split|]. do 4 (split; [done|]). exists (es ++ [(value 0 u, (value 0 v, value 1 v))]).
  cbn in Hnew.
  assert (Hna : value 0 u ∉ es.*1).
  { rewrite Hm in Hfresh. by apply not_elem_of_list_to_map_2. }
  split; [by rewrite length_app, Hl|]. split; [cbn; lia|].
  split; [by rewrite Hb, map_app|]. split; [|split; [|split]].
  - rewrite fmap_app. apply list.NoDup_app. split; [done|]. split; [|by apply NoDup_singleton].
    intros x Hx ->%list_elem_of_singleton. done.
  - rewrite !fmap_app. apply list.NoDup_app. split; [done|]. split; [|by apply NoDup_singleton].
    intros x Hx ->%list_elem_of_singleton. cbn in Hx.
    apply list_elem_of_fmap in Hx as ([l off] & He & Hx). apply list_elem_of_fmap in Hx as ([a lo] & Hlo & Hx).
    cbn in He, Hlo. subst. apply list_elem_of_lookup_1 in Hx as [k Hk]. pose proof (lookup_lt_Some _ _ _ Hk).
    eapply (Hnew (Z.of_nat k) (l, value 1 v)); [lia | | done]. apply Hi. split; [lia|].
    exists a. by rewrite Nat2Z.id.
  - cbn. rewrite Hm, list_to_map_snoc; done.
  - intros i lo. cbn. destruct (decide (i = n_buffers c)) as [->|Hne].
    + rewrite lookup_insert_eq, Hnb, Nat2Z.id, lookup_app_r by lia. rewrite Hl, Nat.sub_diag. cbn. split.
      * intros [= <-]. split; [lia|]. by eexists.
      * intros [_ [a [= _ <-]]]. done.
    + rewrite lookup_insert_ne, Hi by done. split; intros [Hr [a Ha]]; (split; [lia|]); exists a.
      * by rewrite lookup_app_l by lia.
      * rewrite lookup_app_l in Ha by lia. done.
Qed.

Lemma sound_init_mmap o c s :
  io o = IO_METHOD_MMAP -> opening c s -> k_heap s = ∅ -> k_maps s = ∅ ->
  ok s (init_mmap retries c) (fun s' c' => ready o none false c' s' /\ same_frames s s').
Proof.
  intros Hio [Hf Ho Hq Hn Hs Hy] Hh Hm. unfold init_mmap.
  apply sound_xioctl_or_exit; [done | by split | done |]. intros v _ Hw _.
  destruct (Z.ltb_spec (value 0 v) 2) as [Hlt|Hge].
  { cbn. destruct w; [|done]. specialize (Hw eq_refl). cbn in Hw. lia. }
  apply sound_call_or_exit; [done | by intros e []|]. intros u _ _. cbn [next].
  set (N := value 0 v). set (a := value 0 u).
  eapply ok_mono; [apply (ok_for_loop (fun j s' c' => opening c' s' /\ d_grant (dev s') = Some (false, N) /\
    array c' = a /\ k_heap s' = {[a := N]} /\ same_frames s s' /\ exists es, mapped j c' es s'))|].
  - split; [by split|]. do 2 (split; [done|]). split; [cbn; by rewrite Hh|]. split; [done|].
    exists []. do 3 (split; [done|]). do 2 (split; [constructor|]). split; [done|].
    intros i lo. cbn. rewrite lookup_empty. split; [done|]. lia.
  - intros j s' c' Hj (Hop & Hg & Ha & Hh' & [Hs1 Hs2] & es & Hes).
    eapply ok_mono; [by apply (sound_map_buffer N j c' es); [..|lia]|]. cbv beta.
    intros s2 c2 (Hop2 & Hg2 & Ha2 & Hh2 & [Hs3 Hs4] & He). rewrite Ha2, Hh2. unfold same_frames.
    by rewrite Hs3, Hs4.
  - intros s' c' (Hop & Hg & Ha & Hh' & Hsf & es & Hes). split; [|done].
    pose proof Hes as (Hl & Hnb & _). rewrite Nat.add_0_l in Hnb.
    apply opening_ready; [done|]. unfold buffers_ok. rewrite Hio.
    split; [lia|]. split; [rewrite Hg; do 2 f_equal; lia|]. split; [by exists N; rewrite Ha|].
    exists es. by rewrite Hl.
Qed.

Lemma ok_alloc_buffer j c s :
  opening c s -> allocated j c s -> Forall (fun b => b.2 = sizeimage (fmt c)) (buffers c) ->
  ok s (alloc_buffer (sizeimage (fmt c)) c) (fun s' c' =>
    opening c' s' /\ fmt c' = fmt c /\ dev s' = dev s /\ same_frames s s' /\ allocated (j + 1) c' s' /\
    Forall (fun b => b.2 = sizeimage (fmt c')) (buffers c')).
Proof.
  intros [Hf Ho Hq Hn Hs Hy] (Hl & Hnb & Hm & Hd & Ha & k & Hh) Hall. unfold alloc_buffer.
  apply sound_call_or_exit; [done | by intros e []|]. intros v [_ Hfresh] _. cbn in Hfresh |- *.
  rewrite Hh in Hfresh. apply lookup_insert_None in Hfresh as [Hfresh Hna].
  apply not_elem_of_list_to_map_2 in Hfresh.
  split; [by split|]. do 3 (split; [done|]). split.
  - split; [cbn; by rewrite length_app, Hl|]. split; [cbn; lia|]. split; [done|]. cbn [buffers with_buffers].
    rewrite fmap_app. split; [|split].
    + apply list.NoDup_app. split; [done|]. split; [|by apply NoDup_singleton].
      intros x Hx ->%list_elem_of_singleton. done.
    + intros [?|He%list_elem_of_singleton]%elem_of_app; [done|]. by destruct Hna.
    + exists k. rewrite list_to_map_snoc by done. cbn. rewrite Hh. by rewrite insert_insert_ne.
  - cbn. apply Forall_app. split; [done|]. by constructor.
Qed.

Lemma ok_init_userp o c s :
  io o = IO_METHOD_USERPTR -> opening c s -> k_heap s = ∅ -> k_maps s = ∅ ->
  ok s (init_userp retries (sizeimage (fmt c)) c) (fun s' c' => ready o none false c' s' /\ same_frames s s').
Proof.
  intros Hio [Hf Ho Hq Hn Hs Hy] Hh Hm. unfold init_userp.
  apply sound_xioctl_or_exit; [done | by split | done |]. intros v _ Hw _.
  apply sound_call_or_exit; [done | by intros e []|]. intros u _ _. cbn [next].
  set (a := value 0 u). set (c0 := with_buffers a [] 0 c).
  set (s0 := set_heap _ _).
  eapply ok_mono; [apply (ok_for_loop (fun j s' c' => opening c' s' /\ fmt c' = fmt c /\ dev s' = dev s0 /\
    same_frames s s' /\ allocated j c' s' /\ Forall (fun b => b.2 = sizeimage (fmt c')) (buffers c')))|].
  - split; [by split|]. do 3 (split; [done|]). split; [|constructor].
    do 3 (split; [done|]). split; [constructor|]. split; [apply not_elem_of_nil|].
    exists 4. cbn. by rewrite Hh.
  - intros j s' c' Hj (Hop & Hfm & Hdev & [Hs1 Hs2] & Hal & Hall).
    rewrite <- Hfm. eapply ok_mono; [by apply (ok_alloc_buffer j)|]. cbv beta.
    intros s2 c2 (Hop2 & Hfm2 & Hdev2 & [Hs3 Hs4] & Hal2 & Hall2).
    split; [done|]. split; [congruence|]. split; [congruence|]. split; [split; congruence|]. by split.
  - intros s' c' (Hop & Hfm & Hdev & Hsf & Hal & Hall). split; [|done].
    apply opening_ready; [done|]. unfold buffers_ok. rewrite Hio. split; [|done].
    exists (value 0 v). rewrite Hdev. cbn. split; [done|]. intros Hwt. exact (Hw Hwt).
Qed.

(** What [init_device] reads of the device, and the buffers it sets up. *)
Lemma sound_init_device o fd saved n :
  ok (opened fd (idle saved n)) (init_device retries o fd) (fun s' c' =>
    ready o none false c' s' /\ k_saved s' = saved /\ k_frames s' = n).
Proof.
  set (s := opened fd (idle saved n)). unfold init_device.
  apply sound_xioctl_or_exit; [done | done | done |]. intros v _ Hw _.
  destruct (Z.eqb_spec (value 0 v .& V4L2_CAP_VIDEO_CAPTURE) 0) as [Hz|_].
  { cbn. destruct w; [|done]. by destruct (Hw eq_refl). }
  match goal with |- context [if ?x =? 0 then Exit else _] => destruct (Z.eqb_spec x 0) as [Hz|_] end.
  { cbn. destruct w; [|done]. destruct (Hw eq_refl) as (_ & H1 & H2). by destruct (io o). }
  change (set_dev (next_ioctl (dev s) VIDIOC_QUERYCAP v) s) with s.
  eapply (ok_bind _ _ _ _ (fun s' _ => s' = s)); [by apply sound_xioctl|]. intros s' a ->.
  eapply (ok_bind _ _ _ _ (fun s' _ => s' = s)); [destruct a; [done | by apply sound_xioctl]|].
  intros s' _ ->.
  assert (Hrest : forall u, (fits = true -> sized W (sizeimage (fix_pix (pix_of u)))) ->
    (w = true -> value 2 u = V4L2_PIX_FMT_YUYV /\ sizeimage (fix_pix (pix_of u)) = frame_size W) ->
    let c := {| fd := fd; array := 0; buffers := []; n_buffers := 0; fmt := fix_pix (pix_of u) |} in
    ok s (match io o with
          | IO_METHOD_READ => init_read (sizeimage (fix_pix (pix_of u))) c
          | IO_METHOD_MMAP => init_mmap retries c
          | IO_METHOD_USERPTR => init_userp retries (sizeimage (fix_pix (pix_of u))) c
          end) (fun s' c' => ready o none false c' s' /\ same_frames s s')).
  { intros u Hfit Hy c. assert (Hop : opening c s) by by split.
    destruct (io o) eqn:Hio.
    - by apply (ok_init_read o c).
    - by apply sound_init_mmap.
    - by apply (ok_init_userp o c). }
  destruct (force_format o =? 0); (apply sound_xioctl_or_exit; [done | done | done |];
    intros u _ Hy Hfit; exact (Hrest u Hfit Hy)).
Qed.

(** *** Streaming *)

Lemma place_range o c i m : place o c i = Some m -> 0 <= i < n_buffers c.
Proof.
  unfold place. destruct (Z.ltb_spec i 0); [done|]. destruct (Z.leb_spec (n_buffers c) i); [done|]. lia.
Qed.

Lemma place_Some o c i m :
  place o c i = Some m <->
  0 <= i < n_buffers c /\ exists b, buffers c !! Z.to_nat i = Some b /\ m = memory_of (io o) b.
Proof.
  split.
  - intros H. pose proof (place_range _ _ _ _ H) as Hr. split; [done|]. unfold place in H.
    destruct (_ || _); [done|]. destruct (buffers c !! _) as [b|]; [|done].
    injection H as <-. by exists b.
  - intros [Hr (b & Hb & ->)]. unfold place. rewrite (proj2 (Z.ltb_ge _ _)), (proj2 (Z.leb_gt _ _)) by lia.
    cbn [orb]. by rewrite Hb.
Qed.

Lemma nth_buffer_ok {A} c i (f : Z * Z -> prog A) s Q :
  0 <= i < Z.of_nat (length (buffers c)) ->
  (forall b, buffers c !! Z.to_nat i = Some b -> ok s (f b) Q) -> ok s (nth_buffer c i ≫= f) Q.
Proof.
  intros Hi Hf. unfold nth_buffer. destruct (Z.ltb_spec i 0); [lia|].
  destruct (lookup_lt_is_Some_2 (buffers c) (Z.to_nat i)) as [b Hb]; [lia|]. rewrite Hb. by apply Hf.
Qed.

(** The elements of [buffers], where frames are streamed. *)
Lemma buffers_length o c s : io o <> IO_METHOD_READ -> buffers_ok o c s -> n_buffers c = Z.of_nat (length (buffers c)).
Proof.
  unfold buffers_ok. destruct (io o); [done| |].
  - intros _ (_ & _ & _ & es & Hl & Hn & Hb & _). by rewrite Hb, length_map.
  - intros _ (_ & _ & Hl & Hn & _). by rewrite Hl.
Qed.

(** Buffer [i] is a block of memory that is free when [i] is not queued. *)
Lemma buffer_block o c s q on i b :
  ready o q on c s -> buffers c !! Z.to_nat i = Some b -> 0 <= i -> ~ q i \/ io o = IO_METHOD_READ ->
  block s b.1 b.2 /\ ~ busy s b.1.
Proof.
  intros [Hf Hb Ho Hq _ _ _] Hi H0 Hnq. unfold buffers_ok in Hb. destruct (io o) eqn:Hio.
  - destruct Hb as (_ & Hn & Hm & a & k & Hne & Hl & Hh). rewrite Hl in Hi.
    destruct (Z.to_nat i) as [|?]; [|done]. injection Hi as <-. cbn. split.
    + unfold block. rewrite Hm, lookup_empty, Hh, lookup_insert_ne by done. apply lookup_singleton_eq.
    + intros (j & m & Hj & _). apply Hq in Hj as [_ Hj%place_range]. lia.
  - destruct Hnq as [Hnq|]; [|done].
    destruct Hb as (_ & _ & _ & es & _ & Hn & Hl & Hd1 & Hd2 & Hm & Hinfo).
    rewrite Hl, list_lookup_fmap in Hi. apply fmap_Some in Hi as ([a [l off]] & He & ->). cbn.
    assert (Ha : k_maps s !! a = Some (l, off)).
    { rewrite Hm. apply elem_of_list_to_map; [done|]. by eapply list_elem_of_lookup_2. }
    split; [unfold block; by rewrite Ha|]. intros (j & m & Hj & Hbusy).
    apply Hq in Hj as [Hqj (Hrange & b' & _ & ->)%place_Some]. rewrite Hio in Hbusy.
    destruct Hbusy as (lo & Hlo & Ha'). apply Hinfo in Hlo as [Hjr [a' Hlo]].
    rewrite Ha in Ha'. injection Ha' as <-.
    assert (Z.to_nat i = Z.to_nat j) as Hij.
    { eapply (NoDup_lookup _ _ _ off Hd2); by rewrite !list_lookup_fmap, ?He, ?Hlo. }
    assert (i = j) as -> by lia. done.
  - destruct Hnq as [Hnq|]; [|done].
    destruct Hb as (_ & _ & Hl & Hn & Hm & Hd & Harr & k & Hh).
    assert (Hb1 : buffers c !! Z.to_nat i = Some b) by done.
    assert (Hin : b ∈ buffers c) by by eapply list_elem_of_lookup_2.
    split.
    + unfold block. rewrite Hm, lookup_empty, Hh, lookup_insert_ne.
      * apply elem_of_list_to_map; [done|]. by destruct b.
      * intros He. apply Harr. rewrite He. by apply list_elem_of_fmap_2.
    + intros (j & m & Hj & Hbusy). apply Hq in Hj as [Hqj Hpl].
      apply place_Some in Hpl as (Hrange & b' & Hb' & ->). rewrite Hio in Hbusy. cbn in Hbusy.
      assert (Z.to_nat i = Z.to_nat j) as Hij.
      { apply (NoDup_lookup _ _ _ b.1 Hd); rewrite list_lookup_fmap, ?Hb1, ?Hb'; cbn; by rewrite ?Hbusy. }
      assert (i = j) as -> by lia. done.
Qed.

(** Queueing a buffer that is not queued. *)
Lemma queue_takes o c q on s i b :
  io o <> IO_METHOD_READ -> ready o q on c s -> ~ q i -> 0 <= i < n_buffers c ->
  buffers c !! Z.to_nat i = Some b ->
  takes s (VIDIOC_QBUF i (memory_of (io o) b)) /\ (w = true -> accepts W s i (memory_of (io o) b)).
Proof.
  intros Hio R Hq Hi Hb.
  destruct (buffer_block o c s q on i b R Hb ltac:(lia) ltac:(by left)) as [Hblock Hbusy].
  destruct R as [Hf Hbuf Ho Hqueue _ Hy _].
  assert (Hnone : d_queued (dev s) !! i = None).
  { destruct (d_queued (dev s) !! i) as [m|] eqn:Hm; [|done]. by apply Hqueue in Hm as [? _]. }
  unfold buffers_ok in Hbuf. unfold accepts. destruct (io o) eqn:Hm; [done| |]; cbn [memory_of takes is_user].
  - destruct Hbuf as (_ & Hg & _). split; [split; [by eexists|by split]|]. intros _.
    split; [|done]. intros k n. rewrite Hg. intros [= <- <-]. lia.
  - destruct Hbuf as ((g & Hg & Hg4) & Hall & Hal).
    pose proof Hal as (Hl & Hn & Hmaps & _). split.
    + split; [by eexists|]. split; [done|]. split; [|done].
      unfold block in Hblock. by rewrite Hmaps, lookup_empty in Hblock.
    + intros Hwt. split.
      * intros k n. rewrite Hg. intros [= <- <-]. specialize (Hg4 Hwt). lia.
      * rewrite list.Forall_forall in Hall. rewrite (Hall b) by by eapply list_elem_of_lookup_2.
        destruct (Hy Hwt) as [_ ->]. done.
Qed.

Lemma queue_ready o c q on s i b v :
  ready o q on c s -> 0 <= i < n_buffers c -> buffers c !! Z.to_nat i = Some b ->
  ready o (fun j => j = i \/ q j) on c
    (set_dev (next_ioctl (dev s) (VIDIOC_QBUF i (memory_of (io o) b)) v) s).
Proof.
  intros [Hf Hbuf Ho Hqueue Hs Hy Hp] Hi Hb. split; try done; cbn.
  intros j m. destruct (decide (j = i)) as [->|Hne].
  - rewrite lookup_insert_eq, place_Some. split.
    + intros [= <-]. split; [by left|]. split; [done|]. by exists b.
    + intros [_ [_ (b' & Hb' & ->)]]. rewrite Hb in Hb'. by injection Hb' as <-.
  - rewrite lookup_insert_ne, Hqueue by done. split; intros [H1 H2]; (split; [|done]); [by right|].
      by destruct H1.
Qed.

Lemma ready_iff o q q' on c s : (forall i, 0 <= i < n_buffers c -> q i <-> q' i) -> ready o q on c s -> ready o q' on c s.
Proof.
  intros Hqq [Hf Hbuf Ho Hqueue Hs Hy Hp]. split; try done. intros i m. rewrite Hqueue.
  split; intros [H1 H2]; (split; [|done]); apply (Hqq i); (done || by eapply place_range).
Qed.

Lemma ok_queue o c q on s i b (Q : kernel -> unit -> Prop) :
  io o <> IO_METHOD_READ -> ready o q on c s -> ~ q i -> 0 <= i < n_buffers c ->
  buffers c !! Z.to_nat i = Some b ->
  (forall s', ready o (fun j => j = i \/ q j) on c s' -> same_frames s s' -> Q s' tt) ->
  ok s (a ← xioctl retries (fd c) (VIDIOC_QBUF i (memory_of (io o) b)); _ ← or_exit a; Value tt) Q.
Proof.
  intros Hio R Hq Hi Hb HQ. destruct (queue_takes o c q on s i b Hio R Hq Hi Hb) as [Ht Ha].
  apply sound_xioctl_or_exit; [by destruct R | exact Ht | by intros Hwt e He; apply He, Ha |].
  intros v _ _ _. apply HQ; [|done]. by apply queue_ready.
Qed.

(** A device that streams has a buffer. *)
Lemma streams o c q on s : io o <> IO_METHOD_READ -> ready o q on c s -> 2 <= n_buffers c.
Proof.
  intros Hio R. pose proof (r_buffers _ _ _ _ _ R) as Hb. unfold buffers_ok in Hb.
  destruct (io o); [done|by destruct Hb|]. destruct Hb as (_ & _ & _ & Hn & _). lia.
Qed.

Lemma queue_nonempty o c q on s i :
  io o <> IO_METHOD_READ -> ready o q on c s -> q i -> 0 <= i < n_buffers c -> d_queued (dev s) <> ∅.
Proof.
  intros Hio R Hq Hi He. pose proof (buffers_length o c s Hio (r_buffers _ _ _ _ _ R)) as Hlen.
  destruct (lookup_lt_is_Some_2 (buffers c) (Z.to_nat i)) as [b Hb]; [lia|].
  assert (H : d_queued (dev s) !! i = Some (memory_of (io o) b))
    by (apply (r_queued _ _ _ _ _ R); split; [done|]; apply place_Some; split; [lia|]; by exists b).
  by rewrite He, lookup_empty in H.
Qed.

Lemma ok_queue_all o c s :
  io o <> IO_METHOD_READ -> ready o none false c s ->
  ok s (_ ← for_loop (Z.to_nat (n_buffers c)) 0 (fun i _ => queue_buffer retries (io o) c i) tt;
        a ← xioctl retries (fd c) VIDIOC_STREAMON; _ ← or_exit a; Value tt)
    (fun s' _ => ready o every true c s' /\ same_frames s s').
Proof.
  intros Hne R. pose proof (buffers_length o c s Hne (r_buffers _ _ _ _ _ R)) as Hlen.
  pose proof (streams o c _ _ s Hne R) as H2.
  eapply (ok_bind _ _ _ _ (fun s' _ => ready o every false c s' /\ same_frames s s')).
  - eapply ok_mono; [apply (ok_for_loop (fun j s' _ =>
      ready o (fun i => i < Z.of_nat j) false c s' /\ same_frames s s'))|].
    + split; [|done]. eapply ready_iff; [|exact R]. intros i Hi. unfold none. lia.
    + intros j s' _ Hj [R' [Hs1 Hs2]]. unfold queue_buffer. apply nth_buffer_ok; [lia|]. intros b Hb.
      apply (ok_queue o c _ false s' (Z.of_nat j) b _ Hne R'); [lia | lia | done |].
      intros s2 R2 [Hs3 Hs4]. split; [|split; congruence].
      eapply ready_iff; [|exact R2]. intros i Hi. cbn. lia.
    + intros s' _ [R' Hsf]. split; [|done]. eapply ready_iff; [|exact R'].
      intros i Hi. unfold every. lia.
  - intros s' _ [R' [Hs1 Hs2]]. pose proof R' as [Hf Hbuf Ho Hqueue Hs Hy Hp].
    apply sound_xioctl_or_exit; [done | split; [done|] | done |].
    + apply (queue_nonempty o c every false s' 0 Hne R'); [done|lia].
    + intros v _ _ _. cbn [ok]. split; [|done]. by split.
Qed.

Definition streaming (o : options) : bool :=
  match io o with IO_METHOD_READ => false | _ => true end.

Lemma read_no_buffers o c q on s : io o = IO_METHOD_READ -> ready o q on c s -> n_buffers c = 0.
Proof.
  intros Hio R. pose proof (r_buffers _ _ _ _ _ R) as Hb. unfold buffers_ok in Hb.
  rewrite Hio in Hb. by destruct Hb as (_ & Hn & _).
Qed.

Lemma sound_start o c s :
  ready o none false c s ->
  ok s (start_capturing retries o c) (fun s' _ =>
    ready o every (streaming o) c s' /\ same_frames s s').
Proof.
  intros R. pose proof (ok_queue_all o c s) as H. unfold start_capturing, streaming.
  destruct (io o) eqn:Hio; [|by apply H..]. split; [|done]. eapply ready_iff; [|exact R].
  intros i Hi. pose proof (read_no_buffers o c _ _ s Hio R). lia.
Qed.

(** A buffer that the device has not granted is refused. *)
Lemma ok_start_refused o c s g :
  w = false -> io o = IO_METHOD_USERPTR -> ready o none false c s -> d_grant (dev s) = Some (true, g) -> g < 4 ->
  ok s (start_capturing retries o c) (fun _ _ => False).
Proof.
  intros Hw Hio R Hg Hlt. assert (Hne : io o <> IO_METHOD_READ) by congruence.
  unfold start_capturing. rewrite Hio.
  pose proof (buffers_length o c s Hne (r_buffers _ _ _ _ _ R)) as Hlen.
  assert (Hn : n_buffers c = 4).
  { pose proof (r_buffers _ _ _ _ _ R) as Hbuf. unfold buffers_ok in Hbuf. rewrite Hio in Hbuf.
    by destruct Hbuf as (_ & _ & _ & Hn & _). }
  eapply ok_bind; [apply (ok_for_loop (fun j s' _ =>
    ready o (fun i => i < Z.of_nat j) false c s' /\ d_grant (dev s') = Some (true, g) /\
    (j = 0%nat \/ Z.of_nat j <= g)))|].
  - split; [|by split; [|left]]. eapply ready_iff; [|exact R]. intros i Hi. unfold none. lia.
  - intros j s1 _ Hj (R1 & Hg1 & _). unfold queue_buffer. apply nth_buffer_ok; [lia|]. intros b Hbj.
    rewrite <- Hio.
    destruct (queue_takes o c _ false s1 (Z.of_nat j) b Hne R1) as [Ht _]; [lia|lia|done|].
    apply sound_xioctl_or_exit; [by destruct R1 | exact Ht | congruence |].
    intros u [Hacc _] _ _. cbn [ok]. split; [|split; [done|]].
    + eapply ready_iff; [|by apply (queue_ready o c _ false s1 (Z.of_nat j) b u R1); [lia|]].
      intros i Hi. cbn. lia.
    + right. specialize (Hacc true g Hg1). lia.
  - intros s1 _ (_ & _ & H). rewrite Hn in H. destruct H; lia.
Qed.

(** *** Frames *)

(** The state after [n] frames of a run that began with [saved]. *)
Record running (o : options) (q : Z -> Prop) (c : camera) (n : nat) (im : images) (s : kernel) : Prop := {
  run_ready : ready o q (streaming o) c s;
  run_images : fits = true -> images_ok n im;
  run_frames : k_frames s = n;
  run_saved : w = true -> k_saved s =
    concat (map (fun k => written k (clock W k) (frame W k (Z.to_nat (frame_size W)))) (seq 0 n))
}.

Lemma ok_process o q c n im s start size len :
  running o q c n im s -> (fits = true -> Z.of_nat n < most) -> block s start len -> ~ busy s start ->
  (fits = true -> sized W size) -> size <= len -> (w = true -> size = frame_size W) ->
  ok s (process c start size im) (fun s' im' => running o q c (S n) im' s').
Proof.
  intros [R Hi Hf Hs] Hn Hb Hbusy Hfit Hlen Hsize. unfold process.
  pose proof capacity_int. pose proof (r_open _ _ _ _ _ R) as Hopen.
  destruct (Bool.bool_dec fits true) as [Ht|Hno%not_true_is_false].
  - destruct (Hample Ht) as (Hpass & Hlimit & Hclock). destruct (Hfit Ht) as [Hr _].
    rewrite swrap_int by (unfold INT_MIN, INT_MAX in *; lia).
    eapply ok_mono; [by apply (process_ok W w fits n im _ start size len s); auto|]. cbv beta.
    intros s' im' (Hi' & Hq & Hf' & Hs'). split; [by eapply quiet_ready | done | by rewrite Hf', Hf|].
    intros Hwt. rewrite seq_S, map_app, concat_app. cbn. destruct (r_yuyv _ _ _ _ _ R Hwt) as [Hy _].
    by rewrite app_nil_r, (Hs' Hwt Hy), (Hs Hwt), Hf, (Hsize Hwt).
  - assert (w = false) as Hw by (destruct w; [|done]; by rewrite Hwilling in Hno).
    assert (protocol = linux W false false) as -> by (unfold protocol; by rewrite Hw, Hno).
    eapply ok_mono; [by apply (process_calm W im _ start _ len s)|]. cbv beta.
    intros s' im' (Hq & Hf'). split; [by eapply quiet_ready | congruence | by rewrite Hf', Hf | congruence].
Qed.

(** A frame taken from the queue: buffer [i], of [used] bytes at [b]. *)
Lemma ok_dequeue o q c n im s (Q : kernel -> reply -> Prop) :
  io o <> IO_METHOD_READ -> running o every c n im s ->
  (forall e, e <> EINTR -> w = false -> Q s (Fail e)) ->
  (forall v s' b, running o (others (value 0 v)) c n im s' -> 0 <= value 0 v < n_buffers c ->
     buffers c !! Z.to_nat (value 0 v) = Some b -> (fits = true -> sized W (value 1 v)) -> value 1 v <= b.2 ->
     (w = true -> value 1 v = frame_size W) ->
     (io o = IO_METHOD_USERPTR -> value 2 v = b.1 /\ value 3 v = b.2) -> Q s' (Done v)) ->
  q = (match io o with IO_METHOD_USERPTR => true | _ => false end) ->
  ok s (xioctl retries (fd c) (VIDIOC_DQBUF q)) Q.
Proof.
  intros Hne [R Hi Hf Hs] HF HD ->. pose proof (streams o c _ _ s Hne R) as H2.
  pose proof R as [Hfd Hbuf Ho Hqueue Hsz Hy Hp].
  apply sound_xioctl; [done | | done | exact HF |].
  - cbn. split; [|split].
    + unfold same_kind, buffers_ok in *. destruct (io o); [done|..].
      * destruct Hbuf as (_ & Hg & _). by eexists.
      * destruct Hbuf as ((g & Hg & _) & _). by eexists.
    + rewrite Ho. unfold streaming. by destruct (io o).
    + apply (queue_nonempty o c every _ s 0 Hne R); [done|lia].
  - intros v (m & Hm & Hmem) How Hfit.
    apply Hqueue in Hm as Hm'. destruct Hm' as [_ (Hr & b & Hb & ->)%place_Some].
    eapply (HD v _ b); [|done|done|done| | |].
    + split; [|done|done|done]. split; try done. intros j m. cbn. unfold others.
      destruct (decide (j = value 0 v)) as [->|Hj].
      * rewrite lookup_delete_eq. split; [done|]. by intros [? _].
      * rewrite lookup_delete_ne, Hqueue by done. unfold every. tauto.
    + unfold buffers_ok in Hbuf. unfold memory_of in Hmem. destruct (io o); [done| |by destruct Hmem as (_ & _ & ?)].
      destruct Hbuf as (_ & _ & _ & es & _ & Hn & Hl & _ & _ & _ & Hinfo).
      rewrite Hl, list_lookup_fmap in Hb. apply fmap_Some in Hb as ([a [l off]] & Ha & ->).
      apply (Hmem l off), Hinfo. split; [lia|]. by exists a.
    + intros Hwt. exact (How Hwt).
    + intros Hu. rewrite Hu in Hmem. by destruct Hmem as (? & ? & _).
Qed.

(** The buffer goes back to the device after its frame. *)
Lemma sound_requeue o c n im s i b (r : bool) :
  io o <> IO_METHOD_READ -> running o (others i) c n im s -> 0 <= i < n_buffers c ->
  buffers c !! Z.to_nat i = Some b ->
  ok s (a ← xioctl retries (fd c) (VIDIOC_QBUF i (memory_of (io o) b)); _ ← or_exit a; Value (im, r))
    (fun s' '(im', r') => im' = im /\ r' = r /\ running o every c n im s').
Proof.
  intros Hne [R Hi Hf Hs] Hr Hb.
  destruct (queue_takes o c _ _ s i b Hne R) as [Ht Ha]; [by unfold others; tauto | done | done |].
  apply sound_xioctl_or_exit; [by destruct R | exact Ht | by intros Hwt e He; apply He, Ha |].
  intros v _ _ _. cbn [ok]. do 2 (split; [done|]). split; [|done..].
  eapply ready_iff; [|by apply (queue_ready o c _ _ s i b v R)].
  intros j Hj. unfold others, every. lia.
Qed.

Lemma own_buffer_lookup c i b :
  n_buffers c = Z.of_nat (length (buffers c)) -> buffers c !! i = Some b -> own_buffer c b.1 b.2 = true.
Proof.
  intros Hn Hb. unfold own_buffer. rewrite Hn, Nat2Z.id, take_ge by done.
  apply existsb_exists. exists b. split.
  - apply list_elem_of_In. by eapply list_elem_of_lookup_2.
  - by rewrite !Z.eqb_refl.
Qed.

(** A frame is processed and its buffer is the device's again, or nothing
    happens; the latter only on a device that is not willing. *)
Lemma sound_read_frame o c n im s :
  running o every c n im s -> (fits = true -> Z.of_nat n < most) ->
  ok s (read_frame retries o c im) (fun s' '(im', r) =>
    if r then running o every c (S n) im' s' else w = false /\ im' = im /\ running o every c n im s').
Proof.
  intros Run Hn. pose proof (run_ready _ _ _ _ _ _ Run) as R. unfold read_frame.
  destruct (io o) eqn:Hio.
  - (* read *)
    pose proof (r_buffers _ _ _ _ _ R) as Hb. unfold buffers_ok in Hb. rewrite Hio in Hb.
    destruct Hb as (Hg & _ & Hm & a & k & Hne & Hl & Hh).
    apply nth_buffer_ok; [rewrite Hl; cbn; lia|]. intros b Hb. rewrite Hl in Hb. injection Hb as <-. cbn [fst snd].
    assert (Hb0 : buffers c !! Z.to_nat 0 = Some (a, sizeimage (fmt c))) by by rewrite Hl.
    destruct (buffer_block o c s _ _ 0 _ R Hb0 ltac:(lia) ltac:(by right)) as [Hblock Hbusy].
    apply ok_sys.
    { split; [by destruct R|]. split; [done|]. exists (sizeimage (fmt c)). split; [|lia].
      rewrite Hh, lookup_insert_ne by done. apply lookup_singleton_eq. }
    intros [e|v] (_ & How & _).
    + assert (w = false) as Hw by (destruct w; [by destruct (How eq_refl)|done]).
      destruct e; try exact Hw; done.
    + cbn [Sys.next protocol linux next]. eapply ok_bind; [by eapply ok_process; [..|apply R|done|apply R]|].
      intros s' im' Run'. exact Run'.
  - (* mapped buffers *)
    assert (Hne : io o <> IO_METHOD_READ) by congruence.
    apply ok_bind_wp, (ok_dequeue o _ c n im s); [done|done| | |by rewrite Hio].
    + intros e _ Hw. destruct e; try exact Hw; done.
    + intros v s1 b Run1 Hr Hb Hfit Hle Hsz _. cbv beta.
      rewrite (proj2 (Z.ltb_lt _ _)) by lia.
      apply nth_buffer_ok; [pose proof (lookup_lt_Some _ _ _ Hb); lia|].
      intros b' Hb'. rewrite Hb in Hb'. injection Hb' as <-.
      destruct (buffer_block o c s1 _ _ _ _ (run_ready _ _ _ _ _ _ Run1) Hb ltac:(lia)
                  ltac:(left; unfold others; tauto)) as [Hblock Hbusy].
      eapply ok_bind; [by eapply ok_process|]. intros s2 im2 Run2. cbv beta in Run2.
      replace V4L2_MEMORY_MMAP with (memory_of (io o) b) by by rewrite Hio.
      eapply ok_mono; [by apply (sound_requeue o c (S n) im2 s2 _ b true)|].
      intros s3 [im3 r3] (-> & -> & Run3). exact Run3.
  - (* buffers of the program's own *)
    assert (Hne : io o <> IO_METHOD_READ) by congruence.
    apply ok_bind_wp, (ok_dequeue o _ c n im s); [done|done| | |by rewrite Hio].
    + intros e _ Hw. destruct e; try exact Hw; done.
    + intros v s1 b Run1 Hr Hb Hfit Hle Hsz Hu. cbv beta. destruct (Hu Hio) as [H2 H3]. rewrite H2, H3.
      rewrite (own_buffer_lookup c (Z.to_nat (value 0 v)) b);
        [|by apply (buffers_length o c s Hne (r_buffers _ _ _ _ _ R))|done].
      destruct (buffer_block o c s1 _ _ _ _ (run_ready _ _ _ _ _ _ Run1) Hb ltac:(lia)
                  ltac:(left; unfold others; tauto)) as [Hblock Hbusy].
      eapply ok_bind; [by eapply ok_process|]. intros s2 im2 Run2. cbv beta in Run2.
      replace (V4L2_MEMORY_USERPTR b.1 b.2) with (memory_of (io o) b) by by rewrite Hio.
      eapply ok_mono; [by apply (sound_requeue o c (S n) im2 s2 _ b true)|].
      intros s3 [im3 r3] (-> & -> & Run3). exact Run3.
Qed.

Lemma ok_clock b s : ok s (clock_if b) (fun s' _ => s' = s).
Proof. destruct b; [|done]. apply ok_sys; [done|]. by intros [] _. Qed.

Lemma sound_mainloop k : forall o c count n im s,
  running o every c n im s -> 0 <= count -> (fits = true -> Z.of_nat n + count <= most) ->
  (w = true -> count <= Z.of_nat k) ->
  ok s (mainloop retries k o c count im) (fun s' im' => running o every c (n + Z.to_nat count) im' s').
Proof.
  induction k as [|k IH]; intros o c count n im s Run H0 Hm Hk; cbn [mainloop];
    (destruct (Z.leb_spec count 0);
     [eapply ok_bind; [apply ok_clock|]; intros s' _ ->; by replace (n + Z.to_nat count)%nat with n by lia|]).
  { cbn. destruct w; [|done]. specialize (Hk eq_refl). lia. }
  apply ok_sys; [by destruct (run_ready _ _ _ _ _ _ Run)|]. intros [e|v] (_ & How & _).
  { assert (w = false) as Hw by (destruct w; [by destruct (How eq_refl)|done]).
    destruct e; try exact Hw. apply IH; [exact Run | done | done | congruence]. }
  cbn [Sys.next protocol linux next].
  destruct (Z.eqb_spec (value 0 v) 0) as [Hz|_].
  { cbn. destruct w; [|done]. by destruct (How eq_refl). }
  eapply ok_bind; [apply (sound_read_frame o c n im s Run); intros Ht; specialize (Hm Ht); lia|]. intros s1 [im1 r] H1. destruct r.
  - apply ok_sys; [done|]. intros a _.
    replace (Sys.next s1 (Nanosleep read_delay) a) with s1 by by destruct a.
    eapply ok_bind; [apply ok_clock|]. intros s2 _ ->.
    eapply ok_mono; [apply (IH o c (count - 1) (S n)); [exact H1 | lia | intros Ht; specialize (Hm Ht); lia | intros Hw; specialize (Hk Hw); lia]|].
    intros s3 im3. by replace (S n + Z.to_nat (count - 1))%nat with (n + Z.to_nat count)%nat by lia.
  - destruct H1 as (Hw & -> & Run1). apply IH; [exact Run1 | done | done | congruence].
Qed.

(** *** Closing *)

Lemma sound_stop o c s :
  ready o every (streaming o) c s ->
  ok s (stop_capturing retries o c) (fun s' _ => ready o none false c s' /\ same_frames s s').
Proof.
  intros R. unfold stop_capturing, streaming in *. destruct (io o) eqn:Hio.
  { cbn. split; [|done]. eapply ready_iff; [|exact R].
    intros i Hi. pose proof (read_no_buffers o c _ _ s Hio R). lia. }
  all: pose proof R as [Hf Hbuf Ho Hqueue Hs Hy Hp].
  all: apply sound_xioctl_or_exit; [done | done | done |]; intros v _ _ _; cbn [ok]; (split; [|done]).
  all: split; try done; intros i m; cbn; rewrite lookup_empty; split; [done | by intros []].
Qed.

Lemma not_busy_idle s a : d_queued (dev s) = ∅ -> ~ busy s a.
Proof. intros Hq (i & m & Hi & _). by rewrite Hq, lookup_empty in Hi. Qed.

Lemma ready_idle o on c s : ready o none on c s -> d_queued (dev s) = ∅.
Proof.
  intros R. apply map_empty. intros i. destruct (d_queued (dev s) !! i) as [m|] eqn:Hm; [|done].
  by apply (r_queued _ _ _ _ _ R) in Hm as [[] _].
Qed.

(** A heap block is freed. *)
Lemma ok_free start s (h : gmap Z Z) k (Q : kernel -> unit -> Prop) :
  d_queued (dev s) = ∅ -> k_heap s = <[start := k]> h -> h !! start = None -> Q (set_heap h s) tt ->
  ok s (free start) Q.
Proof.
  intros Hq Hh Hn HQ. apply ok_sys.
  - split; [by rewrite Hh, lookup_insert_eq; eexists | by apply not_busy_idle].
  - intros [e|v] [Hd _]; [done|]. cbn. by rewrite Hh, delete_insert_id.
Qed.

Lemma fresh_tail {A} (l : list (Z * A)) j a x :
  NoDup l.*1 -> l !! j = Some (a, x) -> a ∉ (drop (S j) l).*1.
Proof.
  intros Hd Ha Hin. rewrite fmap_drop in Hin. apply list_elem_of_lookup_1 in Hin as [i Hi].
  rewrite lookup_drop in Hi.
  assert (j = (S j + i)%nat); [|lia]. apply (NoDup_lookup _ _ _ a Hd); [|done].
  by rewrite list_lookup_fmap, Ha.
Qed.

(** Everything that was set up is gone but the descriptor. *)
Definition only_open (c : camera) (s s' : kernel) : Prop :=
  d_fd (dev s') = Some (fd c) /\ d_on (dev s') = false /\ k_maps s' = ∅ /\ k_heap s' = ∅ /\
  k_open s' = None /\ same_frames s s'.

Lemma sound_uninit o c s :
  ready o none false c s -> ok s (uninit_device o c) (fun s' _ => only_open c s s').
Proof.
  intros R. pose proof (ready_idle _ _ _ _ R) as Hidle. pose proof R as [Hf Hbuf Ho _ _ _ Hp].
  unfold uninit_device, buffers_ok in *. destruct (io o) eqn:Hio.
  - destruct Hbuf as (_ & _ & Hm & a & k & Hne & Hl & Hh).
    eapply (ok_bind _ _ _ _ (fun s' _ => s' = set_heap {[array c := k]} s)).
    + apply nth_buffer_ok; [rewrite Hl; cbn; lia|]. intros b Hb. rewrite Hl in Hb. injection Hb as <-.
      eapply (ok_free _ _ {[array c := k]}); [done| |by rewrite lookup_singleton_ne|done].
      rewrite Hh. cbn. by rewrite <- !insert_empty, insert_insert_ne.
    + intros s' _ ->. eapply (ok_free _ _ ∅); [done|cbn; by rewrite insert_empty|done|].
      by do 5 (split; [done|]).
  - destruct Hbuf as (H2 & Hg & [k Hh] & es & Hl & Hn & Hb & Hd1 & Hd2 & Hm & _).
    eapply (ok_bind _ _ _ _ (fun s' _ => s' = set_maps ∅ s)).
    + eapply ok_mono; [apply (ok_for_loop (fun j s' _ => s' = set_maps (list_to_map (drop j es)) s))|].
      * rewrite drop_0, <- Hm. by destruct s.
      * intros j s' _ Hj ->. apply nth_buffer_ok; [rewrite Hb, length_map; lia|]. intros b Hbj.
        rewrite Nat2Z.id, Hb, list_lookup_fmap in Hbj. apply fmap_Some in Hbj as ([a [l off]] & He & ->).
        pose proof (drop_S _ _ _ He) as Hdrop. pose proof (fresh_tail es j a _ Hd1 He) as Hfresh.
        apply sound_call_or_exit; [|by intros e []|].
        { exists off. cbn. rewrite Hdrop. cbn. by rewrite lookup_insert_eq. }
        intros v _ _. cbn. unfold set_maps. cbn. f_equal. rewrite Hdrop. cbn.
        rewrite Nat.add_1_r, delete_insert_id; [done|]. by apply not_elem_of_list_to_map_1.
      * intros s' _ ->. by rewrite drop_ge by (rewrite Hn; lia).
    + intros s' _ ->. eapply (ok_free _ _ ∅); [done|cbn; by rewrite insert_empty|done|].
      by do 5 (split; [done|]).
  - destruct Hbuf as (_ & _ & Hl & Hn & Hm & Hd & Harr & k & Hh).
    eapply (ok_bind _ _ _ _ (fun s' _ => s' = set_heap {[array c := k]} s)).
    + eapply ok_mono; [apply (ok_for_loop (fun j s' _ =>
        s' = set_heap (<[array c := k]> (list_to_map (drop j (buffers c)))) s))|].
      * rewrite drop_0, <- Hh. by destruct s.
      * intros j s' _ Hj ->. apply nth_buffer_ok; [lia|]. intros [a l] Hbj. rewrite Nat2Z.id in Hbj.
        pose proof (drop_S _ _ _ Hbj) as Hdrop. pose proof (fresh_tail _ j a _ Hd Hbj) as Hfresh.
        assert (Hne : array c <> a).
        { intros He. apply Harr. rewrite He. apply list_elem_of_lookup_2 in Hbj.
          by apply (list_elem_of_fmap_2 fst) in Hbj. }
        eapply (ok_free _ _ (<[array c := k]> (list_to_map (drop (j + 1) (buffers c)))) l); [done| | |done].
        -- cbn. rewrite Hdrop, Nat.add_1_r. cbn. by rewrite insert_insert_ne.
        -- rewrite Nat.add_1_r, lookup_insert_ne by done. by apply not_elem_of_list_to_map_1.
      * intros s' _ ->. rewrite drop_ge by (rewrite Hn; lia). cbn. by rewrite insert_empty.
    + intros s' _ ->. eapply (ok_free _ _ ∅); [done|cbn; by rewrite insert_empty|done|].
      by do 5 (split; [done|]).
Qed.

(** *** The whole program *)

Definition files_of (n : nat) : list (list Z * list Z) :=
  concat (map (fun k => written k (clock W k) (frame W k (Z.to_nat (frame_size W)))) (seq 0 n)).

Lemma ok_capture o :
  (fits = true -> u32 (frame_count o) <= most) -> (w = true -> u32 (frame_count o) <= Z.of_nat fuel) ->
  let n := Z.to_nat (u32 (frame_count o)) in
  ok (idle [] 0) (capture_with retries fuel o) (fun s' im =>
    s' = idle (k_saved s') n /\ (fits = true -> images_ok n im) /\ (w = true -> k_saved s' = files_of n)).
Proof.
  intros Hc Hfuel. cbv zeta. pose proof (wrap_range 32 (frame_count o) ltac:(lia)) as [H0 _]. unfold capture_with.
  eapply ok_bind; [apply ok_open_device|]. intros s1 f ->.
  eapply ok_bind; [apply sound_init_device|]. intros s2 c (R2 & Hs2 & Hf2).
  eapply ok_bind; [by apply sound_start|]. intros s3 [] [R3 [Hs3 Hf3]].
  eapply ok_bind.
  { eapply (sound_mainloop fuel o c _ 0); [|exact H0|exact Hc|done].
    split; [exact R3 | intros _; apply first_images_ok | congruence | intros _; cbn; congruence]. }
  intros s4 im4 [R4 Hi4 Hf4 Hs4].
  eapply ok_bind; [by apply sound_stop|]. intros s5 [] [R5 [Hs5 Hf5]].
  eapply ok_bind; [by apply sound_uninit|]. intros s6 [] (Hd6 & Ho6 & Hm6 & Hh6 & Hp6 & Hs6 & Hf6).
  eapply (ok_bind _ _ _ _ (fun s' _ => s' = set_dev closed_device s6)).
  { apply sound_call_or_exit; [done | by intros e []|]. by intros v _ _. }
  intros s7 [] ->. cbn.
  split; [|split; [done|]].
  - unfold idle, set_dev. cbn. by rewrite Hm6, Hh6, Hp6, Hf6, Hf5, Hf4.
  - intros Hwt. by rewrite Hs6, Hs5, (Hs4 Hwt).
Qed.

Lemma ok_main argv1 opts o :
  parse_options argv1 opts = Some o ->
  (fits = true -> u32 (frame_count o) <= most) -> (w = true -> u32 (frame_count o) <= Z.of_nat fuel) ->
  let n := Z.to_nat (u32 (frame_count o)) in
  ok (idle [] 0) (main retries fuel argv1 opts) (fun s' im =>
    s' = idle (k_saved s') n /\ (fits = true -> images_ok n im) /\ (w = true -> k_saved s' = files_of n)).
Proof. intros Ho. unfold main. rewrite Ho. apply ok_capture. Qed.
End protocol.

(** A willing device has a reply for every call it takes, where frames fit the
    buffers that it set up. *)
Definition roomy (W : world) (s : kernel) : Prop :=
  (forall i lo, d_info (dev s) !! i = Some lo -> frame_size W <= lo.1) /\
  (forall i p l, d_queued (dev s) !! i = Some (V4L2_MEMORY_USERPTR p l) -> frame_size W <= l).

Lemma fix_pix_size f n : 0 <= n -> sizeimage (fix_pix (pix_of [0; 0; f; 0; n])) = n.
Proof.
  intros Hn. change (sizeimage _) with (if n <? 0 then 0 else n). by rewrite (proj2 (Z.ltb_ge _ _)).
Qed.

Lemma fresh_address (m : gmap Z (Z * Z)) (h : gmap Z Z) :
  exists a, m !! a = None /\ h !! a = None.
Proof.
  exists (fresh (dom m ∪ dom h)). pose proof (is_fresh (dom m ∪ dom h)) as H.
  apply not_elem_of_union in H as [H1 H2]. by split; apply not_elem_of_dom.
Qed.

Lemma fresh_offset (m : gmap Z (Z * Z)) : exists off, forall j lo, m !! j = Some lo -> lo.2 <> off.
Proof.
  set (X := list_to_set (C := gset Z) (map (fun x => x.2.2) (map_to_list m))).
  exists (fresh X). intros j lo Hj He. apply (is_fresh X). rewrite <- He. unfold X.
  apply elem_of_list_to_set, list_elem_of_fmap. exists (j, lo). split; [done|]. by apply elem_of_map_to_list.
Qed.

Lemma accepts_dec W s i m : accepts W s i m \/ ~ accepts W s i m.
Proof.
  unfold accepts.
  assert (Hg : (forall k n, d_grant (dev s) = Some (k, n) -> 0 <= i < n) \/
    ~ (forall k n, d_grant (dev s) = Some (k, n) -> 0 <= i < n)).
  { destruct (d_grant (dev s)) as [[k n]|]; [|by left].
    destruct (decide (0 <= i < n)) as [H|H]; [left; by intros k' n' [= <- <-]|].
    right. intros Hall. by apply H, (Hall k n). }
  destruct Hg; [|tauto]. destruct m as [|p l]; [tauto|].
  destruct (decide (frame_size W <= l)); tauto.
Qed.

Section willing.
Context {V : Videodev2} {SV : Sane V} (W : world) (Hfits : sized W (frame_size W)).
Context (Hdisk : writable W = true).

Lemma ioctl_reply s fd r :
  roomy W s -> allowed s (Ioctl fd r) ->
  exists a, documented W s (Ioctl fd r) a /\ obliging W s (Ioctl fd r) a /\
    fitting W (Ioctl fd r) a /\ roomy W (next s (Ioctl fd r) a).
Proof.
  intros [Hi Hq] [_ Ha]. pose proof Hfits as [Hr _].
  destruct r as [| | |x y z| |n u|i|i m|u| |]; try (by exists (Done [])).
  - exists (Done [-1]). split; [done|]. split; [|by split]. cbn. rewrite !Z.land_m1_l. by destruct SV.
  - exists (Done [0; 0; V4L2_PIX_FMT_YUYV; 0; frame_size W]). cbn [documented obliging fitting next].
    rewrite fix_pix_size by lia. by split.
  - exists (Done [0; 0; V4L2_PIX_FMT_YUYV; 0; frame_size W]). cbn [documented obliging fitting next].
    rewrite fix_pix_size by lia. by split.
  - exists (Done [Z.max 2 n]). split; [done|]. split; [cbn; destruct u; lia|]. by split.
  - destruct (fresh_offset (d_info (dev s))) as [off Hoff]. exists (Done [frame_size W; off]).
    split; [intros j lo _; apply Hoff|]. split; [cbn; lia|]. split; [done|]. split; [|done]. cbn. intros j lo.
    destruct (decide (j = i)) as [->|Hne]; [rewrite lookup_insert_eq; intros [= <-]; cbn; lia|].
    rewrite lookup_insert_ne by done. apply Hi.
  - destruct (accepts_dec W s i m) as [Hacc|Hacc].
    + exists (Done []). do 3 (split; [done|]). split; [done|]. cbn. intros j p l.
      destruct (decide (j = i)) as [->|Hne]; [|rewrite lookup_insert_ne by done; apply Hq].
      rewrite lookup_insert_eq. intros [= ->]. by destruct Hacc.
    + by exists (Fail EINVAL).
  - destruct Ha as (_ & _ & Hne). destruct (map_choose _ Hne) as (i & m & Hm).
    set (pl := match m with V4L2_MEMORY_USERPTR p l => (p, l) | _ => (0, 0) end).
    exists (Done [i; frame_size W; pl.1; pl.2]). split; [|split; [done|split; [done|]]].
    + exists m. split; [done|]. destruct m as [|p l]; [intros l o Hlo; by apply Hi in Hlo|].
      do 2 (split; [done|]). by eapply Hq.
    + split; [done|]. cbn. intros j p l [_ Hj]%lookup_delete_Some. by eapply Hq.
Qed.

Lemma allowed_reply s c :
  roomy W s -> allowed s c ->
  exists a, Sys.legal (Protocol := linux W true true) s c a /\
    roomy W (Sys.next (Protocol := linux W true true) s c a).
Proof.
  intros R Ha. enough (exists a, documented W s c a /\ obliging W s c a /\ fitting W c a /\ roomy W (next s c a))
    as (a & ? & ? & ? & ?) by by exists a.
  pose proof R as [Hi Hq]. destruct (fresh_address (k_maps s) (k_heap s)) as (f & Hf1 & Hf2).
  destruct c as [p|p|fd|fd r|fd a n|n|n|a|fd l o|a l|fd|t| | |path|fd data|fd|a].
  - by exists (Done [1]).
  - by exists (Done [3]).
  - by exists (Done []).
  - by apply ioctl_reply.
  - by exists (Done []).
  - by exists (Done [f]).
  - by exists (Done [f]).
  - by exists (Done []).
  - by exists (Done [f]).
  - by exists (Done []).
  - by exists (Done [1]).
  - by exists (Done []).
  - by exists (Done [tv_sec (clock W (k_frames s)); tv_nsec (clock W (k_frames s))]).
  - by exists (Done []).
  - by exists (Done [3]).
  - destruct (k_open s) as [[fd' nb]|] eqn:Hopen.
    + destruct (decide (fd' = fd)) as [->|Hne].
      * exists (Done [Z.of_nat (length data)]). cbn. split; [split; [by eexists | lia]|].
        split; [done|]. destruct nb as [nm bs]. by rewrite Hopen.
      * exists (Fail EINVAL). split; [done|]. split; [|done]. cbn. intros f'. rewrite Hopen. by intros [= -> _].
    + exists (Fail EINVAL). split; [done|]. split; [|done]. cbn. intros f'. by rewrite Hopen.
  - exists (Done []). split; [done|]. split; [done|]. cbn. unfold close_file.
    by destruct (k_open s) as [[? ?]|].
  - destruct Ha as [[n Hn] _]. exists (Done (frame W (k_frames s - 1) (Z.to_nat n))).
    split; [by exists n|]. by split.
Qed.

(** So the program has a run on such a device. *)
Lemma main_runs {B : Capturer} {LB : Lawful B} retries fuel argv1 opts o :
  ample W -> (0 < retries)%nat ->
  parse_options argv1 opts = Some o -> u32 (frame_count o) <= most -> u32 (frame_count o) <= Z.of_nat fuel ->
  exists s v, behaves (P := linux W true true) (idle [] 0) (main retries fuel argv1 opts) s v.
Proof.
  intros Ha Hr Ho Hm Hf. eapply (ok_runs (P := linux W true true) (roomy W)); [by apply allowed_reply|by split|].
  by apply (ok_main W true true retries fuel (fun _ => Hr) (fun _ => eq_refl) (fun _ => Ha) argv1 opts o Ho).
Qed.
End willing.

(** ** The theorems *)

Section theorems.
Context {V : Videodev2} {B : Capturer} {LB : Lawful B} (W : world).

(** With buffers of its own the program asks for four and does not look at the
    number that the device grants: where it is less, [start_capturing] does not
    return, since the device refuses a buffer that it has not granted. *)
Theorem userp_needs_four retries o c s g s' v :
  io o = IO_METHOD_USERPTR -> ready W false true o none false c s -> d_grant (dev s) = Some (true, g) -> g < 4 ->
  behaves (P := linux W false true) s (start_capturing retries o c) s' v ->
  v = Exited \/ v = StillRunning.
Proof.
  intros Hio R Hg Hlt Hb.
  assert (Hr : false = true -> (0 < retries)%nat) by done.
  pose proof (ok_behaves (P := linux W false true) _ _ _ _ _
    (ok_start_refused W false true retries Hr (fun _ => eq_refl) o c s g eq_refl Hio R Hg Hlt) Hb) as H.
  destruct v; (done || tauto).
Qed.
End theorems.
