(* ===== verification/SimpleVariants.v ===== *)
(** * The four stand-alone capture programs

    What simple-capture, simple-capture-1800, simple-capture-1800-syslog and
    simple-capture-1800-gprof have of their own: [process_image], their layout of
    the files, their frames and their delay.  Each is shown to be what
    [SimpleCapture] needs, so that its theorems hold of all four. *)
From Stdlib Require Import String.
From stdpp Require Import option list gmap.
From S2P Require Import Prelude CString Timespec Sys Capture FrameDump SimpleCapture.
#[local] Open Scope Z_scope.

#[local] Abbreviation prog := (prog call).

(** [unsigned char bigbuffer[(1280*960)]] *)
Definition BIG : Z := 1280 * 960.
Definition first_bigbuffer : list Z := repeat 0 (Z.to_nat BIG).

Definition first_images_of (L : layout) (framecnt : Z) : images :=
  {| framecnt := framecnt;
     ppm := {| header := first_header L "P6"; dumpname := first_name L ".ppm" |};
     pgm := {| header := first_header L "P5"; dumpname := first_name L ".pgm" |};
     bigbuffer := first_bigbuffer |}.

(** ** simple-capture: 320x240, colours, every frame *)
Module Simple.
Definition dumps : layout :=
  {| stem := bytes "test"; FrameDump.width := 8; resolution := bytes "320 240"; terminator := false |}.

Section process.
Context {V : Videodev2} (wfuel : nat).

(** [framecnt] is unsigned. *)
Definition process_image (f start size : Z) (im : images) : prog images :=
  frame_time ← now;
  let n := u32 (framecnt im + 1) in
  let im := set_framecnt n im in
  if f =? V4L2_PIX_FMT_GREY then
    p ← memory_at start; dump_pgm dumps false wfuel im p size n frame_time
  else if f =? V4L2_PIX_FMT_YUYV then
    p ← memory_at start;
    big ← or_wild (convert_rgb p (bigbuffer im) size);
    dump_ppm dumps false wfuel (set_bigbuffer big im) big ((size * 6) ÷ 4) n frame_time
  else if f =? V4L2_PIX_FMT_RGB24 then
    p ← memory_at start; dump_ppm dumps false wfuel im p size n frame_time
  else Value im.

Definition program : Capturer :=
  {| SimpleCapture.HRES := 320; SimpleCapture.VRES := 240; default_count := 30;
     read_delay := {| tv_sec := 0; tv_nsec := 30000 |}; timed := false;
     first_images := first_images_of dumps 0; SimpleCapture.process_image := process_image |}.

Definition init_device (retries : nat) := init_device (B := program) retries.
Definition mainloop (retries : nat) := mainloop (B := program) retries.
Definition main (retries fuel : nat) := main (B := program) retries fuel.
End process.
End Simple.

(** ** simple-capture-1800: 640x480, luminance, from the eighth frame *)
Module Capture1800.
Definition dumps : layout :=
  {| stem := bytes "frames/test"; FrameDump.width := 4; resolution := bytes "640 480";
     terminator := true |}.

Section process.
Context {V : Videodev2} (wfuel : nat).

Definition process_image (f start size : Z) (im : images) : prog images :=
  frame_time ← now;
  let n := swrap 32 (framecnt im + 1) in
  let im := set_framecnt n im in
  if f =? V4L2_PIX_FMT_GREY then
    p ← memory_at start; dump_pgm dumps false wfuel im p size n frame_time
  else if f =? V4L2_PIX_FMT_YUYV then
    p ← memory_at start;
    big ← or_wild (convert_y p (bigbuffer im) size);
    let im := set_bigbuffer big im in
    if -1 <? n then dump_pgm dumps false wfuel im big (size ÷ 2) n frame_time else Value im
  else if f =? V4L2_PIX_FMT_RGB24 then
    p ← memory_at start; dump_ppm dumps false wfuel im p size n frame_time
  else Value im.

Definition program : Capturer :=
  {| SimpleCapture.HRES := 640; SimpleCapture.VRES := 480; default_count := 189;
     read_delay := {| tv_sec := 1; tv_nsec := 0 |}; timed := false;
     first_images := first_images_of dumps (-8); SimpleCapture.process_image := process_image |}.

Definition init_device (retries : nat) := init_device (B := program) retries.
Definition mainloop (retries : nat) := mainloop (B := program) retries.
Definition main (retries fuel : nat) := main (B := program) retries fuel.
End process.
End Capture1800.

(** ** simple-capture-1800-syslog: both conversions, the second is dumped *)
Module Syslog.
Definition START_UP_FRAMES : Z := 8.
Definition LAST_FRAMES : Z := 1.
Definition CAPTURE_FRAMES : Z := 1800 + LAST_FRAMES.
Definition FRAMES_TO_ACQUIRE : Z := CAPTURE_FRAMES + START_UP_FRAMES + LAST_FRAMES.
Definition dumps : layout :=
  {| stem := bytes "frames/test"; FrameDump.width := 4; resolution := bytes "640 480";
     terminator := false |}.

Section process.
Context {V : Videodev2} (wfuel : nat).

Definition process_image (f start size : Z) (im : images) : prog images :=
  frame_time ← now;
  let n := swrap 32 (framecnt im + 1) in
  let im := set_framecnt n im in
  _ ← clock_if (n =? 0);
  if f =? V4L2_PIX_FMT_GREY then
    p ← memory_at start; dump_pgm dumps true wfuel im p size n frame_time
  else if f =? V4L2_PIX_FMT_YUYV then
    p ← memory_at start;
    big ← or_wild (convert_rgb p (bigbuffer im) size);
    big ← or_wild (convert_y p big size);
    let im := set_bigbuffer big im in
    if -1 <? n then dump_pgm dumps true wfuel im big (size ÷ 2) n frame_time else Value im
  else if f =? V4L2_PIX_FMT_RGB24 then
    p ← memory_at start; dump_ppm dumps true wfuel im p size n frame_time
  else Value im.

Definition program : Capturer :=
  {| SimpleCapture.HRES := 640; SimpleCapture.VRES := 480; default_count := FRAMES_TO_ACQUIRE;
     read_delay := {| tv_sec := 0; tv_nsec := 33333333 |}; timed := true;
     first_images := first_images_of dumps (-8); SimpleCapture.process_image := process_image |}.

Definition init_device (retries : nat) := init_device (B := program) retries.
Definition mainloop (retries : nat) := mainloop (B := program) retries.
Definition main (retries fuel : nat) := main (B := program) retries fuel.
End process.
End Syslog.

(** ** simple-capture-1800-gprof: frames are counted, none is dumped *)
Module Gprof.
Definition START_UP_FRAMES : Z := 8.
Definition LAST_FRAMES : Z := 1.
Definition CAPTURE_FRAMES : Z := 1800 + LAST_FRAMES.
Definition FRAMES_TO_ACQUIRE : Z := CAPTURE_FRAMES + START_UP_FRAMES + LAST_FRAMES.
Definition dumps : layout := Syslog.dumps.

Definition process_image (f start size : Z) (im : images) : prog images :=
  frame_time ← now;
  let n := swrap 32 (framecnt im + 1) in
  _ ← clock_if (n =? 0);
  Value (set_framecnt n im).

Definition program : Capturer :=
  {| SimpleCapture.HRES := 640; SimpleCapture.VRES := 480; default_count := FRAMES_TO_ACQUIRE;
     read_delay := {| tv_sec := 0; tv_nsec := 33333333 |}; timed := true;
     first_images := first_images_of dumps (-8); SimpleCapture.process_image := process_image |}.

Section process.
Context {V : Videodev2}.
Definition init_device (retries : nat) := init_device (B := program) retries.
Definition mainloop (retries : nat) := mainloop (B := program) retries.
Definition main (retries fuel : nat) := main (B := program) retries fuel.
End process.
End Gprof.

(** ** Each is what the capture needs *)

(** After [n] frames of a program that began at [first]. *)
Definition counted (L : layout) (first : Z) (n : nat) (im : images) : Prop :=
  framecnt im = first + Z.of_nat n /\ arrays_ok L ppm_magic (ppm im) /\
  arrays_ok L pgm_magic (pgm im) /\ Z.of_nat (length (bigbuffer im)) = BIG.

Lemma first_counted L first : layout_ok L -> counted L first 0 (first_images_of L first).
Proof.
  intros HL. split; [cbn; lia|]. split; [|split].
  - by apply (first_arrays_ok L HL "P6"); [|left].
  - by apply (first_arrays_ok L HL "P5"); [|right].
  - cbn [bigbuffer first_images_of]. unfold first_bigbuffer. rewrite repeat_length. unfold BIG. lia.
Qed.

Lemma simple_layout : layout_ok Simple.dumps.
Proof. split; [cbn; lia | done | by repeat (constructor; [done|])]. Qed.
Lemma capture1800_layout : layout_ok Capture1800.dumps.
Proof. split; [cbn; lia | done | by repeat (constructor; [done|])]. Qed.
Lemma syslog_layout : layout_ok Syslog.dumps.
Proof. split; [cbn; lia | done | by repeat (constructor; [done|])]. Qed.

Section steps.
Context {V : Videodev2} (W : world) (w fits : bool) (Hclock : forall k, time_ok (clock W k)).
#[local] Instance variant_protocol : Protocol kernel call := linux W w fits.

(** The state after the frame's clock is read. *)
Definition tick (s : kernel) : kernel :=
  Build_kernel (dev s) (k_maps s) (k_heap s) (k_open s) (k_saved s) (S (k_frames s)).

Lemma ok_now {A} s (f : timespec -> prog A) Q :
  ok (tick s) (f (clock W (k_frames s))) Q -> ok s (now ≫= f) Q.
Proof.
  intros H. split; [done|]. intros a (Hd & _ & _). cbn in Hd. subst a. cbn.
  by destruct (clock W (k_frames s)).
Qed.

Lemma ok_load {A} s start len (f : list Z -> prog A) Q :
  block s start len -> ~ busy s start ->
  ok s (f (frame W (k_frames s - 1) (Z.to_nat len))) Q -> ok s (memory_at start ≫= f) Q.
Proof.
  intros Hb Hbusy H. split; [by split; [eexists|]|]. intros a (Hd & _ & _). cbn in Hd.
  destruct Hd as (n & Hn & ->). unfold block in *. rewrite Hb in Hn. injection Hn as <-. exact H.
Qed.

(** A file of a dump: its name and contents. *)
Definition file (L : layout) (suffix : string) (magic : list Z) (tag : Z) (time : timespec) (image : list Z)
    : list Z * list Z :=
  (name_of L suffix tag, header_written L (text_of L magic time ++ [0]) ++ image).

(** The arrays and the buffer at [n] frames; a dump keeps them. *)
Definition dumped (L : layout) (n : Z) (s : kernel) (f : list Z * list Z) (s' : kernel) (im' : images) : Prop :=
  framecnt im' = n /\ arrays_ok L ppm_magic (ppm im') /\ arrays_ok L pgm_magic (pgm im') /\
  Z.of_nat (length (bigbuffer im')) = BIG /\ quiet s s' /\ k_frames s' = k_frames s /\
  (w = true -> k_saved s' = k_saved s ++ [f]).

Context (wfuel : nat) (Hw0 : (0 < wfuel)%nat) (Hw : Z.of_nat wfuel <= 2 ^ 31).

Lemma ok_dump_pgm L tm im n p size tag time s :
  layout_ok L -> counted L n 0 im -> tag_fits L tag -> time_ok time ->
  0 <= size <= Z.of_nat (length p) -> 2 * size <= INT_MAX -> k_open s = None ->
  ok s (dump_pgm L tm wfuel im p size tag time)
    (dumped L n s (file L ".pgm" pgm_magic tag time (take (Z.to_nat size) p))).
Proof.
  intros HL (Hn & Hp & Hq & Hb) Ht Htime Hs Hmax Ho. unfold dump_pgm.
  eapply ok_bind; [by apply (ok_dump W w fits L tm wfuel ".pgm" pgm_magic); [..|right|done|done|done|done|done|done|done]|].
  intros s' d (Hd & Hquiet & Hf & Hsaved). cbn [ok]. split; [cbn; lia|]. by do 5 (split; [done|]).
Qed.

Lemma ok_dump_ppm L tm im n p size tag time s :
  layout_ok L -> counted L n 0 im -> tag_fits L tag -> time_ok time ->
  0 <= size <= Z.of_nat (length p) -> 2 * size <= INT_MAX -> k_open s = None ->
  ok s (dump_ppm L tm wfuel im p size tag time)
    (dumped L n s (file L ".ppm" ppm_magic tag time (take (Z.to_nat size) p))).
Proof.
  intros HL (Hn & Hp & Hq & Hb) Ht Htime Hs Hmax Ho. unfold dump_ppm.
  eapply ok_bind; [by apply (ok_dump W w fits L tm wfuel ".ppm" ppm_magic); [..|left|done|done|done|done|done|done|done]|].
  intros s' d (Hd & Hquiet & Hf & Hsaved). cbn [ok]. split; [cbn; lia|]. by do 5 (split; [done|]).
Qed.
End steps.

(** The conversions look at the first bytes of a frame only. *)
Lemma elt_frame W k n i : (i < n)%nat -> elt (frame W k n) i = pixels W k i.
Proof. intros Hi. unfold elt, frame. by rewrite list_lookup_fmap, lookup_seq_lt. Qed.

Lemma map_seq_ext {A} (f g : nat -> A) n : (forall i, (i < n)%nat -> f i = g i) -> map f (seq 0 n) = map g (seq 0 n).
Proof. intros H. apply map_ext_in. intros i Hi%in_seq. apply H. lia. Qed.

Lemma lumas_frame W k a b n :
  (4 * n <= a)%nat -> (4 * n <= b)%nat -> lumas (frame W k a) n = lumas (frame W k b) n.
Proof. intros Ha Hb. unfold lumas. f_equal. apply map_seq_ext. intros i Hi. by rewrite !elt_frame by lia. Qed.

Lemma rgb_frame W k a b n :
  (4 * n <= a)%nat -> (4 * n <= b)%nat -> rgb (frame W k a) n = rgb (frame W k b) n.
Proof.
  intros Ha Hb. unfold rgb, rgb_quad. f_equal. apply map_seq_ext. intros i Hi. by rewrite !elt_frame by lia.
Qed.

(** Frames are whole pairs of pixels. *)
Lemma pairs W size : sized W size -> exists q : nat, size = 4 * Z.of_nat q.
Proof. intros [Hr [q ->]]. exists (Z.to_nat q). lia. Qed.

(** What a size in pairs of pixels becomes. *)
Lemma half_pairs q : 4 * Z.of_nat q ÷ 2 = 2 * Z.of_nat q.
Proof. symmetry. apply Z.quot_unique_exact; lia. Qed.

Lemma colour_pairs q : (4 * Z.of_nat q * 6) ÷ 4 = 6 * Z.of_nat q.
Proof. symmetry. apply Z.quot_unique_exact; lia. Qed.

Lemma quarter q : (4 * q / 4)%nat = q.
Proof. rewrite Nat.mul_comm, Nat.div_mul; lia. Qed.

(** The frame as it is loaded, and its first [4 * q] bytes. *)
Lemma loaded_lumas W s len q : 
  4 * Z.of_nat q <= len ->
  lumas (frame W (k_frames (tick s) - 1) (Z.to_nat len)) q
    = lumas (frame W (k_frames s) (Z.to_nat (4 * Z.of_nat q))) q.
Proof.
  intros Hq. cbn [k_frames tick]. rewrite Nat.sub_1_r. cbn [Nat.pred]. apply lumas_frame; lia.
Qed.

Lemma loaded_rgb W s len q :
  4 * Z.of_nat q <= len ->
  rgb (frame W (k_frames (tick s) - 1) (Z.to_nat len)) q
    = rgb (frame W (k_frames s) (Z.to_nat (4 * Z.of_nat q))) q.
Proof.
  intros Hq. cbn [k_frames tick]. rewrite Nat.sub_1_r. cbn [Nat.pred]. apply rgb_frame; lia.
Qed.

Section frames.
Context {V : Videodev2} (W : world) (w fits : bool) (Hclock : forall k, time_ok (clock W k)).
Context (L : layout) (HL : layout_ok L) (first : Z) (n : nat).
#[local] Instance frame_protocol : Protocol kernel call := linux W w fits.

(** What [process_image] promises of frame [n], in format [f]. *)
Definition keeps (f : Z) (files : list (list Z * list Z)) (s s' : kernel) (im' : images) : Prop :=
  counted L first (S n) im' /\ quiet s s' /\ k_frames s' = S (k_frames s) /\
  (w = true -> f = V4L2_PIX_FMT_YUYV -> k_saved s' = k_saved s ++ files).

Lemma dumped_keeps s s' im' fl f files :
  dumped w L (first + Z.of_nat (S n)) (tick s) fl s' im' ->
  (f = V4L2_PIX_FMT_YUYV -> [fl] = files) -> keeps f files s s' im'.
Proof.
  intros (Hn & Hp & Hq & Hb & Hquiet & Hf & Hs) He. split; [by split|]. do 2 (split; [done|]).
  intros Hwt Hy. by rewrite <- (He Hy), (Hs Hwt).
Qed.

(** A frame that is not dumped. *)
Lemma ok_skip f files s im :
  counted L (first + Z.of_nat (S n)) 0 im -> k_open s = None -> (f = V4L2_PIX_FMT_YUYV -> files = []) ->
  ok (tick s) (Value im : prog images) (keeps f files s).
Proof.
  intros (Hn & Hp & Hq & Hb) Ho Hf. cbn. split; [split; [lia|done]|]. do 2 (split; [done|]).
  intros _ Hy. by rewrite (Hf Hy), app_nil_r.
Qed.

(** The clock readings of the builds with [timed]. *)
Lemma ok_timed {A} b s (f : unit -> prog A) Q : ok s (f tt) Q -> ok s (clock_if b ≫= f) Q.
Proof. intros H. destruct b; [|exact H]. split; [done|]. by intros [] _. Qed.

Context (wfuel : nat) (Hw0 : (0 < wfuel)%nat) (Hw : Z.of_nat wfuel <= 2 ^ 31).

(** A frame of another format, dumped as it is. *)
Lemma ok_raw (ppm : bool) tm f files im start size len tag s :
  f <> V4L2_PIX_FMT_YUYV ->
  counted L (first + Z.of_nat (S n)) 0 im -> tag_fits L tag -> block s start len -> ~ busy s start ->
  0 <= size <= len -> 2 * size <= INT_MAX -> k_open s = None ->
  ok (tick s) (p ← memory_at start;
               (if ppm then dump_ppm else dump_pgm) L tm wfuel im p size tag (clock W (k_frames s)))
     (keeps f files s).
Proof.
  intros Hf Him Ht Hblock Hbusy Hr Hmax Ho. apply (ok_load W w fits _ _ len); [done..|].
  pose proof (length_frame W (k_frames (tick s) - 1) (Z.to_nat len)) as Hp.
  destruct ppm; (eapply ok_mono; [(apply ok_dump_ppm || apply ok_dump_pgm); [exact Hw0|done|done|
    exact Him|done|apply Hclock|lia|done|done]|]); intros s' im' H; by eapply dumped_keeps; [exact H|].
Qed.

(** A frame converted to [pixels], at the start of the buffer, and dumped. *)
Lemma ok_converted (ppm : bool) tm im pixels rest size tag files s :
  counted L (first + Z.of_nat (S n)) 0 im -> Z.of_nat (length (pixels ++ rest)) = BIG ->
  size = Z.of_nat (length pixels) -> tag_fits L tag -> k_open s = None ->
  files = [file L (if ppm then ".ppm" else ".pgm") (if ppm then ppm_magic else pgm_magic) tag
             (clock W (k_frames s)) pixels] ->
  ok (tick s) ((if ppm then dump_ppm else dump_pgm) L tm wfuel (set_bigbuffer (pixels ++ rest) im)
                 (pixels ++ rest) size tag (clock W (k_frames s)))
     (keeps V4L2_PIX_FMT_YUYV files s).
Proof.
  intros (Hn & Hp & Hq & _) Hb -> Ht Ho ->. pose proof Hb as Hb'. rewrite length_app in Hb'. unfold BIG in Hb'.
  assert (Him : counted L (first + Z.of_nat (S n)) 0 (set_bigbuffer (pixels ++ rest) im)) by by split.
  assert (Hmax : 2 * Z.of_nat (length pixels) <= INT_MAX) by (unfold INT_MAX; lia).
  destruct ppm; (eapply ok_mono; [(apply ok_dump_ppm || apply ok_dump_pgm); [exact Hw0|done|done|
    exact Him|done|apply Hclock|rewrite length_app; lia|done|done]|]);
    intros s' im' H; (eapply dumped_keeps; [exact H|]); intros _;
    by rewrite Nat2Z.id, take_app_length.
Qed.
End frames.

(** The frames of [most] and the bytes of [capacity]: what the names and the
    conversions of a program have room for. *)
Section lawful.
Context {V : Videodev2} {SV : Sane V} (wfuel : nat).
Context (Hw0 : (0 < wfuel)%nat) (Hw : Z.of_nat wfuel <= 2 ^ 31).
Context (W : world) (w fits : bool) (Hclock : forall k, time_ok (clock W k)).

(** Files of the programs that start at -8: from the eighth frame on. *)
Definition lumas_from (L : layout) (n : nat) (time : timespec) (p : list Z) : list (list Z * list Z) :=
  if Z.of_nat n <? 7 then []
  else [file L ".pgm" pgm_magic (Z.of_nat n - 7) time (lumas p (length p / 4))].

Definition colours_from (L : layout) (n : nat) (time : timespec) (p : list Z) : list (list Z * list Z) :=
  [file L ".ppm" ppm_magic (Z.of_nat n + 1) time (rgb p (length p / 4))].

Lemma capture1800_process n im f start size len s :
  limit W <= 2 * BIG -> counted Capture1800.dumps (-8) n im -> Z.of_nat n < 10007 ->
  block s start len -> ~ busy s start -> sized W size -> size <= len -> k_open s = None ->
  ok (P := linux W w fits) s (Capture1800.process_image wfuel f start size im)
    (keeps w Capture1800.dumps (-8) n f
       (lumas_from Capture1800.dumps n (clock W (k_frames s)) (frame W (k_frames s) (Z.to_nat size))) s).
Proof.
  intros Hl (Hn & Hp & Hq & Hb) Hmost Hblock Hbusy Hfit Hlen Hopen.
  pose proof capture1800_layout as HL.
  destruct (pairs W size Hfit) as [q ->]. destruct Hfit as [Hr _]. unfold BIG in *.
  unfold Capture1800.process_image. apply (ok_now W w fits).
  rewrite Hn, swrap_int by (unfold INT_MIN, INT_MAX; lia).
  set (m := -8 + Z.of_nat n + 1). assert (Hm : m = -8 + Z.of_nat (S n)) by lia.
  set (im1 := set_framecnt m im).
  assert (Him : counted Capture1800.dumps (-8 + Z.of_nat (S n)) 0 im1)
    by (split; [cbn; lia|]; by do 2 (split; [done|])).
  assert (Htag : tag_fits Capture1800.dumps m) by (unfold tag_fits; cbn; lia).
  assert (Hmax : 2 * (4 * Z.of_nat q) <= INT_MAX) by (unfold INT_MAX; lia).
  pose proof (length_frame W (k_frames (tick s) - 1) (Z.to_nat len)) as Hp1.
  destruct (Z.eqb_spec f V4L2_PIX_FMT_GREY) as [->|_].
  { by apply (ok_raw W w fits Hclock _ HL _ _ wfuel Hw0 Hw false _ _ _ _ _ _ len); [apply grey_yuyv|..|lia| |]. }
  destruct (Z.eqb_spec f V4L2_PIX_FMT_YUYV) as [->|Hf].
  - apply (ok_load W w fits _ _ len); [done..|]. cbn [bigbuffer im1 set_framecnt].
    rewrite convert_y_spec by lia. cbn [or_wild mbind prog_bind]. rewrite (loaded_lumas W s len q Hlen).
    set (p := frame W _ _). assert (Hlp : length p = (4 * q)%nat) by (unfold p; rewrite length_frame; lia).
    unfold lumas_from. rewrite Hlp, quarter.
    assert (Hbig : Z.of_nat (length (lumas p q ++ drop (2 * q) (bigbuffer im))) = BIG)
      by (rewrite length_app, length_lumas, length_drop; unfold BIG; lia).
    destruct (Z.ltb_spec (-1) m) as [Hpos|Hneg].
    + apply (ok_converted W w fits Hclock _ HL _ _ wfuel Hw0 Hw false false im1); [done|done| |done|done|].
      * rewrite half_pairs, length_lumas. lia.
      * rewrite (proj2 (Z.ltb_ge _ _)) by lia. by replace m with (Z.of_nat n - 7) by lia.
    + apply ok_skip; [|done|by rewrite (proj2 (Z.ltb_lt _ _)) by lia].
      split; [cbn; lia|]. by do 2 (split; [done|]).
  - destruct (f =? V4L2_PIX_FMT_RGB24); [|by apply ok_skip].
    by apply (ok_raw W w fits Hclock _ HL _ _ wfuel Hw0 Hw true _ _ _ _ _ _ len); [..|lia| |].
Qed.

Lemma syslog_process n im f start size len s :
  limit W <= BIG / 6 * 4 -> counted Syslog.dumps (-8) n im -> Z.of_nat n < 10007 ->
  block s start len -> ~ busy s start -> sized W size -> size <= len -> k_open s = None ->
  ok (P := linux W w fits) s (Syslog.process_image wfuel f start size im)
    (keeps w Syslog.dumps (-8) n f
       (lumas_from Syslog.dumps n (clock W (k_frames s)) (frame W (k_frames s) (Z.to_nat size))) s).
Proof.
  intros Hl (Hn & Hp & Hq & Hb) Hmost Hblock Hbusy Hfit Hlen Hopen.
  pose proof syslog_layout as HL. change (BIG / 6 * 4) with 819200 in Hl.
  destruct (pairs W size Hfit) as [q ->]. destruct Hfit as [Hr _]. unfold BIG in *.
  unfold Syslog.process_image. apply (ok_now W w fits).
  rewrite Hn, swrap_int by (unfold INT_MIN, INT_MAX; lia).
  set (m := -8 + Z.of_nat n + 1). assert (Hm : m = -8 + Z.of_nat (S n)) by lia.
  set (im1 := set_framecnt m im). apply ok_timed.
  assert (Him : counted Syslog.dumps (-8 + Z.of_nat (S n)) 0 im1)
    by (split; [cbn; lia|]; by do 2 (split; [done|])).
  assert (Htag : tag_fits Syslog.dumps m) by (unfold tag_fits; cbn; lia).
  assert (Hmax : 2 * (4 * Z.of_nat q) <= INT_MAX) by (unfold INT_MAX; lia).
  pose proof (length_frame W (k_frames (tick s) - 1) (Z.to_nat len)) as Hp1.
  destruct (Z.eqb_spec f V4L2_PIX_FMT_GREY) as [->|_].
  { by apply (ok_raw W w fits Hclock _ HL _ _ wfuel Hw0 Hw false _ _ _ _ _ _ len); [apply grey_yuyv|..|lia| |]. }
  destruct (Z.eqb_spec f V4L2_PIX_FMT_YUYV) as [->|Hf].
  - apply (ok_load W w fits _ _ len); [done..|]. cbn [bigbuffer im1 set_framecnt].
    rewrite convert_rgb_spec by lia. cbn [or_wild mbind prog_bind].
    set (big := rgb _ _ ++ drop (6 * q) (bigbuffer im)).
    assert (Hl1 : Z.of_nat (length big) = BIG)
      by (unfold big; rewrite length_app, length_rgb, length_drop; unfold BIG; lia).
    unfold BIG in Hl1. rewrite convert_y_spec by lia. cbn [or_wild mbind prog_bind].
    rewrite (loaded_lumas W s len q Hlen).
    set (p := frame W _ _). assert (Hlp : length p = (4 * q)%nat) by (unfold p; rewrite length_frame; lia).
    unfold lumas_from. rewrite Hlp, quarter.
    assert (Hbig : Z.of_nat (length (lumas p q ++ drop (2 * q) big)) = BIG)
      by (rewrite length_app, length_lumas, length_drop; unfold BIG; lia).
    destruct (Z.ltb_spec (-1) m) as [Hpos|Hneg].
    + apply (ok_converted W w fits Hclock _ HL _ _ wfuel Hw0 Hw false true im1); [done|done| |done|done|].
      * rewrite half_pairs, length_lumas. lia.
      * rewrite (proj2 (Z.ltb_ge _ _)) by lia. by replace m with (Z.of_nat n - 7) by lia.
    + apply ok_skip; [|done|by rewrite (proj2 (Z.ltb_lt _ _)) by lia].
      split; [cbn; lia|]. by do 2 (split; [done|]).
  - destruct (f =? V4L2_PIX_FMT_RGB24); [|by apply ok_skip].
    by apply (ok_raw W w fits Hclock _ HL _ _ wfuel Hw0 Hw true _ _ _ _ _ _ len); [..|lia| |].
Qed.

Lemma simple_process n im f start size len s :
  limit W <= BIG / 6 * 4 -> counted Simple.dumps 0 n im -> Z.of_nat n < 99999999 ->
  block s start len -> ~ busy s start -> sized W size -> size <= len -> k_open s = None ->
  ok (P := linux W w fits) s (Simple.process_image wfuel f start size im)
    (keeps w Simple.dumps 0 n f
       (colours_from Simple.dumps n (clock W (k_frames s)) (frame W (k_frames s) (Z.to_nat size))) s).
Proof.
  intros Hl (Hn & Hp & Hq & Hb) Hmost Hblock Hbusy Hfit Hlen Hopen.
  pose proof simple_layout as HL. change (BIG / 6 * 4) with 819200 in Hl.
  destruct (pairs W size Hfit) as [q ->]. destruct Hfit as [Hr _]. unfold BIG in *.
  unfold Simple.process_image. apply (ok_now W w fits).
  rewrite Hn, (wrap_small 32) by (unfold in_range; lia).
  set (m := 0 + Z.of_nat n + 1). assert (Hm : m = 0 + Z.of_nat (S n)) by lia.
  set (im1 := set_framecnt m im).
  assert (Him : counted Simple.dumps (0 + Z.of_nat (S n)) 0 im1)
    by (split; [cbn; lia|]; by do 2 (split; [done|])).
  assert (Htag : tag_fits Simple.dumps m) by (unfold tag_fits; cbn; lia).
  assert (Hmax : 2 * (4 * Z.of_nat q) <= INT_MAX) by (unfold INT_MAX; lia).
  pose proof (length_frame W (k_frames (tick s) - 1) (Z.to_nat len)) as Hp1.
  destruct (Z.eqb_spec f V4L2_PIX_FMT_GREY) as [->|_].
  { by apply (ok_raw W w fits Hclock _ HL _ _ wfuel Hw0 Hw false _ _ _ _ _ _ len); [apply grey_yuyv|..|lia| |]. }
  destruct (Z.eqb_spec f V4L2_PIX_FMT_YUYV) as [->|Hf].
  - apply (ok_load W w fits _ _ len); [done..|]. cbn [bigbuffer im1 set_framecnt].
    rewrite convert_rgb_spec by lia. cbn [or_wild mbind prog_bind]. rewrite (loaded_rgb W s len q Hlen).
    set (p := frame W _ _). assert (Hlp : length p = (4 * q)%nat) by (unfold p; rewrite length_frame; lia).
    unfold colours_from. rewrite Hlp, quarter.
    apply (ok_converted W w fits Hclock _ HL _ _ wfuel Hw0 Hw true false im1); [done| | |done|done|].
    + rewrite length_app, length_rgb, length_drop. unfold BIG. lia.
    + rewrite colour_pairs, length_rgb. lia.
    + by replace m with (Z.of_nat n + 1) by lia.
  - destruct (f =? V4L2_PIX_FMT_RGB24); [|by apply ok_skip].
    by apply (ok_raw W w fits Hclock _ HL _ _ wfuel Hw0 Hw true _ _ _ _ _ _ len); [..|lia| |].
Qed.
End lawful.

Lemma gprof_process {V : Videodev2} W w fits n im f start size s :
  counted Gprof.dumps (-8) n im -> Z.of_nat n < INT_MAX -> k_open s = None ->
  ok (P := linux W w fits) s (Gprof.process_image f start size im) (keeps w Gprof.dumps (-8) n f [] s).
Proof.
  intros (Hn & Hp & Hq & Hb) Hmost Hopen. unfold Gprof.process_image. apply (ok_now W w fits).
  rewrite Hn, swrap_int by (unfold INT_MIN, INT_MAX in *; lia). apply ok_timed, ok_skip; [|done|done].
  split; [cbn; lia|]. by do 2 (split; [done|]).
Qed.

(** Any frame at all, on a side that is neither willing nor fits. *)
Section calm.
Context {V : Videodev2} (W : world) (wfuel : nat).
#[local] Instance any_protocol : Protocol kernel call := linux W false false.

Definition calm (s s' : kernel) (im' : images) : Prop := quiet s s' /\ k_frames s' = S (k_frames s).

Lemma calm_dump_pgm L tm im p size tag time s :
  k_open s = None -> ok (tick s) (dump_pgm L tm wfuel im p size tag time) (calm s).
Proof. intros Ho. eapply ok_bind; [by apply (calm_dump W)|]. by intros s' d H. Qed.

Lemma calm_dump_ppm L tm im p size tag time s :
  k_open s = None -> ok (tick s) (dump_ppm L tm wfuel im p size tag time) (calm s).
Proof. intros Ho. eapply ok_bind; [by apply (calm_dump W)|]. by intros s' d H. Qed.

Lemma calm_convert {A} (o : option A) (f : A -> prog images) s Q :
  (forall x, ok s (f x) Q) -> ok s (x ← or_wild o; f x) Q.
Proof. intros H. destruct o; [apply H | done]. Qed.

Lemma calm_skip im s : k_open s = None -> ok (tick s) (Value im : prog images) (calm s).
Proof. done. Qed.

Lemma calm_timed {A} b s (f : unit -> prog A) Q : ok s (f tt) Q -> ok s (clock_if b ≫= f) Q.
Proof. apply (ok_timed W false false). Qed.

Context (f start size len : Z) (im : images) (s : kernel).
Context (Hb : block s start len) (Hbusy : ~ busy s start) (Ho : k_open s = None).

Lemma calm_load (g : list Z -> prog images) :
  (forall p, ok (tick s) (g p) (calm s)) -> ok (tick s) (memory_at start ≫= g) (calm s).
Proof using Hb Hbusy. intros H. by apply (ok_load W false false _ _ len). Qed.

(** Each format: loaded, converted, dumped, or nothing. *)
Ltac calm_steps :=
  repeat first [ apply calm_timed | apply calm_load; intros ? | apply calm_convert; intros ?
               | by apply calm_dump_pgm | by apply calm_dump_ppm | by apply calm_skip
               | match goal with |- context [if ?b then _ else _] => destruct b end ].

Lemma simple_calm : ok s (Simple.process_image wfuel f start size im) (calm s).
Proof using Hb Hbusy Ho. apply (ok_now W false false). cbv zeta. calm_steps. Qed.

Lemma capture1800_calm : ok s (Capture1800.process_image wfuel f start size im) (calm s).
Proof using Hb Hbusy Ho. apply (ok_now W false false). cbv zeta. calm_steps. Qed.

Lemma syslog_calm : ok s (Syslog.process_image wfuel f start size im) (calm s).
Proof using Hb Hbusy Ho. apply (ok_now W false false). cbv zeta. calm_steps. Qed.

Lemma gprof_calm : ok s (Gprof.process_image f start size im) (calm s).
Proof using Ho. apply (ok_now W false false). cbv zeta. calm_steps. Qed.
End calm.

Section instances.
Context {V : Videodev2} {SV : Sane V} (wfuel : nat) (Hw0 : (0 < wfuel)%nat).

Definition simple_lawful : Lawful (Simple.program wfuel).
Proof using SV Hw0.
  refine {| few_passes := Z.of_nat wfuel <= 2 ^ 31; images_ok := counted Simple.dumps 0; capacity := BIG / 6 * 4; most := 99999999;
            written := colours_from Simple.dumps |}.
  - done.
  - apply first_counted, simple_layout.
  - intros W w fits n im f start size len s Hw. intros. by eapply simple_process.
  - intros. by eapply simple_calm.
Defined.

Definition capture1800_lawful : Lawful (Capture1800.program wfuel).
Proof using SV Hw0.
  refine {| few_passes := Z.of_nat wfuel <= 2 ^ 31; images_ok := counted Capture1800.dumps (-8); capacity := 2 * BIG; most := 10007;
            written := lumas_from Capture1800.dumps |}.
  - done.
  - apply first_counted, capture1800_layout.
  - intros W w fits n im f start size len s Hw. intros. by eapply capture1800_process.
  - intros. by eapply capture1800_calm.
Defined.

Definition syslog_lawful : Lawful (Syslog.program wfuel).
Proof using SV Hw0.
  refine {| few_passes := Z.of_nat wfuel <= 2 ^ 31; images_ok := counted Syslog.dumps (-8); capacity := BIG / 6 * 4; most := 10007;
            written := lumas_from Syslog.dumps |}.
  - done.
  - apply first_counted, syslog_layout.
  - intros W w fits n im f start size len s Hw. intros. by eapply syslog_process.
  - intros. by eapply syslog_calm.
Defined.

Definition gprof_lawful : Lawful Gprof.program.
Proof.
  refine {| few_passes := True; images_ok := counted Gprof.dumps (-8); capacity := INT_MAX; most := INT_MAX;
            written := fun _ _ _ => [] |}.
  - done.
  - apply first_counted, syslog_layout.
  - intros W w fits n im f start size len s _. intros. by apply gprof_process.
  - intros. by eapply gprof_calm.
Defined.
End instances.

(** ** The theorems *)

Section capture.
Context {V : Videodev2} {B : Capturer} {LB : Lawful B} (W : world).

(** C12: a capture program, with any of the three ways to get at frames, on every
    device and disk, whichever call fails and wherever: every call is one that is
    taken at that point (nothing on a closed descriptor, no buffer queued that is
    queued, memory touched only while the device does not have it, freed once,
    unmapped as mapped, one dump file at a time), and when it returns everything
    is released.  An array is left, or an [int] overflows, only where something
    is larger than the program is made for, which nothing checks: a frame that is
    not made of whole pairs of pixels or that does not fit [bigbuffer]
    ([capacity]), more frames than the file names have digits for ([most]), a
    clock past the [int]s, or a dump whose loop makes more than 2^31 writes
    ([few_passes]).  On a willing device it returns, with the files of all its
    frames written. *)
Theorem capture_protocol w fits retries fuel argv1 opts o s v :
  (w = true -> fits = true /\ (0 < retries)%nat /\ u32 (frame_count o) <= Z.of_nat fuel) ->
  (fits = true -> ample W /\ u32 (frame_count o) <= most) ->
  parse_options argv1 opts = Some o ->
  behaves (P := linux W w fits) (idle [] 0) (main retries fuel argv1 opts) s v ->
  match v with
  | Returned im => s = idle (k_saved s) (Z.to_nat (u32 (frame_count o))) /\
      (w = true -> k_saved s = files_of W (Z.to_nat (u32 (frame_count o))))
  | Exited | StillRunning => w = false
  | OutOfBounds => fits = false
  | Violation _ => False
  end.
Proof.
  intros Hw Hf Ho Hb.
  pose proof (ok_behaves (P := linux W w fits) _ _ _ _ _
    (ok_main W w fits retries fuel (fun H => proj1 (proj2 (Hw H))) (fun H => proj1 (Hw H))
       (fun H => proj1 (Hf H)) argv1 opts o Ho (fun H => proj2 (Hf H)) (fun H => proj2 (proj2 (Hw H)))) Hb) as H.
  destruct v; try exact H. destruct H as (H1 & _ & H2). by split.
Qed.
End capture.

(** ** The files of simple-capture-1800 *)

(** File [k] holds the luminance of frame [k + 7]. *)
Definition capture1800_file (W : world) (k : nat) : list Z * list Z :=
  file Capture1800.dumps ".pgm" pgm_magic (Z.of_nat k) (clock W (k + 7))
    (lumas (frame W (k + 7) (Z.to_nat (frame_size W))) (Z.to_nat (frame_size W) / 4)).

Lemma lumas_from_seven W L n :
  concat (map (fun k => lumas_from L k (clock W k) (frame W k (Z.to_nat (frame_size W)))) (seq 0 n))
  = map (fun k => file L ".pgm" pgm_magic (Z.of_nat k) (clock W (k + 7))
           (lumas (frame W (k + 7) (Z.to_nat (frame_size W))) (Z.to_nat (frame_size W) / 4)))
        (seq 0 (n - 7)).
Proof.
  induction n as [|n IH]; [done|]. rewrite seq_S, map_app, concat_app, IH. cbn [map concat plus].
  rewrite app_nil_r. unfold lumas_from. destruct (Z.ltb_spec (Z.of_nat n) 7).
  - replace (S n - 7)%nat with (n - 7)%nat by lia. by rewrite app_nil_r.
  - replace (S n - 7)%nat with (S (n - 7)) by lia. rewrite seq_S, map_app. cbn [map plus].
    replace (n - 7 + 7)%nat with n by lia. replace (Z.of_nat n - 7) with (Z.of_nat (n - 7)) by lia.
    by rewrite length_frame.
Qed.

Section theorems.
Context {V : Videodev2} {SV : Sane V} (wfuel : nat).
Context (Hw0 : (0 < wfuel)%nat) (Hw : Z.of_nat wfuel <= 2 ^ 31).
Context (W : world) (Hclock : forall k, time_ok (clock W k)).

(** C13: simple-capture-1800 on a device that does what it is asked, with whichever of
    the three ways to get at frames: of [n] frames the first seven are dropped,
    not eight, and the others are in files numbered from 0, each its header, the
    header's terminator, and the luminance of the frame. *)
Theorem capture1800_files retries fuel argv1 opts o s v :
  limit W <= 2 * BIG -> (0 < retries)%nat ->
  parse_options (B := Capture1800.program wfuel) argv1 opts = Some o ->
  0 <= u32 (frame_count o) <= 10007 -> u32 (frame_count o) <= Z.of_nat fuel ->
  behaves (P := linux W true true) (idle [] 0) (Capture1800.main wfuel retries fuel argv1 opts) s v ->
  exists im, v = Returned im /\
    let n := Z.to_nat (u32 (frame_count o)) in
    s = idle (map (capture1800_file W) (seq 0 (n - 7))) n.
Proof.
  intros Hl Hr Ho Hm Hf Hb.
  pose proof (ok_behaves (P := linux W true true) _ _ _ _ _
    (ok_main (LB := capture1800_lawful wfuel Hw0) W true true retries fuel (fun _ => Hr) (fun _ => eq_refl)
       (fun _ => conj Hw (conj Hl Hclock)) argv1 opts o Ho (fun _ => proj2 Hm) (fun _ => Hf)) Hb) as H.
  destruct v as [im| | | |]; try done. exists im. split; [done|]. cbv zeta.
  destruct H as (Hs & _ & Hsaved). rewrite Hs. f_equal. rewrite (Hsaved eq_refl).
  apply lumas_from_seven.
Qed.
End theorems.

(** ** Where dumps cannot be created *)

Section stuck.
Context {V : Videodev2} (W : world) (fits : bool) (Hdisk : writable W = false).
#[local] Instance stuck_protocol : Protocol kernel call := linux W false fits.

(** Every write to a descriptor of -1 fails. *)
Lemma write_all_stuck fuel : forall s p size total s' v,
  k_open s = None -> total <= 0 -> 0 <= size -> total < size \/ total = 0 ->
  behaves s (write_all fuel (-1) p size total) s' v ->
  v = StillRunning \/ v = OutOfBounds /\ 2 ^ 31 < Z.of_nat fuel - total.
Proof.
  induction fuel as [|fuel IH]; intros s p size total s' v Ho Ht Hs Hts Hb; cbn [write_all] in Hb.
  { inversion Hb; subst. by left. }
  inversion Hb as [| | | | ??? Hn | ??? a ?? _ (Hd & _ & _) Hk]; subst; [by destruct Hn|].
  assert (He : exists e, a = Fail e).
  { destruct a as [e|u]; [by exists e|]. cbn in Hd. destruct Hd as [[f Hf] _]. by rewrite Ho in Hf. }
  destruct He as [e ->]. cbn in Hk. destruct (in_int (total + -1)) eqn:Hint.
  - rewrite (proj2 (Z.ltb_lt _ _)) in Hk by lia. apply IH in Hk; [|done|lia|done|lia].
    destruct Hk as [->|[-> Hk]]; [by left|]. right. split; [done|]. lia.
  - inversion Hk; subst. right. split; [done|].
    assert (~ (INT_MIN <= total + -1 <= INT_MAX)) by (rewrite <- in_int_iff; congruence).
    unfold INT_MIN, INT_MAX in *. lia.
Qed.

(** C14: where a dump file cannot be created, as when there is no directory "frames",
    a dump never returns: [open]'s result is not looked at, each [write] returns
    -1, and the total only falls, until it overflows. *)
Theorem dump_never_returns L tm wfuel suffix magic d p size tag time s s' v :
  layout_ok L -> arrays_ok L magic d -> suffix_ok suffix -> tag_fits L tag -> time_ok time ->
  0 <= size <= Z.of_nat (length p) -> k_open s = None ->
  behaves s (dump L tm wfuel suffix d p size tag time) s' v ->
  v = StillRunning \/ v = OutOfBounds /\ 2 ^ 31 < Z.of_nat wfuel.
Proof.
  intros HL Hd Hs Ht Htime Hsize Ho Hb. unfold dump in Hb.
  rewrite (next_name_spec L HL suffix magic), (next_header_spec L HL magic) in Hb by done.
  cbn [mbind prog_bind or_wild] in Hb. rewrite strlen_name in Hb by done.
  cbn [mbind prog_bind or_wild sys] in Hb.
  inversion Hb as [| | | | ??? Hn | ??? a ?? _ (Hda & _ & _) Hk]; subst; [by destruct Hn|].
  destruct a as [e|u]; [|cbn in Hda; rewrite Hdisk in Hda; by destruct Hda].
  cbn [file_result Sys.next stuck_protocol linux next] in Hk.
  inversion Hk as [| | | | ??? Hn | ??? a ?? _ (Hdb & _ & _) Hk2]; subst; [by destruct Hn|].
  destruct a as [e'|u]; [|cbn in Hdb; destruct Hdb as [[f Hf] _]; by rewrite Ho in Hf].
  cbn [Sys.next stuck_protocol linux next] in Hk2.
  rewrite (proj2 (Z.ltb_ge _ _)) in Hk2 by lia.
  apply behaves_bind in Hk2 as (s1 & v1 & H1 & H2).
  apply write_all_stuck in H1; [|done|lia|lia|lia]. rewrite Z.sub_0_r in H1.
  destruct H1 as [->|[-> H1]]; subst v; [by left | by right].
Qed.
End stuck.

(** ** Options *)

Lemma parse_options_device {B : Capturer} opts : forall o o',
  (forall x, x ∈ opts -> forall s, x <> opt_d s) ->
  fold_left (fun o x => o ← o; apply_option x o) opts (Some o) = Some o' -> dev_name o' = dev_name o.
Proof.
  induction opts as [|x opts IH]; intros o o' Hx H; cbn in H; [by injection H as <-|].
  assert (Hd : forall s, x <> opt_d s) by (apply Hx; set_solver).
  assert (Hrest : forall y, y ∈ opts -> forall s, y <> opt_d s) by (intros y Hy; apply Hx; set_solver).
  assert (Hnone : forall o'', fold_left (fun o x => o ← o; apply_option x o) opts None = Some o'' -> False).
  { clear. induction opts as [|y opts IH]; [done|]. cbn. apply IH. }
  destruct (apply_option x o) as [o1|] eqn:Ha; [|by destruct (Hnone o')].
  rewrite (IH o1 o' Hrest H). destruct x as [s| | | | | | |n []|]; cbn in Ha; try done;
    try (by injection Ha as <-). by destruct (Hd s).
Qed.

(** The device is the first argument, even when that is an option such as -r:
    only -d puts it right. *)
Theorem first_argument_is_the_device {B : Capturer} a opts o :
  (forall x, x ∈ opts -> forall s, x <> opt_d s) -> parse_options (Some a) opts = Some o -> dev_name o = a.
Proof. intros Hx H. by rewrite (parse_options_device opts _ _ Hx H). Qed.

(** ** Examples *)

(** The constants of linux/videodev2.h. *)
#[local] Instance videodev2 : Videodev2 :=
  {| V4L2_CAP_VIDEO_CAPTURE := 1; V4L2_CAP_READWRITE := 0x01000000; V4L2_CAP_STREAMING := 0x04000000;
     V4L2_PIX_FMT_GREY := 0x59455247; V4L2_PIX_FMT_YUYV := 0x56595559; V4L2_PIX_FMT_RGB24 := 0x33424752 |}.
#[local] Instance videodev2_sane : Sane videodev2.
Proof. by split. Qed.

(** A camera of 640x480 pixels. *)
Definition vga (limit : Z) : world :=
  {| pixels := fun k i => Z.of_nat (k + i) mod 256;
     clock := fun k => {| tv_sec := 1500000000 + Z.of_nat k mod 1000; tv_nsec := 250000000 |};
     SimpleCapture.limit := limit; frame_size := 614400; writable := true |}.

Lemma vga_clock l k : time_ok (clock (vga l) k).
Proof. unfold time_ok, INT_MAX. cbn. pose proof (Z.mod_pos_bound (Z.of_nat k) 1000). lia. Qed.

Lemma vga_fits l : 614400 <= l -> sized (vga l) (frame_size (vga l)).
Proof. intros Hl. split; [cbn; lia|]. by exists 153600. Qed.

Lemma one_le : (0 < 1)%nat. Proof. lia. Qed.
Lemma one_fits : Z.of_nat 1 <= 2 ^ 31. Proof. lia. Qed.

(** The defaults: 189 frames, of which 182 are saved. *)
Lemma capture1800_files_witness :
  exists s v, behaves (P := linux (vga (2 * BIG)) true true) (idle [] 0)
    (Capture1800.main 1 1 189 None []) s v /\
    s = idle (map (capture1800_file (vga (2 * BIG))) (seq 0 182)) 189.
Proof.
  assert (Hl : SimpleCapture.limit (vga (2 * BIG)) <= 2 * BIG) by done.
  assert (Ho : exists o, parse_options (B := Capture1800.program 1) None [] = Some o /\
    u32 (frame_count o) = 189) by by eexists.
  destruct Ho as (o & Ho & Hn).
  destruct (main_runs (vga (2 * BIG)) (vga_fits (2 * BIG) ltac:(done)) eq_refl
    (LB := capture1800_lawful 1 one_le) 1 189 None [] o (conj one_fits (conj Hl (vga_clock _))) one_le Ho
    ltac:(rewrite Hn; done) ltac:(rewrite Hn; done)) as (s & v & Hb).
  exists s, v. split; [exact Hb|].
  destruct (capture1800_files 1 one_le one_fits (vga (2 * BIG)) (vga_clock _) 1 189 None [] o s v
    Hl one_le Ho ltac:(rewrite Hn; by split) ltac:(rewrite Hn; done) Hb) as (im & _ & Hs).
  rewrite Hn in Hs. exact Hs.
Defined.

(** The syslog program with buffers of its own, ten frames, of which three are
    saved. *)
Lemma capture_protocol_witness :
  exists s im, behaves (P := linux (vga 819200) true true) (idle [] 0)
    (Syslog.main 1 1 10 (Some "/dev/video0"%string) [opt_u; opt_c 10 false]) s (Returned im) /\
    k_heap s = ∅ /\ length (k_saved s) = 3%nat.
Proof.
  set (opts := [opt_u; opt_c 10 false]).
  assert (Ho : exists o, parse_options (B := Syslog.program 1) (Some "/dev/video0"%string) opts = Some o /\
    u32 (frame_count o) = 10) by by eexists.
  destruct Ho as (o & Ho & Hn).
  assert (Ha : ample (LB := syslog_lawful 1 one_le) (vga 819200))
    by (split; [exact one_fits | split; [done | apply vga_clock]]).
  assert (Hm : u32 (frame_count o) <= most (Lawful := syslog_lawful 1 one_le)) by by rewrite Hn.
  destruct (main_runs (vga 819200) (vga_fits 819200 ltac:(done)) eq_refl
    (LB := syslog_lawful 1 one_le) 1 10 (Some "/dev/video0"%string) opts o Ha one_le Ho Hm
    ltac:(rewrite Hn; done)) as (s & v & Hb).
  pose proof (capture_protocol (LB := syslog_lawful 1 one_le) (vga 819200) true true 1 10
    (Some "/dev/video0"%string) opts o s v ltac:(rewrite Hn; by split; [|split; [lia|]])
    ltac:(done) Ho Hb) as H.
  destruct v as [im| | | |]; try done. exists s, im. split; [exact Hb|].
  destruct H as [Hs Hsaved]. split; [by rewrite Hs|]. rewrite (Hsaved eq_refl), Hn.
  unfold files_of. cbn [written syslog_lawful]. rewrite lumas_from_seven. by rewrite length_map, length_seq.
Defined.

(** A directory that is not there. *)
Definition no_frames : world :=
  {| pixels := fun _ _ => 0; clock := fun _ => {| tv_sec := 0; tv_nsec := 0 |};
     SimpleCapture.limit := 0; frame_size := 0; writable := false |}.

Definition one_dumper : dumper :=
  {| header := first_header Capture1800.dumps "P5"; dumpname := first_name Capture1800.dumps ".pgm" |}.
Definition epoch : timespec := {| tv_sec := 0; tv_nsec := 0 |}.

Lemma one_dumper_ok : arrays_ok Capture1800.dumps pgm_magic one_dumper.
Proof. by apply (first_arrays_ok _ capture1800_layout "P5"); [|right]. Qed.

Lemma dump_never_returns_witness :
  exists s v, behaves (P := linux no_frames false true) (idle [] 0)
    (dump Capture1800.dumps false 3 ".pgm" one_dumper [1; 2; 3; 4] 4 0 epoch) s v /\ v = StillRunning.
Proof.
  assert (Hp : suffix_ok ".pgm") by by right.
  assert (Ht : tag_fits Capture1800.dumps 0) by by split.
  assert (He : time_ok epoch) by by repeat split.
  assert (Hb : behaves (P := linux no_frames false true) (idle [] 0)
    (dump Capture1800.dumps false 3 ".pgm" one_dumper [1; 2; 3; 4] 4 0 epoch) (idle [] 0) StillRunning).
  { unfold dump. rewrite (next_name_spec _ capture1800_layout ".pgm" _ _ _ one_dumper_ok Hp Ht).
    rewrite (next_header_spec _ capture1800_layout _ _ _ one_dumper_ok He). cbn [mbind prog_bind or_wild].
    rewrite (strlen_name _ capture1800_layout _ _ Hp). cbn [mbind prog_bind or_wild sys].
    do 2 (eapply (behaves_call _ _ _ (Fail EINVAL)); [done | by split | cbn [file_result]]).
    cbn [length Z.of_nat Pos.of_succ_nat Pos.succ Z.ltb Z.compare Pos.compare Pos.compare_cont].
    do 3 (eapply (behaves_call _ _ _ (Fail EINVAL)); [done | by split | cbn]).
    constructor. }
  exists (idle [] 0), StillRunning. split; [exact Hb|].
  destruct (dump_never_returns no_frames true eq_refl Capture1800.dumps false 3 ".pgm" pgm_magic
    one_dumper [1; 2; 3; 4] 4 0 epoch (idle [] 0) (idle [] 0) StillRunning capture1800_layout
    one_dumper_ok Hp Ht He ltac:(by split) eq_refl Hb) as [H|[H _]]; done.
Defined.
