(* ===== verification/SeqCapture.v ===== *)
(** * The whole of seqv4l2.c: timer, services and frames

    The timer signals of [Sequencer.Seqv4l2], the frame operations of
    [Capture] and the conditions under which the services ask for the shutdown,
    composed: every signal runs the handler, then the services it released, in
    the order of their priorities and to completion before the next signal. *)
From Stdlib Require Import String.
From stdpp Require Import option list sets.
From S2P Require Import Prelude CString Timespec Sequencer Capture.
#[local] Open Scope Z_scope.

(** The handler's globals; the frames and how many the camera delivered; the
    first service's counter; [abortTest]; the services whose flags are set. *)
Record program := {
  timer : Seqv4l2.globals;
  cap : capture;
  delivered : nat;
  S1Cnt : Z;
  abortTest : bool;
  aborted : list nat
}.

Definition set_timer (g : Seqv4l2.globals) (p : program) : program :=
  {| timer := g; cap := cap p; delivered := delivered p; S1Cnt := S1Cnt p;
     abortTest := abortTest p; aborted := aborted p |}.

Section program.
Context (frame_size : Z) (fmt : pixelformat) (camera : nat -> list Z) (clock : Z -> timespec)
  (fuel : nat) (wr : nat -> Z).

(** What an action of the handler leads to: a flag is set; a posted service
    whose flag is set leaves its loop; otherwise its body runs, and the first
    and the third may set [abortTest]. *)
Definition respond (a : action) (p : program) : outcome (option program) :=
  match a with
  | Abort svcs =>
      Ret (Some {| timer := timer p; cap := cap p; delivered := delivered p; S1Cnt := S1Cnt p;
                   abortTest := abortTest p; aborted := svcs ++ aborted p |})
  | Post i =>
      if decide (i ∈ aborted p) then Ret (Some p) else
      r ← serve frame_size fmt camera clock fuel wr a (cap p, delivered p);
      match r with
      | None => Ret None
      | Some (st, n) =>
          let cnt := if (i =? 0)%nat then u64 (S1Cnt p + 1) else S1Cnt p in
          Ret (Some {| timer := timer p; cap := st; delivered := n; S1Cnt := cnt;
                       abortTest := abortTest p
                         || ((i =? 0)%nat && Seqv4l2.acquisition_aborts cnt)
                         || ((i =? 2)%nat && Seqv4l2.storage_aborts (save_framecnt st));
                       aborted := aborted p |})
      end
  | Exit => Ret (Some p)
  end.

Fixpoint respond_all (acts : list action) (p : program) : outcome (option program) :=
  match acts with
  | [] => Ret (Some p)
  | a :: acts =>
      r ← respond a p; match r with None => Ret None | Some p => respond_all acts p end
  end.

(** Signals until the timer is disarmed, at most [n]; [None] is [exit]. *)
Fixpoint run (n : nat) (p : program) : outcome (option program) :=
  if Seqv4l2.armed (timer p) then
    match n with
    | O => NoFuel
    | S n =>
        let '(g, acts) := Seqv4l2.Sequencer (abortTest p) (timer p) in
        r ← respond_all acts (set_timer g p);
        match r with None => Ret None | Some p => run n p end
    end
  else Ret (Some p).

(** [main]: the first frame, then the timer. *)
Definition main (scratch n : nat) : outcome (option program) :=
  r ← seq_read camera 0 (capture0 frame_size scratch);
  match r with
  | None => Ret None
  | Some st =>
      run n {| timer := Seqv4l2.itime_armed; cap := st; delivered := 1; S1Cnt := 0;
               abortTest := false; aborted := [] |}
  end.

(** ** The file counter *)

Lemma seq_read_counts n st st' :
  seq_read camera n st = Ret (Some st') -> save_framecnt st' = save_framecnt st.
Proof using Type.
  unfold seq_read, seq_frame_read, read_frame. intros H. case_match; [|done]. case_match. case_match.
  simplify_eq. revert H. case_match; simplify_eq.
  destruct (aget _ _); [|done]. step_run. destruct (ring_put _ _ _); [|done]. step_run.
  by intros [= <-].
Qed.

Lemma process_counts st st' c :
  seq_frame_process frame_size fmt st = Ret (st', c) -> save_framecnt st' = save_framecnt st.
Proof using Type.
  intros H. unfold seq_frame_process in H. destruct (aget _ _) as [p|]; [|done].
  revert H. cbn [lift]. unfold process_image. step_run.
  destruct (match fmt with YUYV => _ | _ => _ end) as [s| |]; [|done..]. step_run.
  by intros [= <- _].
Qed.

Lemma store_counts time st st' c :
  seq_frame_store frame_size fmt fuel wr time st = Ret (st', c) ->
  save_framecnt st' = swrap 32 (save_framecnt st + 1).
Proof using Type.
  intros H. unfold seq_frame_store, save_image in H.
  destruct fmt; unfold save_pgm, save_ppm in H; revert H; capture_simpl;
    repeat (case_match; try done); step_run; try (by intros [= <- _]).
  all: match goal with |- context [dump_ppm ?b ?c ?d ?e ?f ?g ?h] =>
         destruct (dump_ppm b c d e f g h) as [[d' fl]| |]
       | |- context [dump_pgm ?b ?c ?d ?e ?f ?g ?h] =>
         destruct (dump_pgm b c d e f g h) as [[d' fl]| |] end; try done;
    step_run; by intros [= <- _].
Qed.

(** A posted service: the frames delivered and the files written. *)
Lemma serve_counts i st n st' n' :
  serve frame_size fmt camera clock fuel wr (Post i) (st, n) = Ret (Some (st', n')) ->
  save_framecnt st' = (if (i =? 2)%nat then swrap 32 (save_framecnt st + 1) else save_framecnt st).
Proof using Type.
  intros H. destruct i as [|[|[|i]]]; cbn [serve fst snd Nat.eqb] in *.
  - destruct (seq_read _ _ _) as [[s1|]| |] eqn:E; try done. revert H. step_run. intros [= <- _].
    by eapply seq_read_counts.
  - destruct (seq_frame_process _ _ _) as [[s1 c]| |] eqn:E; try done. revert H. step_run. cbn [fst].
    intros [= <- _]. by eapply process_counts.
  - destruct (seq_frame_store _ _ _ _ _ _) as [[s1 c]| |] eqn:E; try done. revert H. step_run. cbn [fst].
    intros [= <- _]. by eapply store_counts.
  - by injection H as <- _.
Qed.

(** ** Before the shutdown *)

(** No flag is set, [abortTest] is set exactly when ten files were written,
    and the first service is below its limit. *)
Record going (p : program) : Prop := {
  go_aborted : aborted p = [];
  go_saved : 0 <= save_framecnt (cap p) <= 10;
  go_test : abortTest p = (save_framecnt (cap p) =? 10);
  go_S1 : 0 <= S1Cnt p <= 250
}.

(** A posted service, when the limits are not exceeded. *)
Lemma respond_post i p st n :
  going p ->
  serve frame_size fmt camera clock fuel wr (Post i) (cap p, delivered p) = Ret (Some (st, n)) ->
  save_framecnt (cap p) + nposts 2 [Post i] <= 10 -> S1Cnt p + nposts 0 [Post i] <= 250 ->
  exists p', respond (Post i) p = Ret (Some p') /\ cap p' = st /\ delivered p' = n /\
    timer p' = timer p /\ going p' /\
    save_framecnt st = save_framecnt (cap p) + nposts 2 [Post i] /\
    S1Cnt p' = S1Cnt p + nposts 0 [Post i].
Proof using Type.
  intros [Ha Hs Ht H1] Hr Hs10 H250. pose proof (serve_counts i _ _ _ _ Hr) as Hc.
  cbn [respond]. rewrite Ha, decide_False by set_solver. rewrite Hr. step_run.
  eexists. split; [reflexivity|]. cbn [cap delivered timer S1Cnt]. split; [done|]. split; [done|].
  split; [done|].
  assert (save_framecnt st = save_framecnt (cap p) + nposts 2 [Post i] /\
    (if (i =? 0)%nat then u64 (S1Cnt p + 1) else S1Cnt p) = S1Cnt p + nposts 0 [Post i]) as [Hsv HS1].
  { cbn [nposts] in *. destruct i as [|[|[|i]]]; cbn [Nat.eqb] in *;
      repeat case_decide; try done; rewrite ?Hc, ?wrap_small, ?swrap_int
        by (unfold in_range, INT_MIN, INT_MAX; lia); lia. }
  split; [|exact (conj Hsv HS1)]. split; cbn [aborted cap abortTest S1Cnt].
  - done.
  - pose proof (nposts_nonneg 2 [Post i]). lia.
  - rewrite HS1, Hsv, Ht. unfold Seqv4l2.acquisition_aborts, Seqv4l2.storage_aborts.
    rewrite (proj2 (Z.ltb_ge 250 _)) by lia. rewrite andb_false_r, orb_false_r.
    cbn [nposts] in *. destruct i as [|[|[|i]]]; cbn [Nat.eqb andb] in *; repeat case_decide; try done;
      rewrite ?orb_false_r, ?Z.add_0_r; try done.
    rewrite (proj2 (Z.eqb_neq (save_framecnt (cap p)) 10)) by lia. done.
  - rewrite HS1. pose proof (nposts_nonneg 0 [Post i]). lia.
Qed.

Definition is_post (a : action) : Prop := match a with Post _ => True | _ => False end.

Lemma nposts_cons i a l : nposts i (a :: l) = nposts i [a] + nposts i l.
Proof using Type. apply (nposts_app i [a] l). Qed.

Lemma respond_posts acts : forall p st n,
  Forall is_post acts -> going p ->
  serve_all frame_size fmt camera clock fuel wr acts (cap p, delivered p) = Ret (Some (st, n)) ->
  save_framecnt (cap p) + nposts 2 acts <= 10 -> S1Cnt p + nposts 0 acts <= 250 ->
  exists p', respond_all acts p = Ret (Some p') /\ cap p' = st /\ delivered p' = n /\
    timer p' = timer p /\ going p' /\ save_framecnt st = save_framecnt (cap p) + nposts 2 acts /\
    S1Cnt p' = S1Cnt p + nposts 0 acts.
Proof using Type.
  induction acts as [|a acts IH]; intros p st n Hp Hg Hr Hs H1; cbn [serve_all respond_all] in *.
  { injection Hr as <- <-. exists p. cbn [nposts]. rewrite !Z.add_0_r. by repeat (split; [done|]). }
  inversion Hp as [|? ? Ha Hrest]; subst. destruct a as [i|svcs|]; try done.
  rewrite (nposts_cons 2 (Post i) acts) in Hs. rewrite (nposts_cons 0 (Post i) acts) in H1.
  pose proof (nposts_nonneg 2 acts). pose proof (nposts_nonneg 0 acts).
  destruct (serve _ _ _ _ _ _ _ _) as [[[s1 n1]|]| |] eqn:E; try done. revert Hr. step_run. intros Hr.
  destruct (respond_post i p s1 n1 Hg E) as (p1 & -> & <- & <- & Ht & Hg1 & Hs1 & H11); [lia|lia|].
  step_run. destruct (IH p1 st n Hrest Hg1 Hr) as (p2 & H2 & Hc & Hn & Ht2 & Hg2 & Hs2 & H12); [lia|lia|].
  exists p2. split; [exact H2|]. split; [done|]. split; [done|]. split; [congruence|]. split; [done|].
  rewrite (nposts_cons 2 (Post i) acts), (nposts_cons 0 (Post i) acts). lia.
Qed.

Lemma release_posts table c : Forall is_post (release table c).
Proof using Type.
  apply List.Forall_forall. intros a Ha. unfold release in Ha. apply in_flat_map in Ha as ([i q] & _ & Ha).
  case_match; [|by destruct Ha]. by destruct Ha as [<-|[]].
Qed.

Lemma serve_all_split acts acts' s s' :
  serve_all frame_size fmt camera clock fuel wr (acts ++ acts') s = Ret (Some s') ->
  exists s1, serve_all frame_size fmt camera clock fuel wr acts s = Ret (Some s1) /\
    serve_all frame_size fmt camera clock fuel wr acts' s1 = Ret (Some s').
Proof using Type.
  revert s. induction acts as [|a acts IH]; intros s H; cbn [app serve_all] in *; [by exists s|].
  destruct (serve _ _ _ _ _ _ _ _) as [[s1|]| |]; try done. revert H. step_run. apply IH.
Qed.

(** [k] signals before the shutdown: what their actions do. *)
Lemma run_signals k : forall c p st n m,
  0 <= c -> c + Z.of_nat k < 2 ^ 64 ->
  timer p = {| Seqv4l2.seqCnt := c; Seqv4l2.armed := true |} -> going p ->
  serve_all frame_size fmt camera clock fuel wr (cycles Seqv4l2.table (c + 1) k) (cap p, delivered p)
    = Ret (Some (st, n)) ->
  (k = 0%nat \/ save_framecnt (cap p) + nposts 2 (cycles Seqv4l2.table (c + 1) (k - 1)) < 10) ->
  save_framecnt (cap p) + nposts 2 (cycles Seqv4l2.table (c + 1) k) <= 10 ->
  S1Cnt p + nposts 0 (cycles Seqv4l2.table (c + 1) k) <= 250 ->
  exists p', run (k + m) p = run m p' /\ cap p' = st /\ delivered p' = n /\ going p' /\
    timer p' = {| Seqv4l2.seqCnt := c + Z.of_nat k; Seqv4l2.armed := true |}.
Proof using Type.
  induction k as [|k IH]; intros c p st n m Hc Hw Ht Hg Hr Hlt Hs H1.
  { rewrite cycles_O in Hr. injection Hr as <- <-. exists p. rewrite Z.add_0_r.
    by repeat (split; [done|]). }
  destruct Hlt as [?|Hlt]; [lia|]. cbn [Nat.add run]. rewrite Ht. cbn [Seqv4l2.armed].
  rewrite cycles_S in Hr, Hs, H1. rewrite nposts_app in Hs, H1.
  pose proof (nposts_nonneg 2 (cycles Seqv4l2.table (c + 1 + 1) k)).
  pose proof (nposts_nonneg 0 (cycles Seqv4l2.table (c + 1 + 1) k)).
  pose proof (nposts_nonneg 2 (cycles Seqv4l2.table (c + 1) (S k - 1))).
  apply serve_all_split in Hr as ([s1 n1] & Hr1 & Hr).
  assert (abortTest p = false) as ->.
  { rewrite (go_test p Hg). apply Z.eqb_neq. lia. }
  unfold Seqv4l2.Sequencer. cbn [Seqv4l2.seqCnt Seqv4l2.armed app].
  rewrite wrap_small by (unfold in_range; lia).
  destruct (respond_posts (release Seqv4l2.table (c + 1))
    (set_timer {| Seqv4l2.seqCnt := c + 1; Seqv4l2.armed := true |} p) s1 n1)
    as (p1 & -> & Hc1 & Hn1 & Ht1 & Hg1 & Hs1 & H11); [apply release_posts| |exact Hr1| | |].
  { destruct Hg. by split. } { cbn [set_timer cap]. lia. } { cbn [set_timer S1Cnt]. lia. }
  step_run. cbn [set_timer timer cap S1Cnt] in *. rewrite <- Hc1, <- Hn1 in Hr.
  destruct (IH (c + 1) p1 st n m) as (p2 & Hrun & Hc2 & Hn2 & Hg2 & Ht2); try done; [lia|lia| |rewrite Hc1; lia|lia|].
  - destruct k as [|k]; [by left|]. right. rewrite Hc1, Hs1.
    cbn [Nat.sub] in Hlt |- *. rewrite cycles_S, nposts_app in Hlt. rewrite Nat.sub_0_r. lia.
  - exists p2. split; [exact Hrun|]. split; [done|]. split; [done|]. split; [done|].
    rewrite Ht2. f_equal. lia.
Qed.

(** The signal that finds [abortTest] set disarms the timer and ends the
    services. *)
Lemma run_shutdown c p m :
  0 <= c -> c + 1 < 2 ^ 64 -> timer p = {| Seqv4l2.seqCnt := c; Seqv4l2.armed := true |} ->
  abortTest p = true -> release Seqv4l2.table (c + 1) = [] ->
  exists p', run (S m) p = Ret (Some p') /\ cap p' = cap p /\ delivered p' = delivered p /\
    timer p' = {| Seqv4l2.seqCnt := c + 1; Seqv4l2.armed := false |} /\
    forall i, (i < 3)%nat -> i ∈ aborted p'.
Proof using Type.
  intros Hc Hw Ht Ha Hrel. cbn [run]. rewrite Ht. cbn [Seqv4l2.armed]. rewrite Ha.
  unfold Seqv4l2.Sequencer. cbn [Seqv4l2.seqCnt Seqv4l2.armed].
  rewrite wrap_small by (unfold in_range; lia). rewrite Hrel, app_nil_r.
  cbn [abort_all post_all map seq app respond_all respond]. step_run.
  cbn [aborted app]. do 3 (rewrite decide_True by set_solver; step_run).
  destruct m; cbn [run timer set_timer Seqv4l2.armed]; (eexists; split; [reflexivity|]);
    cbn [cap delivered timer aborted set_timer]; repeat (split; [done|]); intros i Hi;
    (destruct i as [|[|[|i]]]; [set_solver..|lia]).
Qed.
End program.

Lemma posts_1000 :
  nposts 2 (cycles Seqv4l2.table 1 1000) = 10 /\ nposts 2 (cycles Seqv4l2.table 1 999) = 9 /\
  nposts 0 (cycles Seqv4l2.table 1 1000) = 50.
Proof. vm_compute. done. Qed.

(** C7: seqv4l2.c from its first frame to its end, with a camera that delivers
    complete YUYV frames, complete writes, and services that finish before the
    next timer signal: after the tenth file the third service asks for the
    shutdown, signal 1001 disarms the timer and sets all three flags, and the
    program has read 51 frames and written exactly ten files, the [j]-th with
    number [j], the time it was processed and the RGB conversion of frame
    [5 * j].  The first service's limit of 250 frames is not reached. *)
Theorem seqv4l2_writes_ten_files (q scratch fuel m : nat) (camera : nat -> list Z)
    (clock : Z -> timespec) (wr : nat -> Z) :
  let frame_size := 4 * Z.of_nat q in
  (forall n, length (camera n) = (4 * q)%nat) -> (forall c, time_ok (clock c)) ->
  wr 0%nat = 48 -> wr 1%nat = 6 * Z.of_nat q -> (6 * q <= scratch)%nat ->
  exists p, main frame_size YUYV camera clock (S fuel) wr scratch (1000 + S m) = Ret (Some p) /\
    timer p = {| Seqv4l2.seqCnt := 1001; Seqv4l2.armed := false |} /\
    (forall i, (i < 3)%nat -> i ∈ aborted p) /\
    delivered p = 51%nat /\
    files (cap p) = map (fun j =>
      (file_name ".ppm" (Z.of_nat j),
       header_text ppm_magic (clock (Z.of_nat j)) ++ rgb (camera (5 * j)%nat) q)) (rev (seq 1 10)).
Proof.
  intros frame_size Hcam Hclock Hw0 Hw1 Hs.
  destruct (frame_read_ok q camera Hcam 0 0 0 (replicate (6 * q) 0) [] (capture0 frame_size scratch))
    as (s1 & Hr1 & Hok1); [unfold INT_MAX; lia|lia|by apply capture0_ok|].
  destruct (serve_batches q camera Hcam clock fuel wr Hclock (conj Hw0 Hw1) 10 s1 _ ltac:(lia) Hok1)
    as (s2 & img & H2 & Hok2).
  change (100 * 10)%nat with 1000%nat in H2. change (5 * 10 + 1)%nat with 51%nat in H2.
  destruct posts_1000 as (Hp & Hp9 & Hp0).
  unfold main. fold frame_size. rewrite Hr1. step_run.
  set (p0 := {| timer := _; cap := s1; delivered := 1; S1Cnt := 0; abortTest := false; aborted := [] |}).
  pose proof (ok_save _ _ _ _ _ _ _ _ Hok1) as Hsave1. pose proof (ok_save _ _ _ _ _ _ _ _ Hok2) as Hsave2.
  destruct (run_signals frame_size YUYV camera clock (S fuel) wr 1000 0 p0 s2 51 (S m))
    as (p1 & Hrun & Hc1 & Hn1 & Hg1 & Ht1).
  - lia.
  - lia.
  - reflexivity.
  - split; [reflexivity|cbn [p0 cap]; rewrite Hsave1; lia| |cbn [p0 S1Cnt]; lia].
    cbn [p0 abortTest cap]. rewrite Hsave1. reflexivity.
  - exact H2.
  - right. cbn [p0 cap]. rewrite Hsave1. change (1000 - 1)%nat with 999%nat.
    change (0 + 1) with 1. rewrite Hp9. reflexivity.
  - cbn [p0 cap]. rewrite Hsave1. change (0 + 1) with 1. rewrite Hp. discriminate.
  - cbn [p0 S1Cnt]. change (0 + 1) with 1. rewrite Hp0. discriminate.
  - destruct (run_shutdown frame_size YUYV camera clock (S fuel) wr 1000 p1 m) as (p2 & Hrun2 & Hc2 & Hn2 & Ht2 & Ha2).
    + lia.
    + lia.
    + exact Ht1.
    + rewrite (go_test p1 Hg1), Hc1, Hsave2. reflexivity.
    + reflexivity.
    + exists p2. split; [by rewrite Hrun|]. split; [exact Ht2|]. split; [exact Ha2|].
      split; [congruence|]. rewrite Hc2, Hc1. exact (ok_files _ _ _ _ _ _ _ _ Hok2).
Qed.

(** A witness with frames of one group of four bytes. *)
Lemma seqv4l2_writes_ten_files_witness :
  exists p, main 4 YUYV (fun n => [Z.of_nat n; 128; 16; 128])
      (fun c => {| tv_sec := Z.max 0 (Z.min c INT_MAX); tv_nsec := 5000000 |}) 1
      (fun i => match i with O => 48 | _ => 6 end) 8 1001 = Ret (Some p) /\
    delivered p = 51%nat /\ length (files (cap p)) = 10%nat.
Proof.
  destruct (seqv4l2_writes_ten_files 1 8 0 0 (fun n => [Z.of_nat n; 128; 16; 128])
      (fun c => {| tv_sec := Z.max 0 (Z.min c INT_MAX); tv_nsec := 5000000 |})
      (fun i => match i with O => 48 | _ => 6 end)) as (p & H & _ & _ & Hd & Hf).
  - reflexivity.
  - intros c. unfold time_ok, INT_MAX. cbn [tv_sec tv_nsec]. lia.
  - reflexivity.
  - reflexivity.
  - lia.
  - exists p. split; [exact H|]. split; [exact Hd|]. by rewrite Hf.
Defined.
