(* ===== verification/Crc.v ===== *)
(** * The CRC of example-3/: crc.c and crc.h

    [crc.h] selects one of three standards, [crc.c] computes its CRC bit by
    bit ([crcSlow]) and with a table ([crcInit], [crcFast]).  A standard is a
    record of the macros of [crc.h]; [LONG] is the number of bits of
    [unsigned long], which is 32 on the 32-bit targets of the Makefiles and 64
    on LP64.  The shifts of an [int] follow gcc: the result wraps to 32 bits
    and a count of 32 or more is undefined ([None]). *)
From S2P Require Import Prelude.

(** ** crc.h *)

Record crc_std := {
  WIDTH : Z;                (** [8 * sizeof(crc)] *)
  POLYNOMIAL : Z;
  INITIAL_REMAINDER : Z;
  FINAL_XOR_VALUE : Z;
  REFLECT_DATA_flag : bool;
  REFLECT_REMAINDER_flag : bool
}.

Definition CRC_CCITT : crc_std :=
  {| WIDTH := 16; POLYNOMIAL := 0x1021; INITIAL_REMAINDER := 0xFFFF;
     FINAL_XOR_VALUE := 0x0000; REFLECT_DATA_flag := false;
     REFLECT_REMAINDER_flag := false |}.

Definition CRC16 : crc_std :=
  {| WIDTH := 16; POLYNOMIAL := 0x8005; INITIAL_REMAINDER := 0x0000;
     FINAL_XOR_VALUE := 0x0000; REFLECT_DATA_flag := true;
     REFLECT_REMAINDER_flag := true |}.

(** [typedef unsigned long crc;] *)
Definition CRC32 (LONG : Z) : crc_std :=
  {| WIDTH := LONG; POLYNOMIAL := 0x04C11DB7; INITIAL_REMAINDER := 0xFFFFFFFF;
     FINAL_XOR_VALUE := 0xFFFFFFFF; REFLECT_DATA_flag := true;
     REFLECT_REMAINDER_flag := true |}.

Section code.
Context (LONG : Z) (std : crc_std).

(** [x << n] for an [int] [x]. *)
Definition shl_int (x n : Z) : option Z :=
  if (0 <=? n) && (n <? 32) then Some (i32 (x .<< n)) else None.

Definition TOPBIT : option Z := shl_int 1 (WIDTH std - 1).

(** One pass of the loop of [reflect]. *)
Definition reflect_bit (nBits : Z) (bit : nat) (s : Z * Z) : option (Z * Z) :=
  let '(reflection, data) := s in
  reflection ←
    (if Z.odd data then
       b ← shl_int 1 ((nBits - 1) - Z.of_nat bit); Some (reflection .| wrap LONG b)
     else Some reflection);
  Some (reflection, data .>> 1).

Definition reflect (data nBits : Z) : option Z :=
  fst <$> for_loop (Z.to_nat nBits) 0 (reflect_bit nBits) (0, data).

(** The macros [REFLECT_DATA] and [REFLECT_REMAINDER]. *)
Definition REFLECT_DATA (X : Z) : option Z :=
  if REFLECT_DATA_flag std then r ← reflect X 8; Some (u8 r) else Some X.

Definition REFLECT_REMAINDER (X : Z) : option Z :=
  if REFLECT_REMAINDER_flag std
  then r ← reflect X (WIDTH std); Some (wrap (WIDTH std) r) else Some X.

(** The [if] statement of the inner loops: divide the current bit. *)
Definition divide_bit (remainder : Z) : option Z :=
  top ← TOPBIT;
  Some (if negb (remainder .& wrap (WIDTH std) top =? 0)
        then wrap (WIDTH std) ((remainder .<< 1) .^ POLYNOMIAL std)
        else wrap (WIDTH std) (remainder .<< 1)).

Definition divide_byte (remainder : Z) : option Z :=
  for_loop 8 0 (fun _ => divide_bit) remainder.

Definition crcSlow (message : list Z) (nBytes : Z) : option Z :=
  remainder ←
    for_loop (Z.to_nat nBytes) 0 (fun byte remainder =>
      m ← message !! byte;
      d ← REFLECT_DATA m;
      x ← shl_int d (WIDTH std - 8);
      divide_byte (wrap (WIDTH std) (remainder .^ x)))
      (INITIAL_REMAINDER std);
  r ← REFLECT_REMAINDER remainder;
  Some (wrap (WIDTH std) (r .^ FINAL_XOR_VALUE std)).

(** The new contents of the global [crcTable]. *)
Definition crcInit (crcTable : list Z) : option (list Z) :=
  for_loop 256 0 (fun dividend crcTable =>
    x ← shl_int (Z.of_nat dividend) (WIDTH std - 8);
    remainder ← divide_byte (wrap (WIDTH std) x);
    nset crcTable dividend remainder) crcTable.

Definition crcFast (crcTable message : list Z) (nBytes : Z) : option Z :=
  remainder ←
    for_loop (Z.to_nat nBytes) 0 (fun byte remainder =>
      m ← message !! byte;
      d ← REFLECT_DATA m;
      let data := u8 (d .^ (remainder .>> (WIDTH std - 8))) in
      t ← aget crcTable data;
      Some (wrap (WIDTH std) (t .^ (remainder .<< 8))))
      (INITIAL_REMAINDER std);
  r ← REFLECT_REMAINDER remainder;
  Some (wrap (WIDTH std) (r .^ FINAL_XOR_VALUE std)).
End code.

(** ** Check values *)

(** The characters of ["123456789"], the message of the check values. *)
Definition check_message : list Z := [49; 50; 51; 52; 53; 54; 55; 56; 57].

Definition zero_table : list Z := replicate 256 0.

Example check_ccitt : crcSlow 32 CRC_CCITT check_message 9 = Some 0x29B1.
Proof. vm_compute. reflexivity. Qed.
Example check_crc16 : crcSlow 64 CRC16 check_message 9 = Some 0xBB3D.
Proof. vm_compute. reflexivity. Qed.
Example check_crc32 : crcSlow 32 (CRC32 32) check_message 9 = Some 0xCBF43926.
Proof. vm_compute. reflexivity. Qed.
Example check_crc32_fast :
  (t ← crcInit (CRC32 32) zero_table; crcFast 32 (CRC32 32) t check_message 9)
  = Some 0xCBF43926.
Proof. vm_compute. reflexivity. Qed.
Example check_crc32_lp64 : crcSlow 64 (CRC32 64) check_message 9 = None.
Proof. vm_compute. reflexivity. Qed.

(** ** Division by the polynomial as a linear map

    [step] multiplies a remainder by [x] modulo the polynomial; it is linear
    over exclusive or, it is injective when the polynomial is odd, and below
    the top bit it is a plain shift. *)
Section linear.
Context (W P : Z) (HW : 1 <= W) (HP : in_range W P).

Definition step (r : Z) : Z :=
  wrap W (r .<< 1) .^ (if Z.testbit r (W - 1) then P else 0).

Lemma lxor_if (b c : bool) (p : Z) :
  (if xorb b c then p else 0) = (if b then p else 0) .^ (if c then p else 0).
Proof using. destruct b, c; simpl; rewrite ?Z.lxor_nilpotent, ?Z.lxor_0_r, ?Z.lxor_0_l; done. Qed.

Lemma wrap_lxor w a b : 0 <= w -> wrap w (a .^ b) = wrap w a .^ wrap w b.
Proof using.
  intros. bits i. by destruct (i <? w).
Qed.

Lemma step_lxor a b : step (a .^ b) = step a .^ step b.
Proof.
  unfold step. rewrite Z.lxor_spec, lxor_if, Z.shiftl_lxor, wrap_lxor by lia.
  rewrite !Z.lxor_assoc. f_equal. rewrite <- !Z.lxor_assoc. f_equal. apply Z.lxor_comm.
Qed.

Lemma in_range_0 w : 0 <= w -> in_range w 0.
Proof using. intros. unfold in_range. pose proof (Z.pow_pos_nonneg 2 w). lia. Qed.

Lemma step_range r : in_range W (step r).
Proof.
  unfold step. apply lxor_range; [lia | apply wrap_range; lia |].
  destruct (Z.testbit _ _); [done | apply in_range_0; lia].
Qed.

Lemma step_shift x : in_range (W - 1) x -> step x = x .<< 1.
Proof.
  intros Hx. unfold step. pose proof Hx as [H0 H]%in_range_bits; [| lia].
  rewrite (H (W - 1)), Z.lxor_0_r by lia. apply wrap_small.
  unfold in_range in *. rewrite Z.shiftl_mul_pow2 by lia.
  replace (2 ^ W) with (2 ^ (W - 1) * 2 ^ 1) by (rewrite <- Z.pow_add_r; [f_equal |..]; lia).
  lia.
Qed.

Lemma step_kernel r : Z.odd P = true -> in_range W r -> step r = 0 -> r = 0.
Proof.
  intros Hodd Hr Hs. pose proof Hr as [H0 H]%in_range_bits; [| lia].
  assert (Ht : Z.testbit r (W - 1) = false).
  { destruct (Z.testbit r (W - 1)) eqn:Ht; [| done]. exfalso.
    pose proof (f_equal (fun z => Z.testbit z 0) Hs) as Hb. cbn beta in Hb.
    unfold step in Hb. rewrite Ht, Z.bits_0 in Hb. autorewrite with zbits in Hb.
    rewrite (Z.testbit_neg_r r (0 - 1)), andb_false_r, xorb_false_l, Z.bit0_odd in Hb by lia. congruence. }
  apply Z.bits_inj'. intros i Hi. rewrite Z.bits_0.
  destruct (Z.lt_ge_cases i (W - 1)); [| destruct (decide (i = W - 1)) as [-> |];
    [done | apply H; lia]].
  pose proof (f_equal (fun z => Z.testbit z (i + 1)) Hs) as Hb. cbn beta in Hb.
  unfold step in Hb. rewrite Ht, Z.lxor_0_r, Z.bits_0, wrap_testbit in Hb by lia.
  rewrite (proj2 (Z.ltb_lt (i + 1) W)), Z.shiftl_spec in Hb by lia. simpl in Hb.
  by replace (i + 1 - 1) with i in Hb by lia.
Qed.

Lemma iter_lxor k a b : Nat.iter k step (a .^ b) = Nat.iter k step a .^ Nat.iter k step b.
Proof. induction k as [| k IH]; [done |]. by rewrite !Nat.iter_succ, IH, step_lxor. Qed.

Lemma iter_range k r : in_range W r -> in_range W (Nat.iter k step r).
Proof. intros Hr. destruct k; [done |]. apply step_range. Qed.

Lemma iter_shift k x :
  Z.of_nat k <= W -> in_range (W - Z.of_nat k) x -> Nat.iter k step x = x .<< Z.of_nat k.
Proof.
  revert x. induction k as [| k IH]; intros x Hk Hx; [by rewrite Z.shiftl_0_r |].
  rewrite Nat.iter_succ.
  rewrite IH; [| lia |].
  - rewrite step_shift.
    + rewrite Z.shiftl_shiftl by lia. f_equal. lia.
    + unfold in_range in *. rewrite Z.shiftl_mul_pow2 by lia.
      replace (2 ^ (W - 1)) with (2 ^ (W - Z.of_nat (S k)) * 2 ^ Z.of_nat k)
        by (rewrite <- Z.pow_add_r; [f_equal |..]; lia).
      pose proof (Z.pow_pos_nonneg 2 (Z.of_nat k)). nia.
  - unfold in_range in *.
    pose proof (Z.pow_le_mono_r 2 (W - Z.of_nat (S k)) (W - Z.of_nat k)). lia.
Qed.

Lemma iter_kernel k r :
  Z.odd P = true -> in_range W r -> Nat.iter k step r = 0 -> r = 0.
Proof.
  intros Hodd Hr. induction k as [| k IH]; [done |]. rewrite Nat.iter_succ. intros H.
  apply IH, step_kernel; [done | by apply iter_range | done].
Qed.
End linear.

(** ** Bit strings *)

Section bitstrings.

(** The value of a bit string, most significant bit first. *)
Fixpoint bits_val (bs : list bool) : Z :=
  match bs with
  | [] => 0
  | b :: bs => (Z.b2z b .<< Z.of_nat (length bs)) .^ bits_val bs
  end.

Lemma b2z_shift_range b k w : 0 <= k < w -> in_range w (Z.b2z b .<< k).
Proof.
  intros Hk. unfold in_range. rewrite Z.shiftl_mul_pow2 by lia.
  pose proof (Z.pow_pos_nonneg 2 k). pose proof (Z.pow_lt_mono_r 2 k w).
  destruct b; simpl Z.b2z; lia.
Qed.

Lemma in_range_mono w w' x : 0 <= w <= w' -> in_range w x -> in_range w' x.
Proof. unfold in_range. intros Hw. pose proof (Z.pow_le_mono_r 2 w w'). lia. Qed.

Lemma bits_val_range bs : in_range (Z.of_nat (length bs)) (bits_val bs).
Proof.
  induction bs as [| b bs IH]; [by apply in_range_0 |]. cbn [bits_val length].
  apply lxor_range; [lia | apply b2z_shift_range; lia |].
  eapply in_range_mono; [| exact IH]. lia.
Qed.

Lemma bits_val_testbit bs i :
  0 <= i < Z.of_nat (length bs) ->
  Z.testbit (bits_val bs) i = default false (rev bs !! Z.to_nat i).
Proof.
  induction bs as [| b bs IH]; cbn [bits_val length]; intros Hi; [lia |].
  rewrite Z.lxor_spec, Z.shiftl_spec by lia. cbn [rev]. destruct (decide (i = Z.of_nat (length bs))) as [-> | Hne].
  - rewrite Z.sub_diag. pose proof (bits_val_range bs) as [_ H]%in_range_bits; [| lia].
    rewrite (H (Z.of_nat (length bs))), xorb_false_r, Nat2Z.id by lia.
    rewrite lookup_app_r by (rewrite length_rev; lia).
    rewrite length_rev, Nat.sub_diag. by destruct b.
  - rewrite (Z.testbit_neg_r _ (i - _)), xorb_false_l, IH by lia.
    by rewrite lookup_app_l by (rewrite length_rev; lia).
Qed.

Lemma bits_val_inj bs bs' :
  length bs = length bs' -> bits_val bs = bits_val bs' -> bs = bs'.
Proof.
  intros Hlen H. rewrite <- (rev_involutive bs), <- (rev_involutive bs'). f_equal.
  apply list_eq_same_length with (length bs); [by rewrite length_rev | by rewrite length_rev |].
  intros i x y Hi Hx Hy.
  pose proof (f_equal (fun z => Z.testbit z (Z.of_nat i)) H) as Hb. cbn beta in Hb.
  rewrite !bits_val_testbit, Nat2Z.id in Hb by lia. by rewrite Hx, Hy in Hb.
Qed.

Context (W P : Z) (HW : 1 <= W) (HP : in_range W P).

(** The register after one message bit. *)
Definition absorb (r : Z) (b : bool) : Z := step W P (r .^ (Z.b2z b .<< (W - 1))).

Lemma absorb_range bs r : in_range W r -> in_range W (fold_left absorb bs r).
Proof using HW HP.
  revert r. induction bs as [| b bs IH]; intros r Hr; [done |]. apply IH, step_range; done.
Qed.

(** A bit string that fits the register enters it as one exclusive or. *)
Lemma absorb_bits bs r :
  Z.of_nat (length bs) <= W ->
  fold_left absorb bs r =
    Nat.iter (length bs) (step W P) (r .^ (bits_val bs .<< (W - Z.of_nat (length bs)))).
Proof using HW HP.
  revert r. induction bs as [| b bs IH]; intros r Hlen.
  { cbn. by rewrite Z.shiftl_0_l, Z.lxor_0_r. }
  cbn [fold_left length bits_val] in *. rewrite IH by lia.
  unfold absorb. rewrite Nat.iter_succ_r. f_equal.
  rewrite Z.shiftl_lxor, Z.shiftl_shiftl, <- Z.lxor_assoc by lia.
  replace (Z.of_nat (length bs) + _) with (W - 1) by lia.
  rewrite (step_lxor W P HW (r .^ _)). f_equal.
  rewrite step_shift by
    (try done; unfold in_range; pose proof (bits_val_range bs) as Hr; unfold in_range in Hr;
     rewrite Z.shiftl_mul_pow2 by lia;
     replace (2 ^ (W - 1)) with (2 ^ Z.of_nat (length bs) * 2 ^ (W - Z.of_nat (S (length bs))))
       by (rewrite <- Z.pow_add_r; [f_equal |..]; lia);
     pose proof (Z.pow_pos_nonneg 2 (W - Z.of_nat (S (length bs)))); nia).
  rewrite Z.shiftl_shiftl by lia. f_equal. lia.
Qed.

(** The register is injective in the bits of a window no longer than it. *)
Lemma absorb_window_inj u u' r :
  Z.odd P = true -> in_range W r -> length u = length u' -> Z.of_nat (length u) <= W ->
  fold_left absorb u r = fold_left absorb u' r -> u = u'.
Proof using HW HP.
  intros Hodd Hr Hlen HuW. rewrite !absorb_bits, <- Hlen by lia. intros H.
  set (k := W - Z.of_nat (length u)) in *.
  assert (Hsh : forall v, length v = length u -> in_range W (bits_val v .<< k)).
  { intros v Hv. pose proof (bits_val_range v) as Hb. rewrite Hv in Hb. unfold in_range in *.
    rewrite Z.shiftl_mul_pow2 by lia.
    replace (2 ^ W) with (2 ^ Z.of_nat (length u) * 2 ^ k)
      by (rewrite <- Z.pow_add_r; [f_equal |..]; lia).
    pose proof (Z.pow_pos_nonneg 2 k). nia. }
  apply bits_val_inj; [done |]. apply Z.lxor_eq.
  apply Z.lxor_eq_0_iff in H. rewrite <- iter_lxor in H by done.
  apply iter_kernel in H; [| done.. |].
  2: { repeat apply lxor_range; auto; lia. }
  replace (_ .^ _) with ((bits_val u .^ bits_val u') .<< k) in H.
  - by rewrite Z.shiftl_eq_0_iff in H by lia.
  - rewrite Z.shiftl_lxor. bits i.
    by repeat match goal with |- context [Z.testbit ?a ?b] => destruct (Z.testbit a b) end.
Qed.

(** Equal windows keep different registers different. *)
Lemma absorb_inj bs r r' :
  Z.odd P = true -> in_range W r -> in_range W r' ->
  fold_left absorb bs r = fold_left absorb bs r' -> r = r'.
Proof using HW HP.
  intros Hodd. revert r r'. induction bs as [| b bs IH]; intros r r' Hr Hr' H; [done |].
  cbn [fold_left] in H. apply IH in H; [| apply step_range; done..].
  unfold absorb in H. apply Z.lxor_eq.
  apply Z.lxor_eq_0_iff in H. rewrite <- step_lxor in H by done.
  rewrite Z.lxor_assoc, (Z.lxor_comm _ (r' .^ _)), Z.lxor_assoc, Z.lxor_nilpotent,
    Z.lxor_0_r in H.
  apply step_kernel in H; try done. by apply lxor_range; [lia | |].
Qed.
End bitstrings.

(** ** What the loops compute *)

(** The standards the arithmetic of the code supports. *)
Record supported (LONG : Z) (std : crc_std) : Prop := {
  width_bounds : 8 <= WIDTH std <= 32;
  poly_range : in_range (WIDTH std) (POLYNOMIAL std);
  poly_odd : Z.odd (POLYNOMIAL std) = true;
  init_range : in_range (WIDTH std) (INITIAL_REMAINDER std);
  long_bounds : 32 <= LONG;
  long_width : WIDTH std < 32 \/ LONG = 32
}.

(** The bits of a message byte in the order in which they are divided. *)
Definition byte_bits (std : crc_std) (m : Z) : list bool :=
  let l := map (fun i => Z.testbit m (Z.of_nat i)) (seq 0 8) in
  if REFLECT_DATA_flag std then l else rev l.

Definition message_bits (std : crc_std) (message : list Z) : list bool :=
  List.flat_map (byte_bits std) message.

Section link.
Context (LONG : Z) (std : crc_std) (Hs : supported LONG std).
Abbreviation W := (WIDTH std).
Abbreviation P := (POLYNOMIAL std).

Lemma width_pos : 1 <= W.
Proof. destruct (width_bounds _ _ Hs). lia. Qed.

Lemma shl_one_long n j :
  0 <= j < n -> n <= 31 \/ n = 32 /\ LONG = 32 ->
  exists b, shl_int 1 j = Some b /\ wrap LONG b = 1 .<< j.
Proof.
  intros Hj Hn. pose proof (long_bounds _ _ Hs). unfold shl_int.
  assert ((0 <=? j) && (j <? 32) = true) as -> by lia. eexists; split; [done |].
  destruct (decide (j = 31)) as [-> | Hj31].
  { destruct Hn as [Hn | [_ ->]]; [lia |]. done. }
  assert (0 <= 1 .<< j < 2 ^ 31).
  { rewrite Z.shiftl_1_l. pose proof (Z.pow_lt_mono_r 2 j 31). pose proof (Z.pow_pos_nonneg 2 j). lia. }
  rewrite swrap_small by (lia || done). apply wrap_small. unfold in_range.
  pose proof (Z.pow_le_mono_r 2 31 LONG). lia.
Qed.

Lemma in_range_ext w a b :
  0 <= w -> in_range w a -> in_range w b ->
  (forall i, 0 <= i < w -> Z.testbit a i = Z.testbit b i) -> a = b.
Proof using.
  intros Hw Ha%in_range_bits Hb%in_range_bits H; [| done..].
  apply Z.bits_inj'. intros i Hi. destruct (Z.lt_ge_cases i w).
  - by apply H.
  - rewrite (proj2 Ha), (proj2 Hb); done.
Qed.

Lemma length_byte_bits m : length (byte_bits std m) = 8%nat.
Proof using. unfold byte_bits. by destruct (REFLECT_DATA_flag std). Qed.

Lemma byte_bits_range m : byte (bits_val (byte_bits std m)).
Proof using.
  pose proof (bits_val_range (byte_bits std m)) as Hr. by rewrite length_byte_bits in Hr.
Qed.

(** The position of bit [i] in the bit string of a byte. *)
Lemma byte_bits_testbit m i :
  0 <= i < 8 ->
  Z.testbit (bits_val (byte_bits std m)) i =
    Z.testbit m (if REFLECT_DATA_flag std then 7 - i else i).
Proof using.
  intros Hi.
  rewrite bits_val_testbit by (rewrite length_byte_bits; lia). unfold byte_bits.
  assert (i = 0 \/ i = 1 \/ i = 2 \/ i = 3 \/ i = 4 \/ i = 5 \/ i = 6 \/ i = 7)
    as Hc by lia.
  destruct (REFLECT_DATA_flag std);
    do 7 (destruct Hc as [-> | Hc]; [done |]); by subst i.
Qed.

(** [reflect] moves bit [i] to bit [nBits - 1 - i]. *)
Lemma reflect_spec data n :
  0 <= data -> 0 <= n -> n <= 31 \/ n = 32 /\ LONG = 32 ->
  exists r, reflect LONG data n = Some r /\ in_range n r /\
    forall i, Z.testbit r i = (0 <=? i) && (i <? n) && Z.testbit data (n - 1 - i).
Proof.
  intros Hd Hn0 Hn. unfold reflect.
  edestruct (for_loop_option (fun k s =>
      snd s = data .>> Z.of_nat k /\ 0 <= fst s /\
      forall i, Z.testbit (fst s) i = (n - 1 - Z.of_nat k <? i) && (i <? n)
                                      && Z.testbit data (n - 1 - i))
    (reflect_bit LONG n) (Z.to_nat n) 0 (0, data)) as ([r d] & Hr & _ & Hr0 & Hbits).
  - split; [by rewrite Z.shiftr_0_r | split; [done |]]. intros i. simpl.
    rewrite Z.bits_0. repeat zcase; simpl; try done; lia.
  - intros k [r d] Hk (Hd' & Hr0 & Hbits). simpl in *. unfold reflect_bit.
    assert (Z.odd d = Z.testbit data (Z.of_nat k)) as Hodd.
    { rewrite <- Z.bit0_odd, Hd', Z.shiftr_spec by lia. done. }
    destruct (shl_one_long n (n - 1 - Z.of_nat k)) as (b & Hb & Hbv); [lia | done |].
    exists ((if Z.odd d then r .| (1 .<< (n - 1 - Z.of_nat k)) else r), d .>> 1).
    split; [destruct (Z.odd d); rewrite ?Hb; step_option; by rewrite ?Hbv |]. simpl. split; [| split].
    + rewrite Hd', Z.shiftr_shiftr by lia. f_equal. lia.
    + destruct (Z.odd d); [| done]. apply Z.lor_nonneg. split; [done |].
      by apply Z.shiftl_nonneg.
    + intros i.
      assert (Hif : Z.testbit (if Z.odd d then r .| (1 .<< (n - 1 - Z.of_nat k)) else r) i
                    = Z.testbit r i || (Z.odd d && (i =? n - 1 - Z.of_nat k))).
      { destruct (Z.odd d); simpl; [| by rewrite orb_false_r].
        rewrite Z.lor_spec, Z.shiftl_1_l. f_equal.
        rewrite Z.pow2_bits_eqb by lia. apply Z.eqb_sym. }
      rewrite Hif, Hbits, Hodd. destruct (Z.eqb_spec i (n - 1 - Z.of_nat k)) as [He | Hne].
      * replace (n - 1 - i) with (Z.of_nat k) by lia.
        repeat zcase; simpl; try lia. by rewrite andb_true_r.
      * rewrite andb_false_r, orb_false_r. do 2 f_equal.
        repeat zcase; simpl; (done || lia).
  - exists r. rewrite Hr. split; [done |]. simpl in *. split.
    + apply in_range_bits; [done |]. split; [done |]. intros i Hi. rewrite Hbits.
      rewrite (proj2 (Z.ltb_ge i n)) by lia. by rewrite andb_false_r.
    + intros i. rewrite Hbits. destruct (Z.leb_spec 0 i), (Z.ltb_spec (n - 1 - Z.of_nat (Z.to_nat n)) i);
        simpl; (done || lia).
Qed.

Lemma REFLECT_DATA_spec m :
  byte m ->
  exists d, REFLECT_DATA LONG std m = Some d /\ byte d /\ d = bits_val (byte_bits std m).
Proof.
  intros Hm. pose proof (long_bounds _ _ Hs).
  enough (exists d, REFLECT_DATA LONG std m = Some d /\ d = bits_val (byte_bits std m))
    as (d & Hd & ->).
  { eexists. split; [exact Hd |]. split; [apply byte_bits_range | done]. }
  unfold REFLECT_DATA. destruct (REFLECT_DATA_flag std) eqn:Hf.
  - destruct (reflect_spec m 8) as (r & -> & Hr & Hbits); [apply Hm | lia | lia |].
    eexists. split; [done |]. rewrite (wrap_small 8 r Hr).
    apply (in_range_ext 8); [done | done | apply byte_bits_range |].
    intros i Hi. rewrite Hbits, byte_bits_testbit, Hf by lia.
    replace (8 - 1 - i) with (7 - i) by lia. assert ((0 <=? i) && (i <? 8) = true) as -> by lia. done.
  - eexists. split; [done |].
    apply (in_range_ext 8); [done | done | apply byte_bits_range |].
    intros i Hi. by rewrite byte_bits_testbit, Hf by lia.
Qed.

Lemma shl_int_low x j w :
  0 <= x < 2 ^ w -> 0 <= w -> 0 <= j < 32 -> w + j <= 32 ->
  exists y, shl_int x j = Some y /\ wrap (w + j) y = x .<< j.
Proof using.
  intros Hx Hw Hj Hwj. unfold shl_int.
  assert ((0 <=? j) && (j <? 32) = true) as -> by lia. eexists; split; [done |].
  assert (0 <= x .<< j < 2 ^ (w + j)) as Hr.
  { rewrite Z.shiftl_mul_pow2, Z.pow_add_r by lia. pose proof (Z.pow_pos_nonneg 2 j). nia. }
  rewrite wrap_swrap by lia. by apply wrap_small.
Qed.

Lemma TOPBIT_spec : exists t, TOPBIT std = Some t /\ wrap W t = 2 ^ (W - 1).
Proof.
  destruct (width_bounds _ _ Hs). unfold TOPBIT.
  destruct (shl_int_low 1 (W - 1) 1) as (y & -> & Hy); [lia.. |].
  exists y. split; [done |]. replace (1 + (W - 1)) with W in Hy by lia.
  by rewrite Hy, Z.shiftl_1_l.
Qed.

Lemma divide_bit_spec r : in_range W r -> divide_bit std r = Some (step W P r).
Proof.
  intros Hr. destruct (width_bounds _ _ Hs). unfold divide_bit.
  destruct TOPBIT_spec as (t & -> & Ht). step_option. rewrite Ht. clear t Ht. f_equal.
  unfold step.
  assert (Hb : negb (r .& 2 ^ (W - 1) =? 0) = Z.testbit r (W - 1)).
  { destruct (Z.testbit r (W - 1)) eqn:Ht.
    - apply negb_true_iff, Z.eqb_neq. intros Hz.
      apply (f_equal (fun z => Z.testbit z (W - 1))) in Hz.
      rewrite Z.land_spec, Ht, Z.pow2_bits_true, Z.bits_0 in Hz by lia. done.
    - apply negb_false_iff, Z.eqb_eq. apply Z.bits_inj'. intros i Hi.
      rewrite Z.land_spec, Z.bits_0, Z.pow2_bits_eqb by lia.
      destruct (Z.eqb_spec (W - 1) i) as [<- |]; [by rewrite Ht | by rewrite andb_false_r]. }
  rewrite Hb. destruct (Z.testbit r (W - 1)); [| by rewrite Z.lxor_0_r].
  rewrite wrap_lxor by lia. f_equal. apply wrap_small, Hs.
Qed.

Lemma divide_byte_spec r :
  in_range W r -> divide_byte std r = Some (Nat.iter 8 (step W P) r).
Proof.
  intros Hr. unfold divide_byte.
  destruct (for_loop_option (fun k s => s = Nat.iter k (step W P) r)
    (fun _ => divide_bit std) 8 0 r) as (s & -> & ->); [done | | done].
  intros k s _ ->. eexists. split; [apply divide_bit_spec, iter_range; try apply Hs; auto using width_pos |].
  by rewrite Nat.add_1_r, Nat.iter_succ.
Qed.

(** One byte of [crcSlow] is eight message bits. *)
Lemma slow_byte r m :
  in_range W r -> byte m ->
  exists x d, REFLECT_DATA LONG std m = Some d /\ shl_int d (W - 8) = Some x /\
    divide_byte std (wrap W (r .^ x)) = Some (fold_left (absorb W P) (byte_bits std m) r).
Proof.
  intros Hr Hm. destruct (width_bounds _ _ Hs).
  destruct (REFLECT_DATA_spec m Hm) as (d & Hd & Hdb & Hdv).
  destruct (shl_int_low d (W - 8) 8) as (x & Hx & Hxv); [apply Hdb | lia.. |].
  replace (8 + (W - 8)) with W in Hxv by lia.
  exists x, d. split; [done |]. split; [done |].
  rewrite wrap_lxor, Hxv, (wrap_small W r Hr) by lia.
  rewrite divide_byte_spec.
  - rewrite absorb_bits, length_byte_bits, <- Hdv; [done | lia | apply Hs | rewrite length_byte_bits; lia].
  - rewrite <- Hxv. apply lxor_range; [lia | done | apply wrap_range; lia].
Qed.

Lemma slow_loop message r n :
  in_range W r -> Forall byte message -> (n <= length message)%nat ->
  for_loop n 0 (fun byte remainder =>
      m ← message !! byte;
      d ← REFLECT_DATA LONG std m;
      x ← shl_int d (W - 8);
      divide_byte std (wrap W (remainder .^ x))) r
  = Some (fold_left (absorb W P) (message_bits std (take n message)) r).
Proof.
  intros Hr Hbytes Hn.
  destruct (for_loop_option (fun k s =>
      s = fold_left (absorb W P) (message_bits std (take k message)) r)
    (fun byte remainder =>
      m ← message !! byte;
      d ← REFLECT_DATA LONG std m;
      x ← shl_int d (W - 8);
      divide_byte std (wrap W (remainder .^ x))) n 0 r) as (s & -> & ->); [done | | done].
  intros k s Hk ->. destruct (lookup_lt_is_Some_2 message k) as [m Hm]; [lia |].
  rewrite Hm. step_option. eexists. split; [| done].
  edestruct slow_byte as (x & d & -> & Hx & Hd);
    [| by eapply Forall_lookup_1 |]; [| step_option; rewrite Hx; step_option; rewrite Hd].
  - apply absorb_range; [apply width_pos | apply Hs | done].
  - f_equal. rewrite Nat.add_1_r, (take_S_r _ _ _ Hm). unfold message_bits.
    rewrite List.flat_map_app, fold_left_app. cbn [List.flat_map]. by rewrite app_nil_r.
Qed.

(** ** The table *)

Definition entry (d : Z) : Z := Nat.iter 8 (step W P) (d .<< (W - 8)).

Lemma entry_arg_range d : byte d -> in_range W (d .<< (W - 8)).
Proof.
  intros Hd. destruct (width_bounds _ _ Hs). unfold in_range in *.
  rewrite Z.shiftl_mul_pow2 by lia.
  replace (2 ^ W) with (2 ^ 8 * 2 ^ (W - 8)) by (rewrite <- Z.pow_add_r; [f_equal |..]; lia).
  pose proof (Z.pow_pos_nonneg 2 (W - 8)). nia.
Qed.

Lemma divide_entry d : byte d -> divide_byte std (d .<< (W - 8)) = Some (entry d).
Proof. intros Hd. by apply divide_byte_spec, entry_arg_range. Qed.

Definition table_ok (t : list Z) : Prop :=
  length t = 256%nat /\ forall d, byte d -> aget t d = Some (entry d).

Lemma crcInit_table t0 :
  length t0 = 256%nat -> exists t, crcInit std t0 = Some t /\ table_ok t.
Proof.
  intros Hlen. destruct (width_bounds _ _ Hs). unfold crcInit.
  match goal with |- context [for_loop 256 0 ?body t0] =>
    destruct (for_loop_option (fun k t => length t = 256%nat /\
      forall d, 0 <= d < Z.of_nat k -> aget t d = Some (entry d)) body 256 0 t0)
    as (t & Ht & Hl & Hget) end;
    [split; [exact Hlen | intros d Hd; simpl in Hd; lia] | | exists t; split; [exact Ht | split; [done |]]].
  - intros k t Hk (Hl & Hget). cbn beta.
    destruct (shl_int_low (Z.of_nat k) (W - 8) 8) as (x & -> & Hx); [lia.. |]. step_option.
    replace (8 + (W - 8)) with W in Hx by lia.
    rewrite Hx, divide_entry by (unfold in_range; lia). step_option.
    rewrite nset_Some by lia.
    eexists. split; [reflexivity |]. rewrite length_insert. split; [done |]. intros d Hd.
    unfold aget. rewrite (proj2 (Z.leb_le 0 d)) by lia. destruct (decide (d = Z.of_nat k)) as [-> |].
    + rewrite Nat2Z.id. apply list_lookup_insert_eq. lia.
    + rewrite list_lookup_insert_ne by lia. specialize (Hget d ltac:(lia)).
      unfold aget in Hget. by rewrite (proj2 (Z.leb_le 0 d)) in Hget by lia.
  - intros d Hd. apply Hget. apply Hd.
Qed.

(** The table step divides a whole byte. *)
Lemma fast_byte t r m :
  table_ok t -> in_range W r -> byte m ->
  exists d e, REFLECT_DATA LONG std m = Some d /\
    aget t (u8 (d .^ (r .>> (W - 8)))) = Some e /\
    wrap W (e .^ (r .<< 8)) = fold_left (absorb W P) (byte_bits std m) r.
Proof.
  intros [_ Ht] Hr Hm. destruct (width_bounds _ _ Hs).
  destruct (REFLECT_DATA_spec m Hm) as (d & Hd & Hdb & Hdv).
  assert (Hhi : byte (r .>> (W - 8))).
  { unfold in_range in *. rewrite Z.shiftr_div_pow2 by lia.
    split; [apply Z.div_pos; [lia | apply Z.pow_pos_nonneg; lia] |].
    apply Z.div_lt_upper_bound; [apply Z.pow_pos_nonneg; lia |].
    rewrite <- Z.pow_add_r by lia. replace (W - 8 + 8) with W by lia. lia. }
  assert (Hx : byte (d .^ (r .>> (W - 8)))) by (apply lxor_range; done).
  exists d, (entry (d .^ (r .>> (W - 8)))). split; [done |]. split.
  { rewrite wrap_small by done. by apply Ht. }
  set (lo := wrap (W - 8) r).
  assert (Hlo : in_range (W - 8) lo) by (apply wrap_range; lia).
  assert (Hsplit : r .^ (d .<< (W - 8)) = ((d .^ (r .>> (W - 8))) .<< (W - 8)) .^ lo).
  { bits i. unfold lo. autorewrite with zbits. destruct (Z.ltb_spec i (W - 8)); simpl.
    - rewrite !(Z.testbit_neg_r _ (i - (W - 8))) by lia.
      by destruct (Z.testbit r i).
    - rewrite Z.shiftr_spec by lia. replace (i - (W - 8) + (W - 8)) with i by lia.
      by rewrite xorb_false_r, xorb_comm. }
  assert (Hwrap : wrap W (r .<< 8) = lo .<< 8).
  { bits i. unfold lo. destruct (Z.lt_ge_cases i 8).
    - rewrite !(Z.testbit_neg_r _ (i - 8)) by lia. by rewrite andb_false_r.
    - rewrite wrap_testbit by lia. f_equal. repeat zcase; lia || done. }
  rewrite absorb_bits, length_byte_bits, <- Hdv by
    (try apply Hs; try apply width_pos; rewrite ?length_byte_bits; lia).
  replace (W - Z.of_nat 8) with (W - 8) by lia.
  rewrite Hsplit, iter_lxor by apply width_pos.
  rewrite (iter_shift W P width_pos 8 lo) by (lia || done).
  rewrite wrap_lxor, Hwrap by lia. f_equal. apply wrap_small, iter_range;
    [apply width_pos | apply Hs | by apply entry_arg_range].
Qed.

Lemma fast_loop t message r n :
  table_ok t -> in_range W r -> Forall byte message -> (n <= length message)%nat ->
  for_loop n 0 (fun byte remainder =>
      m ← message !! byte;
      d ← REFLECT_DATA LONG std m;
      let data := u8 (d .^ (remainder .>> (W - 8))) in
      e ← aget t data;
      Some (wrap W (e .^ (remainder .<< 8)))) r
  = Some (fold_left (absorb W P) (message_bits std (take n message)) r).
Proof.
  intros Ht Hr Hbytes Hn.
  destruct (for_loop_option (fun k s =>
      s = fold_left (absorb W P) (message_bits std (take k message)) r)
    (fun byte remainder =>
      m ← message !! byte;
      d ← REFLECT_DATA LONG std m;
      let data := u8 (d .^ (remainder .>> (W - 8))) in
      e ← aget t data;
      Some (wrap W (e .^ (remainder .<< 8)))) n 0 r) as (s & -> & ->); [done | | done].
  intros k s Hk ->. destruct (lookup_lt_is_Some_2 message k) as [m Hm]; [lia |].
  rewrite Hm. step_option. eexists. split; [| done].
  edestruct (fast_byte t) as (d & e & -> & He & Hd);
    [done | | by eapply Forall_lookup_1 |];
    [| step_option; cbn zeta; rewrite He; step_option; rewrite Hd].
  - apply absorb_range; [apply width_pos | apply Hs | done].
  - f_equal. rewrite Nat.add_1_r, (take_S_r _ _ _ Hm). unfold message_bits.
    rewrite List.flat_map_app, fold_left_app. cbn [List.flat_map]. by rewrite app_nil_r.
Qed.

(** The output stage is injective. *)
Lemma output_spec r :
  in_range W r -> exists c, REFLECT_REMAINDER LONG std r = Some c /\ in_range W c.
Proof.
  intros Hr. destruct (width_bounds _ _ Hs). unfold REFLECT_REMAINDER.
  destruct (REFLECT_REMAINDER_flag std); [| by eexists].
  destruct (reflect_spec r W) as (c & -> & Hc & _);
    [apply Hr | lia | destruct (long_width _ _ Hs); lia |].
  eexists. split; [done |]. apply wrap_range. lia.
Qed.

Lemma output_inj r r' c :
  in_range W r -> in_range W r' ->
  REFLECT_REMAINDER LONG std r = Some c -> REFLECT_REMAINDER LONG std r' = Some c -> r = r'.
Proof.
  intros Hr Hr'. destruct (width_bounds _ _ Hs). unfold REFLECT_REMAINDER.
  destruct (REFLECT_REMAINDER_flag std); [| congruence].
  assert (W <= 31 \/ W = 32 /\ LONG = 32) as HL by (destruct (long_width _ _ Hs); lia).
  destruct (reflect_spec r W) as (d & -> & Hd & Hb); [apply Hr | lia | done |].
  destruct (reflect_spec r' W) as (d' & -> & Hd' & Hb'); [apply Hr' | lia | done |].
  step_option. rewrite !wrap_small by done. intros [= <-] [= <-].
  apply (in_range_ext W); [lia | done | done |]. intros i Hi.
  pose proof (Hb (W - 1 - i)) as E. rewrite Hb' in E.
  replace (W - 1 - (W - 1 - i)) with i in E by lia.
  destruct (Z.leb_spec 0 (W - 1 - i)), (Z.ltb_spec (W - 1 - i) W); simpl in E; (done || lia).
Qed.
End link.

Lemma for_loop_eq {S} (inv : S -> Prop) (b1 b2 : nat -> S -> option S) n i s :
  inv s -> (forall j s, inv s -> b1 j s = b2 j s) ->
  (forall j s s', inv s -> b1 j s = Some s' -> inv s') ->
  for_loop n i b1 s = for_loop n i b2 s.
Proof.
  intros Hi Heq Hinv. revert i s Hi. induction n as [| n IH]; intros i s Hi; [done |].
  simpl. rewrite <- Heq by done. destruct (b1 i s) as [s' |] eqn:Hb; [| done].
  simpl. eapply IH, Hinv; done.
Qed.

Lemma supported_ccitt LONG : 32 <= LONG -> supported LONG CRC_CCITT.
Proof. intros H. split; unfold in_range; simpl; (done || lia). Qed.
Lemma supported_crc16 LONG : 32 <= LONG -> supported LONG CRC16.
Proof. intros H. split; unfold in_range; simpl; (done || lia). Qed.
Lemma supported_crc32 : supported 32 (CRC32 32).
Proof. split; unfold in_range; simpl; (done || lia). Qed.

(** ** Properties *)

(** C5: [crcInit] fills the table without undefined behaviour and from then
    on the table-driven [crcFast] returns exactly what the bit-by-bit
    [crcSlow] returns, on every message and every length (both undefined when
    the length runs past the message). *)
Theorem crcFast_is_crcSlow LONG std t0 :
  supported LONG std -> length t0 = 256%nat ->
  exists t, crcInit std t0 = Some t /\
    forall message nBytes, Forall byte message ->
      crcFast LONG std t message nBytes = crcSlow LONG std message nBytes.
Proof.
  intros Hs Ht0. destruct (crcInit_table LONG std Hs t0 Ht0) as (t & Ht & Hok).
  exists t. split; [done |]. intros message nBytes Hm. unfold crcFast, crcSlow.
  match goal with |- (_ ← for_loop _ _ ?b1 _; _) = (_ ← for_loop _ _ ?b2 _; _) =>
    rewrite (for_loop_eq (in_range (WIDTH std)) b1 b2) end; [done | apply Hs | |]; cbn beta.
  - intros j r Hr. destruct (message !! j) as [m |] eqn:Hj; [| done].
    pose proof (Forall_lookup_1 _ _ _ _ Hm Hj) as Hbyte. step_option.
    destruct (fast_byte LONG std Hs t r m Hok Hr Hbyte) as (d & e & Hd & He & Hfast).
    destruct (slow_byte LONG std Hs r m Hr Hbyte) as (x & d' & Hd' & Hx & Hslow).
    rewrite Hd in Hd'. injection Hd' as <-. rewrite Hd. step_option. cbn zeta.
    rewrite He, Hx. step_option. by rewrite Hslow, Hfast.
  - intros j r r' Hr. destruct (message !! j) as [m |] eqn:Hj; [| done].
    step_option. destruct (REFLECT_DATA LONG std m); [| done]. step_option. cbn zeta.
    destruct (aget _ _); [| done]. step_option. intros [= <-].
    apply wrap_range. pose proof (width_pos LONG std Hs). lia.
Qed.

(** C17: two messages of the same length whose bits, in the order in which
    they are divided, differ only inside a window of at most [WIDTH] bits have
    different CRCs: every burst error no longer than the CRC is detected. *)
Theorem crcSlow_detects_bursts LONG std m m' p u u' s :
  supported LONG std -> Forall byte m -> Forall byte m' ->
  message_bits std m = p ++ u ++ s -> message_bits std m' = p ++ u' ++ s ->
  length m = length m' -> length u = length u' -> Z.of_nat (length u) <= WIDTH std ->
  u <> u' ->
  exists c c', crcSlow LONG std m (Z.of_nat (length m)) = Some c /\
    crcSlow LONG std m' (Z.of_nat (length m')) = Some c' /\ c <> c'.
Proof.
  intros Hs Hm Hm' Hbits Hbits' Hlen Hu HuW Hne.
  pose proof (width_pos LONG std Hs) as HW.
  pose proof (poly_range _ _ Hs) as HP. pose proof (poly_odd _ _ Hs) as Hodd.
  set (I := INITIAL_REMAINDER std). assert (HI : in_range (WIDTH std) I) by apply Hs.
  set (A := absorb (WIDTH std) (POLYNOMIAL std)).
  assert (HA : forall bs r, in_range (WIDTH std) r -> in_range (WIDTH std) (fold_left A bs r))
    by (intros; by apply absorb_range).
  assert (Hreg : fold_left A (message_bits std m) I <> fold_left A (message_bits std m') I).
  { rewrite Hbits, Hbits', !fold_left_app. intros He.
    apply absorb_inj in He; [| auto..]. apply Hne.
    apply (absorb_window_inj _ _ HW HP u u' (fold_left A p I)); auto. }
  unfold crcSlow. rewrite !Nat2Z.id.
  rewrite (slow_loop LONG std Hs m), (slow_loop LONG std Hs m'), !take_ge by (done || lia).
  step_option. fold A I.
  destruct (output_spec LONG std Hs (fold_left A (message_bits std m) I)) as (c & Hc & Hcr); [auto |].
  destruct (output_spec LONG std Hs (fold_left A (message_bits std m') I)) as (c' & Hc' & Hcr'); [auto |].
  rewrite Hc, Hc'. step_option. eexists. eexists. split; [reflexivity |]. split; [reflexivity |].
  rewrite !wrap_lxor, (wrap_small _ c), (wrap_small _ c') by (done || lia). intros He.
  apply Hreg. apply (output_inj LONG std Hs _ _ c); auto.
  rewrite Hc'. f_equal. apply (f_equal (fun z => z .^ wrap (WIDTH std) (FINAL_XOR_VALUE std))) in He.
  by rewrite !Z.lxor_assoc, Z.lxor_nilpotent, !Z.lxor_0_r in He.
Qed.

(** With a 64-bit [unsigned long] the CRC-32 configuration, the one
    [crc.h] selects, shifts an [int] by 56 places: neither the table nor the
    CRC of any non-empty message is defined. *)
Theorem crc32_undefined_on_lp64 t0 m message nBytes :
  byte m -> 0 < nBytes ->
  crcInit (CRC32 64) t0 = None /\ crcSlow 64 (CRC32 64) (m :: message) nBytes = None.
Proof.
  intros Hm Hn. split; [done |]. unfold crcSlow.
  destruct (Z.to_nat nBytes) as [| n] eqn:He; [lia |].
  cbn [for_loop lookup list_lookup]. step_option.
  destruct (REFLECT_DATA _ _ _); done.
Qed.

Lemma crcFast_is_crcSlow_witness :
  exists t, crcInit (CRC32 32) zero_table = Some t /\
    crcFast 32 (CRC32 32) t check_message 9 = Some 0xCBF43926.
Proof.
  destruct (crcFast_is_crcSlow 32 (CRC32 32) zero_table supported_crc32 eq_refl)
    as (t & Ht & H).
  exists t. split; [exact Ht |]. rewrite H.
  - vm_compute. reflexivity.
  - repeat constructor; discriminate.
Defined.

(** The fourth bit of the second byte flipped. *)
Lemma crcSlow_detects_bursts_witness :
  exists c c', crcSlow 32 CRC16 [1; 2] 2 = Some c /\ crcSlow 32 CRC16 [1; 10] 2 = Some c' /\ c <> c'.
Proof.
  apply (crcSlow_detects_bursts 32 CRC16 [1; 2] [1; 10]
    [true; false; false; false; false; false; false; false; false; true; false]
    [false] [true] [false; false; false; false]).
  all: try reflexivity; try discriminate.
  - apply supported_crc16. lia.
  - repeat constructor; discriminate.
  - repeat constructor; discriminate.
Defined.

Lemma crc32_undefined_on_lp64_witness :
  crcInit (CRC32 64) zero_table = None /\ crcSlow 64 (CRC32 64) [65] 1 = None.
Proof. apply (crc32_undefined_on_lp64 zero_table 65 [] 1); [split; lia | lia]. Defined.
