(* ===== verification/StreamHash.v ===== *)
(** * Streaming hash functions

    The digests of example-3/ (MD5, SHA-1, SHA-2) share one shape: a chaining
    value, a buffer for the incomplete block and a byte count.  This file
    holds the shared theory: the fold of a compression function over the
    blocks of a message, the invariant that links a context to the message
    absorbed so far, the three ways an update extends it, and the interface
    [StreamHash] that every implementation discharges and against which the
    clients (one-shot calls, sequences of updates, HMAC, files) are proved. *)
From S2P Require Import Prelude.

(** ** Words and bytes *)

Definition rotl32 (x n : Z) : Z := u32 (x .<< n) .| (u32 x .>> (32 - n)).

(** The [n] bytes of [z], most significant first. *)
Definition be_bytes (n : nat) (z : Z) : list Z :=
  map (fun i => u8 (z .>> (8 * Z.of_nat (n - 1 - i)))) (seq 0 n).

Lemma length_be_bytes n z : length (be_bytes n z) = n.
Proof. unfold be_bytes. by rewrite length_map, length_seq. Qed.

Lemma be_bytes_byte n z : Forall byte (be_bytes n z).
Proof. apply Forall_fmap, Forall_true. intros i. by apply wrap_range. Qed.

(** The low bytes of a word do not depend on what is above bit 31. *)
Lemma byte_u32 s k : 0 <= k <= 24 -> u8 (u32 s .>> k) = u8 (s .>> k).
Proof.
  intros Hk. bits i. destruct (Z.ltb_spec i 8); cbn [andb]; [| done].
  by rewrite (proj2 (Z.ltb_lt (i + k) 32)) by lia.
Qed.

(** ** Folding a compression function over blocks *)

Section chain.
Context {H : Type} (bs : nat) (cf : H -> list Z -> H).

(** The first [n] blocks of [m]. *)
Definition blocks (h : H) (n : nat) (m : list Z) : H :=
  fold_left (fun h i => cf h (sub m (i * bs) bs)) (seq 0 n) h.

Lemma blocks_S h n m : blocks h (S n) m = cf (blocks h n m) (sub m (n * bs) bs).
Proof. unfold blocks. rewrite seq_S, fold_left_app. done. Qed.

Lemma blocks_ext h n m m' :
  (forall i, (i < n * bs)%nat -> m !! i = m' !! i) -> blocks h n m = blocks h n m'.
Proof.
  intros Hm. induction n as [| n IH]; [done |]. rewrite !blocks_S.
  rewrite IH by (intros; apply Hm; lia). f_equal.
  apply sub_ext. intros i Hi. apply Hm. lia.
Qed.

Lemma blocks_app h n m d : (n * bs <= length m)%nat -> blocks h n (m ++ d) = blocks h n m.
Proof. intros Hn. apply blocks_ext. intros i Hi. by rewrite lookup_app_l by lia. Qed.

Lemma blocks_add h n k m :
  blocks h (n + k) m = blocks (blocks h n m) k (drop (n * bs) m).
Proof.
  induction k as [| k IH]; [by rewrite Nat.add_0_r |].
  rewrite Nat.add_succ_r, !blocks_S, IH. f_equal.
  unfold sub. rewrite drop_drop. do 2 f_equal. lia.
Qed.

Lemma blocks_1 h m : blocks h 1 m = cf h (take bs m).
Proof. rewrite blocks_S. unfold blocks, sub. simpl. done. Qed.
End chain.

(** ** A context that has absorbed a message *)

Section holds.
Context {H : Type} (bs : nat) (cf : H -> list Z -> H) (h0 : H).
Context (Hbs : (0 < bs)%nat).
Implicit Types m d buf : list Z.

Record holds (h : H) buf m : Prop := {
  holds_chain : h = blocks bs cf h0 (length m / bs) m;
  holds_buf : take (length m mod bs) buf = drop (length m / bs * bs) m;
  holds_size : (bs <= length buf)%nat
}.

Lemma split_length m : length m = (length m / bs * bs + length m mod bs)%nat.
Proof. rewrite Nat.mul_comm. apply Nat.div_mod_eq. Qed.

Lemma mod_lt m : (length m mod bs < bs)%nat.
Proof. apply Nat.mod_upper_bound. lia. Qed.

(** Where the length of [m ++ d] splits. *)
Lemma div_app m d :
  (length (m ++ d) / bs = length m / bs + (length m mod bs + length d) / bs)%nat.
Proof.
  rewrite length_app. rewrite (split_length m) at 1. rewrite <- Nat.add_assoc.
  apply Nat.div_add_l. lia.
Qed.

Lemma mod_app m d :
  (length (m ++ d) mod bs = (length m mod bs + length d) mod bs)%nat.
Proof. rewrite length_app. symmetry. apply Nat.Div0.add_mod_idemp_l. Qed.

Lemma div_full m : (length m / bs * bs <= length m)%nat.
Proof. pose proof (split_length m). lia. Qed.

Lemma holds_nil buf : (bs <= length buf)%nat -> holds h0 buf [].
Proof.
  intros Hb. split; [| | done].
  - simpl. by rewrite Nat.Div0.div_0_l.
  - by rewrite Nat.Div0.mod_0_l, drop_nil.
Qed.

(** The new bytes fit the incomplete block. *)
Lemma holds_small h buf m d :
  holds h buf m -> (length m mod bs + length d < bs)%nat ->
  holds h (splice buf (length m mod bs) d) (m ++ d).
Proof.
  intros [Hc Hb Hs] Hd. pose proof (mod_lt m). pose proof (div_full m).
  pose proof (split_length m).
  split; rewrite ?div_app, ?mod_app, ?(Nat.div_small (_ + _)), ?(Nat.mod_small (_ + _)) by done.
  - by rewrite Nat.add_0_r, blocks_app.
  - rewrite Nat.add_0_r, drop_app_le, <- Hb by done. unfold splice.
    rewrite app_assoc, take_app_length'; [done |].
    rewrite length_app, length_take. lia.
  - rewrite length_splice; lia.
Qed.

Lemma take_splice_fill n buf l fill d :
  n = (l + fill)%nat -> (l <= length buf)%nat -> (fill <= length d)%nat ->
  take n (splice buf l (take fill d)) = take n (take l buf ++ d).
Proof using.
  clear Hbs. intros -> Hl Hd. unfold splice. rewrite app_assoc, take_app_length'.
  - pose proof (take_app_add (take l buf) d fill) as E.
    by rewrite length_take, Nat.min_l in E by done.
  - rewrite length_app, !length_take. lia.
Qed.

Lemma drop_take_fill n buf l fill d :
  n = (l + fill)%nat -> (l <= length buf)%nat -> drop n (take l buf ++ d) = drop fill d.
Proof using.
  clear Hbs. intros -> Hl. pose proof (drop_app_add (take l buf) d fill) as E.
  by rewrite length_take, Nat.min_l in E by done.
Qed.

(** The new bytes complete the block. *)
Lemma holds_full h buf buf' m d :
  let fill := (bs - length m mod bs)%nat in
  let k := ((length d - fill) / bs)%nat in
  holds h buf m -> (fill <= length d)%nat -> (bs <= length buf')%nat ->
  take ((length d - fill) mod bs) buf' = drop (fill + k * bs) d ->
  holds (blocks bs cf (cf h (take bs (splice buf (length m mod bs) (take fill d)))) k
           (drop fill d)) buf' (m ++ d).
Proof.
  intros fill k [Hc Hb Hs] Hd Hs' Hb'. pose proof (mod_lt m). pose proof (div_full m).
  pose proof (split_length m) as Hsplit.
  assert (Hq : ((length m mod bs + length d) / bs = 1 + k)%nat).
  { unfold k. replace (length m mod bs + length d)%nat with (1 * bs + (length d - fill))%nat
      by (unfold fill in *; lia). rewrite Nat.div_add_l by lia. done. }
  assert (Hr : ((length m mod bs + length d) mod bs = (length d - fill) mod bs)%nat).
  { replace (length m mod bs + length d)%nat with (length d - fill + 1 * bs)%nat
      by (unfold fill in *; lia). apply Nat.Div0.mod_add. }
  split; [| | done]; rewrite ?div_app, ?mod_app, Hq, ?Hr.
  - rewrite !blocks_add, blocks_app, <- Hc, drop_app_le, blocks_1, Nat.mul_1_l by done.
    rewrite <- Hb.
    rewrite (take_splice_fill bs buf _ fill), (drop_take_fill bs buf _ fill); [done | unfold fill; lia..].
  - rewrite Hb'. rewrite drop_app_ge by lia. f_equal. unfold fill in *. lia.
Qed.

(** The incomplete block is empty. *)
Lemma holds_aligned h buf buf' m d :
  holds h buf m -> (length m mod bs = 0)%nat -> (bs <= length buf')%nat ->
  take (length d mod bs) buf' = drop (length d / bs * bs) d ->
  holds (blocks bs cf h (length d / bs) d) buf' (m ++ d).
Proof.
  intros [Hc Hb Hs] Hz Hs' Hb'. pose proof (split_length m). pose proof (div_full m).
  split; [| | done]; rewrite ?div_app, ?mod_app, Hz, ?Nat.add_0_l.
  - rewrite blocks_add, blocks_app, <- Hc, drop_app_ge by lia.
    by replace (length m / bs * bs - length m)%nat with 0%nat by lia.
  - rewrite Hb'. rewrite drop_app_ge by lia. f_equal. lia.
Qed.

(** The same three cases for [ilen] bytes of an input buffer: the message
    grows by the prefix [take ilen input], the blocks are read in place and
    what remains is copied to the front of the buffer. *)
Lemma blocks_prefix h k input n :
  (k * bs <= n)%nat -> blocks bs cf h k (take n input) = blocks bs cf h k input.
Proof using. clear. intros Hk. apply blocks_ext. intros i Hi. apply lookup_take_lt. lia. Qed.

Lemma take_splice_0 {A} (buf b : list A) n : n = length b -> take n (splice buf 0 b) = b.
Proof using. intros ->. unfold splice. simpl. apply take_app_length. Qed.

Lemma div_mod_bs n : (n = n / bs * bs + n mod bs /\ n mod bs < bs)%nat.
Proof.
  split; [rewrite Nat.mul_comm; apply Nat.div_mod_eq | apply Nat.mod_upper_bound; lia].
Qed.

Section input.
Context (h : H) (buf m input : list Z) (n : nat).
Context (Hh : holds h buf m) (Hn : (n <= length input)%nat).
Abbreviation d := (take n input).
Abbreviation l := (length m mod bs)%nat.

Lemma length_prefix : length d = n.
Proof using Hn. clear -Hn. rewrite length_take. lia. Qed.

(** The bytes of the input from offset [o] on, as a sub-array. *)
Lemma prefix_tail o : sub input o (n - o) = drop o d.
Proof using. clear. unfold sub. by rewrite skipn_firstn_comm. Qed.

Lemma absorb_empty :
  let k := (n / bs)%nat in let rest := sub input (k * bs) (n - k * bs) in
  l = 0%nat ->
  length rest = (n mod bs)%nat /\
  holds (blocks bs cf h k input) (splice buf 0 rest) (m ++ d).
Proof.
  intros k rest Hl0. pose proof length_prefix as Hd. destruct (div_mod_bs n) as [E R].
  fold k in E. assert (Hb : rest = drop (k * bs) d) by apply prefix_tail.
  assert (Lb : length rest = (n mod bs)%nat) by (rewrite Hb, length_drop; lia).
  split; [done |]. rewrite <- (blocks_prefix _ _ input n) by lia.
  replace k with (length d / bs)%nat at 1 by (by rewrite Hd).
  pose proof (holds_size _ _ _ Hh).
  apply (holds_aligned h buf); [done | done | |].
  - rewrite length_splice; lia.
  - rewrite Hd. fold k. rewrite <- Hb. by apply take_splice_0.
Qed.

Lemma absorb_partial :
  (l + n < bs)%nat -> holds h (splice buf l d) (m ++ d).
Proof. intros Hlt. apply holds_small; [done |]. by rewrite length_prefix. Qed.

Lemma absorb_fill :
  let fill := (bs - l)%nat in
  let k := ((n - fill) / bs)%nat in
  let block := splice buf l (sub input 0 fill) in
  let rest := sub input (fill + k * bs) (n - fill - k * bs) in
  (bs <= l + n)%nat ->
  length block = length buf /\ length rest = ((n - fill) mod bs)%nat /\
  holds (blocks bs cf (cf h (take bs block)) k (drop fill input)) (splice block 0 rest) (m ++ d).
Proof.
  intros fill k block rest Hge. pose proof length_prefix as Hd. pose proof (mod_lt m).
  destruct (div_mod_bs (n - fill)) as [E R]. fold k in E.
  assert (Hf : sub input 0 fill = take fill d)
    by (unfold sub; rewrite take_take; simpl; f_equal; unfold fill; lia).
  pose proof (holds_size _ _ _ Hh) as Hsize.
  assert (Hblock : length block = length buf)
    by (unfold block; rewrite Hf, length_splice, length_take; unfold fill; lia).
  assert (Hb : rest = drop (fill + k * bs) d).
  { rewrite <- prefix_tail. unfold rest. f_equal. lia. }
  assert (Lb : length rest = ((n - fill) mod bs)%nat)
    by (rewrite Hb, length_drop; unfold fill in *; lia).
  split; [done |]. split; [done |].
  unfold block at 1. rewrite Hf.
  rewrite <- (blocks_prefix _ _ (drop fill input) (n - fill)) by lia.
  rewrite <- skipn_firstn_comm.
  replace k with ((length d - fill) / bs)%nat at 1 by (by rewrite Hd).
  apply holds_full; fold fill; [done | unfold fill; lia | |].
  - rewrite length_splice; lia.
  - rewrite Hd. fold k. rewrite <- Hb. by apply take_splice_0.
Qed.
End input.
End holds.

(** ** Reading a buffer block by block *)

(** [n] bytes at offset [p] of a buffer. *)
Definition read (input : list Z) (p n : Z) : outcome (list Z) :=
  if (0 <=? p) && (p + n <=? Z.of_nat (length input))
  then Ret (sub input (Z.to_nat p) (Z.to_nat n)) else Undef.

Lemma read_ok input p n :
  0 <= p -> 0 <= n -> p + n <= Z.of_nat (length input) ->
  read input p n = Ret (sub input (Z.to_nat p) (Z.to_nat n)).
Proof.
  intros Hp Hn Hl. unfold read.
  by rewrite (proj2 (Z.leb_le 0 p)), (proj2 (Z.leb_le (p + n) _)) by lia.
Qed.

(** [for (; n >= bs; p += bs, n -= bs) process(ctx, p);] *)
Lemma block_loop {C} (process : C -> list Z -> C) (bs : nat) input fuel c p n :
  (0 < bs)%nat -> 0 <= p -> 0 <= n -> p + n <= Z.of_nat (length input) -> n <= Z.of_nat fuel ->
  let k := (Z.to_nat n / bs)%nat in
  while_loop fuel (fun '(_, _, n) => Z.of_nat bs <=? n)
    (fun '(c, p, n) =>
       b ← read input p (Z.of_nat bs); Ret (process c b, p + Z.of_nat bs, n - Z.of_nat bs))
    (c, p, n)
  = Ret (blocks bs process c k (drop (Z.to_nat p) input),
         p + Z.of_nat (k * bs), n - Z.of_nat (k * bs)).
Proof.
  intros Hbs. cbn zeta. revert c p n.
  induction fuel as [| fuel IH]; intros c p n Hp Hn Hl Hf; cbn [while_loop];
    destruct (Z.leb_spec (Z.of_nat bs) n) as [Hge | Hlt]; try lia.
  1, 3: rewrite (Nat.div_small (Z.to_nat n)) by lia; simpl; by rewrite Z.add_0_r, Z.sub_0_r.
  rewrite read_ok by lia. step_run. rewrite IH by lia.
  set (k := (Z.to_nat (n - Z.of_nat bs) / bs)%nat).
  assert (Hk : (Z.to_nat n / bs = 1 + k)%nat).
  { unfold k. replace (Z.to_nat n) with (1 * bs + Z.to_nat (n - Z.of_nat bs))%nat by lia.
    by rewrite Nat.div_add_l by lia. }
  rewrite Hk, blocks_add, blocks_1, drop_drop. clearbody k. unfold sub. rewrite Nat2Z.id.
  replace (Z.to_nat (p + Z.of_nat bs)) with (Z.to_nat p + 1 * bs)%nat by lia.
  replace (p + Z.of_nat bs + Z.of_nat (k * bs)) with (p + Z.of_nat ((1 + k) * bs)) by lia.
  replace (n - Z.of_nat bs - Z.of_nat (k * bs)) with (n - Z.of_nat ((1 + k) * bs)) by lia.
  reflexivity.
Qed.

(** ** Padding

    A one bit, zeros up to a multiple of the block, and the [lb]-byte length
    [enc] at the end of the last block. *)

Definition pad_zeros (bs lb n : nat) : nat := ((bs - (n + 1 + lb) mod bs) mod bs)%nat.

Definition padding (bs : nat) (n : nat) (enc : list Z) : list Z :=
  [0x80] ++ replicate (pad_zeros bs (length enc) n) 0 ++ enc.

Lemma padded_aligned bs n m enc :
  (0 < bs)%nat -> n = length m -> (length (m ++ padding bs n enc) mod bs = 0)%nat.
Proof.
  intros Hbs ->. unfold padding. rewrite !length_app, length_replicate. cbn [length].
  set (e := length enc). unfold pad_zeros. set (x := (length m + 1 + e)%nat).
  replace (length m + (1 + ((bs - x mod bs) mod bs + e)))%nat
    with (x + (bs - x mod bs) mod bs)%nat by (unfold x; lia).
  rewrite Nat.Div0.add_mod_idemp_r. pose proof (Nat.mod_upper_bound x bs ltac:(lia)).
  pose proof (Nat.div_mod_eq x bs) as E.
  replace (x + (bs - x mod bs))%nat with ((x / bs + 1) * bs)%nat by lia.
  apply Nat.Div0.mod_mul.
Qed.

(** The chaining value of a padded message. *)
Definition md_chain {H} (bs : nat) (cf : H -> list Z -> H) (h0 : H) (enc : nat -> list Z)
    (m : list Z) : H :=
  let p := m ++ padding bs (length m) (enc (length m)) in
  blocks bs cf h0 (length p / bs) p.

(** ** The interface of a streaming hash *)

Class StreamHash (C : Type) := {
  sh_starts : C -> C;
  (** [update(ctx, input, ilen)]: a buffer and the number of its bytes to absorb. *)
  sh_update : C -> list Z -> Z -> outcome C;
  sh_finish : C -> outcome (C * list Z);
  (** The digest of a message by the reference definition. *)
  sh_digest : list Z -> list Z;
  (** The context is memory of the right shape. *)
  sh_ready : C -> Prop;
  (** The context has absorbed exactly this message. *)
  sh_absorbed : C -> list Z -> Prop;
  (** Bounds on one update and on the whole message. *)
  sh_chunk : Z;
  sh_limit : Z;
  sh_limit_pos : 0 < sh_limit;
  sh_starts_ok : forall c, sh_ready c -> sh_absorbed (sh_starts c) [];
  sh_update_ok : forall c m input ilen,
    sh_absorbed c m -> 0 <= ilen <= sh_chunk -> ilen <= Z.of_nat (length input) ->
    Z.of_nat (length m) + ilen < sh_limit ->
    exists c', sh_update c input ilen = Ret c' /\
      sh_absorbed c' (m ++ take (Z.to_nat ilen) input);
  sh_finish_ok : forall c m,
    sh_absorbed c m -> Z.of_nat (length m) < sh_limit ->
    exists c', sh_finish c = Ret (c', sh_digest m) /\ sh_ready c'
}.

Section client.
Context {C : Type} `{StreamHash C}.

(** A sequence of updates, each with a whole buffer. *)
Fixpoint sh_updates (c : C) (fragments : list (list Z)) : outcome C :=
  match fragments with
  | [] => Ret c
  | f :: fragments => c ← sh_update c f (Z.of_nat (length f)); sh_updates c fragments
  end.

(** [starts], updates, [finish]. *)
Definition sh_run (c : C) (fragments : list (list Z)) : outcome (C * list Z) :=
  c ← sh_updates (sh_starts c) fragments; sh_finish c.

Lemma sh_update_whole c m d :
  sh_absorbed c m -> Z.of_nat (length d) <= sh_chunk ->
  Z.of_nat (length m) + Z.of_nat (length d) < sh_limit ->
  exists c', sh_update c d (Z.of_nat (length d)) = Ret c' /\ sh_absorbed c' (m ++ d).
Proof.
  intros Hc Hd Hl. destruct (sh_update_ok c m d (Z.of_nat (length d)) Hc) as (c' & Hu & Ha);
    [lia.. |].
  exists c'. by rewrite Nat2Z.id, take_ge in Ha by lia.
Qed.

Lemma sh_updates_ok fragments c m :
  sh_absorbed c m -> Forall (fun f => Z.of_nat (length f) <= sh_chunk) fragments ->
  Z.of_nat (length m + length (concat fragments)) < sh_limit ->
  exists c', sh_updates c fragments = Ret c' /\ sh_absorbed c' (m ++ concat fragments).
Proof.
  revert c m. induction fragments as [| f fs IH]; intros c m Hc Hf Hl.
  - exists c. simpl. by rewrite (app_nil_r m).
  - apply Forall_cons_1 in Hf as [Hf Hfs]. simpl in Hl |- *. rewrite length_app in Hl.
    destruct (sh_update_whole c m f Hc Hf ltac:(lia)) as (c1 & -> & Hc1). step_run.
    destruct (IH c1 (m ++ f) Hc1 Hfs) as (c2 & -> & Hc2); [rewrite length_app; lia |].
    exists c2. by rewrite <- app_assoc in Hc2.
Qed.

(** The digest does not depend on how the message is cut into updates. *)
Lemma sh_run_ok fragments c :
  sh_ready c -> Forall (fun f => Z.of_nat (length f) <= sh_chunk) fragments ->
  Z.of_nat (length (concat fragments)) < sh_limit ->
  exists c', sh_run c fragments = Ret (c', sh_digest (concat fragments)) /\ sh_ready c'.
Proof.
  intros Hc Hf Hl. unfold sh_run.
  destruct (sh_updates_ok fragments (sh_starts c) []) as (c' & -> & Hc');
    [by apply sh_starts_ok | done | done |].
  step_run. by apply sh_finish_ok.
Qed.
End client.

(** ** HMAC (RFC 2104), over a hash of [bs]-byte blocks *)

Section hmac.
Context (digest : list Z -> list Z) (bs : nat).

(** Keys longer than a block are hashed, then padded with zeros. *)
Definition hmac_key (key : list Z) : list Z :=
  let k := if (bs <? length key)%nat then digest key else key in
  k ++ replicate (bs - length k) 0.

Definition hmac_spec (key msg : list Z) : list Z :=
  let k := hmac_key key in
  digest (map (Z.lxor 0x5C) k ++ digest (map (Z.lxor 0x36) k ++ msg)).
End hmac.
