(* ===== verification/Sha1.v ===== *)
(** * SHA-1 and HMAC-SHA-1: example-3/sha1.c

    [LONG] is the number of bits of [unsigned long]: the code keeps 32-bit
    words in variables of that type, so on LP64 the words carry garbage above
    bit 31, which the theorems show never reaches the digest.  Pointers into
    the input are offsets into a list; reading past its end is undefined. *)
From S2P Require Import Prelude StreamHash.

Record sha1_context := {
  total : Z * Z;
  state : Z * Z * Z * Z * Z;
  buffer : list Z;
  ipad : list Z;
  opad : list Z
}.

Section code.
Context (LONG : Z).

Definition GET_ULONG_BE (b : list Z) (i : nat) : Z :=
  (elt b i .<< 24) .| (elt b (i + 1) .<< 16) .| (elt b (i + 2) .<< 8) .| elt b (i + 3).

(** The four bytes that [PUT_ULONG_BE] stores. *)
Definition PUT_ULONG_BE (n : Z) : list Z :=
  [u8 (n .>> 24); u8 (n .>> 16); u8 (n .>> 8); u8 n].

Definition sha1_starts (ctx : sha1_context) : sha1_context :=
  {| total := (0, 0);
     state := (0x67452301, 0xEFCDAB89, 0x98BADCFE, 0x10325476, 0xC3D2E1F0);
     buffer := buffer ctx; ipad := ipad ctx; opad := opad ctx |}.

(** *** The macros of sha1_process *)

Definition S32 (x n : Z) : Z :=
  wrap LONG (x .<< n) .| ((x .& 0xFFFFFFFF) .>> (32 - n)).

Definition idx (t k : Z) : nat := Z.to_nat ((t - k) .& 0x0F).

(** The value of [R(t)] and the new schedule. *)
Definition R (t : nat) (W : list Z) : Z * list Z :=
  let t := Z.of_nat t in
  let temp := elt W (idx t 3) .^ elt W (idx t 8) .^ elt W (idx t 14) .^ elt W (idx t 0) in
  let v := S32 temp 1 in
  (v, <[idx t 0 := v]> W).

(** The new values of [e] and [b]. *)
Definition P (F : Z -> Z -> Z -> Z) (K : Z) (a b c d e x : Z) : Z * Z :=
  (wrap LONG (e + (S32 a 5 + F b c d + K + x)), S32 b 30).

Definition F1 (x y z : Z) : Z := z .^ (x .& (y .^ z)).
Definition F2 (x y z : Z) : Z := x .^ y .^ z.
Definition F3 (x y z : Z) : Z := (x .& y) .| (z .& (x .| y)).

(** The last argument of the [t]-th [P]: [W[t]], then [R(t)]. *)
Definition X (t : nat) (W : list Z) : Z * list Z :=
  if (t <? 16)%nat then (elt W t, W) else R t W.

(** Five consecutive lines; after five the registers are back in order. *)
Definition P5 F K (t : nat) (s : Z * Z * Z * Z * Z * list Z) :=
  let '(A, B, C, D, E, W) := s in
  let '(x, W) := X t W in let '(E, B) := P F K A B C D E x in
  let '(x, W) := X (t + 1) W in let '(D, A) := P F K E A B C D x in
  let '(x, W) := X (t + 2) W in let '(C, E) := P F K D E A B C x in
  let '(x, W) := X (t + 3) W in let '(B, D) := P F K C D E A B x in
  let '(x, W) := X (t + 4) W in let '(A, C) := P F K B C D E A x in
  (A, B, C, D, E, W).

(** The twenty lines of one [F] and [K]. *)
Definition P20 F K (t : nat) s := P5 F K (t + 15) (P5 F K (t + 10) (P5 F K (t + 5) (P5 F K t s))).

Definition sha1_block (st : Z * Z * Z * Z * Z) (data : list Z) : Z * Z * Z * Z * Z :=
  let W := map (fun j => GET_ULONG_BE data (4 * j)) (seq 0 16) in
  let '(A, B, C, D, E) := st in
  let s := P20 F1 0x5A827999 0 (A, B, C, D, E, W) in
  let s := P20 F2 0x6ED9EBA1 20 s in
  let s := P20 F3 0x8F1BBCDC 40 s in
  let '(A', B', C', D', E', _) := P20 F2 0xCA62C1D6 60 s in
  (wrap LONG (A + A'), wrap LONG (B + B'), wrap LONG (C + C'), wrap LONG (D + D'),
   wrap LONG (E + E')).

Definition sha1_process (ctx : sha1_context) (data : list Z) : sha1_context :=
  {| total := total ctx; state := sha1_block (state ctx) data; buffer := buffer ctx;
     ipad := ipad ctx; opad := opad ctx |}.

(** [memcpy(ctx->buffer + left, input, ...)]. *)
Definition put_buffer (ctx : sha1_context) (left : Z) (b : list Z) : outcome sha1_context :=
  buf ← lift (store (buffer ctx) (Z.to_nat left) b);
  Ret {| total := total ctx; state := state ctx; buffer := buf;
         ipad := ipad ctx; opad := opad ctx |}.

Definition add_total (ctx : sha1_context) (ilen : Z) : sha1_context :=
  let '(t0, t1) := total ctx in
  let t0 := wrap LONG (t0 + ilen) .& 0xFFFFFFFF in
  let t1 := if t0 <? ilen then wrap LONG (t1 + 1) else t1 in
  {| total := (t0, t1); state := state ctx; buffer := buffer ctx;
     ipad := ipad ctx; opad := opad ctx |}.

(** The loop over whole blocks and the copy of what remains. *)
Definition sha1_update_rest (input : list Z) (ctx : sha1_context) (input_p ilen left : Z)
    : outcome sha1_context :=
  '(ctx, input_p, ilen) ←
    while_loop (Z.to_nat ilen) (fun '(_, _, ilen) => 64 <=? ilen)
      (fun '(ctx, p, ilen) =>
         b ← read input p 64; Ret (sha1_process ctx b, p + 64, ilen - 64))
      (ctx, input_p, ilen);
  if 0 <? ilen then b ← read input input_p ilen; put_buffer ctx left b else Ret ctx.

Definition sha1_update (ctx : sha1_context) (input : list Z) (ilen : Z) : outcome sha1_context :=
  if ilen <=? 0 then Ret ctx else
  let left := fst (total ctx) .& 0x3F in
  let fill := 64 - left in
  let ctx := add_total ctx ilen in
  '(ctx, input_p, ilen, left) ←
    (if negb (left =? 0) && (fill <=? ilen) then
       b ← read input 0 fill;
       ctx ← put_buffer ctx left b;
       Ret (sha1_process ctx (buffer ctx), fill, ilen - fill, 0)
     else Ret (ctx, 0, ilen, left));
  sha1_update_rest input ctx input_p ilen left.

Definition sha1_padding : list Z := 0x80 :: replicate 63 0.

(** Returns the context and the 20 bytes of [output]. *)
Definition sha1_finish (ctx : sha1_context) : outcome (sha1_context * list Z) :=
  let '(t0, t1) := total ctx in
  let high := (t0 .>> 29) .| wrap LONG (t1 .<< 3) in
  let low := wrap LONG (t0 .<< 3) in
  let msglen := PUT_ULONG_BE high ++ PUT_ULONG_BE low in
  let last := t0 .& 0x3F in
  let padn := if last <? 56 then 56 - last else 120 - last in
  ctx ← sha1_update ctx sha1_padding padn;
  ctx ← sha1_update ctx msglen 8;
  let '(s0, s1, s2, s3, s4) := state ctx in
  Ret (ctx, PUT_ULONG_BE s0 ++ PUT_ULONG_BE s1 ++ PUT_ULONG_BE s2 ++ PUT_ULONG_BE s3
            ++ PUT_ULONG_BE s4).

(** [ctx] is the uninitialised local context. *)
Definition sha1 (ctx : sha1_context) (input : list Z) (ilen : Z) : outcome (list Z) :=
  ctx ← sha1_update (sha1_starts ctx) input ilen;
  '(_, output) ← sha1_finish ctx;
  Ret output.

(** *** Files *)

(** What [fopen], [fread] and [ferror] make of a file: the bytes that can be
    read, in [None] when it cannot be opened, and whether reading stops with an
    error.  [fread] returns up to 1024 bytes at a time. *)
Record file := { contents : option (list Z); read_error : bool }.

(** [while ((n = fread(buf, 1, sizeof(buf), f)) > 0) sha1_update(&ctx, buf, n);] *)
Definition sha1_file_loop (ctx : sha1_context) (bytes : list Z)
    : outcome (sha1_context * list Z) :=
  while_loop (length bytes) (fun '(_, rest) => negb (length rest =? 0)%nat)
    (fun '(ctx, rest) =>
       ctx ← sha1_update ctx (take 1024 rest) (Z.of_nat (length (take 1024 rest)));
       Ret (ctx, drop 1024 rest))
    (ctx, bytes).

(** The return value, and the output when the function got that far. *)
Definition sha1_file (ctx : sha1_context) (f : file) : outcome (Z * option (list Z)) :=
  match contents f with
  | None => Ret (1, None)
  | Some bytes =>
      '(ctx, _) ← sha1_file_loop (sha1_starts ctx) bytes;
      '(_, output) ← sha1_finish ctx;
      if read_error f then Ret (2, Some output) else Ret (0, Some output)
  end.

(** *** HMAC *)

Definition sha1_hmac_starts (ctx : sha1_context) (key : list Z) (keylen : Z)
    : outcome sha1_context :=
  '(key, keylen) ←
    (if 64 <? keylen then sum ← sha1 ctx key keylen; Ret (sum, 20) else Ret (key, keylen));
  '(ip, op) ←
    for_loop (Z.to_nat keylen) 0 (fun i '(ip, op) =>
      k ← lift (key !! i);
      pi ← lift (ip !! i);
      po ← lift (op !! i);
      ip ← lift (nset ip i (u8 (pi .^ k)));
      op ← lift (nset op i (u8 (po .^ k)));
      Ret (ip, op))
      (replicate 64 0x36, replicate 64 0x5C);
  let ctx := sha1_starts {| total := total ctx; state := state ctx; buffer := buffer ctx;
                            ipad := ip; opad := op |} in
  sha1_update ctx (ipad ctx) 64.

Definition sha1_hmac_update := sha1_update.

Definition sha1_hmac_finish (ctx : sha1_context) : outcome (sha1_context * list Z) :=
  '(ctx, tmpbuf) ← sha1_finish ctx;
  let ctx := sha1_starts ctx in
  ctx ← sha1_update ctx (opad ctx) 64;
  ctx ← sha1_update ctx tmpbuf 20;
  sha1_finish ctx.

Definition sha1_hmac (ctx : sha1_context) (key : list Z) (keylen : Z) (input : list Z)
    (ilen : Z) : outcome (list Z) :=
  ctx ← sha1_hmac_starts ctx key keylen;
  ctx ← sha1_hmac_update ctx input ilen;
  '(_, output) ← sha1_hmac_finish ctx;
  Ret output.
End code.

(** ** The test vectors of sha1_self_test *)

Definition sha1_test_str : list (list Z) :=
  [[97; 98; 99];
   [97; 98; 99; 100; 98; 99; 100; 101; 99; 100; 101; 102; 100; 101; 102; 103;
    101; 102; 103; 104; 102; 103; 104; 105; 103; 104; 105; 106; 104; 105; 106; 107;
    105; 106; 107; 108; 106; 107; 108; 109; 107; 108; 109; 110; 108; 109; 110; 111;
    109; 110; 111; 112; 110; 111; 112; 113]].

Definition sha1_test_sum : list (list Z) :=
  [[0xA9; 0x99; 0x3E; 0x36; 0x47; 0x06; 0x81; 0x6A; 0xBA; 0x3E;
    0x25; 0x71; 0x78; 0x50; 0xC2; 0x6C; 0x9C; 0xD0; 0xD8; 0x9D];
   [0x84; 0x98; 0x3E; 0x44; 0x1C; 0x3B; 0xD2; 0x6E; 0xBA; 0xAE;
    0x4A; 0xA1; 0xF9; 0x51; 0x29; 0xE5; 0xE5; 0x46; 0x70; 0xF1]].

Definition blank : sha1_context :=
  {| total := (0, 0); state := (0, 0, 0, 0, 0); buffer := replicate 64 0;
     ipad := replicate 64 0; opad := replicate 64 0 |}.

Example self_test_32 :
  Forall2 (fun m d => sha1 32 blank m (Z.of_nat (length m)) = Ret d) sha1_test_str sha1_test_sum.
Proof. repeat constructor. Qed.
Example self_test_64 :
  Forall2 (fun m d => sha1 64 blank m (Z.of_nat (length m)) = Ret d) sha1_test_str sha1_test_sum.
Proof. repeat constructor. Qed.

(** ** The reference: FIPS 180 *)

Definition ch (x y z : Z) : Z := (x .& y) .^ (u32 (Z.lnot x) .& z).
Definition parity (x y z : Z) : Z := x .^ y .^ z.
Definition maj (x y z : Z) : Z := (x .& y) .^ (x .& z) .^ (y .& z).

Definition f_t (t : nat) : Z -> Z -> Z -> Z :=
  if (t <? 20)%nat then ch else if (t <? 40)%nat then parity
  else if (t <? 60)%nat then maj else parity.
Definition k_t (t : nat) : Z :=
  if (t <? 20)%nat then 0x5A827999 else if (t <? 40)%nat then 0x6ED9EBA1
  else if (t <? 60)%nat then 0x8F1BBCDC else 0xCA62C1D6.

(** [n] more words of the message schedule. *)
Fixpoint expand (n : nat) (w : list Z) : list Z :=
  match n with
  | O => w
  | S n =>
      let t := length w in
      expand n (w ++ [rotl32 (elt w (t - 3) .^ elt w (t - 8) .^ elt w (t - 14) .^ elt w (t - 16)) 1])
  end.

Definition schedule (data : list Z) : list Z :=
  expand 64 (map (fun j => u32 (GET_ULONG_BE data (4 * j))) (seq 0 16)).

Definition regs : Type := Z * Z * Z * Z * Z.

Definition ref_step (w : list Z) (s : regs) (t : nat) : regs :=
  let '(a, b, c, d, e) := s in
  (u32 (rotl32 a 5 + f_t t b c d + e + k_t t + elt w t), a, rotl32 b 30, c, d).

Definition add_regs (s s' : regs) : regs :=
  let '(a, b, c, d, e) := s in
  let '(a', b', c', d', e') := s' in
  (u32 (a + a'), u32 (b + b'), u32 (c + c'), u32 (d + d'), u32 (e + e')).

Definition compress (s : regs) (data : list Z) : regs :=
  add_regs s (fold_left (ref_step (schedule data)) (seq 0 80) s).

Definition H0 : regs := (0x67452301, 0xEFCDAB89, 0x98BADCFE, 0x10325476, 0xC3D2E1F0).

Definition regs_bytes (s : regs) : list Z :=
  let '(a, b, c, d, e) := s in
  be_bytes 4 a ++ be_bytes 4 b ++ be_bytes 4 c ++ be_bytes 4 d ++ be_bytes 4 e.

(** The message length in bits, as a 64-bit big-endian integer. *)
Definition sha1_enc (n : nat) : list Z := be_bytes 8 (8 * Z.of_nat n).

Definition SHA1 (m : list Z) : list Z := regs_bytes (md_chain 64 compress H0 sha1_enc m).

(** ** The code computes the reference on the low 32 bits *)

Definition low (s : regs) : regs :=
  let '(a, b, c, d, e) := s in (u32 a, u32 b, u32 c, u32 d, u32 e).

Section words.
Context (LONG : Z) (HL : 32 <= LONG).

Lemma u32_wrap z : u32 (wrap LONG z) = u32 z.
Proof.
  bits i. destruct (Z.ltb_spec i 32), (Z.ltb_spec i LONG); simpl; (done || lia).
Qed.

Lemma u32_add_l x y : u32 (u32 x + y) = u32 (x + y).
Proof using. apply Zplus_mod_idemp_l. Qed.
Lemma u32_add_r x y : u32 (x + u32 y) = u32 (x + y).
Proof using. apply Zplus_mod_idemp_r. Qed.
Lemma u32_lxor x y : u32 (x .^ y) = u32 x .^ u32 y.
Proof using. bits i. by destruct (i <? 32). Qed.
Lemma u32_lor x y : u32 (x .| y) = u32 x .| u32 y.
Proof using. bits i. by destruct (i <? 32). Qed.
Lemma u32_land x y : u32 (x .& y) = u32 x .& u32 y.
Proof using. bits i. by destruct (i <? 32). Qed.

Lemma u32_F1 x y z : u32 (F1 x y z) = ch (u32 x) (u32 y) (u32 z).
Proof using.
  unfold F1, ch. bits i. rewrite Z.lnot_spec, wrap_testbit by done.
  destruct (i <? 32); simpl; [| done].
  by destruct (Z.testbit x i), (Z.testbit y i), (Z.testbit z i).
Qed.
Lemma u32_F2 x y z : u32 (F2 x y z) = parity (u32 x) (u32 y) (u32 z).
Proof using. unfold F2, parity. by rewrite !u32_lxor. Qed.
Lemma u32_F3 x y z : u32 (F3 x y z) = maj (u32 x) (u32 y) (u32 z).
Proof using.
  unfold F3, maj. bits i. destruct (i <? 32); simpl; [| done].
  by destruct (Z.testbit x i), (Z.testbit y i), (Z.testbit z i).
Qed.

Lemma u32_S x n : 0 < n < 32 -> u32 (S32 LONG x n) = rotl32 (u32 x) n.
Proof.
  intros Hn. unfold S32, rotl32. change 0xFFFFFFFF with (Z.ones 32). rewrite <- wrap_land by done.
  bits i.
  destruct (Z.ltb_spec i 32), (Z.ltb_spec i LONG); simpl; try lia.
  destruct (Z.ltb_spec (i + (32 - n)) 32), (Z.lt_ge_cases i n); simpl; try lia.
  - rewrite !(Z.testbit_neg_r _ (i - n)) by lia. by rewrite andb_false_r.
  - by rewrite (proj2 (Z.ltb_lt (i - n) 32)) by lia.
Qed.

Lemma u32_sum e p q k x : u32 (u32 p + u32 q + u32 e + k + u32 x) = u32 (e + (p + q + k + x)).
Proof using.
  unfold wrap. set (M := 2 ^ 32).
  rewrite (Z.mod_eq p M), (Z.mod_eq q M), (Z.mod_eq e M), (Z.mod_eq x M) by done.
  replace (_ + _ + _ + k + _)
    with (e + (p + q + k + x) + (- (p / M) - q / M - e / M - x / M) * M) by ring.
  apply Z_mod_plus_full.
Qed.

(** One line [P(a, b, c, d, e, x)] is a reference step, whose result names
    the registers in rotated order. *)
Lemma P_step F K f a b c d e x w t :
  (forall x y z, u32 (F x y z) = f (u32 x) (u32 y) (u32 z)) ->
  f_t t = f -> k_t t = K -> u32 x = elt w t ->
  let '(e', b') := P LONG F K a b c d e x in
  ref_step w (low (a, b, c, d, e)) t = low (e', a, b', c, d).
Proof.
  intros HF Hf Hk Hx. unfold P, ref_step, low. rewrite Hf, Hk, <- Hx, <- HF.
  rewrite u32_wrap, (u32_S b) by lia.
  rewrite <- (u32_S a 5), !u32_sum by lia. done.
Qed.

(** *** The message schedule in sixteen words *)

Lemma expand_keeps n w j : (j < length w)%nat -> elt (expand n w) j = elt w j.
Proof using.
  revert w. induction n as [| n IH]; intros w Hj; [done |]. cbn [expand].
  rewrite IH by (rewrite length_app; simpl; lia). unfold elt. by rewrite lookup_app_l.
Qed.

Lemma expand_rec n w j :
  (16 <= length w)%nat -> (length w <= j < length w + n)%nat ->
  elt (expand n w) j =
    rotl32 (elt (expand n w) (j - 3) .^ elt (expand n w) (j - 8)
            .^ elt (expand n w) (j - 14) .^ elt (expand n w) (j - 16)) 1.
Proof using.
  revert w. induction n as [| n IH]; intros w Hw Hj; [lia |]. cbn [expand].
  set (x := rotl32 _ 1). destruct (decide (j = length w)) as [-> | Hne].
  - rewrite !expand_keeps by (rewrite length_app; simpl; lia).
    unfold elt at 1. rewrite lookup_app_r, Nat.sub_diag by lia. simpl.
    unfold x, elt. by rewrite !lookup_app_l by lia.
  - apply IH; rewrite length_app; simpl; lia.
Qed.

(** [W] holds, modulo 16, the words the next line reads. *)
Record circular (t : nat) (W w : list Z) : Prop := {
  circ_len : length W = 16%nat;
  circ_words : forall j, (max t 16 - 16 <= j < max t 16)%nat ->
    u32 (elt W (j mod 16)) = elt w j
}.

Lemma idx_mod t k : (k <= t)%nat -> idx (Z.of_nat t) (Z.of_nat k) = ((t - k) mod 16)%nat.
Proof using.
  intros Hk. unfold idx. change 0x0F with (Z.ones 4). rewrite Z.land_ones by done.
  rewrite <- Nat2Z.inj_sub by done. change (2 ^ 4) with (Z.of_nat 16).
  by rewrite <- Nat2Z.inj_mod, Nat2Z.id.
Qed.

Lemma X_step t W w :
  circular t W w ->
  (forall j, (16 <= j < 80)%nat ->
     elt w j = rotl32 (elt w (j - 3) .^ elt w (j - 8) .^ elt w (j - 14) .^ elt w (j - 16)) 1) ->
  (t < 80)%nat ->
  let '(x, W') := X LONG t W in u32 x = elt w t /\ circular (t + 1) W' w.
Proof.
  intros [Hlen Hw] Hrec Ht. unfold X. destruct (Nat.ltb_spec t 16) as [Hlt | Hge].
  - split.
    + rewrite <- (Hw t) by lia. by rewrite Nat.mod_small.
    + split; [done |]. intros j Hj. apply Hw. lia.
  - unfold R. change 3 with (Z.of_nat 3). change 8 with (Z.of_nat 8).
    change 14 with (Z.of_nat 14). rewrite !idx_mod by lia.
    change (idx (Z.of_nat t) 0) with (idx (Z.of_nat t) (Z.of_nat 0)).
    rewrite idx_mod, Nat.sub_0_r by lia.
    assert (H16 : (t mod 16 = (t - 16) mod 16)%nat).
    { replace t with (t - 16 + 1 * 16)%nat at 1 by lia. apply Nat.Div0.mod_add. }
    assert (Hx : u32 (S32 LONG (elt W ((t - 3) mod 16) .^ elt W ((t - 8) mod 16)
                   .^ elt W ((t - 14) mod 16) .^ elt W (t mod 16)) 1) = elt w t).
    { rewrite u32_S, !u32_lxor, H16, !Hw, <- Hrec by lia. done. }
    split; [done |]. split; [by rewrite length_insert |].
    intros j Hj. destruct (decide (j = t)) as [-> | Hne].
    + rewrite <- Hx. unfold elt at 1. rewrite list_lookup_insert_eq; [done |].
      rewrite Hlen. apply Nat.mod_upper_bound. lia.
    + unfold elt at 1. rewrite list_lookup_insert_ne; [by apply Hw; lia |].
      intros E. apply Hne.
      pose proof (Nat.div_mod_eq j 16). pose proof (Nat.div_mod_eq t 16). lia.
Qed.

(** *** Five lines, twenty lines, the block *)

(** One line of the unrolled rounds: read its word, then step. *)
Ltac one_line F K f HF Hrec Hfk :=
  match goal with
  | Hc : circular ?t ?W ?w |- context [X ?L ?t ?W] =>
      let H := fresh in let x := fresh "x" in let W' := fresh "W" in
      let Hc' := fresh "Hc" in let Hx := fresh in let Hf := fresh in let Hk := fresh in
      pose proof (X_step t W w Hc Hrec ltac:(lia)) as H;
      destruct (X L t W) as [x W']; destruct H as [Hx Hc']; clear Hc;
      destruct (Hfk t ltac:(lia)) as [Hf Hk];
      match goal with
      | |- context [P L F K ?a ?b ?c ?d ?e x] =>
          pose proof (P_step F K f a b c d e x w t HF Hf Hk Hx) as H;
          destruct (P L F K a b c d e x); rewrite H; clear H Hx Hf Hk
      end
  end.

Section lines.
Context (w : list Z) (F : Z -> Z -> Z -> Z) (K : Z) (f : Z -> Z -> Z -> Z).
Context (HF : forall x y z, u32 (F x y z) = f (u32 x) (u32 y) (u32 z)).
Context (Hrec : forall j, (16 <= j < 80)%nat ->
     elt w j = rotl32 (elt w (j - 3) .^ elt w (j - 8) .^ elt w (j - 14) .^ elt w (j - 16)) 1).

Lemma P5_steps t s :
  (t + 5 <= 80)%nat -> (forall j, (t <= j < t + 5)%nat -> f_t j = f /\ k_t j = K) ->
  circular t (snd s) w ->
  let s' := P5 LONG F K t s in
  low (fst s') = fold_left (ref_step w) (seq t 5) (low (fst s)) /\ circular (t + 5) (snd s') w.
Proof using HL HF Hrec.
  intros Ht Hfk Hc. destruct s as [[[[[A B] C] D] E] W]. cbn [fst snd] in *. unfold P5.
  cbn beta iota zeta delta [seq fold_left fst snd].
  replace (t + 2)%nat with (t + 1 + 1)%nat by lia.
  replace (t + 3)%nat with (t + 1 + 1 + 1)%nat by lia.
  replace (t + 4)%nat with (t + 1 + 1 + 1 + 1)%nat by lia.
  replace (Datatypes.S (Datatypes.S (Datatypes.S (Datatypes.S t)))) with (t + 1 + 1 + 1 + 1)%nat by lia.
  replace (Datatypes.S (Datatypes.S (Datatypes.S t))) with (t + 1 + 1 + 1)%nat by lia.
  replace (Datatypes.S (Datatypes.S t)) with (t + 1 + 1)%nat by lia.
  replace (Datatypes.S t) with (t + 1)%nat by lia.
  replace (t + 5)%nat with (t + 1 + 1 + 1 + 1 + 1)%nat by lia.
  do 5 one_line F K f HF Hrec Hfk. done.
Qed.

Lemma P20_steps t s :
  (t + 20 <= 80)%nat -> (forall j, (t <= j < t + 20)%nat -> f_t j = f /\ k_t j = K) ->
  circular t (snd s) w ->
  let s' := P20 LONG F K t s in
  low (fst s') = fold_left (ref_step w) (seq t 20) (low (fst s)) /\ circular (t + 20) (snd s') w.
Proof using HL HF Hrec.
  intros Ht Hfk Hc. unfold P20. cbn zeta.
  change 20%nat with (5 + (5 + (5 + 5)))%nat. rewrite !seq_app, !fold_left_app.
  destruct (P5_steps t s) as [E1 C1]; [lia | intros; apply Hfk; lia | done |].
  destruct (P5_steps (t + 5) (P5 LONG F K t s)) as [E2 C2];
    [lia | intros; apply Hfk; lia | done |].
  destruct (P5_steps (t + 5 + 5) (P5 LONG F K (t + 5) (P5 LONG F K t s))) as [E3 C3];
    [lia | intros; apply Hfk; lia | done |].
  destruct (P5_steps (t + 5 + 5 + 5)
    (P5 LONG F K (t + 5 + 5) (P5 LONG F K (t + 5) (P5 LONG F K t s)))) as [E4 C4];
    [lia | intros; apply Hfk; lia | done |].
  cbn zeta in *. replace (t + 10)%nat with (t + 5 + 5)%nat by lia.
  replace (t + 15)%nat with (t + 5 + 5 + 5)%nat by lia.
  rewrite E4, E3, E2, E1. split; [done |].
  by replace (t + (5 + (5 + (5 + 5))))%nat with (t + 5 + 5 + 5 + 5)%nat by lia.
Qed.
End lines.

Lemma add_low a b : u32 (wrap LONG (a + b)) = u32 (u32 a + u32 b).
Proof. by rewrite u32_wrap, u32_add_l, u32_add_r. Qed.

(** The schedule of the code starts as the reference schedule does. *)
Lemma schedule_spec data :
  (forall j, (16 <= j < 80)%nat -> elt (schedule data) j =
     rotl32 (elt (schedule data) (j - 3) .^ elt (schedule data) (j - 8)
             .^ elt (schedule data) (j - 14) .^ elt (schedule data) (j - 16)) 1) /\
  circular 0 (map (fun j => GET_ULONG_BE data (4 * j)) (seq 0 16)) (schedule data).
Proof using.
  unfold schedule. set (w0 := map (fun j => u32 _) _).
  assert (H16 : length w0 = 16%nat) by (unfold w0; by rewrite length_map, length_seq).
  split.
  - intros j Hj. apply (expand_rec 64 w0); lia.
  - split; [by rewrite length_map, length_seq |]. intros j Hj. cbn [max Nat.sub] in Hj.
    rewrite (expand_keeps 64 w0), Nat.mod_small by lia.
    unfold w0. by rewrite !elt_map_seq by lia.
Qed.

Ltac select_fk :=
  intros j Hj; unfold f_t, k_t;
  rewrite ?(proj2 (Nat.ltb_lt j 20)), ?(proj2 (Nat.ltb_ge j 20)) by lia;
  rewrite ?(proj2 (Nat.ltb_lt j 40)), ?(proj2 (Nat.ltb_ge j 40)) by lia;
  rewrite ?(proj2 (Nat.ltb_lt j 60)), ?(proj2 (Nat.ltb_ge j 60)) by lia;
  split; reflexivity.

Lemma fk_0 j : (0 <= j < 0 + 20)%nat -> f_t j = ch /\ k_t j = 0x5A827999.
Proof using. revert j. select_fk. Qed.
Lemma fk_20 j : (20 <= j < 20 + 20)%nat -> f_t j = parity /\ k_t j = 0x6ED9EBA1.
Proof using. revert j. select_fk. Qed.
Lemma fk_40 j : (40 <= j < 40 + 20)%nat -> f_t j = maj /\ k_t j = 0x8F1BBCDC.
Proof using. revert j. select_fk. Qed.
Lemma fk_60 j : (60 <= j < 60 + 20)%nat -> f_t j = parity /\ k_t j = 0xCA62C1D6.
Proof using. revert j. select_fk. Qed.

Lemma sha1_block_spec st data : low (sha1_block LONG st data) = compress (low st) data.
Proof.
  unfold sha1_block, compress. destruct (schedule_spec data) as [Hrec Hc].
  revert Hrec Hc. generalize (schedule data) as w.
  generalize (map (fun j => GET_ULONG_BE data (4 * j)) (seq 0 16)) as W.
  intros W w Hrec Hc. destruct st as [[[[A B] C] D] E].
  pose proof (P20_steps w F1 _ ch u32_F1 Hrec 0 (A, B, C, D, E, W) ltac:(lia) fk_0 Hc) as [E1 C1].
  set (s1 := P20 LONG F1 _ 0 _) in *.
  pose proof (P20_steps w F2 _ parity u32_F2 Hrec 20 s1 ltac:(lia) fk_20 C1) as [E2 C2].
  set (s2 := P20 LONG F2 _ 20 _) in *.
  pose proof (P20_steps w F3 _ maj u32_F3 Hrec 40 s2 ltac:(lia) fk_40 C2) as [E3 C3].
  set (s3 := P20 LONG F3 _ 40 _) in *.
  pose proof (P20_steps w F2 _ parity u32_F2 Hrec 60 s3 ltac:(lia) fk_60 C3) as [E4 C4].
  change 80%nat with (20 + (20 + (20 + 20)))%nat.
  rewrite !seq_app, !fold_left_app. cbn [Nat.add] in *. cbn [fst] in E1.
  rewrite <- E1, <- E2, <- E3, <- E4.
  destruct (P20 LONG F2 _ 60 s3) as [[[[[A' B'] C'] D'] E'] W']. cbn [fst low add_regs].
  by rewrite !add_low.
Qed.
End words.

(** ** Absorbing a message *)

Definition sha1_ready (ctx : sha1_context) : Prop :=
  length (buffer ctx) = 64%nat.

Record sha1_absorbed (ctx : sha1_context) (m : list Z) : Prop := {
  abs_holds : holds 64 compress H0 (low (state ctx)) (buffer ctx) m;
  abs_ready : sha1_ready ctx;
  abs_total : total ctx = (Z.of_nat (length m) mod 2 ^ 32, Z.of_nat (length m) / 2 ^ 32)
}.

Section absorb.
Context (LONG : Z) (HL : 32 <= LONG).

Lemma sha1_starts_absorbed ctx : sha1_ready ctx -> sha1_absorbed (sha1_starts ctx) [].
Proof using.
  intros Hr. split; [| done | done]. apply holds_nil; unfold sha1_ready in Hr; simpl; lia.
Qed.

Lemma blocks_low st k d :
  low (blocks 64 (sha1_block LONG) st k d) = blocks 64 compress (low st) k d.
Proof.
  induction k as [| k IH]; [done |]. rewrite !blocks_S.
  by rewrite sha1_block_spec, IH.
Qed.

Lemma add_total_spec ctx (m : list Z) ilen :
  total ctx = (Z.of_nat (length m) mod 2 ^ 32, Z.of_nat (length m) / 2 ^ 32) ->
  0 <= ilen <= INT_MAX -> Z.of_nat (length m) + ilen < 2 ^ 62 ->
  total (add_total LONG ctx ilen) =
    ((Z.of_nat (length m) + ilen) mod 2 ^ 32, (Z.of_nat (length m) + ilen) / 2 ^ 32).
Proof.
  intros Ht Hi Hm. unfold add_total. rewrite Ht. cbn [total]. set (n := Z.of_nat (length m)) in *.
  change 0xFFFFFFFF with (Z.ones 32). rewrite <- wrap_land by done. rewrite u32_wrap by done.
  unfold INT_MAX in Hi.
  assert (E : u32 (n mod 2 ^ 32 + ilen) = (n + ilen) mod 2 ^ 32) by apply Zplus_mod_idemp_l.
  rewrite E. f_equal.
  pose proof (Z.div_mod n (2 ^ 32) ltac:(done)) as Dn.
  pose proof (Z.mod_pos_bound n (2 ^ 32) ltac:(done)) as Bn.
  pose proof (Z.div_mod (n + ilen) (2 ^ 32) ltac:(done)) as Dm.
  pose proof (Z.mod_pos_bound (n + ilen) (2 ^ 32) ltac:(done)) as Bm.
  assert (0 <= n / 2 ^ 32 < 2 ^ 30).
  { split; [apply Z.div_pos; lia | apply Z.div_lt_upper_bound; [lia |]]. change (2 ^ 32 * 2 ^ 30) with (2 ^ 62). lia. }
  destruct (Z.ltb_spec ((n + ilen) mod 2 ^ 32) ilen); [| nia].
  rewrite wrap_small; [nia |]. unfold in_range.
  pose proof (Z.pow_le_mono_r 2 32 LONG). lia.
Qed.

(** Whole blocks change the chaining value only. *)
Lemma sha1_process_blocks ctx k d :
  blocks 64 (sha1_process LONG) ctx k d =
    {| total := total ctx; state := blocks 64 (sha1_block LONG) (state ctx) k d;
       buffer := buffer ctx; ipad := ipad ctx; opad := opad ctx |}.
Proof using.
  induction k as [| k IH]; [by destruct ctx |]. by rewrite !blocks_S, IH.
Qed.

Definition set_buffer (ctx : sha1_context) (b : list Z) : sha1_context :=
  {| total := total ctx; state := state ctx; buffer := b; ipad := ipad ctx; opad := opad ctx |}.

Lemma put_buffer_ok ctx left b :
  0 <= left -> left + Z.of_nat (length b) <= Z.of_nat (length (buffer ctx)) ->
  put_buffer ctx left b = Ret (set_buffer ctx (splice (buffer ctx) (Z.to_nat left) b)).
Proof using. intros Hl Hb. unfold put_buffer. rewrite store_Some by lia. done. Qed.

(** The bytes left over after the last whole block. *)
Lemma update_tail ctx input p n left :
  0 <= p -> 0 <= n -> p + n <= Z.of_nat (length input) -> 0 <= left ->
  left + n <= Z.of_nat (length (buffer ctx)) ->
  (if 0 <? n then b ← read input p n; put_buffer ctx left b else Ret ctx)
  = Ret (set_buffer ctx (splice (buffer ctx) (Z.to_nat left) (sub input (Z.to_nat p) (Z.to_nat n)))).
Proof using.
  intros Hp Hn Hl Hle Hb. destruct (Z.ltb_spec 0 n).
  - rewrite read_ok by lia. step_run. apply put_buffer_ok; [done |]. rewrite length_sub. lia.
  - replace n with 0 by lia. unfold sub, splice, set_buffer. simpl.
    rewrite Nat.add_0_r, take_drop. by destruct ctx.
Qed.

Lemma left_spec ctx (m : list Z) :
  total ctx = (Z.of_nat (length m) mod 2 ^ 32, Z.of_nat (length m) / 2 ^ 32) ->
  fst (total ctx) .& 0x3F = Z.of_nat (length m mod 64).
Proof using.
  intros ->. cbn [fst]. change 0x3F with (Z.ones 6). rewrite Z.land_ones by done.
  rewrite Z.mod_mod_divide by (by exists (2 ^ 26)).
  by rewrite Nat2Z.inj_mod.
Qed.

Lemma update_rest_ok ctx input p n left :
  0 <= p -> 0 <= n -> p + n <= Z.of_nat (length input) -> 0 <= left ->
  left + n mod 64 <= Z.of_nat (length (buffer ctx)) ->
  let k := (Z.to_nat n / 64)%nat in
  sha1_update_rest LONG input ctx p n left =
    Ret {| total := total ctx;
           state := blocks 64 (sha1_block LONG) (state ctx) k (drop (Z.to_nat p) input);
           buffer := splice (buffer ctx) (Z.to_nat left)
                       (sub input (Z.to_nat p + k * 64) (Z.to_nat n - k * 64));
           ipad := ipad ctx; opad := opad ctx |}.
Proof using.
  intros Hp Hn Hl Hle Hb k. unfold sha1_update_rest.
  rewrite (block_loop (sha1_process LONG) 64) by lia. fold k. rewrite sha1_process_blocks.
  step_run. cbn beta iota.
  assert (Ek : Z.of_nat (k * 64) = n - n mod 64).
  { unfold k. rewrite Nat2Z.inj_mul, Nat2Z.inj_div, Z2Nat.id by done.
    pose proof (Z.div_mod n 64). lia. }
  pose proof (Z.mod_pos_bound n 64 ltac:(done)).
  rewrite update_tail by (cbn [buffer]; lia). unfold set_buffer. cbn [total state buffer ipad opad].
  replace (Z.to_nat (p + Z.of_nat (k * 64))) with (Z.to_nat p + k * 64)%nat by lia.
  replace (Z.to_nat (n - Z.of_nat (k * 64))) with (Z.to_nat n - k * 64)%nat by lia.
  reflexivity.
Qed.

Section update_cases.
Context (ctx ctx1 : sha1_context) (m input : list Z) (ilen : Z).
Abbreviation d := (take (Z.to_nat ilen) input).
Abbreviation l := (length m mod 64)%nat.
Context (Hh : holds 64 compress H0 (low (state ctx)) (buffer ctx) m).
Context (Hr : length (buffer ctx) = 64%nat).
Context (Hi : 0 < ilen) (Hl : ilen <= Z.of_nat (length input)).
Context (Ht : total ctx1 = (Z.of_nat (length (m ++ d)) mod 2 ^ 32,
                            Z.of_nat (length (m ++ d)) / 2 ^ 32)).
Context (Es : state ctx1 = state ctx) (Eb : buffer ctx1 = buffer ctx).

Lemma sha1_l_lt : (l < 64)%nat.
Proof using. clear. apply Nat.mod_upper_bound. lia. Qed.

(** The buffer was empty. *)
Lemma update_empty :
  l = 0%nat ->
  exists ctx', sha1_update_rest LONG input ctx1 0 ilen (Z.of_nat l) = Ret ctx' /\
    sha1_absorbed ctx' (m ++ d) /\ ipad ctx' = ipad ctx1 /\ opad ctx' = opad ctx1.
Proof.
  intros Hl0. pose proof (Z.mod_pos_bound ilen 64 ltac:(done)).
  rewrite update_rest_ok by (rewrite ?Eb, ?Hl0; lia).
  destruct (absorb_empty 64 compress H0 ltac:(lia) _ (buffer ctx) m input (Z.to_nat ilen) Hh
    ltac:(lia) Hl0) as [Lb Hh']. cbn zeta in *.
  eexists. split; [reflexivity |]. split; [| done]. rewrite Hl0, Es, Eb.
  split; [| | exact Ht]; cbn [state buffer].
  - by rewrite blocks_low.
  - unfold sha1_ready. cbn [buffer]. change (Z.to_nat (Z.of_nat 0)) with 0%nat.
    change (Z.to_nat 0) with 0%nat. rewrite Nat.add_0_l, length_splice, Lb by lia.
    pose proof (Nat.mod_upper_bound (Z.to_nat ilen) 64 ltac:(lia)). lia.
Qed.

(** The block stays incomplete. *)
Lemma sha1_update_partial :
  Z.of_nat l + ilen < 64 ->
  exists ctx', sha1_update_rest LONG input ctx1 0 ilen (Z.of_nat l) = Ret ctx' /\
    sha1_absorbed ctx' (m ++ d) /\ ipad ctx' = ipad ctx1 /\ opad ctx' = opad ctx1.
Proof.
  intros Hlt. pose proof sha1_l_lt.
  rewrite update_rest_ok by (rewrite ?Eb, ?Z.mod_small; lia).
  eexists. split; [reflexivity |]. split; [| done]. rewrite Es, Eb, Nat2Z.id.
  rewrite (Nat.div_small (Z.to_nat ilen)), Nat.sub_0_r by lia. change (sub input _ _) with d.
  split; [| | exact Ht]; cbn [state buffer].
  - apply absorb_partial; (done || lia).
  - unfold sha1_ready. cbn [buffer]. rewrite length_splice, length_take; lia.
Qed.

(** The input completes the block. *)
Lemma sha1_update_fill :
  64 <= Z.of_nat l + ilen ->
  let fill := (64 - l)%nat in
  let ctx2 := sha1_process LONG (set_buffer ctx1 (splice (buffer ctx1) l (sub input 0 fill)))
                (splice (buffer ctx1) l (sub input 0 fill)) in
  exists ctx', sha1_update_rest LONG input ctx2 (Z.of_nat fill) (ilen - Z.of_nat fill) 0 = Ret ctx' /\
    sha1_absorbed ctx' (m ++ d) /\ ipad ctx' = ipad ctx1 /\ opad ctx' = opad ctx1.
Proof.
  intros Hge fill ctx2. pose proof sha1_l_lt.
  set (n := ilen - Z.of_nat fill). pose proof (Z.mod_pos_bound n 64 ltac:(done)).
  destruct (absorb_fill 64 compress H0 ltac:(lia) _ (buffer ctx) m input (Z.to_nat ilen) Hh
    ltac:(lia) ltac:(lia)) as (L2 & Lb & Hh'). cbn zeta in *. rewrite Hr in L2.
  rewrite take_ge in Hh' by lia. fold fill in L2, Lb, Hh'.
  assert (E2 : buffer ctx2 = splice (buffer ctx) l (sub input 0 fill)) by (unfold ctx2; by rewrite Eb).
  rewrite <- E2 in *. rewrite update_rest_ok by (rewrite ?L2; unfold n, fill in *; lia).
  eexists. split; [reflexivity |]. split; [| done].
  rewrite Nat2Z.id. change (Z.to_nat 0) with 0%nat.
  replace (Z.to_nat n) with (Z.to_nat ilen - fill)%nat by (unfold n; lia).
  split; [| | exact Ht]; cbn [state buffer].
  - rewrite blocks_low. unfold ctx2 at 1. cbn [sha1_process state set_buffer].
    rewrite sha1_block_spec, Es, Eb, <- E2 by done. exact Hh'.
  - unfold sha1_ready. cbn [buffer]. rewrite length_splice, Lb by lia.
    pose proof (Nat.mod_upper_bound (Z.to_nat ilen - fill) 64 ltac:(lia)). lia.
Qed.
End update_cases.

Lemma sha1_update_ok ctx m input ilen :
  sha1_absorbed ctx m -> 0 <= ilen <= INT_MAX -> ilen <= Z.of_nat (length input) ->
  Z.of_nat (length m) + ilen < 2 ^ 62 ->
  exists ctx', sha1_update LONG ctx input ilen = Ret ctx' /\
    sha1_absorbed ctx' (m ++ take (Z.to_nat ilen) input) /\
    ipad ctx' = ipad ctx /\ opad ctx' = opad ctx.
Proof.
  intros [Hh Hr Ht] Hi Hl Hm. unfold sha1_update.
  destruct (Z.leb_spec ilen 0) as [Hz | Hpos].
  { exists ctx. replace ilen with 0 by lia. rewrite app_nil_r. split_and!; done. }
  rewrite (left_spec ctx m Ht). set (l := (length m mod 64)%nat).
  assert (Hl64 : (l < 64)%nat) by (apply Nat.mod_upper_bound; lia).
  pose proof (add_total_spec ctx m ilen Ht Hi Hm) as Ht1.
  assert (E1 : state (add_total LONG ctx ilen) = state ctx /\
               buffer (add_total LONG ctx ilen) = buffer ctx /\
               ipad (add_total LONG ctx ilen) = ipad ctx /\
               opad (add_total LONG ctx ilen) = opad ctx)
    by (unfold add_total; by destruct (total ctx)).
  destruct E1 as (Es & Eb & <- & <-). set (ctx1 := add_total LONG ctx ilen) in *.
  replace (Z.of_nat (length m) + ilen) with (Z.of_nat (length (m ++ take (Z.to_nat ilen) input)))
    in Ht1 by (rewrite length_app, length_take; lia).
  destruct (Z.eqb_spec (Z.of_nat l) 0) as [Hl0 | Hl0]; cbn [negb andb];
    [| destruct (Z.leb_spec (64 - Z.of_nat l) ilen) as [Hfill | Hfill]]; step_run.
  - apply (update_empty ctx); (done || unfold l in Hl0; lia).
  - rewrite read_ok by lia. step_run. unfold sha1_ready in Hr.
    rewrite put_buffer_ok by (rewrite ?length_sub, ?Eb; lia). step_run. rewrite Nat2Z.id.
    replace (64 - Z.of_nat l) with (Z.of_nat (64 - l)) by lia. rewrite Nat2Z.id.
    apply (sha1_update_fill ctx); (done || unfold l in Hfill; lia).
  - apply (sha1_update_partial ctx); (done || unfold l in Hfill; lia).
Qed.

(** *** The final digest *)

Lemma high_byte n s :
  0 <= s <= 24 ->
  u8 (((u32 n .>> 29) .| wrap LONG ((n .>> 32) .<< 3)) .>> s) = u8 ((n .<< 3) .>> (32 + s)).
Proof.
  intros Hs. bits i. destruct (Z.ltb_spec i 8); cbn [andb]; [| done].
  replace (i + (32 + s) - 3) with (i + s + 29) by lia.
  destruct (Z.lt_ge_cases (i + s) 3).
  - rewrite (Z.testbit_neg_r _ (i + s - 3)), andb_false_r, orb_false_r by lia.
    by rewrite (proj2 (Z.ltb_lt (i + s + 29) 32)) by lia.
  - rewrite (proj2 (Z.ltb_ge (i + s + 29) 32)), (proj2 (Z.ltb_lt (i + s) LONG)) by lia.
    rewrite Z.shiftr_spec by lia. cbn [andb orb]. f_equal. lia.
Qed.

Lemma low_byte n s : 0 <= s <= 24 -> u8 (wrap LONG (u32 n .<< 3) .>> s) = u8 ((n .<< 3) .>> s).
Proof.
  intros Hs. bits i. destruct (Z.ltb_spec i 8); cbn [andb]; [| done].
  rewrite (proj2 (Z.ltb_lt (i + s) LONG)), (proj2 (Z.ltb_lt (i + s - 3) 32)) by lia. done.
Qed.

Lemma msglen_spec n :
  PUT_ULONG_BE (((n mod 2 ^ 32) .>> 29) .| wrap LONG ((n / 2 ^ 32) .<< 3))
    ++ PUT_ULONG_BE (wrap LONG ((n mod 2 ^ 32) .<< 3)) = be_bytes 8 (8 * n).
Proof.
  rewrite <- Z.shiftr_div_pow2 by done. change (n mod 2 ^ 32) with (u32 n).
  replace (8 * n) with (n .<< 3) by (rewrite Z.shiftl_mul_pow2; lia).
  unfold be_bytes, PUT_ULONG_BE. cbn [map seq app Nat.sub].
  pose proof (high_byte n 0) as Hh0. pose proof (low_byte n 0) as Hl0. rewrite Z.shiftr_0_r in *.
  rewrite !high_byte, !low_byte, Hh0, Hl0 by lia. done.
Qed.

Lemma PUT_low s : PUT_ULONG_BE s = be_bytes 4 (u32 s).
Proof using.
  clear. unfold be_bytes, PUT_ULONG_BE. cbn [map seq Nat.sub]. by rewrite !byte_u32 by lia.
Qed.

Lemma PUT_regs (s : regs) :
  (let '(s0, s1, s2, s3, s4) := s in
   PUT_ULONG_BE s0 ++ PUT_ULONG_BE s1 ++ PUT_ULONG_BE s2 ++ PUT_ULONG_BE s3 ++ PUT_ULONG_BE s4)
  = regs_bytes (low s).
Proof using.
  clear. destruct s as [[[[s0 s1] s2] s3] s4]. cbn [low regs_bytes].
  by rewrite (PUT_low s0), (PUT_low s1), (PUT_low s2), (PUT_low s3), (PUT_low s4).
Qed.

Lemma padn_spec n :
  let last := Z.of_nat (n mod 64) in
  let padn := if last <? 56 then 56 - last else 120 - last in
  0 < padn <= 64 /\ take (Z.to_nat padn) sha1_padding = [0x80] ++ replicate (pad_zeros 64 8 n) 0.
Proof using.
  clear. intros last padn. pose proof (Nat.mod_upper_bound n 64 ltac:(lia)).
  assert (Hp : 0 < padn <= 64) by (unfold padn; destruct (Z.ltb_spec last 56); lia).
  split; [done |].
  assert (Hz : pad_zeros 64 8 n = (Z.to_nat padn - 1)%nat).
  { unfold pad_zeros. rewrite <- Nat.add_assoc, <- Nat.Div0.add_mod_idemp_l.
    unfold padn, last in *. clear padn last Hp. revert H. generalize (n mod 64)%nat as r. intros r Hr.
    destruct (decide (r < 55)%nat); [| destruct (decide (r = 55)%nat) as [-> |]; [done |]].
    - rewrite (Nat.mod_small (r + 9)), Nat.mod_small by lia.
      destruct (Z.ltb_spec (Z.of_nat r) 56); lia.
    - replace (r + (1 + 8))%nat with (r - 55 + 1 * 64)%nat by lia.
      rewrite Nat.Div0.mod_add, (Nat.mod_small (r - 55)), Nat.mod_small by lia.
      destruct (Z.ltb_spec (Z.of_nat r) 56); lia. }
  rewrite Hz. replace (Z.to_nat padn) with (1 + (Z.to_nat padn - 1))%nat at 1 by lia.
  unfold sha1_padding. cbn [take app Nat.add]. f_equal. rewrite take_replicate. f_equal. lia.
Qed.

Lemma sha1_finish_ok ctx m :
  sha1_absorbed ctx m -> Z.of_nat (length m) < 2 ^ 61 ->
  exists ctx', sha1_finish LONG ctx = Ret (ctx', SHA1 m) /\ sha1_ready ctx' /\
    ipad ctx' = ipad ctx /\ opad ctx' = opad ctx.
Proof.
  intros Ha Hm. unfold sha1_finish. pose proof (abs_total _ _ Ha) as Ht.
  rewrite Ht. pose proof (left_spec ctx m Ht) as Hlast. rewrite Ht in Hlast. cbn [fst] in Hlast.
  rewrite Hlast, msglen_spec.
  destruct (padn_spec (length m)) as [Hpn Hpad]. cbn zeta in Hpn, Hpad.
  set (padn := if _ <? 56 then _ else _) in *.
  destruct (sha1_update_ok ctx m sha1_padding padn Ha) as (c1 & -> & H1 & Hi1 & Ho1);
    [unfold INT_MAX; lia | simpl length; lia | lia |].
  step_run. rewrite Hpad in H1.
  destruct (sha1_update_ok c1 _ (be_bytes 8 (8 * Z.of_nat (length m))) 8 H1)
    as (c2 & -> & H2 & Hi2 & Ho2);
    [unfold INT_MAX; lia | by rewrite length_be_bytes | |].
  { rewrite length_app, length_app, length_replicate. unfold pad_zeros.
    pose proof (Nat.mod_upper_bound (64 - (length m + 1 + 8) mod 64) 64 ltac:(lia)). simpl length. lia. }
  step_run. rewrite (take_ge (be_bytes 8 _)) in H2 by (rewrite length_be_bytes; lia).
  assert (E : regs_bytes (low (state c2)) = SHA1 m).
  { unfold SHA1, md_chain. destruct (abs_holds _ _ H2) as [-> _ _]. rewrite <- !app_assoc.
    unfold padding, sha1_enc. by rewrite length_be_bytes. }
  rewrite <- E, <- PUT_regs. exists c2. destruct (state c2) as [[[[s0 s1] s2] s3] s4].
  split; [reflexivity |]. split; [apply H2 | split; congruence].
Qed.
End absorb.

(** ** The interface *)

#[export] Instance sha1_stream (LONG : Z) (HL : 32 <= LONG) : StreamHash sha1_context.
Proof.
  refine {| sh_starts := sha1_starts; sh_update := sha1_update LONG;
            sh_finish := sha1_finish LONG; sh_digest := SHA1; sh_ready := sha1_ready;
            sh_absorbed := sha1_absorbed; sh_chunk := INT_MAX; sh_limit := 2 ^ 61 |}.
  - done.
  - apply sha1_starts_absorbed.
  - intros c m input ilen Hc Hi Hl Hm.
    destruct (sha1_update_ok LONG HL c m input ilen Hc Hi Hl) as (c' & Hu & Ha & _);
      [lia | by exists c'].
  - intros c m Hc Hm.
    destruct (sha1_finish_ok LONG HL c m Hc Hm) as (c' & Hf & Hr & _). by exists c'.
Defined.

(** ** One-shot digests, files, HMAC *)

Section clients.
Context (LONG : Z) (HL : 32 <= LONG).

Lemma sha1_ok ctx input ilen :
  sha1_ready ctx -> 0 <= ilen <= INT_MAX -> ilen <= Z.of_nat (length input) ->
  sha1 LONG ctx input ilen = Ret (SHA1 (take (Z.to_nat ilen) input)).
Proof.
  intros Hr Hi Hl. unfold sha1.
  destruct (sha1_update_ok LONG HL _ [] input ilen (sha1_starts_absorbed _ Hr) Hi Hl)
    as (c & -> & Hc & _); [unfold INT_MAX in Hi; simpl length; lia |].
  step_run. destruct (sha1_finish_ok LONG HL c _ Hc) as (c' & -> & _); [| done].
  unfold INT_MAX in Hi. simpl app. rewrite length_take. lia.
Qed.

Lemma SHA1_bytes m : length (SHA1 m) = 20%nat /\ Forall byte (SHA1 m).
Proof using.
  clear. unfold SHA1. destruct (md_chain _ _ _ _ _) as [[[[a b] c] d] e]. cbn [regs_bytes].
  split; [by rewrite !length_app, !length_be_bytes |].
  repeat apply Forall_app_2; apply be_bytes_byte.
Qed.

(** The pads after the loop over the key. *)
Lemma pad_loop key n :
  Forall byte key -> (n <= length key)%nat -> (n <= 64)%nat ->
  for_loop n 0 (fun i '(ip, op) =>
      k ← lift (key !! i);
      pi ← lift (ip !! i);
      po ← lift (op !! i);
      ip ← lift (nset ip i (u8 (pi .^ k)));
      op ← lift (nset op i (u8 (po .^ k)));
      Ret (ip, op)) (replicate 64 0x36, replicate 64 0x5C)
  = Ret (map (Z.lxor 0x36) (take n key ++ replicate (64 - n) 0),
         map (Z.lxor 0x5C) (take n key ++ replicate (64 - n) 0)).
Proof using.
  intros Hk Hn H64.
  match goal with |- for_loop n 0 ?body ?s0 = _ =>
    destruct (for_loop_run (fun i s =>
      s = (map (Z.lxor 0x36) (take i key ++ replicate (64 - i) 0),
           map (Z.lxor 0x5C) (take i key ++ replicate (64 - i) 0))) body n 0 s0)
      as (s & -> & ->); [done | | done] end.
  intros i s Hi ->. destruct (lookup_lt_is_Some_2 key i) as [k Hki]; [lia |].
  rewrite Hki. cbn [lift mbind outcome_bind].
  assert (Hl : forall c, (map (Z.lxor c) (take i key ++ replicate (64 - i) 0)) !! i = Some c).
  { intros c. change (map (Z.lxor c)) with (fmap (M := list) (Z.lxor c)).
    rewrite list_lookup_fmap, lookup_app_r, length_take, Nat.min_l, Nat.sub_diag
      by (rewrite ?length_take; lia).
    rewrite lookup_replicate_2 by lia. simpl. by rewrite Z.lxor_0_r. }
  rewrite !Hl. cbn [lift mbind outcome_bind].
  assert (Hs : forall c, byte c -> nset (map (Z.lxor c) (take i key ++ replicate (64 - i) 0)) i (u8 (c .^ k))
    = Some (map (Z.lxor c) (take (i + 1) key ++ replicate (64 - (i + 1)) 0))).
  { intros c Hc. pose proof (Forall_lookup_1 _ _ _ _ Hk Hki) as Hkb.
    rewrite nset_Some by (rewrite length_map, length_app, length_take, length_replicate; lia).
    f_equal. rewrite wrap_small by (by apply lxor_range).
    rewrite !map_app, insert_app_r_alt by (rewrite length_map, length_take; lia).
    rewrite length_map, length_take, Nat.min_l, Nat.sub_diag by lia.
    replace (64 - i)%nat with (S (64 - (i + 1))) by lia. cbn [replicate map].
    rewrite Nat.add_1_r, (take_S_r _ _ _ Hki), map_app, <- app_assoc. done. }
  rewrite !Hs by done. cbn [lift mbind outcome_bind]. by eexists.
Qed.

Lemma hmac_starts_ok ctx key keylen :
  sha1_ready ctx -> 0 <= keylen <= INT_MAX -> keylen <= Z.of_nat (length key) ->
  Forall byte key ->
  let k := hmac_key SHA1 64 (take (Z.to_nat keylen) key) in
  exists ctx', sha1_hmac_starts LONG ctx key keylen = Ret ctx' /\
    sha1_absorbed ctx' (map (Z.lxor 0x36) k) /\ opad ctx' = map (Z.lxor 0x5C) k /\
    length k = 64%nat.
Proof.
  intros Hr Hk Hlen Hb. cbn zeta. unfold sha1_hmac_starts, hmac_key.
  set (kk := take (Z.to_nat keylen) key).
  assert (Hkk : length kk = Z.to_nat keylen) by (unfold kk; rewrite length_take; lia).
  set (k' := if (64 <? length kk)%nat then SHA1 kk else kk).
  assert (Hsel : exists key' keylen',
    (if 64 <? keylen then sum ← sha1 LONG ctx key keylen; Ret (sum, 20) else Ret (key, keylen))
      = Ret (key', keylen') /\ take (Z.to_nat keylen') key' = k' /\
    (Z.to_nat keylen' <= length key')%nat /\ (Z.to_nat keylen' <= 64)%nat /\ Forall byte key').
  { unfold k'. rewrite Hkk. destruct (SHA1_bytes kk) as [HL20 HB20].
    destruct (Z.ltb_spec 64 keylen), (Nat.ltb_spec 64 (Z.to_nat keylen)); try lia.
    - rewrite sha1_ok by done. step_run. fold kk. exists (SHA1 kk), 20.
      rewrite HL20, take_ge by lia. split_and!; (done || lia).
    - exists key, keylen. split_and!; (done || lia). }
  destruct Hsel as (key' & keylen' & -> & Ht & Hl1 & Hl2 & Hb'). step_run. cbn beta iota.
  rewrite pad_loop by done. step_run. rewrite Ht. cbn beta iota zeta.
  assert (Hlk : length k' = Z.to_nat keylen') by (rewrite <- Ht, length_take; lia).
  rewrite <- Hlk. set (k := k' ++ replicate (64 - length k') 0).
  assert (H64 : length k = 64%nat) by (unfold k; rewrite length_app, length_replicate; lia).
  set (ctx1 := sha1_starts _).
  destruct (sha1_update_ok LONG HL ctx1 [] (ipad ctx1) 64) as (c & Hc & Ha & _ & Ho).
  - by apply sha1_starts_absorbed.
  - unfold INT_MAX. lia.
  - unfold ctx1. cbn [ipad sha1_starts]. rewrite length_map. lia.
  - simpl length. lia.
  - exists c. split; [exact Hc |]. split; [| by rewrite Ho].
    rewrite take_ge in Ha by (unfold ctx1; cbn [ipad sha1_starts]; rewrite length_map; lia).
    exact Ha.
Qed.

Lemma hmac_finish_ok ctx m :
  sha1_absorbed ctx m -> Z.of_nat (length m) < 2 ^ 61 ->
  length (opad ctx) = 64%nat ->
  exists ctx', sha1_hmac_finish LONG ctx = Ret (ctx', SHA1 (opad ctx ++ SHA1 m)).
Proof.
  intros Ha Hm Ho. unfold sha1_hmac_finish.
  destruct (sha1_finish_ok LONG HL ctx m Ha Hm) as (c1 & -> & Hr1 & _ & Ho1).
  step_run. cbn beta iota. cbn [opad sha1_starts]. rewrite Ho1.
  destruct (sha1_update_ok LONG HL (sha1_starts c1) [] (opad ctx) 64 (sha1_starts_absorbed _ Hr1))
    as (c2 & -> & H2 & _); [unfold INT_MAX; lia | lia | simpl length; lia |].
  step_run. rewrite take_ge in H2 by lia. simpl app in H2. destruct (SHA1_bytes m) as [H20 _].
  destruct (sha1_update_ok LONG HL c2 _ (SHA1 m) 20 H2) as (c3 & -> & H3 & _);
    [unfold INT_MAX; lia | lia | lia |].
  step_run. rewrite take_ge in H3 by lia.
  destruct (sha1_finish_ok LONG HL c3 _ H3) as (c4 & -> & _);
    [rewrite length_app; lia | by exists c4].
Qed.

Lemma file_loop bytes ctx :
  sha1_absorbed ctx [] -> Z.of_nat (length bytes) < 2 ^ 61 ->
  exists ctx', sha1_file_loop LONG ctx bytes = Ret (ctx', []) /\ sha1_absorbed ctx' bytes.
Proof.
  intros Ha Hb. unfold sha1_file_loop.
  match goal with |- context [while_loop ?fuel ?cond ?body ?s0] =>
    destruct (while_loop_run (fun '(c, rest) => exists pre, bytes = pre ++ rest /\ sha1_absorbed c pre)
      (fun '(_, rest) => length rest) cond body fuel s0) as ([c rest] & Hw & (pre & Hp & Hc) & Hend)
  end.
  - by exists [].
  - done.
  - intros [c rest] (pre & Hp & Hc) Hne. cbn beta iota in Hne |- *.
    assert (Hlen : length bytes = (length pre + length rest)%nat) by (by rewrite Hp, length_app).
    apply negb_true_iff, Nat.eqb_neq in Hne.
    destruct (sha1_update_ok LONG HL c pre (take 1024 rest) (Z.of_nat (length (take 1024 rest))) Hc)
      as (c' & -> & Hc' & _); [unfold INT_MAX; rewrite length_take; lia | done | rewrite length_take; lia |].
    step_run. eexists. split; [reflexivity |]. rewrite Nat2Z.id, (take_ge (take _ _)) in Hc' by done.
    split; [| rewrite length_drop; lia]. exists (pre ++ take 1024 rest). split; [| done].
    by rewrite <- app_assoc, take_drop.
  - apply negb_false_iff, Nat.eqb_eq, nil_length_inv in Hend as ->.
    rewrite app_nil_r in Hp. subst pre. by exists c.
Qed.
End clients.

(** ** Properties *)

(** Whatever the width of [unsigned long], the 80 unrolled lines of
    [sha1_process], with their sixteen-word circular schedule, compute on the
    low 32 bits of the state the compression function of FIPS 180. *)
Theorem sha1_process_is_fips LONG ctx data :
  32 <= LONG ->
  low (state (sha1_process LONG ctx data)) = compress (low (state ctx)) data.
Proof. intros HL. by apply sha1_block_spec. Qed.

(** SHA-1 of a message is the same however the message is cut into
    updates: [sha1_starts], a [sha1_update] per fragment and [sha1_finish]
    never leave their buffers and return the digest of the concatenation, for
    any width of [unsigned long] and up to the 2^64 bits of the standard. *)
Theorem sha1_any_fragmentation LONG (HL : 32 <= LONG) ctx fragments :
  sha1_ready ctx -> Forall (fun f => Z.of_nat (length f) <= INT_MAX) fragments ->
  Z.of_nat (length (concat fragments)) < 2 ^ 61 ->
  exists ctx',
    (c ← sh_updates (H := sha1_stream LONG HL) (sha1_starts ctx) fragments;
     sha1_finish LONG c) = Ret (ctx', SHA1 (concat fragments)).
Proof.
  intros Hr Hf Hl.
  destruct (sh_run_ok (H := sha1_stream LONG HL) fragments ctx Hr Hf Hl) as (c & Hrun & _).
  by exists c.
Qed.

(** [sha1_hmac] computes HMAC-SHA-1 as RFC 2104 defines it, long keys
    included. *)
Theorem sha1_hmac_is_rfc2104 LONG ctx key keylen input ilen :
  32 <= LONG -> sha1_ready ctx -> Forall byte key ->
  0 <= keylen <= INT_MAX -> keylen <= Z.of_nat (length key) ->
  0 <= ilen <= INT_MAX -> ilen <= Z.of_nat (length input) ->
  sha1_hmac LONG ctx key keylen input ilen =
    Ret (hmac_spec SHA1 64 (take (Z.to_nat keylen) key) (take (Z.to_nat ilen) input)).
Proof.
  intros HL Hr Hb Hk Hkl Hi Hil. unfold sha1_hmac.
  destruct (hmac_starts_ok LONG HL ctx key keylen Hr Hk Hkl Hb) as (c1 & -> & H1 & Ho1 & Hlen).
  step_run. unfold sha1_hmac_update.
  destruct (sha1_update_ok LONG HL c1 _ input ilen H1 Hi Hil) as (c2 & -> & H2 & _ & Ho2);
    [rewrite length_map; unfold INT_MAX in Hi; lia |].
  step_run.
  destruct (hmac_finish_ok LONG HL c2 _ H2) as (c3 & ->).
  - unfold INT_MAX in Hi. rewrite length_app, length_map, length_take. lia.
  - by rewrite Ho2, Ho1, length_map.
  - step_run. by rewrite Ho2, Ho1.
Qed.

(** [sha1_file] returns 1 without a digest when the file cannot be
    opened; otherwise the digest of the bytes that could be read, with 0, or
    with 2 when reading stopped with an error. *)
Theorem sha1_file_result LONG ctx f :
  32 <= LONG -> sha1_ready ctx ->
  (forall bytes, contents f = Some bytes -> Z.of_nat (length bytes) < 2 ^ 61) ->
  sha1_file LONG ctx f =
    Ret (match contents f with
         | None => (1, None)
         | Some bytes => (if read_error f then 2 else 0, Some (SHA1 bytes))
         end).
Proof.
  intros HL Hr Hb. unfold sha1_file. destruct (contents f) as [bytes |]; [| done].
  destruct (file_loop LONG HL bytes _ (sha1_starts_absorbed _ Hr) (Hb _ eq_refl))
    as (c & -> & Hc).
  step_run. cbn beta iota.
  destruct (sha1_finish_ok LONG HL c bytes Hc (Hb _ eq_refl)) as (c' & -> & _).
  step_run. by destruct (read_error f).
Qed.

(** ** Witnesses *)

Lemma sha1_process_is_fips_witness :
  low (state (sha1_process 64 (sha1_starts blank) (replicate 64 97)))
  = compress (low (state (sha1_starts blank))) (replicate 64 97).
Proof. apply (sha1_process_is_fips 64); lia. Defined.

Lemma sha1_any_fragmentation_witness :
  exists ctx',
    (c ← sh_updates (H := sha1_stream 64 ltac:(lia)) (sha1_starts blank) [[97]; [98; 99]];
     sha1_finish 64 c) = Ret (ctx', SHA1 [97; 98; 99]).
Proof.
  apply (sha1_any_fragmentation 64 ltac:(lia) blank [[97]; [98; 99]]).
  - reflexivity.
  - repeat constructor; discriminate.
  - reflexivity.
Defined.

Lemma sha1_hmac_is_rfc2104_witness :
  sha1_hmac 32 blank (replicate 80 0xaa) 80 [97; 98; 99] 3
  = Ret (hmac_spec SHA1 64 (replicate 80 0xaa) [97; 98; 99]).
Proof.
  apply (sha1_hmac_is_rfc2104 32 blank (replicate 80 0xaa) 80 [97; 98; 99] 3).
  - lia.
  - reflexivity.
  - apply Forall_replicate. split; [discriminate | reflexivity].
  - split; discriminate.
  - discriminate.
  - split; discriminate.
  - discriminate.
Defined.

Lemma sha1_file_result_witness :
  sha1_file 32 blank {| contents := Some [97; 98; 99]; read_error := true |}
  = Ret (2, Some (SHA1 [97; 98; 99])).
Proof.
  apply (sha1_file_result 32 blank {| contents := Some [97; 98; 99]; read_error := true |}).
  - lia.
  - reflexivity.
  - intros bytes [= <-]. reflexivity.
Defined.
