(* ===== verification/Md5.v ===== *)
(** * MD5: example-3/md5.c

    Words are 32-bit unsigned integers; [~] is the complement in that width.
    The definitions keep the constants of the source, written as complements
    of the values the source gives.  Pointers into the data are offsets into a
    list; reading past its end is undefined. *)
From S2P Require Import Prelude StreamHash.

(** ** The constants *)

Definition T_MASK : Z := 0xFFFFFFFF.
Definition T1 : Z := T_MASK .^ 0x28955b87.
Definition T2 : Z := T_MASK .^ 0x173848a9.
Definition T3 : Z := 0x242070db.
Definition T4 : Z := T_MASK .^ 0x3e423111.
Definition T5 : Z := T_MASK .^ 0x0a83f050.
Definition T6 : Z := 0x4787c62a.
Definition T7 : Z := T_MASK .^ 0x57cfb9ec.
Definition T8 : Z := T_MASK .^ 0x02b96afe.
Definition T9 : Z := 0x698098d8.
Definition T10 : Z := T_MASK .^ 0x74bb0850.
Definition T11 : Z := T_MASK .^ 0x0000a44e.
Definition T12 : Z := T_MASK .^ 0x76a32841.
Definition T13 : Z := 0x6b901122.
Definition T14 : Z := T_MASK .^ 0x02678e6c.
Definition T15 : Z := T_MASK .^ 0x5986bc71.
Definition T16 : Z := 0x49b40821.
Definition T17 : Z := T_MASK .^ 0x09e1da9d.
Definition T18 : Z := T_MASK .^ 0x3fbf4cbf.
Definition T19 : Z := 0x265e5a51.
Definition T20 : Z := T_MASK .^ 0x16493855.
Definition T21 : Z := T_MASK .^ 0x29d0efa2.
Definition T22 : Z := 0x02441453.
Definition T23 : Z := T_MASK .^ 0x275e197e.
Definition T24 : Z := T_MASK .^ 0x182c0437.
Definition T25 : Z := 0x21e1cde6.
Definition T26 : Z := T_MASK .^ 0x3cc8f829.
Definition T27 : Z := T_MASK .^ 0x0b2af278.
Definition T28 : Z := 0x455a14ed.
Definition T29 : Z := T_MASK .^ 0x561c16fa.
Definition T30 : Z := T_MASK .^ 0x03105c07.
Definition T31 : Z := 0x676f02d9.
Definition T32 : Z := T_MASK .^ 0x72d5b375.
Definition T33 : Z := T_MASK .^ 0x0005c6bd.
Definition T34 : Z := T_MASK .^ 0x788e097e.
Definition T35 : Z := 0x6d9d6122.
Definition T36 : Z := T_MASK .^ 0x021ac7f3.
Definition T37 : Z := T_MASK .^ 0x5b4115bb.
Definition T38 : Z := 0x4bdecfa9.
Definition T39 : Z := T_MASK .^ 0x0944b49f.
Definition T40 : Z := T_MASK .^ 0x4140438f.
Definition T41 : Z := 0x289b7ec6.
Definition T42 : Z := T_MASK .^ 0x155ed805.
Definition T43 : Z := T_MASK .^ 0x2b10cf7a.
Definition T44 : Z := 0x04881d05.
Definition T45 : Z := T_MASK .^ 0x262b2fc6.
Definition T46 : Z := T_MASK .^ 0x1924661a.
Definition T47 : Z := 0x1fa27cf8.
Definition T48 : Z := T_MASK .^ 0x3b53a99a.
Definition T49 : Z := T_MASK .^ 0x0bd6ddbb.
Definition T50 : Z := 0x432aff97.
Definition T51 : Z := T_MASK .^ 0x546bdc58.
Definition T52 : Z := T_MASK .^ 0x036c5fc6.
Definition T53 : Z := 0x655b59c3.
Definition T54 : Z := T_MASK .^ 0x70f3336d.
Definition T55 : Z := T_MASK .^ 0x00100b82.
Definition T56 : Z := T_MASK .^ 0x7a7ba22e.
Definition T57 : Z := 0x6fa87e4f.
Definition T58 : Z := T_MASK .^ 0x01d3191f.
Definition T59 : Z := T_MASK .^ 0x5cfebceb.
Definition T60 : Z := 0x4e0811a1.
Definition T61 : Z := T_MASK .^ 0x08ac817d.
Definition T62 : Z := T_MASK .^ 0x42c50dca.
Definition T63 : Z := 0x2ad7d2bb.
Definition T64 : Z := T_MASK .^ 0x14792c6e.

Record md5_state_t := {
  count : Z * Z;
  abcd : Z * Z * Z * Z;
  buf : list Z
}.

(** ** md5_process *)

Definition NOT (x : Z) : Z := u32 (Z.lnot x).

Definition ROTATE_LEFT (x n : Z) : Z := u32 (x .<< n) .| (x .>> (32 - n)).

(** The words of a block: the aligned and the copied little-endian reads and
    the big-endian reassembly all give the value of the four bytes, least
    significant first. *)
Definition word (data : list Z) (i : nat) : Z :=
  u32 (elt data (4 * i) + (elt data (4 * i + 1) .<< 8) + (elt data (4 * i + 2) .<< 16)
       + i32 (elt data (4 * i + 3) .<< 24)).

Definition F (x y z : Z) : Z := (x .& y) .| (NOT x .& z).
Definition G (x y z : Z) : Z := (x .& z) .| (y .& NOT z).
Definition H (x y z : Z) : Z := x .^ y .^ z.
Definition I (x y z : Z) : Z := y .^ (x .| NOT z).

(** The new value of [a] after [SET(a, b, c, d, k, s, Ti)] with the round's
    function [f]. *)
Definition SET (f : Z -> Z -> Z -> Z) (X : list Z) (a b c d : Z) (row : nat * Z * Z) : Z :=
  let '(k, s, Ti) := row in
  let t := u32 (a + f b c d + elt X k + Ti) in
  u32 (ROTATE_LEFT t s + b).

(** The lines of a round, four at a time: [SET(a,b,c,d)], [SET(d,a,b,c)],
    [SET(c,d,a,b)], [SET(b,c,d,a)]. *)
Fixpoint round f (X : list Z) (rows : list (nat * Z * Z)) (s : Z * Z * Z * Z) : Z * Z * Z * Z :=
  match rows with
  | r1 :: r2 :: r3 :: r4 :: rows =>
      let '(a, b, c, d) := s in
      let a := SET f X a b c d r1 in
      let d := SET f X d a b c r2 in
      let c := SET f X c d a b r3 in
      let b := SET f X b c d a r4 in
      round f X rows (a, b, c, d)
  | _ => s
  end.

Definition round1 : list (nat * Z * Z) :=
  [(0%nat, 7, T1); (1%nat, 12, T2); (2%nat, 17, T3); (3%nat, 22, T4);
   (4%nat, 7, T5); (5%nat, 12, T6); (6%nat, 17, T7); (7%nat, 22, T8);
   (8%nat, 7, T9); (9%nat, 12, T10); (10%nat, 17, T11); (11%nat, 22, T12);
   (12%nat, 7, T13); (13%nat, 12, T14); (14%nat, 17, T15); (15%nat, 22, T16)].
Definition round2 : list (nat * Z * Z) :=
  [(1%nat, 5, T17); (6%nat, 9, T18); (11%nat, 14, T19); (0%nat, 20, T20);
   (5%nat, 5, T21); (10%nat, 9, T22); (15%nat, 14, T23); (4%nat, 20, T24);
   (9%nat, 5, T25); (14%nat, 9, T26); (3%nat, 14, T27); (8%nat, 20, T28);
   (13%nat, 5, T29); (2%nat, 9, T30); (7%nat, 14, T31); (12%nat, 20, T32)].
Definition round3 : list (nat * Z * Z) :=
  [(5%nat, 4, T33); (8%nat, 11, T34); (11%nat, 16, T35); (14%nat, 23, T36);
   (1%nat, 4, T37); (4%nat, 11, T38); (7%nat, 16, T39); (10%nat, 23, T40);
   (13%nat, 4, T41); (0%nat, 11, T42); (3%nat, 16, T43); (6%nat, 23, T44);
   (9%nat, 4, T45); (12%nat, 11, T46); (15%nat, 16, T47); (2%nat, 23, T48)].
Definition round4 : list (nat * Z * Z) :=
  [(0%nat, 6, T49); (7%nat, 10, T50); (14%nat, 15, T51); (5%nat, 21, T52);
   (12%nat, 6, T53); (3%nat, 10, T54); (10%nat, 15, T55); (1%nat, 21, T56);
   (8%nat, 6, T57); (15%nat, 10, T58); (6%nat, 15, T59); (13%nat, 21, T60);
   (4%nat, 6, T61); (11%nat, 10, T62); (2%nat, 15, T63); (9%nat, 21, T64)].

Definition md5_block (s : Z * Z * Z * Z) (data : list Z) : Z * Z * Z * Z :=
  let X := map (word data) (seq 0 16) in
  let s' := round F X round1 s in
  let s' := round G X round2 s' in
  let s' := round H X round3 s' in
  let s' := round I X round4 s' in
  let '(a0, b0, c0, d0) := s in
  let '(a, b, c, d) := s' in
  (u32 (a0 + a), u32 (b0 + b), u32 (c0 + c), u32 (d0 + d)).

Definition md5_process (pms : md5_state_t) (data : list Z) : md5_state_t :=
  {| count := count pms; abcd := md5_block (abcd pms) data; buf := buf pms |}.

(** ** md5_init, md5_append, md5_finish *)

Definition md5_init (pms : md5_state_t) : md5_state_t :=
  {| count := (0, 0);
     abcd := (0x67452301, T_MASK .^ 0x10325476, T_MASK .^ 0x67452301, 0x10325476);
     buf := buf pms |}.

(** [memcpy(pms->buf + offset, b, ...)]. *)
Definition put_buf (pms : md5_state_t) (offset : Z) (b : list Z) : outcome md5_state_t :=
  b' ← lift (store (buf pms) (Z.to_nat offset) b);
  Ret {| count := count pms; abcd := abcd pms; buf := b' |}.

(** Update the message length. *)
Definition add_count (pms : md5_state_t) (nbytes nbits : Z) : md5_state_t :=
  let '(c0, c1) := count pms in
  let c1 := u32 (c1 + (nbytes .>> 29)) in
  let c0 := u32 (c0 + nbits) in
  let c1 := if c0 <? nbits then u32 (c1 + 1) else c1 in
  {| count := (c0, c1); abcd := abcd pms; buf := buf pms |}.

(** Process full blocks, then the final partial block. *)
Definition md5_append_rest (data : list Z) (pms : md5_state_t) (p left : Z)
    : outcome md5_state_t :=
  '(pms, p, left) ←
    while_loop (Z.to_nat left) (fun '(_, _, left) => 64 <=? left)
      (fun '(pms, p, left) =>
         b ← read data p 64; Ret (md5_process pms b, p + 64, left - 64))
      (pms, p, left);
  if negb (left =? 0) then b ← read data p left; put_buf pms 0 b else Ret pms.

Definition md5_append (pms : md5_state_t) (data : list Z) (nbytes : Z) : outcome md5_state_t :=
  let left := nbytes in
  let offset := (fst (count pms) .>> 3) .& 63 in
  let nbits := u32 (i32 (nbytes .<< 3)) in
  if nbytes <=? 0 then Ret pms else
  let pms := add_count pms nbytes nbits in
  if negb (offset =? 0) then
    if negb (in_int (offset + nbytes)) then Undef else
    let copy := if 64 <? offset + nbytes then 64 - offset else nbytes in
    b ← read data 0 copy;
    pms ← put_buf pms offset b;
    if offset + copy <? 64 then Ret pms
    else md5_append_rest data (md5_process pms (buf pms)) copy (left - copy)
  else md5_append_rest data pms 0 left.

Definition pad : list Z := 0x80 :: replicate 63 0.

(** [n] bytes of the words [w], least significant first. *)
Definition word_bytes (w : list Z) (n : nat) : list Z :=
  map (fun i => u8 (elt w (i / 4) .>> (Z.land (Z.of_nat i) 3 .<< 3))) (seq 0 n).

Definition md5_finish (pms : md5_state_t) : outcome (md5_state_t * list Z) :=
  let '(c0, c1) := count pms in
  let data := word_bytes [c0; c1] 8 in
  pms ← md5_append pms pad ((u32 (55 - (c0 .>> 3)) .& 63) + 1);
  pms ← md5_append pms data 8;
  let '(a, b, c, d) := abcd pms in
  Ret (pms, word_bytes [a; b; c; d] 16).

(** ** The test suite of RFC 1321 *)

Definition blank : md5_state_t :=
  {| count := (0, 0); abcd := (0, 0, 0, 0); buf := replicate 64 0 |}.

Definition md5_digest (m : list Z) : outcome (list Z) :=
  pms ← md5_append (md5_init blank) m (Z.of_nat (length m));
  '(_, digest) ← md5_finish pms;
  Ret digest.

Example md5_empty : md5_digest [] = Ret
  [0xd4; 0x1d; 0x8c; 0xd9; 0x8f; 0x00; 0xb2; 0x04; 0xe9; 0x80; 0x09; 0x98; 0xec; 0xf8; 0x42; 0x7e].
Proof. vm_compute. reflexivity. Qed.
Example md5_abc : md5_digest [97; 98; 99] = Ret
  [0x90; 0x01; 0x50; 0x98; 0x3c; 0xd2; 0x4f; 0xb0; 0xd6; 0x96; 0x3f; 0x7d; 0x28; 0xe1; 0x7f; 0x72].
Proof. vm_compute. reflexivity. Qed.

(** ** The reference: RFC 1321 *)

(** The table of the RFC. *)
Definition T_table : list Z :=
  [0xd76aa478; 0xe8c7b756; 0x242070db; 0xc1bdceee; 0xf57c0faf; 0x4787c62a; 0xa8304613;
   0xfd469501; 0x698098d8; 0x8b44f7af; 0xffff5bb1; 0x895cd7be; 0x6b901122; 0xfd987193;
   0xa679438e; 0x49b40821; 0xf61e2562; 0xc040b340; 0x265e5a51; 0xe9b6c7aa; 0xd62f105d;
   0x02441453; 0xd8a1e681; 0xe7d3fbc8; 0x21e1cde6; 0xc33707d6; 0xf4d50d87; 0x455a14ed;
   0xa9e3e905; 0xfcefa3f8; 0x676f02d9; 0x8d2a4c8a; 0xfffa3942; 0x8771f681; 0x6d9d6122;
   0xfde5380c; 0xa4beea44; 0x4bdecfa9; 0xf6bb4b60; 0xbebfbc70; 0x289b7ec6; 0xeaa127fa;
   0xd4ef3085; 0x04881d05; 0xd9d4d039; 0xe6db99e5; 0x1fa27cf8; 0xc4ac5665; 0xf4292244;
   0x432aff97; 0xab9423a7; 0xfc93a039; 0x655b59c3; 0x8f0ccc92; 0xffeff47d; 0x85845dd1;
   0x6fa87e4f; 0xfe2ce6e0; 0xa3014314; 0x4e0811a1; 0xf7537e82; 0xbd3af235; 0x2ad7d2bb;
   0xeb86d391].

Definition s_table : list Z := [7; 12; 17; 22; 5; 9; 14; 20; 4; 11; 16; 23; 6; 10; 15; 21].

Definition f_i (i : nat) : Z -> Z -> Z -> Z :=
  match (i / 16)%nat with O => F | 1%nat => G | 2%nat => H | _ => I end.
Definition k_i (i : nat) : nat :=
  match (i / 16)%nat with
  | O => i | 1%nat => (5 * i + 1) mod 16 | 2%nat => (3 * i + 5) mod 16 | _ => (7 * i) mod 16
  end%nat.
Definition s_i (i : nat) : Z := elt s_table (4 * (i / 16) + i mod 4).

Definition regs : Type := Z * Z * Z * Z.

Definition ref_step (X : list Z) (s : regs) (i : nat) : regs :=
  let '(a, b, c, d) := s in
  (d, u32 (b + rotl32 (u32 (a + f_i i b c d + elt X (k_i i) + elt T_table i)) (s_i i)), b, c).

Definition add_regs (s s' : regs) : regs :=
  let '(a, b, c, d) := s in
  let '(a', b', c', d') := s' in
  (u32 (a + a'), u32 (b + b'), u32 (c + c'), u32 (d + d')).

(** The words of a block of bytes. *)
Definition ref_word (data : list Z) (i : nat) : Z :=
  u32 (elt data (4 * i) + 2 ^ 8 * elt data (4 * i + 1) + 2 ^ 16 * elt data (4 * i + 2)
       + 2 ^ 24 * elt data (4 * i + 3)).

Definition compress (s : regs) (data : list Z) : regs :=
  add_regs s (fold_left (ref_step (map (ref_word data) (seq 0 16))) (seq 0 64) s).

Definition H0 : regs := (0x67452301, 0xefcdab89, 0x98badcfe, 0x10325476).

Definition regs_bytes (s : regs) : list Z :=
  let '(a, b, c, d) := s in le_bytes 4 a ++ le_bytes 4 b ++ le_bytes 4 c ++ le_bytes 4 d.

Definition md5_enc (n : nat) : list Z := le_bytes 8 (8 * Z.of_nat n).

Definition MD5 (m : list Z) : list Z := regs_bytes (md_chain 64 compress H0 md5_enc m).

(** ** The code computes the reference *)

Definition ref_row (i : nat) : nat * Z * Z := (k_i i, s_i i, elt T_table i).

Lemma rows_table :
  round1 = map ref_row (seq 0 16) /\ round2 = map ref_row (seq 16 16) /\
  round3 = map ref_row (seq 32 16) /\ round4 = map ref_row (seq 48 16).
Proof. vm_compute. done. Qed.

Lemma word_spec data i : word data i = ref_word data i.
Proof.
  unfold word, ref_word. rewrite !Z.shiftl_mul_pow2 by done.
  unfold wrap at 1. rewrite <- Zplus_mod_idemp_r.
  change (i32 (elt data (4 * i + 3) * 2 ^ 24) mod 2 ^ 32) with
    (u32 (i32 (elt data (4 * i + 3) * 2 ^ 24))).
  rewrite wrap_swrap by done. unfold wrap. rewrite Zplus_mod_idemp_r. f_equal. lia.
Qed.

Lemma SET_spec f X a b c d i :
  f_i i = f ->
  SET f X a b c d (ref_row i) =
    u32 (b + rotl32 (u32 (a + f_i i b c d + elt X (k_i i) + elt T_table i)) (s_i i)).
Proof.
  intros ->. unfold SET, ref_row, ROTATE_LEFT, rotl32. rewrite (wrap_wrap 32) by done.
  by rewrite Z.add_comm.
Qed.

Lemma round_spec f X n i s :
  (forall j, (i <= j < i + 4 * n)%nat -> f_i j = f) ->
  round f X (map ref_row (seq i (4 * n))) s = fold_left (ref_step X) (seq i (4 * n)) s.
Proof.
  revert i s. induction n as [| n IH]; intros i [[[a b] c] d] Hf; [done |].
  replace (4 * S n)%nat with (S (S (S (S (4 * n))))) by lia.
  cbn [seq map round fold_left ref_step]. rewrite IH by (intros; apply Hf; lia).
  by rewrite !SET_spec by (apply Hf; lia).
Qed.

Lemma f_i_round r j : (16 * r <= j < 16 * r + 4 * 4)%nat ->
  f_i j = match r with O => F | 1%nat => G | 2%nat => H | _ => I end.
Proof.
  intros Hj. unfold f_i. replace (j / 16)%nat with r; [done |].
  apply (Nat.div_unique j 16 r (j - 16 * r)); lia.
Qed.

Lemma md5_block_spec s data : md5_block s data = compress s data.
Proof.
  unfold md5_block, compress. destruct rows_table as (-> & -> & -> & ->).
  rewrite (map_ext _ _ (word_spec data)). generalize (map (ref_word data) (seq 0 16)) as X.
  intros X. destruct s as [[[a b] c] d].
  pose proof (fun s => round_spec F X 4 0 s (f_i_round 0)) as E1.
  pose proof (fun s => round_spec G X 4 16 s (f_i_round 1)) as E2.
  pose proof (fun s => round_spec H X 4 32 s (f_i_round 2)) as E3.
  pose proof (fun s => round_spec I X 4 48 s (f_i_round 3)) as E4.
  change (4 * 4)%nat with 16%nat in *. rewrite E1, E2, E3, E4.
  assert (E : seq 0 64 = seq 0 16 ++ seq 16 16 ++ seq 32 16 ++ seq 48 16) by reflexivity.
  rewrite E, !fold_left_app. generalize (fold_left (ref_step X) (seq 0 16) (a, b, c, d)) as s1.
  intros s1. generalize (fold_left (ref_step X) (seq 16 16) s1) as s2.
  intros s2. generalize (fold_left (ref_step X) (seq 32 16) s2) as s3.
  intros s3. by destruct (fold_left (ref_step X) (seq 48 16) s3) as [[[a' b'] c'] d'].
Qed.

(** ** Absorbing a message *)

Definition md5_ready (pms : md5_state_t) : Prop := length (buf pms) = 64%nat.

(** The count is the number of bits absorbed, modulo 2^64, in two words. *)
Definition count_of (n : Z) : Z * Z := (u32 (8 * n), u32 (8 * n / 2 ^ 32)).

Record md5_absorbed (pms : md5_state_t) (m : list Z) : Prop := {
  abs_holds : holds 64 compress H0 (abcd pms) (buf pms) m;
  abs_ready : md5_ready pms;
  abs_count : count pms = count_of (Z.of_nat (length m))
}.

Lemma md5_init_absorbed pms : md5_ready pms -> md5_absorbed (md5_init pms) [].
Proof.
  intros Hr. split; [| done | done]. apply holds_nil; unfold md5_ready in Hr; simpl; lia.
Qed.

Lemma md5_process_blocks pms k d :
  blocks 64 md5_process pms k d =
    {| count := count pms; abcd := blocks 64 compress (abcd pms) k d; buf := buf pms |}.
Proof.
  induction k as [| k IH]; [by destruct pms |]. rewrite !blocks_S, IH.
  unfold md5_process. cbn [abcd count buf]. by rewrite md5_block_spec.
Qed.

Lemma add_count_spec pms n b :
  count pms = count_of n -> 0 <= n -> 0 <= b <= INT_MAX ->
  count (add_count pms b (u32 (i32 (b .<< 3)))) = count_of (n + b).
Proof.
  intros Hc Hn Hb. unfold add_count. rewrite Hc. unfold count_of. cbn [count].
  rewrite wrap_swrap by done. rewrite Z.shiftl_mul_pow2, Z.shiftr_div_pow2 by done.
  unfold wrap, INT_MAX in *. rewrite <- Zplus_mod.
  replace (8 * n + b * 2 ^ 3) with (8 * (n + b)) by lia. f_equal.
  set (M := 2 ^ 32).
  pose proof (Z.div_mod (8 * n) M ltac:(done)). pose proof (Z.mod_pos_bound (8 * n) M ltac:(done)).
  pose proof (Z.div_mod (8 * (n + b)) M ltac:(done)).
  pose proof (Z.mod_pos_bound (8 * (n + b)) M ltac:(done)).
  pose proof (Z.div_mod (b * 2 ^ 3) M ltac:(done)).
  pose proof (Z.mod_pos_bound (b * 2 ^ 3) M ltac:(done)).
  assert (Hdiv : b / 2 ^ 29 = b * 2 ^ 3 / M)
    by (unfold M; change (2 ^ 32) with (2 ^ 29 * 2 ^ 3); by rewrite Z.div_mul_cancel_r).
  rewrite Hdiv.
  destruct (Z.ltb_spec (8 * (n + b) mod M) (b * 2 ^ 3 mod M)).
  - assert (8 * (n + b) / M = 8 * n / M + b * 2 ^ 3 / M + 1) as -> by (unfold M in *; nia).
    by rewrite Zplus_mod_idemp_l, <- !Z.add_assoc, Zplus_mod_idemp_l.
  - assert (8 * (n + b) / M = 8 * n / M + b * 2 ^ 3 / M) as -> by (unfold M in *; nia).
    by rewrite Zplus_mod_idemp_l.
Qed.

Lemma offset_spec pms n :
  count pms = count_of (Z.of_nat n) -> (fst (count pms) .>> 3) .& 63 = Z.of_nat (n mod 64).
Proof.
  intros ->. cbn [fst count_of]. change 63 with (Z.ones 6). rewrite Z.land_ones by done.
  rewrite Z.shiftr_div_pow2 by done. unfold wrap.
  rewrite Nat2Z.inj_mod. change (Z.of_nat 64) with (2 ^ 6). change (2 ^ 32) with (2 ^ 29 * 2 ^ 3).
  rewrite (Z.mul_comm 8). change 8 with (2 ^ 3).
  rewrite Z.mul_mod_distr_r, Z.div_mul by done. apply Z.mod_mod_divide. by exists (2 ^ 23).
Qed.

Lemma store_buf pms (o : nat) b :
  md5_ready pms -> (o + length b <= 64)%nat ->
  put_buf pms (Z.of_nat o) b =
    Ret {| count := count pms; abcd := abcd pms; buf := splice (buf pms) o b |}.
Proof.
  intros Hr Hb. unfold md5_ready in Hr. unfold put_buf. rewrite Nat2Z.id, store_Some by lia. done.
Qed.

Lemma append_rest_ok pms data p n :
  md5_ready pms -> (p + n <= length data)%nat ->
  let k := (n / 64)%nat in
  md5_append_rest data pms (Z.of_nat p) (Z.of_nat n) =
    Ret {| count := count pms; abcd := blocks 64 compress (abcd pms) k (drop p data);
           buf := splice (buf pms) 0 (sub data (p + k * 64) (n - k * 64)) |}.
Proof.
  intros Hr Hl k. unfold md5_append_rest. rewrite (block_loop md5_process 64) by lia.
  rewrite !Nat2Z.id. fold k. rewrite md5_process_blocks. step_run. cbn beta iota.
  destruct (div_mod_bs 64 ltac:(lia) n) as [E R]. fold k in E.
  replace (Z.of_nat p + Z.of_nat (k * 64)) with (Z.of_nat (p + k * 64)) by lia.
  replace (Z.of_nat n - Z.of_nat (k * 64)) with (Z.of_nat (n - k * 64)) by lia.
  destruct (Z.eqb_spec (Z.of_nat (n - k * 64)) 0) as [Hz | Hz]; cbn [negb].
  - replace (n - k * 64)%nat with 0%nat by lia. unfold sub, splice. simpl. by rewrite drop_0.
  - rewrite read_ok by lia. step_run. rewrite !Nat2Z.id.
    assert (Hb : (0 + length (sub data (p + k * 64) (n - k * 64)) <= 64)%nat)
      by (rewrite length_sub; lia).
    match goal with |- put_buf ?c _ ?b = _ => exact (store_buf c 0 b Hr Hb) end.
Qed.

Section append_cases.
Context (pms pms1 : md5_state_t) (m data : list Z) (n : nat).
Abbreviation d := (take n data).
Abbreviation l := (length m mod 64)%nat.
Context (Hh : holds 64 compress H0 (abcd pms) (buf pms) m) (Hr : md5_ready pms).
Context (Hl : (n <= length data)%nat).
Context (Hc : count pms1 = count_of (Z.of_nat (length (m ++ d)))).
Context (Ea : abcd pms1 = abcd pms) (Eb : buf pms1 = buf pms).

(** The buffer was empty. *)
Lemma append_empty :
  l = 0%nat ->
  exists pms', md5_append_rest data pms1 0 (Z.of_nat n) = Ret pms' /\ md5_absorbed pms' (m ++ d).
Proof.
  intros Hl0. unfold md5_ready in Hr.
  destruct (absorb_empty 64 compress H0 ltac:(lia) _ _ m data n Hh Hl Hl0) as [Lb Hh'].
  eexists. split; [apply (append_rest_ok pms1 data 0 n); [unfold md5_ready; by rewrite Eb | done] |].
  rewrite Ea, Eb, Nat.add_0_l. split; [exact Hh' | | exact Hc].
  unfold md5_ready. cbn [buf]. rewrite length_splice, Lb by lia.
  pose proof (Nat.mod_upper_bound n 64 ltac:(lia)). lia.
Qed.

(** The input completes the block. *)
Lemma append_fill :
  (64 <= l + n)%nat ->
  let fill := (64 - l)%nat in
  let block := splice (buf pms1) l (sub data 0 fill) in
  exists pms',
    md5_append_rest data
      (md5_process {| count := count pms1; abcd := abcd pms1; buf := block |} block)
      (Z.of_nat fill) (Z.of_nat n - Z.of_nat fill) = Ret pms' /\ md5_absorbed pms' (m ++ d).
Proof.
  intros Hge fill block. unfold md5_ready in Hr. unfold block. rewrite Ea, Eb.
  destruct (absorb_fill 64 compress H0 ltac:(lia) _ _ m data n Hh Hl Hge)
    as (L2 & Lb & Hh'). cbn zeta in *. rewrite Hr in L2. rewrite take_ge in Hh' by lia. fold fill in L2, Lb, Hh'.
  pose proof (mod_lt 64 ltac:(lia) m).
  replace (Z.of_nat n - Z.of_nat fill) with (Z.of_nat (n - fill)) by (unfold fill; lia).
  eexists. split; [apply append_rest_ok; [exact L2 | unfold fill; lia] |].
  cbn [md5_process count abcd buf]. rewrite md5_block_spec. split; [exact Hh' | | exact Hc].
  unfold md5_ready. cbn [buf]. rewrite length_splice, Lb by lia.
  pose proof (Nat.mod_upper_bound (n - fill) 64 ltac:(lia)). lia.
Qed.

(** The block stays incomplete. *)
Lemma append_partial :
  (l + n < 64)%nat ->
  md5_absorbed {| count := count pms1; abcd := abcd pms1; buf := splice (buf pms1) l d |} (m ++ d).
Proof.
  intros Hlt. unfold md5_ready in Hr. rewrite Ea, Eb. split; [| | exact Hc]; cbn [abcd buf].
  - apply absorb_partial; (done || lia).
  - unfold md5_ready. cbn [buf]. rewrite length_splice, length_take; lia.
Qed.
End append_cases.

Lemma md5_append_ok pms m data nbytes :
  md5_absorbed pms m -> 0 <= nbytes <= INT_MAX - 64 -> nbytes <= Z.of_nat (length data) ->
  exists pms', md5_append pms data nbytes = Ret pms' /\
    md5_absorbed pms' (m ++ take (Z.to_nat nbytes) data).
Proof.
  intros [Hh Hr Hc] Hi Hl. unfold md5_append.
  destruct (Z.leb_spec nbytes 0) as [Hz | Hpos].
  { exists pms. replace nbytes with 0 by lia. simpl. rewrite app_nil_r. done. }
  rewrite (offset_spec pms _ Hc). set (l := (length m mod 64)%nat).
  assert (Hl64 : (l < 64)%nat) by (apply Nat.mod_upper_bound; lia).
  set (pms1 := add_count pms nbytes _).
  set (n := Z.to_nat nbytes). replace nbytes with (Z.of_nat n) in * by lia.
  assert (Hc1 : count pms1 = count_of (Z.of_nat (length (m ++ take n data)))).
  { unfold pms1. rewrite (add_count_spec pms (Z.of_nat (length m))) by (done || lia).
    f_equal. rewrite length_app, length_take. lia. }
  assert (E1 : abcd pms1 = abcd pms /\ buf pms1 = buf pms)
    by (unfold pms1, add_count; by destruct (count pms)).
  destruct E1 as [Ea Eb]. clearbody pms1.
  assert (Hr1 : md5_ready pms1) by (unfold md5_ready; by rewrite Eb).
  destruct (Z.eqb_spec (Z.of_nat l) 0) as [Hl0 | Hl0]; cbn [negb].
  { apply (append_empty pms); (done || unfold l in Hl0; lia). }
  assert (in_int (Z.of_nat l + Z.of_nat n) = true) as ->
    by (unfold in_int, INT_MIN, INT_MAX in *; lia).
  cbn [negb]. set (copy := if _ <? _ then _ else _).
  assert (Hcopy : copy = Z.of_nat (min (64 - l) n))
    by (unfold copy; destruct (Z.ltb_spec 64 (Z.of_nat l + Z.of_nat n)); lia).
  rewrite Hcopy. clearbody copy. rewrite read_ok by lia. step_run. rewrite Nat2Z.id. change (Z.to_nat 0) with 0%nat.
  rewrite store_buf by (try done; rewrite length_sub; lia). step_run.
  destruct (decide (64 <= l + n)%nat) as [Hge | Hlt].
  - rewrite Nat.min_l, (proj2 (Z.ltb_ge _ 64)) by lia. cbn [buf].
    apply (append_fill pms); (done || lia).
  - rewrite Nat.min_r, (proj2 (Z.ltb_lt _ 64)) by lia. eexists. split; [done |].
    apply (append_partial pms); (done || lia).
Qed.

(** *** The digest *)

Lemma word_bytes_4 w : word_bytes w 4 = le_bytes 4 (elt w 0).
Proof. done. Qed.

Lemma count_bytes n : let '(c0, c1) := count_of n in word_bytes [c0; c1] 8 = le_bytes 8 (8 * n).
Proof.
  unfold count_of. rewrite <- Z.shiftr_div_pow2 by done. unfold word_bytes, le_bytes.
  cbn [map seq]. change (0 / 4)%nat with 0%nat. change (1 / 4)%nat with 0%nat.
  change (2 / 4)%nat with 0%nat. change (3 / 4)%nat with 0%nat. change (4 / 4)%nat with 1%nat.
  change (5 / 4)%nat with 1%nat. change (6 / 4)%nat with 1%nat. change (7 / 4)%nat with 1%nat.
  set (x := 8 * n). change (elt [u32 x; u32 (x .>> 32)] 0) with (u32 x).
  change (elt [u32 x; u32 (x .>> 32)] 1) with (u32 (x .>> 32)).
  rewrite !byte_u32 by (vm_compute; split; discriminate). by rewrite !Z.shiftr_shiftr by done.
Qed.

Lemma pad_spec n :
  let padn := (u32 (55 - (u32 (8 * Z.of_nat n) .>> 3)) .& 63) + 1 in
  0 < padn <= 64 /\ take (Z.to_nat padn) pad = [0x80] ++ replicate (pad_zeros 64 8 n) 0.
Proof.
  intros padn. change 63 with (Z.ones 6) in padn.
  assert (E : padn = (55 - Z.of_nat n) mod 64 + 1).
  { unfold padn. rewrite Z.land_ones, Z.shiftr_div_pow2 by done. f_equal. unfold wrap.
    rewrite Z.mod_mod_divide by (by exists (2 ^ 26)). change (2 ^ 32) with (2 ^ 29 * 2 ^ 3).
    rewrite (Z.mul_comm 8). change 8 with (2 ^ 3). rewrite Z.mul_mod_distr_r, Z.div_mul by done.
    rewrite Zminus_mod, Z.mod_mod_divide by (by exists (2 ^ 23)). by rewrite <- Zminus_mod. }
  pose proof (Z.mod_pos_bound (55 - Z.of_nat n) 64 ltac:(done)) as Hb.
  split; [lia |].
  assert (Hz : pad_zeros 64 8 n = (Z.to_nat padn - 1)%nat).
  { unfold pad_zeros. apply Nat2Z.inj. rewrite Nat2Z.inj_mod.
    pose proof (Nat.mod_upper_bound (n + 1 + 8) 64 ltac:(lia)).
    rewrite Nat2Z.inj_sub, Nat2Z.inj_mod by lia. change (Z.of_nat 64) with 64.
    rewrite <- Zminus_mod_idemp_l, Z_mod_same_full, Zminus_mod_idemp_r. rewrite E.
    transitivity ((55 - Z.of_nat n) mod 64); [| lia].
    replace (0 - Z.of_nat (n + 1 + 8)) with (55 - Z.of_nat n + (-1) * 64) by lia.
    apply Z_mod_plus_full. }
  rewrite Hz. replace (Z.to_nat padn) with (1 + (Z.to_nat padn - 1))%nat at 1 by lia.
  unfold pad. cbn [take app Nat.add]. f_equal. rewrite take_replicate. f_equal. lia.
Qed.

Lemma md5_finish_ok pms m :
  md5_absorbed pms m -> exists pms', md5_finish pms = Ret (pms', MD5 m) /\ md5_ready pms'.
Proof.
  intros Ha. unfold md5_finish. rewrite (abs_count _ _ Ha).
  pose proof (count_bytes (Z.of_nat (length m))) as Hcb.
  pose proof (pad_spec (length m)) as Hp. unfold count_of in *. cbn zeta beta iota in Hp, Hcb |- *.
  rewrite Hcb. set (padn := _ + 1) in *. destruct Hp as [Hpn Hpad].
  destruct (md5_append_ok pms m pad padn Ha) as (p1 & -> & H1);
    [unfold INT_MAX; lia | simpl length; lia |].
  step_run. rewrite Hpad in H1.
  destruct (md5_append_ok p1 _ (le_bytes 8 (8 * Z.of_nat (length m))) 8 H1) as (p2 & -> & H2);
    [unfold INT_MAX; lia | by rewrite length_le_bytes |].
  step_run. rewrite (take_ge (le_bytes 8 _)) in H2 by (rewrite length_le_bytes; lia).
  assert (E : regs_bytes (abcd p2) = MD5 m).
  { unfold MD5, md_chain. destruct (abs_holds _ _ H2) as [-> _ _]. rewrite <- !app_assoc.
    unfold padding, md5_enc. by rewrite length_le_bytes. }
  exists p2. split; [| apply H2]. rewrite <- E.
  by destruct (abcd p2) as [[[a b] c] d].
Qed.

(** ** The interface *)

#[export] Instance md5_stream : StreamHash md5_state_t.
Proof.
  refine {| sh_starts := md5_init; sh_update := md5_append; sh_finish := md5_finish;
            sh_digest := MD5; sh_ready := md5_ready; sh_absorbed := md5_absorbed;
            sh_chunk := INT_MAX - 64; sh_limit := 2 ^ 64 |}.
  - done.
  - apply md5_init_absorbed.
  - intros c m input ilen Hc Hi Hl _. by apply md5_append_ok.
  - intros c m Hc _. by apply md5_finish_ok.
Defined.

(** ** Properties *)

(** The 64 unrolled lines of [md5_process], with the constants written as
    complements and the word indices and rotations spelled out line by line,
    compute the compression function of RFC 1321. *)
Theorem md5_process_is_rfc1321 pms data :
  abcd (md5_process pms data) = compress (abcd pms) data.
Proof. apply md5_block_spec. Qed.

(** MD5 of a message is the same however the message is cut into calls of
    [md5_append]: [md5_init], one call per fragment and [md5_finish] never
    leave their buffers and return the RFC 1321 digest of the concatenation. *)
Theorem md5_any_fragmentation pms fragments :
  md5_ready pms -> Forall (fun f => Z.of_nat (length f) <= INT_MAX - 64) fragments ->
  Z.of_nat (length (concat fragments)) < 2 ^ 64 ->
  exists pms',
    (c ← sh_updates (md5_init pms) fragments; md5_finish c) = Ret (pms', MD5 (concat fragments)).
Proof.
  intros Hr Hf Hl. destruct (sh_run_ok (H := md5_stream) fragments pms Hr Hf Hl) as (c & Hrun & _). by exists c.
Qed.

Lemma md5_any_fragmentation_witness :
  exists pms', (c ← sh_updates (md5_init blank) [[97]; [98; 99]]; md5_finish c)
               = Ret (pms', MD5 [97; 98; 99]).
Proof.
  apply (md5_any_fragmentation blank [[97]; [98; 99]]).
  - reflexivity.
  - repeat constructor; discriminate.
  - reflexivity.
Defined.
