(* ===== verification/Sha2.v ===== *)
(** * SHA-224, SHA-256, SHA-384 and SHA-512: example-3/sha2.c

    The 32-bit and the 64-bit halves of the file are the same text with other
    constants; [sha2] is the record of what differs, the generic definitions
    below take it as a parameter and the functions of the source are their
    instances.  The loops are the ones compiled when [UNROLL_LOOPS] is not
    defined; the unrolled rounds are modelled next to them. *)
From S2P Require Import Prelude StreamHash.

(** ** Macros *)

Section words.
Context (w : Z).
Definition SHFR (x n : Z) : Z := x .>> n.
Definition ROTR (x n : Z) : Z := (x .>> n) .| wrap w (x .<< (w - n)).
Definition CH (x y z : Z) : Z := (x .& y) .^ (wrap w (Z.lnot x) .& z).
Definition MAJ (x y z : Z) : Z := (x .& y) .^ (x .& z) .^ (y .& z).
End words.

Definition SHA256_F1 (x : Z) : Z := ROTR 32 x 2 .^ ROTR 32 x 13 .^ ROTR 32 x 22.
Definition SHA256_F2 (x : Z) : Z := ROTR 32 x 6 .^ ROTR 32 x 11 .^ ROTR 32 x 25.
Definition SHA256_F3 (x : Z) : Z := ROTR 32 x 7 .^ ROTR 32 x 18 .^ SHFR x 3.
Definition SHA256_F4 (x : Z) : Z := ROTR 32 x 17 .^ ROTR 32 x 19 .^ SHFR x 10.

Definition SHA512_F1 (x : Z) : Z := ROTR 64 x 28 .^ ROTR 64 x 34 .^ ROTR 64 x 39.
Definition SHA512_F2 (x : Z) : Z := ROTR 64 x 14 .^ ROTR 64 x 18 .^ ROTR 64 x 41.
Definition SHA512_F3 (x : Z) : Z := ROTR 64 x 1 .^ ROTR 64 x 8 .^ SHFR x 7.
Definition SHA512_F4 (x : Z) : Z := ROTR 64 x 19 .^ ROTR 64 x 61 .^ SHFR x 6.

(** The bytes that [UNPACK32] and [UNPACK64] store. *)
Definition UNPACK32 (x : Z) : list Z :=
  [u8 (x .>> 24); u8 (x .>> 16); u8 (x .>> 8); u8 x].
Definition UNPACK64 (x : Z) : list Z :=
  [u8 (x .>> 56); u8 (x .>> 48); u8 (x .>> 40); u8 (x .>> 32);
   u8 (x .>> 24); u8 (x .>> 16); u8 (x .>> 8); u8 x].

(** The word that [PACK32] and [PACK64] read at index [i]. *)
Definition PACK32 (str : list Z) (i : nat) : Z :=
  elt str (i + 3) .| (elt str (i + 2) .<< 8) .| (elt str (i + 1) .<< 16) .| (elt str i .<< 24).
Definition PACK64 (str : list Z) (i : nat) : Z :=
  elt str (i + 7) .| (elt str (i + 6) .<< 8) .| (elt str (i + 5) .<< 16)
  .| (elt str (i + 4) .<< 24) .| (elt str (i + 3) .<< 32) .| (elt str (i + 2) .<< 40)
  .| (elt str (i + 1) .<< 48) .| (elt str i .<< 56).

(** ** Constants *)

Definition sha224_h0 : list Z :=
  [0xc1059ed8; 0x367cd507; 0x3070dd17; 0xf70e5939; 0xffc00b31; 0x68581511; 0x64f98fa7;
   0xbefa4fa4].
Definition sha256_h0 : list Z :=
  [0x6a09e667; 0xbb67ae85; 0x3c6ef372; 0xa54ff53a; 0x510e527f; 0x9b05688c; 0x1f83d9ab;
   0x5be0cd19].
Definition sha384_h0 : list Z :=
  [0xcbbb9d5dc1059ed8; 0x629a292a367cd507; 0x9159015a3070dd17; 0x152fecd8f70e5939;
   0x67332667ffc00b31; 0x8eb44a8768581511; 0xdb0c2e0d64f98fa7; 0x47b5481dbefa4fa4].
Definition sha512_h0 : list Z :=
  [0x6a09e667f3bcc908; 0xbb67ae8584caa73b; 0x3c6ef372fe94f82b; 0xa54ff53a5f1d36f1;
   0x510e527fade682d1; 0x9b05688c2b3e6c1f; 0x1f83d9abfb41bd6b; 0x5be0cd19137e2179].
Definition sha256_k : list Z := Eval cbv in concat
  [[0x428a2f98; 0x71374491; 0xb5c0fbcf; 0xe9b5dba5];
   [0x3956c25b; 0x59f111f1; 0x923f82a4; 0xab1c5ed5];
   [0xd807aa98; 0x12835b01; 0x243185be; 0x550c7dc3];
   [0x72be5d74; 0x80deb1fe; 0x9bdc06a7; 0xc19bf174];
   [0xe49b69c1; 0xefbe4786; 0x0fc19dc6; 0x240ca1cc];
   [0x2de92c6f; 0x4a7484aa; 0x5cb0a9dc; 0x76f988da];
   [0x983e5152; 0xa831c66d; 0xb00327c8; 0xbf597fc7];
   [0xc6e00bf3; 0xd5a79147; 0x06ca6351; 0x14292967];
   [0x27b70a85; 0x2e1b2138; 0x4d2c6dfc; 0x53380d13];
   [0x650a7354; 0x766a0abb; 0x81c2c92e; 0x92722c85];
   [0xa2bfe8a1; 0xa81a664b; 0xc24b8b70; 0xc76c51a3];
   [0xd192e819; 0xd6990624; 0xf40e3585; 0x106aa070];
   [0x19a4c116; 0x1e376c08; 0x2748774c; 0x34b0bcb5];
   [0x391c0cb3; 0x4ed8aa4a; 0x5b9cca4f; 0x682e6ff3];
   [0x748f82ee; 0x78a5636f; 0x84c87814; 0x8cc70208];
   [0x90befffa; 0xa4506ceb; 0xbef9a3f7; 0xc67178f2]].
Definition sha512_k : list Z := Eval cbv in concat
  [[0x428a2f98d728ae22; 0x7137449123ef65cd];
   [0xb5c0fbcfec4d3b2f; 0xe9b5dba58189dbbc];
   [0x3956c25bf348b538; 0x59f111f1b605d019];
   [0x923f82a4af194f9b; 0xab1c5ed5da6d8118];
   [0xd807aa98a3030242; 0x12835b0145706fbe];
   [0x243185be4ee4b28c; 0x550c7dc3d5ffb4e2];
   [0x72be5d74f27b896f; 0x80deb1fe3b1696b1];
   [0x9bdc06a725c71235; 0xc19bf174cf692694];
   [0xe49b69c19ef14ad2; 0xefbe4786384f25e3];
   [0x0fc19dc68b8cd5b5; 0x240ca1cc77ac9c65];
   [0x2de92c6f592b0275; 0x4a7484aa6ea6e483];
   [0x5cb0a9dcbd41fbd4; 0x76f988da831153b5];
   [0x983e5152ee66dfab; 0xa831c66d2db43210];
   [0xb00327c898fb213f; 0xbf597fc7beef0ee4];
   [0xc6e00bf33da88fc2; 0xd5a79147930aa725];
   [0x06ca6351e003826f; 0x142929670a0e6e70];
   [0x27b70a8546d22ffc; 0x2e1b21385c26c926];
   [0x4d2c6dfc5ac42aed; 0x53380d139d95b3df];
   [0x650a73548baf63de; 0x766a0abb3c77b2a8];
   [0x81c2c92e47edaee6; 0x92722c851482353b];
   [0xa2bfe8a14cf10364; 0xa81a664bbc423001];
   [0xc24b8b70d0f89791; 0xc76c51a30654be30];
   [0xd192e819d6ef5218; 0xd69906245565a910];
   [0xf40e35855771202a; 0x106aa07032bbd1b8];
   [0x19a4c116b8d2d0c8; 0x1e376c085141ab53];
   [0x2748774cdf8eeb99; 0x34b0bcb5e19b48a8];
   [0x391c0cb3c5c95a63; 0x4ed8aa4ae3418acb];
   [0x5b9cca4f7763e373; 0x682e6ff3d6b2b8a3];
   [0x748f82ee5defb2fc; 0x78a5636f43172f60];
   [0x84c87814a1f0ab72; 0x8cc702081a6439ec];
   [0x90befffa23631e28; 0xa4506cebde82bde9];
   [0xbef9a3f7b2c67915; 0xc67178f2e372532b];
   [0xca273eceea26619c; 0xd186b8c721c0c207];
   [0xeada7dd6cde0eb1e; 0xf57d4f7fee6ed178];
   [0x06f067aa72176fba; 0x0a637dc5a2c898a6];
   [0x113f9804bef90dae; 0x1b710b35131c471b];
   [0x28db77f523047d84; 0x32caab7b40c72493];
   [0x3c9ebe0a15c9bebc; 0x431d67c49c100d4c];
   [0x4cc5d4becb3e42b6; 0x597f299cfc657e2a];
   [0x5fcb6fab3ad6faec; 0x6c44198c4a475817]].

(** What distinguishes the two halves of the file. *)
Record sha2 := {
  bits : Z;                        (** bits of a word *)
  bytes : nat;                     (** bytes of a word *)
  BLOCK_SIZE : nat;
  lg : Z;                          (** [BLOCK_SIZE = 1 << lg] *)
  rounds : nat;
  len_bytes : nat;                 (** bytes of the length field *)
  F1 : Z -> Z; F2 : Z -> Z; F3 : Z -> Z; F4 : Z -> Z;
  k : list Z;
  PACK : list Z -> nat -> Z;
  UNPACK : Z -> list Z
}.

Definition alg256 : sha2 :=
  {| bits := 32; bytes := 4; BLOCK_SIZE := 64; lg := 6; rounds := 64; len_bytes := 8;
     F1 := SHA256_F1; F2 := SHA256_F2; F3 := SHA256_F3; F4 := SHA256_F4; k := sha256_k;
     PACK := PACK32; UNPACK := UNPACK32 |}.

Definition alg512 : sha2 :=
  {| bits := 64; bytes := 8; BLOCK_SIZE := 128; lg := 7; rounds := 80; len_bytes := 16;
     F1 := SHA512_F1; F2 := SHA512_F2; F3 := SHA512_F3; F4 := SHA512_F4; k := sha512_k;
     PACK := PACK64; UNPACK := UNPACK64 |}.

Record sha2_ctx := {
  tot_len : Z;
  len : Z;
  block : list Z;
  h : list Z
}.

Section code.
Context (p : sha2).

(** *** transf *)

(** [SHA256_SCR(i)], [SHA512_SCR(i)]: the next word of the schedule. *)
Definition SCR (w : list Z) (i : nat) : Z :=
  wrap (bits p) (F4 p (elt w (i - 2)) + elt w (i - 7) + F3 p (elt w (i - 15)) + elt w (i - 16)).

Definition schedule (sub_block : list Z) : list Z :=
  let w := map (fun j => PACK p sub_block (bytes p * j)) (seq 0 16) in
  fold_left (fun w j => w ++ [SCR w j]) (seq 16 (rounds p - 16)) w.

(** One pass of the loop over the rounds. *)
Definition round (w wv : list Z) (j : nat) : list Z :=
  let t1 := wrap (bits p) (elt wv 7 + F2 p (elt wv 4) + CH (bits p) (elt wv 4) (elt wv 5) (elt wv 6)
                           + elt (k p) j + elt w j) in
  let t2 := wrap (bits p) (F1 p (elt wv 0) + MAJ (elt wv 0) (elt wv 1) (elt wv 2)) in
  [wrap (bits p) (t1 + t2); elt wv 0; elt wv 1; elt wv 2; wrap (bits p) (elt wv 3 + t1);
   elt wv 4; elt wv 5; elt wv 6].

(** [SHA256_EXP(a, b, c, d, e, f, g, h, j)]: the same round without moving
    the registers. *)
Definition EXP (w wv : list Z) (a b c d e f g h j : nat) : list Z :=
  let t1 := wrap (bits p) (elt wv h + F2 p (elt wv e) + CH (bits p) (elt wv e) (elt wv f) (elt wv g)
                           + elt (k p) j + elt w j) in
  let t2 := wrap (bits p) (F1 p (elt wv a) + MAJ (elt wv a) (elt wv b) (elt wv c)) in
  let wv := <[d := wrap (bits p) (elt wv d + t1)]> wv in
  <[h := wrap (bits p) (t1 + t2)]> wv.

(** Eight lines of the unrolled rounds, from round [j] on. *)
Definition EXP8 (w wv : list Z) (j : nat) : list Z :=
  let wv := EXP w wv 0 1 2 3 4 5 6 7 j in
  let wv := EXP w wv 7 0 1 2 3 4 5 6 (j + 1) in
  let wv := EXP w wv 6 7 0 1 2 3 4 5 (j + 2) in
  let wv := EXP w wv 5 6 7 0 1 2 3 4 (j + 3) in
  let wv := EXP w wv 4 5 6 7 0 1 2 3 (j + 4) in
  let wv := EXP w wv 3 4 5 6 7 0 1 2 (j + 5) in
  let wv := EXP w wv 2 3 4 5 6 7 0 1 (j + 6) in
  EXP w wv 1 2 3 4 5 6 7 0 (j + 7).

(** [ctx->h[j] += wv[j]] *)
Definition add_h (h wv : list Z) : list Z :=
  map (fun j => wrap (bits p) (elt h j + elt wv j)) (seq 0 8).

Definition transf_block (h sub_block : list Z) : list Z :=
  let w := schedule sub_block in
  add_h h (fold_left (round w) (seq 0 (rounds p)) h).

(** The same block with the rounds unrolled. *)
Definition transf_block_unrolled (h sub_block : list Z) : list Z :=
  let w := schedule sub_block in
  add_h h (fold_left (fun wv i => EXP8 w wv (8 * i)) (seq 0 (rounds p / 8)) h).

Definition set_h (ctx : sha2_ctx) (h : list Z) : sha2_ctx :=
  {| tot_len := tot_len ctx; len := len ctx; block := block ctx; h := h |}.

(** [message] is the memory the pointer argument points to. *)
Definition transf (ctx : sha2_ctx) (message : list Z) (block_nb : Z) : outcome sha2_ctx :=
  for_loop (Z.to_nat (i32 block_nb)) 0 (fun i ctx =>
    sub_block ← read message (i32 (Z.of_nat i .<< lg p)) (Z.of_nat (BLOCK_SIZE p));
    Ret (set_h ctx (transf_block (h ctx) sub_block))) ctx.

(** *** init, update, final *)

Definition init (h0 : list Z) (ctx : sha2_ctx) : sha2_ctx :=
  {| tot_len := 0; len := 0; block := block ctx; h := h0 |}.

(** [memcpy(&ctx->block[o], b, ...)] *)
Definition put_block (ctx : sha2_ctx) (o : Z) (b : list Z) : outcome sha2_ctx :=
  b ← lift (store (block ctx) (Z.to_nat o) b);
  Ret {| tot_len := tot_len ctx; len := len ctx; block := b; h := h ctx |}.

Definition update (ctx : sha2_ctx) (message : list Z) (n : Z) : outcome sha2_ctx :=
  let BLOCK := Z.of_nat (BLOCK_SIZE p) in
  let tmp_len := u32 (BLOCK - len ctx) in
  let rem_len := if n <? tmp_len then n else tmp_len in
  b ← read message 0 rem_len;
  ctx ← put_block ctx (len ctx) b;
  if u32 (len ctx + n) <? BLOCK then
    Ret {| tot_len := tot_len ctx; len := u32 (len ctx + n); block := block ctx; h := h ctx |}
  else
    let new_len := u32 (n - rem_len) in
    let block_nb := new_len / BLOCK in
    let shifted_message := drop (Z.to_nat rem_len) message in
    ctx ← transf ctx (block ctx) 1;
    ctx ← transf ctx shifted_message block_nb;
    let rem_len := new_len mod BLOCK in
    b ← read shifted_message (u32 (block_nb .<< lg p)) rem_len;
    ctx ← put_block ctx 0 b;
    Ret {| tot_len := u32 (tot_len ctx + u32 (u32 (block_nb + 1) .<< lg p)); len := rem_len;
           block := block ctx; h := h ctx |}.

(** Returns the context and the first [out] words of the digest. *)
Definition final (out : nat) (ctx : sha2_ctx) : outcome (sha2_ctx * list Z) :=
  let BLOCK := Z.of_nat (BLOCK_SIZE p) in
  let block_nb :=
    1 + Z.b2z (BLOCK - (Z.of_nat (len_bytes p) + 1) <? len ctx mod BLOCK) in
  let len_b := u32 (u32 (tot_len ctx + len ctx) .<< 3) in
  let pm_len := block_nb .<< lg p in
  ctx ← put_block ctx (len ctx) (replicate (Z.to_nat (pm_len - len ctx)) 0);
  ctx ← put_block ctx (len ctx) [0x80];
  ctx ← put_block ctx (pm_len - 4) (UNPACK32 len_b);
  ctx ← transf ctx (block ctx) block_nb;
  Ret (ctx, concat (map (fun i => UNPACK p (elt (h ctx) i)) (seq 0 out))).

Definition one_shot (h0 : list Z) (out : nat) (ctx : sha2_ctx) (message : list Z) (n : Z)
    : outcome (list Z) :=
  ctx ← update (init h0 ctx) message n;
  '(_, digest) ← final out ctx;
  Ret digest.
End code.

(** ** The functions of sha2.c *)

Definition sha256_transf := transf alg256.
Definition sha256_init := init sha256_h0.
Definition sha256_update := update alg256.
Definition sha256_final := final alg256 8.
Definition sha256 := one_shot alg256 sha256_h0 8.

Definition sha512_transf := transf alg512.
Definition sha512_init := init sha512_h0.
Definition sha512_update := update alg512.
Definition sha512_final := final alg512 8.
Definition sha512 := one_shot alg512 sha512_h0 8.

Definition sha384_init := init sha384_h0.
Definition sha384_update := update alg512.
Definition sha384_final := final alg512 6.
Definition sha384 := one_shot alg512 sha384_h0 6.

Definition sha224_init := init sha224_h0.
Definition sha224_update := update alg256.
Definition sha224_final := final alg256 7.
Definition sha224 := one_shot alg256 sha224_h0 7.

(** ** Validation tests: the digests of "abc" in the vectors of the source *)

Definition blank256 : sha2_ctx :=
  {| tot_len := 0; len := 0; block := replicate 128 0; h := replicate 8 0 |}.
Definition blank512 : sha2_ctx :=
  {| tot_len := 0; len := 0; block := replicate 256 0; h := replicate 8 0 |}.

(** A digest as one big-endian number. *)
Definition digest_val (m : outcome (list Z)) : outcome Z :=
  d ← m; Ret (fold_left (fun acc b => 256 * acc + b) d 0).

Example abc224 : digest_val (sha224 blank256 [97; 98; 99] 3)
  = Ret 0x23097d223405d8228642a477bda255b32aadbce4bda0b3f7e36c9da7.
Proof. vm_compute. reflexivity. Qed.
Example abc256 : digest_val (sha256 blank256 [97; 98; 99] 3)
  = Ret 0xba7816bf8f01cfea414140de5dae2223b00361a396177a9cb410ff61f20015ad.
Proof. vm_compute. reflexivity. Qed.
Example abc384 : digest_val (sha384 blank512 [97; 98; 99] 3)
  = Ret 0xcb00753f45a35e8bb5a03d699ac65007272c32ab0eded1631a8b605a43ff5bed8086072ba1e7cc2358baeca134c825a7.
Proof. vm_compute. reflexivity. Qed.
Example abc512 : digest_val (sha512 blank512 [97; 98; 99] 3)
  = Ret 0xddaf35a193617abacc417349ae20413112e6fa4e89a97ea20a9eeee64b55d39a2192992a274fc1a836ba3c23a3feebbd454d4423643ce80e2a9ac94fa54ca49f.
Proof. vm_compute. reflexivity. Qed.

(** ** The unrolled rounds *)

Section unrolled.
Context (p : sha2).

Lemma round_length w wv j : length (round p w wv j) = 8%nat.
Proof. done. Qed.

(** After [r] lines register [i] of the round sits at index [i - r]. *)
Definition rotated (r : nat) (L : list Z) : list Z := drop r L ++ take r L.

Ltac eight L :=
  do 8 (destruct L as [| ? L]; [done |]); destruct L; [| done].

Ltac line :=
  let Hl := fresh in intros Hl;
  match type of Hl with length ?L = _ => eight L end;
  unfold EXP, round, rotated, elt;
  cbn [drop take app lookup list_lookup insert list_insert default from_option]; reflexivity.

Lemma line0 w L j : length L = 8%nat ->
  EXP p w (rotated 0 L) 0 1 2 3 4 5 6 7 j = rotated 1 (round p w L j).
Proof. line. Qed.
Lemma line1 w L j : length L = 8%nat ->
  EXP p w (rotated 1 L) 7 0 1 2 3 4 5 6 j = rotated 2 (round p w L j).
Proof. line. Qed.
Lemma line2 w L j : length L = 8%nat ->
  EXP p w (rotated 2 L) 6 7 0 1 2 3 4 5 j = rotated 3 (round p w L j).
Proof. line. Qed.
Lemma line3 w L j : length L = 8%nat ->
  EXP p w (rotated 3 L) 5 6 7 0 1 2 3 4 j = rotated 4 (round p w L j).
Proof. line. Qed.
Lemma line4 w L j : length L = 8%nat ->
  EXP p w (rotated 4 L) 4 5 6 7 0 1 2 3 j = rotated 5 (round p w L j).
Proof. line. Qed.
Lemma line5 w L j : length L = 8%nat ->
  EXP p w (rotated 5 L) 3 4 5 6 7 0 1 2 j = rotated 6 (round p w L j).
Proof. line. Qed.
Lemma line6 w L j : length L = 8%nat ->
  EXP p w (rotated 6 L) 2 3 4 5 6 7 0 1 j = rotated 7 (round p w L j).
Proof. line. Qed.
Lemma line7 w L j : length L = 8%nat ->
  EXP p w (rotated 7 L) 1 2 3 4 5 6 7 0 j = rotated 0 (round p w L j).
Proof. line. Qed.

Lemma rotated_0 L : length L = 8%nat -> rotated 0 L = L.
Proof. intros Hl. eight L. reflexivity. Qed.

Lemma EXP8_is_rounds w wv j :
  length wv = 8%nat -> EXP8 p w wv j = fold_left (round p w) (seq j 8) wv.
Proof.
  intros Hl. unfold EXP8. rewrite <- (rotated_0 wv Hl) at 1.
  rewrite line0, line1, line2, line3, line4, line5, line6, line7 by (done || apply round_length).
  rewrite rotated_0 by apply round_length. cbn [seq fold_left].
  by rewrite !Nat.add_succ_r, Nat.add_0_r.
Qed.

Lemma rounds_length w js wv :
  length wv = 8%nat -> length (fold_left (round p w) js wv) = 8%nat.
Proof. revert wv. induction js; intros wv Hl; [done |]. apply IHjs, round_length. Qed.

Lemma unrolled_rounds w n wv :
  length wv = 8%nat ->
  fold_left (fun wv i => EXP8 p w wv (8 * i)) (seq 0 n) wv
  = fold_left (round p w) (seq 0 (8 * n)) wv.
Proof.
  intros Hl. induction n as [| n IH]; [done |].
  rewrite seq_S, fold_left_app, IH. cbn [fold_left].
  rewrite EXP8_is_rounds by (by apply rounds_length).
  replace (8 * S n)%nat with (8 * n + 8)%nat by lia. by rewrite (seq_app (8 * n)), fold_left_app.
Qed.
End unrolled.

(** ** Absorbing a message *)

(** The facts about the parameters that the arithmetic of the code needs. *)
Record sane (p : sha2) : Prop := {
  blk_lg : Z.of_nat (BLOCK_SIZE p) = 2 ^ lg p;
  lg_bounds : 6 <= lg p <= 7;
  len_bounds : (4 <= len_bytes p <= 16)%nat
}.

Lemma sane256 : sane alg256.
Proof. split; simpl; (done || lia). Qed.
Lemma sane512 : sane alg512.
Proof. split; simpl; (done || lia). Qed.

(** The length field of the standard. *)
Definition enc (p : sha2) (n : nat) : list Z := be_bytes (len_bytes p) (8 * Z.of_nat n).

(** The first [out] words of the final chaining value. *)
Definition SHA2 (p : sha2) (h0 : list Z) (out : nat) (m : list Z) : list Z :=
  let hf := md_chain (BLOCK_SIZE p) (transf_block p) h0 (enc p) m in
  concat (map (fun i => UNPACK p (elt hf i)) (seq 0 out)).

Section absorb.
Context (p : sha2) (Hp : sane p) (h0 : list Z).
Abbreviation B := (BLOCK_SIZE p).

Lemma B_bounds : (64 <= B <= 128)%nat.
Proof.
  destruct Hp as [Hb Hl _]. assert (2 ^ 6 <= 2 ^ lg p <= 2 ^ 7)
    by (split; apply Z.pow_le_mono_r; lia). lia.
Qed.

Definition sha2_ready (ctx : sha2_ctx) : Prop := length (block ctx) = (2 * B)%nat.

Record sha2_absorbed (ctx : sha2_ctx) (m : list Z) : Prop := {
  abs_holds : holds B (transf_block p) h0 (h ctx) (block ctx) m;
  abs_ready : sha2_ready ctx;
  abs_len : len ctx = Z.of_nat (length m mod B);
  abs_tot : tot_len ctx = Z.of_nat (length m / B * B)
}.

Lemma init_absorbed ctx : sha2_ready ctx -> sha2_absorbed (init h0 ctx) [].
Proof.
  intros Hr. pose proof B_bounds. unfold sha2_ready in Hr. split; [| done | |].
  - apply holds_nil; simpl; lia.
  - cbn [len init length]. by rewrite Nat.Div0.mod_0_l.
  - cbn [tot_len init length]. by rewrite Nat.Div0.div_0_l.
Qed.

Lemma shl_lg x : x .<< lg p = x * Z.of_nat B.
Proof. destruct Hp as [-> Hl _]. apply Z.shiftl_mul_pow2. lia. Qed.

Lemma transf_ok ctx message n :
  (n * B <= length message)%nat -> Z.of_nat (n * B) < 2 ^ 31 ->
  transf p ctx message (Z.of_nat n) = Ret (set_h ctx (blocks B (transf_block p) (h ctx) n message)).
Proof.
  intros Hm Hn. pose proof B_bounds. unfold transf.
  assert (n <= n * B)%nat by (clear -H; nia).
  assert (0 <= Z.of_nat n < 2 ^ (32 - 1)) by (change (2 ^ (32 - 1)) with (2 ^ 31); lia).
  rewrite swrap_small, Nat2Z.id by (done || lia).
  match goal with |- for_loop n 0 ?body ctx = _ =>
    destruct (for_loop_run (fun i c => c = set_h ctx (blocks B (transf_block p) (h ctx) i message))
      body n 0 ctx) as (c & -> & ->); [by destruct ctx | | done] end.
  intros i c Hi ->. rewrite shl_lg.
  assert (i * B + B <= n * B)%nat by (clear -Hi; nia).
  assert (0 <= Z.of_nat i * Z.of_nat B < 2 ^ (32 - 1))
    by (rewrite <- Nat2Z.inj_mul; change (2 ^ (32 - 1)) with (2 ^ 31); lia).
  rewrite swrap_small by (done || lia). rewrite <- Nat2Z.inj_mul, read_ok by lia. step_run.
  eexists. split; [reflexivity |]. rewrite Nat2Z.id, Nat.add_1_r, blocks_S. cbn [set_h h].
  by rewrite Nat2Z.id.
Qed.

Lemma put_ok ctx (o : nat) b :
  (o + length b <= length (block ctx))%nat ->
  put_block ctx (Z.of_nat o) b =
    Ret {| tot_len := tot_len ctx; len := len ctx; block := splice (block ctx) o b; h := h ctx |}.
Proof using. intros Hb. unfold put_block. rewrite Nat2Z.id, store_Some by done. done. Qed.

Lemma put_ok_0 ctx b :
  (length b <= length (block ctx))%nat ->
  put_block ctx 0 b =
    Ret {| tot_len := tot_len ctx; len := len ctx; block := splice (block ctx) 0 b; h := h ctx |}.
Proof using. exact (put_ok ctx 0 b). Qed.

Lemma transf_1 ctx message :
  (B <= length message)%nat ->
  transf p ctx message 1 = Ret (set_h ctx (transf_block p (h ctx) (take B message))).
Proof.
  intros Hm. pose proof B_bounds. rewrite <- (blocks_1 B (transf_block p)).
  apply (transf_ok ctx message 1); lia.
Qed.

Section update_cases.
Context (ctx : sha2_ctx) (m message : list Z) (n : nat).
Abbreviation l := (length m mod B)%nat.
Context (Ha : sha2_absorbed ctx m) (Hn : (n <= length message)%nat).
Context (Hm : Z.of_nat (length m + n) < 2 ^ 30).

Lemma l_lt : (l < B)%nat.
Proof using Hp. clear -Hp. pose proof B_bounds. apply Nat.mod_upper_bound. lia. Qed.

Lemma update_partial :
  (l + n < B)%nat ->
  exists ctx', update p ctx message (Z.of_nat n) = Ret ctx' /\
    sha2_absorbed ctx' (m ++ take n message).
Proof.
  intros Hlt. pose proof B_bounds. destruct Ha as [Hh Hr Hl Ht]. unfold update. rewrite Hl.
  unfold sha2_ready in Hr. pose proof (absorb_partial B (transf_block p) h0 ltac:(lia) _ _ _ _ _ Hh Hn Hlt) as Hh'.
  pose proof (mod_app B m (take n message)) as Em.
  pose proof (div_app B ltac:(lia) m (take n message)) as Ed.
  rewrite length_take, Nat.min_l in Em, Ed by done.
  rewrite (Nat.mod_small (l + n)) in Em by done.
  rewrite (Nat.div_small (l + n)), Nat.add_0_r in Ed by done.
  set (L := (length m mod B)%nat) in *.
  rewrite (wrap_small 32 (Z.of_nat B - Z.of_nat L)) by (unfold in_range; lia).
  rewrite (proj2 (Z.ltb_lt (Z.of_nat n) _)) by lia. rewrite (read_ok message 0) by lia. step_run.
  rewrite Nat2Z.id. change (sub message (Z.to_nat 0) n) with (take n message).
  rewrite put_ok by (rewrite length_take; lia). step_run. cbn [len]. rewrite Hl.
  rewrite (wrap_small 32 (Z.of_nat L + Z.of_nat n)) by (unfold in_range; lia).
  rewrite (proj2 (Z.ltb_lt (Z.of_nat L + Z.of_nat n) _)) by lia. eexists. split; [reflexivity |].
  split; cbn [h block len tot_len]; [done | | lia | congruence].
  unfold sha2_ready. cbn [block]. rewrite length_splice, length_take; lia.
Qed.

Lemma update_fill :
  (B <= l + n)%nat ->
  exists ctx', update p ctx message (Z.of_nat n) = Ret ctx' /\
    sha2_absorbed ctx' (m ++ take n message).
Proof.
  intros Hge. pose proof B_bounds. pose proof l_lt. destruct Ha as [Hh Hr Hl Ht].
  destruct (absorb_fill B (transf_block p) h0 ltac:(lia) _ _ m message n Hh Hn Hge)
    as (L2 & Lb & Hh'). cbn zeta in *. set (fill := (B - l)%nat) in *.
  unfold sha2_ready in Hr. unfold update. rewrite Hl.
  replace (Z.of_nat B - Z.of_nat l) with (Z.of_nat fill) by lia.
  rewrite (wrap_small 32 (Z.of_nat fill)) by (unfold in_range; lia).
  replace (if Z.of_nat n <? Z.of_nat fill then Z.of_nat n else Z.of_nat fill)
    with (Z.of_nat fill) by (destruct (Z.ltb_spec (Z.of_nat n) (Z.of_nat fill)); lia).
  rewrite (read_ok message 0) by lia. step_run. rewrite Nat2Z.id. change (Z.to_nat 0) with 0%nat.
  rewrite put_ok by (rewrite length_sub; lia). step_run. cbn [len block]. rewrite Hl.
  set (blk := splice _ _ _) in *.
  rewrite (wrap_small 32 (Z.of_nat l + Z.of_nat n)) by (unfold in_range; lia).
  rewrite (proj2 (Z.ltb_ge (Z.of_nat l + Z.of_nat n) _)) by lia.
  replace (Z.of_nat n - Z.of_nat fill) with (Z.of_nat (n - fill)) by lia.
  rewrite (wrap_small 32 (Z.of_nat (n - fill))) by (unfold in_range; lia).
  rewrite <- Nat2Z.inj_div, <- Nat2Z.inj_mod. set (q := ((n - fill) / B)%nat) in *.
  destruct (div_mod_bs B ltac:(lia) (n - fill)) as [Eq Rq]. fold q in Eq.
  set (r := ((n - fill) mod B)%nat) in *.
  rewrite transf_1 by lia. step_run.
  rewrite transf_ok by (rewrite ?length_drop; lia). step_run. cbn [set_h h block len tot_len].
  rewrite (shl_lg (Z.of_nat q)), <- Nat2Z.inj_mul, (wrap_small 32 (Z.of_nat (q * B)))
    by (unfold in_range; lia).
  rewrite read_ok by (rewrite ?length_drop; lia). step_run. rewrite !Nat2Z.id.
  replace (sub (drop fill message) (q * B) r)
    with (sub message (fill + q * B) (n - fill - q * B))
    by (unfold sub; rewrite drop_drop; f_equal; lia).
  rewrite put_ok_0 by (cbn [set_h block]; lia). step_run. cbn [set_h tot_len len block h].
  eexists. split; [reflexivity |]. cbn [tot_len block h].
  assert (Eln : (l + n = n - fill + 1 * B)%nat) by (unfold fill; lia).
  assert (Em : (length (m ++ take n message) mod B = r)%nat)
    by (rewrite mod_app, length_take, Nat.min_l, Eln by done; apply Nat.Div0.mod_add).
  assert (Ed : (length (m ++ take n message) / B = length m / B + (q + 1))%nat)
    by (rewrite div_app, length_take, Nat.min_l, Eln, Nat.div_add by lia; done).
  split; cbn [h block len tot_len].
  - exact Hh'.
  - unfold sha2_ready. cbn [block]. rewrite length_splice, Lb by lia. lia.
  - by rewrite Em.
  - pose proof (div_full B ltac:(lia) m). rewrite Ed, Ht.
    rewrite (wrap_small 32 (Z.of_nat q + 1)) by (unfold in_range; nia).
    rewrite shl_lg. replace ((Z.of_nat q + 1) * Z.of_nat B) with (Z.of_nat (q * B + B)) by lia.
    rewrite (wrap_small 32 (Z.of_nat (q * B + B))) by (unfold in_range; lia).
    rewrite wrap_small by (unfold in_range; lia). lia.
Qed.
End update_cases.

Lemma update_ok ctx m message n :
  sha2_absorbed ctx m -> 0 <= n -> n <= Z.of_nat (length message) ->
  Z.of_nat (length m) + n < 2 ^ 30 ->
  exists ctx', update p ctx message n = Ret ctx' /\
    sha2_absorbed ctx' (m ++ take (Z.to_nat n) message).
Proof.
  intros Ha Hn Hl Hm. destruct (Z_of_nat_complete n Hn) as [k ->]. rewrite Nat2Z.id.
  destruct (decide (B <= length m mod B + k)%nat).
  - apply update_fill; (done || lia).
  - apply update_partial; (done || lia).
Qed.

(** *** The final blocks *)

Lemma splice_mid {A} (a b c b' : list A) o :
  o = length a -> length b = length b' -> splice (a ++ b ++ c) o b' = a ++ b' ++ c.
Proof using.
  clear. intros -> Hl. unfold splice. rewrite take_app_length.
  by rewrite (app_assoc a b c), <- Hl, <- length_app, drop_app_length.
Qed.

(** How many blocks the padding takes, and how many zeros. *)
Lemma pad_blocks n :
  let l := (n mod B)%nat in
  let nb := if (B - (len_bytes p + 1) <? l)%nat then 2%nat else 1%nat in
  (l + 1 + pad_zeros B (len_bytes p) n + len_bytes p = nb * B)%nat.
Proof.
  pose proof B_bounds. destruct Hp as [_ _ Hlb]. cbn zeta. unfold pad_zeros.
  rewrite <- (Nat.add_assoc n 1), <- (Nat.Div0.add_mod_idemp_l n).
  assert (Hr : (n mod B < B)%nat) by (apply Nat.mod_upper_bound; lia).
  revert Hr. generalize (n mod B)%nat as l. intros l Hr.
  destruct (Nat.ltb_spec (B - (len_bytes p + 1)) l) as [Hgt | Hle].
  - replace (l + (1 + len_bytes p))%nat with (l + 1 + len_bytes p - B + 1 * B)%nat by lia.
    rewrite Nat.Div0.mod_add, (Nat.mod_small (l + 1 + len_bytes p - B)), Nat.mod_small by lia. lia.
  - destruct (decide (l + (1 + len_bytes p) = B)%nat) as [E | E].
    + rewrite E, Nat.Div0.mod_same, Nat.sub_0_r, Nat.Div0.mod_same. lia.
    + rewrite (Nat.mod_small (l + _)), Nat.mod_small by lia. lia.
Qed.

(** Below 2^29 bytes the length field has only its last four bytes set. *)
Lemma enc_small n :
  Z.of_nat n < 2 ^ 29 ->
  enc p n = replicate (len_bytes p - 4) 0 ++ UNPACK32 (8 * Z.of_nat n).
Proof.
  intros Hn. destruct Hp as [_ _ Hlb]. unfold enc.
  apply list_eq_same_length with (len_bytes p);
    [rewrite ?length_app, ?length_replicate, ?length_be_bytes; simpl; lia.. |].
  intros i x y Hi Hx Hy. unfold be_bytes in Hx.
  change (map ?f (seq 0 (len_bytes p))) with (f <$> seq 0 (len_bytes p)) in Hx.
  rewrite list_lookup_fmap, lookup_seq_lt in Hx by done. injection Hx as <-.
  destruct (decide (i < len_bytes p - 4)%nat) as [Hlt | Hge].
  - rewrite lookup_app_l, lookup_replicate_2 in Hy by (rewrite ?length_replicate; lia).
    injection Hy as <-. rewrite Z.shiftr_div_pow2 by lia.
    rewrite Z.div_small; [done |]. split; [lia |].
    apply Z.lt_le_trans with (2 ^ 32); [lia | apply Z.pow_le_mono_r; lia].
  - rewrite lookup_app_r in Hy by (rewrite length_replicate; lia).
    rewrite length_replicate in Hy. revert Hy.
    rewrite ?Nat.add_0_l. replace (len_bytes p - 1 - i)%nat with (3 - (i - (len_bytes p - 4)))%nat by lia.
    generalize (i - (len_bytes p - 4))%nat as j. intros j Hy.
    do 4 (destruct j as [| j]; [injection Hy as <-; reflexivity |]).
    done.
Qed.

(** The first blocks of the buffer after [final] has written the padding. *)
Lemma final_buffer buf l z nb u :
  (l + 1 + z + 4 = nb * B)%nat -> (nb * B <= length buf)%nat -> length u = 4%nat ->
  take (nb * B)
    (splice (splice (splice buf l (replicate (nb * B - l) 0)) l [0x80]) (nb * B - 4) u)
  = take l buf ++ [0x80] ++ replicate z 0 ++ u.
Proof using.
  clear Hp. intros Hz Hb Hu.
  assert (E : splice buf l (replicate (nb * B - l) 0) =
    take l buf ++ [0] ++ replicate z 0 ++ replicate 4 0 ++ drop (nb * B) buf).
  { unfold splice. rewrite length_replicate. replace (l + (nb * B - l))%nat with (nb * B)%nat by lia.
    replace (nb * B - l)%nat with (1 + (z + 4))%nat by lia.
    by rewrite (replicate_add 1), (replicate_add z), <- !app_assoc. }
  rewrite E, splice_mid by (rewrite ?length_take; (done || lia)).
  rewrite (app_assoc (take l buf)), (app_assoc (take l buf ++ _)), splice_mid.
  - rewrite <- !app_assoc. rewrite !app_assoc. apply take_app_length'.
    rewrite !length_app, length_take, length_replicate. simpl. lia.
  - rewrite !length_app, length_take, length_replicate. simpl. lia.
  - by rewrite length_replicate.
Qed.

Lemma final_ok out ctx m :
  sha2_absorbed ctx m -> Z.of_nat (length m) < 2 ^ 29 ->
  exists ctx', final p out ctx = Ret (ctx', SHA2 p h0 out m) /\ sha2_ready ctx'.
Proof.
  intros [Hh Hr Hl Ht] Hm. pose proof B_bounds. pose proof (len_bounds _ Hp).
  pose proof (pad_blocks (length m)) as Hpb. cbn zeta in Hpb.
  pose proof (l_lt m) as Hlt. pose proof (split_length B m) as Hsplit.
  unfold final. rewrite Hl, Ht. unfold sha2_ready in Hr.
  set (l := (length m mod B)%nat) in *. set (nb := if (_ <? l)%nat then _ else _) in Hpb.
  assert (Hnb : (1 <= nb <= 2)%nat) by (unfold nb; destruct (_ <? l)%nat; lia).
  assert (HnbB : (B <= nb * B <= 2 * B)%nat) by (clear -Hnb; nia).
  rewrite (Z.mod_small (Z.of_nat l)) by lia.
  replace (1 + Z.b2z _) with (Z.of_nat nb).
  2: { unfold nb. destruct (Nat.ltb_spec (B - (len_bytes p + 1)) l), (Z.ltb_spec
        (Z.of_nat B - (Z.of_nat (len_bytes p) + 1)) (Z.of_nat l)); simpl; lia. }
  rewrite shl_lg, <- Nat2Z.inj_mul. rewrite <- Nat2Z.inj_add, <- Hsplit.
  rewrite (wrap_small 32 (Z.of_nat (length m))) by (unfold in_range; lia).
  rewrite Z.shiftl_mul_pow2, (Z.mul_comm _ (2 ^ 3)) by done. change (2 ^ 3) with 8.
  rewrite (wrap_small 32 (8 * _)) by (unfold in_range; lia).
  replace (Z.to_nat (Z.of_nat (nb * B) - Z.of_nat l)) with (nb * B - l)%nat by lia.
  replace (Z.of_nat (nb * B) - 4) with (Z.of_nat (nb * B - 4)) by lia.
  rewrite put_ok by (rewrite length_replicate; lia). step_run. cbn [len block]. rewrite Hl.
  set (b1 := splice (block ctx) l _).
  assert (L1 : length b1 = (2 * B)%nat) by (unfold b1; rewrite length_splice, ?length_replicate; lia).
  rewrite put_ok by (cbn [block length]; lia). step_run. cbn [tot_len len block h].
  set (b2 := splice b1 l _).
  assert (L2 : length b2 = (2 * B)%nat) by (unfold b2; rewrite length_splice; cbn [length]; lia).
  rewrite put_ok by (cbn [block length UNPACK32]; lia). step_run. cbn [tot_len len block h].
  set (buf := splice b2 (nb * B - 4) _).
  assert (Lbuf : length buf = (2 * B)%nat)
    by (unfold buf; rewrite length_splice; cbn [length UNPACK32]; lia).
  rewrite transf_ok by (cbn [block]; lia). step_run. cbn [set_h h].
  assert (E : blocks B (transf_block p) (h ctx) nb buf
              = md_chain B (transf_block p) h0 (enc p) m).
  { rewrite (holds_chain _ _ _ _ _ _ Hh).
    rewrite <- (blocks_prefix B _ _ nb buf (nb * B)) by lia. unfold buf, b2, b1.
    rewrite (final_buffer _ l (pad_zeros B (len_bytes p) (length m) + (len_bytes p - 4)))
      by (done || lia).
    unfold l. rewrite (holds_buf _ _ _ _ _ _ Hh). unfold md_chain, padding.
    rewrite enc_small, replicate_add, <- !app_assoc by done.
    replace (length (replicate (len_bytes p - 4) 0 ++ UNPACK32 (8 * Z.of_nat (length m))))
      with (len_bytes p) by (rewrite length_app, length_replicate; cbn [length UNPACK32]; lia).
    set (pd := [0x80] ++ _).
    assert (Lpd : length (m ++ pd) = ((length m / B + nb) * B)%nat).
    { unfold pd. rewrite !length_app, !length_replicate. cbn [length UNPACK32].
      rewrite Nat.mul_add_distr_r. lia. }
    pose proof (div_full B ltac:(lia) m).
    by rewrite Lpd, Nat.div_mul, blocks_add, (blocks_app B _ h0 _ m pd), drop_app_le by lia. }
  rewrite E. eexists. split; [reflexivity | exact Lbuf].
Qed.
End absorb.

(** ** The byte count does not reach the digest except through the length field *)

Definition set_tot (ctx : sha2_ctx) (t : Z) : sha2_ctx :=
  {| tot_len := t; len := len ctx; block := block ctx; h := h ctx |}.

Definition on_ctx (f : sha2_ctx -> sha2_ctx) (m : outcome sha2_ctx) : outcome sha2_ctx :=
  match m with Ret c => Ret (f c) | Undef => Undef | NoFuel => NoFuel end.

Definition digest_of (m : outcome (sha2_ctx * list Z)) : outcome (list Z) :=
  match m with Ret (_, d) => Ret d | Undef => Undef | NoFuel => NoFuel end.

Lemma len_set_tot ctx t : len (set_tot ctx t) = len ctx.
Proof. done. Qed.
Lemma tot_set_tot ctx t : tot_len (set_tot ctx t) = t.
Proof. done. Qed.

Lemma put_set_tot ctx t o b :
  put_block (set_tot ctx t) o b = on_ctx (fun c => set_tot c t) (put_block ctx o b).
Proof. unfold put_block. cbn [set_tot block]. by destruct (store _ _ _). Qed.

Lemma transf_set_tot p ctx t message n :
  transf p (set_tot ctx t) message n = on_ctx (fun c => set_tot c t) (transf p ctx message n).
Proof.
  unfold transf. generalize (Z.to_nat (i32 n)) as k, 0%nat as i. intros k. revert ctx.
  induction k as [| k IH]; intros ctx i; [done |]. cbn [for_loop].
  destruct (read message _ _) as [b | |]; [| done | done]. step_run. apply (IH (set_h ctx _)).
Qed.

(** ** The interface *)

#[export] Instance sha2_stream (p : sha2) (Hp : sane p) (h0 : list Z) (out : nat) : StreamHash sha2_ctx.
Proof.
  refine {| sh_starts := init h0; sh_update := update p; sh_finish := final p out;
            sh_digest := SHA2 p h0 out; sh_ready := sha2_ready p;
            sh_absorbed := sha2_absorbed p h0; sh_chunk := 2 ^ 29; sh_limit := 2 ^ 29 |}.
  - done.
  - by apply init_absorbed.
  - intros c m input n Hc Hi Hl Hm. apply update_ok; (done || lia).
  - intros c m Hc Hm. by apply final_ok.
Defined.

(** ** Properties *)

(** The rounds of [sha256_transf] and [sha512_transf] under
    [UNROLL_LOOPS], which rename the eight registers instead of moving them,
    compute what the loops of the default build compute. *)
Theorem unrolled_is_rolled p hs sub_block :
  length hs = 8%nat -> rounds p = (8 * (rounds p / 8))%nat ->
  transf_block_unrolled p hs sub_block = transf_block p hs sub_block.
Proof.
  intros Hl Hr. unfold transf_block_unrolled, transf_block.
  by rewrite unrolled_rounds, <- Hr.
Qed.

(** C37: SHA-224, SHA-256, SHA-384 and SHA-512 of a message of less than 2^29
    bytes are the same however the message is cut into updates: init, one
    update per fragment and final never leave the context's buffer and return
    the digest of the FIPS 180-2 padded concatenation. *)
Theorem sha2_any_fragmentation p (Hp : sane p) h0 out ctx fragments :
  length (block ctx) = (2 * BLOCK_SIZE p)%nat ->
  Z.of_nat (length (concat fragments)) < 2 ^ 29 ->
  exists ctx',
    (c ← sh_updates (H := sha2_stream p Hp h0 out) (init h0 ctx) fragments; final p out c)
    = Ret (ctx', SHA2 p h0 out (concat fragments)).
Proof.
  intros Hr Hl.
  assert (Hf : Forall (fun f : list Z => Z.of_nat (length f) <= 2 ^ 29) fragments).
  { apply Forall_forall. intros f (a & b & ->)%in_split.
    rewrite concat_app, length_app in Hl. cbn [concat] in Hl. rewrite length_app in Hl. lia. }
  destruct (sh_run_ok (H := sha2_stream p Hp h0 out) fragments ctx Hr Hf Hl) as (c & Hrun & _).
  by exists c.
Qed.

(** [final] computes the length field in 32 bits: contexts whose byte
    counts differ by a multiple of 2^29 bytes yield the same digest, so beyond
    2^29 - 1 bytes the padding is not the one of the standard. *)
Theorem final_length_truncated p out ctx j :
  digest_of (final p out (set_tot ctx (tot_len ctx + j * 2 ^ 29))) = digest_of (final p out ctx).
Proof.
  unfold final. rewrite len_set_tot, tot_set_tot.
  assert (E : u32 (u32 (tot_len ctx + j * 2 ^ 29 + len ctx) .<< 3)
            = u32 (u32 (tot_len ctx + len ctx) .<< 3)).
  { rewrite !Z.shiftl_mul_pow2 by done. unfold wrap. rewrite !Zmult_mod_idemp_l.
    replace ((tot_len ctx + j * 2 ^ 29 + len ctx) * 2 ^ 3)
      with ((tot_len ctx + len ctx) * 2 ^ 3 + j * 2 ^ 32) by ring.
    apply Z_mod_plus_full. }
  rewrite E. generalize (tot_len ctx + j * 2 ^ 29) as t. intros t.
  rewrite put_set_tot. destruct (put_block ctx _ _) as [c1 | |]; [| done | done].
  cbn [on_ctx]. step_run.
  rewrite len_set_tot, put_set_tot. destruct (put_block c1 _ _) as [c2 | |]; [| done | done].
  cbn [on_ctx]. step_run. rewrite put_set_tot. destruct (put_block c2 _ _) as [c3 | |]; [| done | done].
  cbn [on_ctx]. step_run. rewrite transf_set_tot. change (block (set_tot c3 t)) with (block c3).
  by destruct (transf p c3 _ _).
Qed.

(** ** Witnesses *)

Lemma unrolled_is_rolled_witness :
  transf_block_unrolled alg512 sha512_h0 (replicate 128 7)
  = transf_block alg512 sha512_h0 (replicate 128 7).
Proof. apply (unrolled_is_rolled alg512); reflexivity. Defined.

Lemma sha2_any_fragmentation_witness :
  exists ctx',
    (c ← sh_updates (H := sha2_stream alg256 sane256 sha256_h0 8) (sha256_init blank256)
           [[97]; [98; 99]];
     sha256_final c)
    = Ret (ctx', SHA2 alg256 sha256_h0 8 [97; 98; 99]).
Proof.
  apply (sha2_any_fragmentation alg256 sane256 sha256_h0 8 blank256 [[97]; [98; 99]]); reflexivity.
Defined.
