(* ===== verification/Raid.v ===== *)
(** * RAID-5 over files: File-RAID-PoC-Code/raidlib.c

    [xorLBA] and [rebuildLBA] work on 512-byte sectors of one memory, given by
    their offsets; [stripeFile] splits a file over four data chunks and a
    parity chunk and [restoreFile] puts it back together with one chunk
    missing.  The file system is explicit: a stream opened for reading is its
    bytes, position and end-of-file flag; a chunk file is its bytes and
    position.  The library calls are modelled for regular files without
    errors: [fread] and [read] return what is left up to the count, [write]
    and [fwrite] transfer everything.  The chunk files are opened without
    O_TRUNC, so what they held before stays after the written part.  A failed
    [assert], an access outside the stripe buffer and a signed overflow are
    [Undef]. *)
From stdpp Require Import option list.
From S2P Require Import Prelude.
#[local] Open Scope Z_scope.

Definition OK : Z := 0.
Definition ERROR : Z := -1.
Definition SECTOR_SIZE : nat := 512.
Abbreviation STRIPE := (4 * 512)%nat.

(** ** Sectors *)

Definition xorLBA (mem : list Z) (LBA1 LBA2 LBA3 LBA4 PLBA : nat) : option (list Z) :=
  for_loop SECTOR_SIZE 0 (fun idx mem =>
    a ← mem !! (LBA1 + idx)%nat; b ← mem !! (LBA2 + idx)%nat;
    c ← mem !! (LBA3 + idx)%nat; d ← mem !! (LBA4 + idx)%nat;
    nset mem (PLBA + idx) (a .^ b .^ c .^ d)) mem.

Definition rebuildLBA (mem : list Z) (LBA1 LBA2 LBA3 PLBA RLBA : nat) : option (list Z) :=
  for_loop SECTOR_SIZE 0 (fun idx mem =>
    a ← mem !! (LBA1 + idx)%nat; b ← mem !! (LBA2 + idx)%nat;
    c ← mem !! (LBA3 + idx)%nat; p ← mem !! (PLBA + idx)%nat;
    let checkParity := a .^ b .^ c in
    nset mem (RLBA + idx) (p .^ checkParity)) mem.

(** The loop returns at the first mismatch; [n] sectors bytes are left. *)
Fixpoint check_bytes (mem : list Z) (LBA1 LBA2 : nat) (n idx : nat) : option Z :=
  match n with
  | O => Some OK
  | S n =>
      a ← mem !! (LBA1 + idx)%nat; b ← mem !! (LBA2 + idx)%nat;
      if a =? b then check_bytes mem LBA1 LBA2 n (idx + 1) else Some ERROR
  end.

Definition checkEquivLBA (mem : list Z) (LBA1 LBA2 : nat) : option Z :=
  check_bytes mem LBA1 LBA2 SECTOR_SIZE 0.

(** ** Files *)

Record stream := { s_data : list Z; s_pos : nat; s_eof : bool }.

Definition fread (n : nat) (f : stream) : list Z * stream :=
  let bytes := sub (s_data f) (s_pos f) n in
  (bytes, {| s_data := s_data f; s_pos := s_pos f + length bytes;
             s_eof := s_eof f || (length bytes <? n)%nat |}).

Record chunk := { c_data : list Z; c_pos : nat }.

Definition fd_open (content : list Z) : chunk := {| c_data := content; c_pos := 0 |}.

Definition fd_write (bytes : list Z) (fd : chunk) : chunk :=
  {| c_data := splice (c_data fd) (c_pos fd) bytes; c_pos := c_pos fd + length bytes |}.

Definition fd_read (n : nat) (fd : chunk) : list Z * chunk :=
  let bytes := sub (c_data fd) (c_pos fd) n in
  (bytes, {| c_data := c_data fd; c_pos := c_pos fd + length bytes |}).

(** ** stripeFile *)

(** The inner [do ... while (!feof(fdin) && btoread > 0)]. *)
Fixpoint read_stripe (fuel : nat) (stripe : list Z) (f : stream) (offset : nat) (btoread : nat)
    : outcome (list Z * stream * nat * nat) :=
  match fuel with
  | O => NoFuel
  | S fuel =>
      let '(bytes, f) := fread btoread f in
      let bread := length bytes in
      stripe ← lift (store stripe offset bytes);
      let offset := (offset + bread)%nat in
      let btoread := (STRIPE - bread)%nat in
      if negb (s_eof f) && (0 <? btoread)%nat
      then read_stripe fuel stripe f offset btoread
      else Ret (stripe, f, offset, btoread)
  end.

Definition add_count (byteCnt : Z) (n : nat) : outcome Z :=
  if in_int (byteCnt + Z.of_nat n) then Ret (byteCnt + Z.of_nat n) else Undef.

(** Chunk [k] receives the 512 bytes at offset [512 * k] of the stripe. *)
Definition write_chunks (stripe : list Z) (fds : list chunk) : list chunk :=
  imap (fun k fd => fd_write (sub stripe (512 * k) 512) fd) fds.

Definition stripe_step (stripe : list Z) (f : stream) (fds : list chunk) (byteCnt : Z)
    : outcome (list Z * stream * list chunk * Z) :=
  '(stripe, f, offset, btoread) ← read_stripe 2 stripe f 0 STRIPE;
  '(stripe, byteCnt) ←
    (if (offset <? STRIPE)%nat && s_eof f then
       stripe ← lift (store stripe offset (replicate btoread 0));
       byteCnt ← add_count byteCnt offset;
       Ret (stripe, byteCnt)
     else if (offset =? STRIPE)%nat then
       byteCnt ← add_count byteCnt STRIPE;
       Ret (stripe, byteCnt)
     else Undef);
  stripe ← lift (xorLBA stripe 0 512 1024 1536 2048);
  Ret (stripe, f, write_chunks stripe fds, byteCnt).

Fixpoint stripe_loop (fuel : nat) (stripe : list Z) (f : stream) (fds : list chunk) (byteCnt : Z)
    : outcome (Z * list chunk) :=
  match fuel with
  | O => NoFuel
  | S fuel =>
      '(stripe, f, fds, byteCnt) ← stripe_step stripe f fds byteCnt;
      if negb (s_eof f) then stripe_loop fuel stripe f fds byteCnt
      else Ret (byteCnt, fds)
  end.

(** [stripe0] is the uninitialised stack buffer; the result is the byte count
    and the contents of the five chunk files. *)
Definition stripeFile (fuel : nat) (stripe0 : list Z) (input : list Z) (chunks : list (list Z))
    : outcome (Z * list (list Z)) :=
  '(byteCnt, fds) ←
    stripe_loop fuel stripe0 {| s_data := input; s_pos := 0; s_eof := false |}
      (map fd_open chunks) 0;
  Ret (byteCnt, map c_data fds).

(** ** restoreFile *)

(** [do { bread = read(fd, &stripe[offset], 512); ... } while (btoread > 0)] *)
Fixpoint read_chunk (fuel : nat) (stripe : list Z) (fd : chunk) (offset : nat)
    : outcome (list Z * chunk) :=
  match fuel with
  | O => NoFuel
  | S fuel =>
      let '(bytes, fd) := fd_read 512 fd in
      stripe ← lift (store stripe offset bytes);
      if (0 <? 512 - length bytes)%nat
      then read_chunk fuel stripe fd (offset + length bytes)
      else Ret (stripe, fd)
  end.

Definition rebuild_missing (missingChunk : Z) (stripe : list Z) : option (list Z) :=
  match missingChunk with
  | 1 => rebuildLBA stripe 512 1024 1536 2048 0
  | 2 => rebuildLBA stripe 0 1024 1536 2048 512
  | 3 => rebuildLBA stripe 0 512 1536 2048 1024
  | 4 => rebuildLBA stripe 0 512 1024 2048 1536
  | 5 => rebuildLBA stripe 0 512 1024 1536 2048
  | _ => Some stripe
  end.

(** Read the chunks that are not missing, then rebuild the missing one. *)
Definition restore_stripe (fuel : nat) (missingChunk : Z) (st : list Z * list chunk)
    : outcome (list Z * list chunk) :=
  '(stripe, fds) ←
    for_loop 5 0 (fun k '(stripe, fds) =>
      if missingChunk =? Z.of_nat k + 1 then Ret (stripe, fds)
      else
        fd ← lift (fds !! k);
        '(stripe, fd) ← read_chunk fuel stripe fd (512 * k);
        Ret (stripe, <[k := fd]> fds)) st;
  stripe ← lift (rebuild_missing missingChunk stripe);
  Ret (stripe, fds).

Definition restoreFile (fuel : nat) (stripe0 : list Z) (chunks : list (list Z))
    (fileLength missingChunk : Z) : outcome (list Z * Z) :=
  let stripeCnt := fileLength ÷ (4 * 512) in
  let lastStripeBytes := Z.rem fileLength (4 * 512) in
  '(st, out) ←
    for_loop (Z.to_nat stripeCnt) 0 (fun _ '(st, out) =>
      st ← restore_stripe fuel missingChunk st;
      Ret (st, out ++ sub st.1 0 STRIPE)) ((stripe0, map fd_open chunks), []);
  if lastStripeBytes =? 0 then Ret (out, fileLength)
  else
    st ← restore_stripe fuel missingChunk st;
    Ret (out ++ sub st.1 0 (Z.to_nat lastStripeBytes), fileLength).

(** A file of 2050 bytes over dirty chunk files, restored with chunk 2 lost. *)
Example raid_small :
  let data := (fun i => Z.of_nat i mod 256) <$> seq 0 2050 in
  match stripeFile 3 (replicate 2560 7) data (replicate 5 [1; 2; 3]) with
  | Ret (n, chunks) =>
      match restoreFile 1 (replicate 2560 9) (<[1%nat := []]> chunks) n 2 with
      | Ret (out, m) => bool_decide (out = data) && (n =? 2050) && (m =? 2050)
      | _ => false
      end
  | _ => false
  end = true.
Proof. by vm_compute. Qed.

(** ** The sector operations *)

(** Exclusive or of four sectors, as [xorLBA] computes it, and the rebuilt
    sector of [rebuildLBA]. *)
Definition xor4 (a b c d : list Z) : list Z :=
  map (fun i => elt a i .^ elt b i .^ elt c i .^ elt d i) (seq 0 512).
Definition rebuilt (a b c p : list Z) : list Z :=
  map (fun i => elt p i .^ (elt a i .^ elt b i .^ elt c i)) (seq 0 512).

Lemma length_map_seq {A} (g : nat -> A) i n : length (map g (seq i n)) = n.
Proof. by rewrite length_map, length_seq. Qed.

Lemma nset_splice (l : list Z) P (g : nat -> Z) j n :
  (P + n <= length l)%nat -> (j < n)%nat ->
  nset (splice l P (map g (seq 0 j))) (P + j) (g j) =
  Some (splice l P (map g (seq 0 (j + 1)))).
Proof.
  intros Hl Hj. rewrite nset_Some by (rewrite length_splice; lia).
  f_equal. apply list_eq. intros i.
  destruct (decide (i = P + j)%nat) as [-> | Hne].
  - rewrite list_lookup_insert_eq by (rewrite length_splice; lia).
    rewrite lookup_splice by lia. rewrite length_map_seq.
    rewrite (proj2 (Nat.ltb_ge _ _)), (proj2 (Nat.ltb_lt _ _)) by lia.
    change (map g (seq 0 (j + 1))) with (g <$> seq 0 (j + 1)).
    rewrite list_lookup_fmap, lookup_seq_lt by lia. simpl. f_equal. f_equal. lia.
  - rewrite list_lookup_insert_ne by lia. rewrite !lookup_splice by lia.
    rewrite !length_map_seq. destruct (Nat.ltb_spec i P); [done |].
    change (map g ?s) with (g <$> s).
    destruct (Nat.ltb_spec i (P + j)), (Nat.ltb_spec i (P + (j + 1))); try lia; [| done].
    by rewrite !list_lookup_fmap, !lookup_seq_lt by lia.
Qed.

(** A loop that fills the sector at [P] from the rest of the memory. *)
Lemma sector_loop (body : nat -> list Z -> option (list Z)) (g : nat -> Z) (mem : list Z) P n :
  (P + n <= length mem)%nat ->
  (forall idx m, (idx < n)%nat ->
     (forall i, (i < P \/ P + n <= i)%nat -> m !! i = mem !! i) ->
     body idx m = nset m (P + idx) (g idx)) ->
  for_loop n 0 body mem = Some (splice mem P (map g (seq 0 n))).
Proof.
  intros Hl Hbody.
  destruct (for_loop_option (fun j m => m = splice mem P (map g (seq 0 j))) body n 0 mem)
    as (m & -> & ->); [| | done].
  - unfold splice. simpl. by rewrite Nat.add_0_r, take_drop.
  - intros j m Hj ->. eexists; split; [| done].
    rewrite Hbody, (nset_splice _ _ _ _ n); [done | lia | lia | lia |].
    intros i Hi. rewrite lookup_splice by lia. rewrite length_map_seq.
    destruct (Nat.ltb_spec i P); [done |]. destruct (Nat.ltb_spec i (P + j)); [lia | done].
Qed.

Definition apart (P o : nat) : Prop := (o + 512 <= P \/ P + 512 <= o)%nat.

Section sectors.
Context (mem : list Z) (o1 o2 o3 o4 P : nat).
Hypothesis Hin : (o1 + 512 <= length mem /\ o2 + 512 <= length mem /\
  o3 + 512 <= length mem /\ o4 + 512 <= length mem /\ P + 512 <= length mem)%nat.
Hypothesis Hap : apart P o1 /\ apart P o2 /\ apart P o3 /\ apart P o4.

Lemma input_byte (m : list Z) o i :
  (forall i, (i < P \/ P + 512 <= i)%nat -> m !! i = mem !! i) ->
  apart P o -> (o + 512 <= length mem)%nat -> (i < 512)%nat ->
  m !! (o + i)%nat = Some (elt (sub mem o 512) i).
Proof.
  intros Hm Ho Hlen Hi. unfold apart in Ho.
  rewrite Hm, elt_sub by lia. apply elt_Some. lia.
Qed.

Lemma xorLBA_spec :
  xorLBA mem o1 o2 o3 o4 P =
  Some (splice mem P (xor4 (sub mem o1 512) (sub mem o2 512) (sub mem o3 512) (sub mem o4 512))).
Proof using Hin Hap.
  destruct Hin as (? & ? & ? & ? & ?), Hap as (? & ? & ? & ?).
  apply sector_loop; [lia |]. intros idx m Hidx Hm.
  by rewrite !input_byte by done.
Qed.

Lemma rebuildLBA_spec :
  rebuildLBA mem o1 o2 o3 o4 P =
  Some (splice mem P (rebuilt (sub mem o1 512) (sub mem o2 512) (sub mem o3 512) (sub mem o4 512))).
Proof using Hin Hap.
  destruct Hin as (? & ? & ? & ? & ?), Hap as (? & ? & ? & ?).
  apply sector_loop; [lia |]. intros idx m Hidx Hm.
  by rewrite !input_byte by done.
Qed.
End sectors.

Lemma length_xor4 a b c d : length (xor4 a b c d) = 512%nat.
Proof. apply length_map_seq. Qed.

Lemma length_rebuilt a b c d : length (rebuilt a b c d) = 512%nat.
Proof. apply length_map_seq. Qed.

(** Any one of the four sectors is rebuilt from the other three and the parity. *)
Lemma rebuilt_xor4 a b c d :
  length a = 512%nat -> length b = 512%nat -> length c = 512%nat -> length d = 512%nat ->
  let p := xor4 a b c d in
  rebuilt b c d p = a /\ rebuilt a c d p = b /\ rebuilt a b d p = c /\ rebuilt a b c p = d.
Proof.
  intros Ha Hb Hc Hd p.
  repeat split; (apply list_eq_elt; [by rewrite length_rebuilt |]);
    intros i; rewrite length_rebuilt; intros Hi; unfold rebuilt, p, xor4;
    rewrite !elt_map_seq by done; bits j;
    destruct (Z.testbit (elt a i) j), (Z.testbit (elt b i) j),
      (Z.testbit (elt c i) j), (Z.testbit (elt d i) j); done.
Qed.

(** ** The layout of a striped file *)

(** Stripe [s] of the input, padded with zeros, and what chunk [k] gets of it. *)
Definition padded (data : list Z) (s : nat) : list Z :=
  let x := sub data (STRIPE * s) STRIPE in x ++ replicate (STRIPE - length x) 0.

Definition blk (data : list Z) (s k : nat) : list Z :=
  let q := fun k => sub (padded data s) (512 * k) 512 in
  if (k <? 4)%nat then q k else xor4 (q 0%nat) (q 1%nat) (q 2%nat) (q 3%nat).

(** [stripeFile] writes one stripe more than the full ones, all zeros when the
    length is a multiple of 2048. *)
Definition nstripes (data : list Z) : nat := (length data / STRIPE + 1)%nat.

(** A chunk holds blocks [0 .. n) of column [k]. *)
Definition holds (data : list Z) (n k : nat) (content : list Z) : Prop :=
  (512 * n <= length content)%nat /\
  forall t, (t < n)%nat -> sub content (512 * t) 512 = blk data t k.

Lemma length_padded data s : length (padded data s) = STRIPE.
Proof.
  unfold padded. rewrite length_app, length_replicate, length_sub. lia.
Qed.

Lemma length_blk data s k : length (blk data s k) = 512%nat.
Proof.
  unfold blk. destruct (Nat.ltb_spec k 4); [| apply length_xor4].
  rewrite length_sub, length_padded. lia.
Qed.

Lemma blk_rebuilt data s :
  let b := blk data s in
  rebuilt (b 1%nat) (b 2%nat) (b 3%nat) (b 4%nat) = b 0%nat /\
  rebuilt (b 0%nat) (b 2%nat) (b 3%nat) (b 4%nat) = b 1%nat /\
  rebuilt (b 0%nat) (b 1%nat) (b 3%nat) (b 4%nat) = b 2%nat /\
  rebuilt (b 0%nat) (b 1%nat) (b 2%nat) (b 4%nat) = b 3%nat.
Proof. apply rebuilt_xor4; apply (length_blk data s). Qed.

(** Four blocks in place make the stripe. *)
Lemma stripe_from_blocks data s (stripe : list Z) :
  (forall k, (k < 4)%nat -> sub stripe (512 * k) 512 = blk data s k) ->
  sub stripe 0 STRIPE = padded data s.
Proof.
  intros H. rewrite <- (sub_all (padded data s) STRIPE) by (by rewrite length_padded).
  change STRIPE with (512 + (512 + (512 + 512)))%nat.
  rewrite <- !sub_app. simpl Nat.add.
  assert (sub stripe 0 512 = sub (padded data s) 0 512) as -> by exact (H 0%nat ltac:(lia)).
  assert (sub stripe 512 512 = sub (padded data s) 512 512) as -> by exact (H 1%nat ltac:(lia)).
  assert (sub stripe 1024 512 = sub (padded data s) 1024 512) as -> by exact (H 2%nat ltac:(lia)).
  by assert (sub stripe 1536 512 = sub (padded data s) 1536 512) as -> by exact (H 3%nat ltac:(lia)).
Qed.

(** ** Striping *)

Section striping.
Context (data : list Z).
Hypothesis Hint : Z.of_nat (length data) <= INT_MAX.

Abbreviation at_stripe s := {| s_data := data; s_pos := (STRIPE * s)%nat; s_eof := false |}.

Lemma read_stripe_spec s stripe :
  length stripe = 2560%nat ->
  let bytes := sub data (STRIPE * s) STRIPE in
  read_stripe 2 stripe (at_stripe s) 0 STRIPE =
  Ret (splice stripe 0 bytes,
       {| s_data := data; s_pos := STRIPE * s + length bytes; s_eof := (length bytes <? STRIPE)%nat |},
       length bytes, (STRIPE - length bytes)%nat).
Proof.
  intros Hlen bytes. cbn [read_stripe fread s_data s_pos s_eof]. fold bytes.
  assert (length bytes <= STRIPE)%nat as Hb by (unfold bytes; rewrite length_sub; lia).
  rewrite (store_Some stripe 0 bytes) by lia. step_run. cbn [orb].
  destruct (Nat.ltb_spec (length bytes) STRIPE); [done |]. cbn [negb andb].
  by rewrite (proj2 (Nat.ltb_ge 0 (STRIPE - length bytes))) by lia.
Qed.

Lemma stripe_step_spec s stripe fds cnt :
  length stripe = 2560%nat -> (STRIPE * s <= length data)%nat -> cnt = Z.of_nat (STRIPE * s) ->
  let m := length (sub data (STRIPE * s) STRIPE) in
  exists stripe', length stripe' = 2560%nat /\
    (forall k, (k < 5)%nat -> sub stripe' (512 * k) 512 = blk data s k) /\
    stripe_step stripe (at_stripe s) fds cnt =
    Ret (stripe', {| s_data := data; s_pos := STRIPE * s + m; s_eof := (m <? STRIPE)%nat |},
         write_chunks stripe' fds, cnt + Z.of_nat m).
Proof using Hint.
  intros Hlen Hs -> m. unfold stripe_step. rewrite read_stripe_spec by done.
  set (bytes := sub data _ _) in *. fold m. step_run.
  assert (Hm : m = min STRIPE (length data - STRIPE * s)) by (apply length_sub).
  (* the buffer after the read and the padding *)
  set (st := splice (splice stripe 0 bytes) m (replicate (STRIPE - m) 0)).
  assert (Hst : length st = 2560%nat).
  { unfold st. rewrite !length_splice, length_replicate by (rewrite ?length_splice; lia). lia. }
  assert (Hpad : sub st 0 STRIPE = padded data s).
  { apply list_eq. intros i. destruct (decide (i < STRIPE)%nat) as [Hi | Hi].
    - rewrite lookup_sub by done. unfold st, padded. fold bytes m. rewrite Nat.add_0_l.
      rewrite lookup_splice by (rewrite length_splice; lia). rewrite length_replicate.
      destruct (Nat.ltb_spec i m).
      + rewrite lookup_splice, lookup_app_l by lia.
        destruct (Nat.ltb_spec i 0), (Nat.ltb_spec i (0 + length bytes)); [lia.. | | lia].
        by rewrite Nat.sub_0_r.
      + rewrite lookup_app_r by lia.
        by rewrite (proj2 (Nat.ltb_lt i (m + (STRIPE - m)))) by lia.
    - rewrite !lookup_ge_None_2; [done | rewrite length_padded; lia | rewrite length_sub; lia]. }
  assert (Hcnt : in_int (Z.of_nat (STRIPE * s) + Z.of_nat m) = true).
  { unfold in_int, INT_MIN in *. apply andb_true_iff; split; apply Z.leb_le; lia. }
  assert (Hq : forall k, (k < 4)%nat -> sub st (512 * k) 512 = blk data s k).
  { intros k Hk. unfold blk. rewrite (proj2 (Nat.ltb_lt k 4)), <- Hpad, sub_sub by lia.
    f_equal. }
  pose proof (xorLBA_spec st 0 512 1024 1536 2048 ltac:(lia) ltac:(unfold apart; lia)) as Hx.
  assert (Hx4 : xor4 (sub st 0 512) (sub st 512 512) (sub st 1024 512) (sub st 1536 512) =
    blk data s 4).
  { unfold blk at 1. cbn [Nat.ltb Nat.leb]. f_equal; [exact (Hq 0%nat ltac:(lia)) |
      exact (Hq 1%nat ltac:(lia)) | exact (Hq 2%nat ltac:(lia)) | exact (Hq 3%nat ltac:(lia))]. }
  rewrite Hx4 in Hx. clear Hx4.
  exists (splice st 2048 (blk data s 4)). split; [| split].
  - rewrite length_splice, length_blk; lia.
  - intros k Hk. destruct (decide (k = 4)%nat) as [-> |].
    + apply sub_splice_eq; [lia | by rewrite length_blk].
    + rewrite sub_splice_ne; [apply Hq; lia | lia | lia].
  - destruct (Nat.ltb_spec m STRIPE) as [Hshort | Hfull]; cbn [andb s_eof].
    + rewrite store_Some by (rewrite length_replicate, length_splice; lia).
      fold st. step_run. unfold add_count. rewrite Hcnt. step_run. by rewrite Hx.
    + assert (m = STRIPE) as Heq by lia.
      assert (splice stripe 0 bytes = st) as ->.
      { unfold st. rewrite Heq. unfold splice at 2. simpl replicate.
        rewrite app_nil_l, length_nil, Nat.add_0_r. by rewrite take_drop. }
      rewrite Heq in Hcnt |- *. rewrite Nat.eqb_refl. unfold add_count. rewrite Hcnt.
      step_run. by rewrite Hx.
Qed.

(** The open chunk files after [s] stripes. *)
Definition written (s : nat) (fds : list chunk) : Prop :=
  length fds = 5%nat /\
  forall k fd, fds !! k = Some fd -> c_pos fd = (512 * s)%nat /\ holds data s k (c_data fd).

Lemma write_chunks_spec s stripe fds :
  (forall k, (k < 5)%nat -> sub stripe (512 * k) 512 = blk data s k) ->
  written s fds -> written (S s) (write_chunks stripe fds).
Proof.
  intros Hst [Hlen Hfds]. split; [unfold write_chunks; by rewrite length_imap |].
  intros k fd' Hk. unfold write_chunks in Hk. rewrite list_lookup_imap in Hk.
  destruct (fds !! k) as [fd |] eqn:Hfd; [| done].
  cbn [fmap option_fmap option_map] in Hk.
  assert (fd' = fd_write (sub stripe (512 * k) 512) fd) as -> by congruence.
  destruct (Hfds k fd Hfd) as (Hpos & Hl & Hold).
  rewrite Hst by (apply lookup_lt_Some in Hfd; lia). cbn [fd_write c_pos c_data].
  rewrite Hpos, length_blk. split; [lia |]. split.
  - rewrite length_splice, length_blk by done. lia.
  - intros t Ht. destruct (decide (t = s)) as [-> |].
    + apply sub_splice_eq; [done | by rewrite length_blk].
    + rewrite sub_splice_ne; [apply Hold; lia | done | lia].
Qed.

Lemma stripe_loop_spec fuel s stripe fds :
  length stripe = 2560%nat -> (STRIPE * s <= length data)%nat ->
  (nstripes data - s <= fuel)%nat -> written s fds ->
  exists fds', stripe_loop fuel stripe (at_stripe s) fds (Z.of_nat (STRIPE * s)) =
    Ret (Z.of_nat (length data), fds') /\ written (nstripes data) fds'.
Proof using Hint.
  assert (Hn := Nat.div_mod_eq (length data) STRIPE).
  assert (Hm := Nat.mod_upper_bound (length data) STRIPE ltac:(lia)).
  revert s stripe fds. induction fuel as [| fuel IH]; intros s stripe fds Hlen Hs Hfuel Hw.
  { unfold nstripes in Hfuel. nia. }
  destruct (stripe_step_spec s stripe fds _ Hlen Hs eq_refl) as (st & Hst & Hblk & Hstep).
  cbn [stripe_loop]. rewrite Hstep. clear Hstep. step_run. cbn [s_eof].
  pose proof (write_chunks_spec s st fds Hblk Hw) as Hw'.
  pose proof (length_sub data (STRIPE * s) STRIPE) as Hmin.
  set (m := length (sub data _ _)) in *.
  destruct (Nat.ltb_spec m STRIPE) as [Hshort | Hfull]; cbn [negb].
  - exists (write_chunks st fds). unfold nstripes.
    replace (length data / STRIPE + 1)%nat with (S s) by nia.
    split; [| done]. f_equal. f_equal. lia.
  - destruct (IH (S s) st (write_chunks st fds) Hst ltac:(lia) ltac:(lia) Hw')
      as (fds' & Hrun & Hw'').
    exists fds'. split; [| done]. rewrite <- Hrun.
    f_equal; [f_equal; lia | lia].
Qed.
End striping.

Lemma stripeFile_spec data stripe0 chunks fuel :
  Z.of_nat (length data) <= INT_MAX -> length stripe0 = 2560%nat -> length chunks = 5%nat ->
  (nstripes data <= fuel)%nat ->
  exists chunks', stripeFile fuel stripe0 data chunks = Ret (Z.of_nat (length data), chunks') /\
    length chunks' = 5%nat /\
    forall k content, chunks' !! k = Some content -> holds data (nstripes data) k content.
Proof.
  intros Hint Hst Hch Hfuel. unfold stripeFile.
  destruct (stripe_loop_spec data Hint fuel 0 stripe0 (map fd_open chunks)) as (fds & Hrun & Hw);
    [done | lia | lia | |].
  - split; [by rewrite length_map |]. intros k fd Hk.
    change (map fd_open chunks) with (fd_open <$> chunks) in Hk.
    apply list_lookup_fmap_Some in Hk as (c & -> & _). split; [done |]. split; simpl; lia.
  - change (STRIPE * 0)%nat with 0%nat in Hrun. change (Z.of_nat 0) with 0 in Hrun.
    rewrite Hrun. step_run. destruct Hw as [Hlen Hw]. exists (map c_data fds).
    split; [done |]. split; [by rewrite length_map |]. intros k content Hk.
    change (map c_data fds) with (c_data <$> fds) in Hk.
    apply list_lookup_fmap_Some in Hk as (fd & -> & Hfd). by apply Hw.
Qed.

(** ** Restoring *)

Section restoring.
Context (data : list Z) (N : nat) (missing : Z).

(** The chunk files before stripe [t] is read: every chunk but the missing one
    holds the first [N] blocks of its column and stands at block [t]. *)
Definition present (k : nat) : Prop := missing <> Z.of_nat k + 1.

Definition ready (t k : nat) (fd : chunk) : Prop :=
  present k -> c_pos fd = (512 * t)%nat /\ holds data N k (c_data fd).

Definition all_ready (t : nat) (fds : list chunk) : Prop :=
  length fds = 5%nat /\ forall k fd, fds !! k = Some fd -> ready t k fd.

Lemma read_chunk_spec fuel stripe fd t k :
  length stripe = 2560%nat -> (k < 5)%nat -> (t < N)%nat -> (1 <= fuel)%nat ->
  present k -> ready t k fd ->
  exists fd', read_chunk fuel stripe fd (512 * k) = Ret (splice stripe (512 * k) (blk data t k), fd') /\
    ready (t + 1) k fd'.
Proof.
  intros Hlen Hk Ht Hfuel Hp Hr. destruct (Hr Hp) as (Hpos & Hl & Hblk).
  destruct fuel as [| fuel]; [lia |]. cbn [read_chunk fd_read].
  rewrite Hpos, (Hblk t Ht), length_blk.
  rewrite store_Some by (rewrite length_blk; lia). step_run. cbn [Nat.sub Nat.ltb Nat.leb].
  eexists; split; [done |]. intros _. cbn [c_pos c_data]. split; [lia | done].
Qed.

(** The reads of one stripe. *)
Lemma read_all_spec fuel stripe fds t :
  length stripe = 2560%nat -> (t < N)%nat -> (1 <= fuel)%nat -> all_ready t fds ->
  exists stripe' fds',
    for_loop 5 0 (fun k '(stripe, fds) =>
      if missing =? Z.of_nat k + 1 then Ret (stripe, fds)
      else
        fd ← lift (fds !! k);
        '(stripe, fd) ← read_chunk fuel stripe fd (512 * k);
        Ret (stripe, <[k := fd]> fds)) (stripe, fds) = Ret (stripe', fds') /\
    length stripe' = 2560%nat /\ all_ready (t + 1) fds' /\
    forall k, (k < 5)%nat -> present k -> sub stripe' (512 * k) 512 = blk data t k.
Proof.
  intros Hlen Ht Hfuel [Hfl Hready].
  pose (inv := fun (k : nat) (st : list Z * list chunk) =>
    length st.1 = 2560%nat /\ length st.2 = 5%nat /\
    (forall j fd, st.2 !! j = Some fd -> ready (if (j <? k)%nat then t + 1 else t) j fd) /\
    forall j, (j < k)%nat -> present j -> sub st.1 (512 * j) 512 = blk data t j).
  edestruct (for_loop_run inv) as ([stripe' fds'] & Hrun & H1 & H2 & H3 & H4);
    [| | exists stripe', fds'; split; [exact Hrun |]].
  - split; [done |]. split; [done |]. split; [| lia]. intros j fd Hj. by apply Hready.
  - intros k [st fs] Hk (Hs & Hf & Hr & Hb). cbn [fst snd] in *.
    destruct (Z.eqb_spec missing (Z.of_nat k + 1)) as [Hm | Hm].
    + exists (st, fs). split; [done |]. split; [done |]. split; [done |]. split.
      * intros j fd Hj Hp. destruct (decide (j = k)) as [-> |]; [by destruct Hp |].
        specialize (Hr j fd Hj Hp). destruct (Nat.ltb_spec j k), (Nat.ltb_spec j (k + 1)); lia || done.
      * intros j Hj Hp. destruct (decide (j = k)) as [-> |]; [by destruct Hp | apply Hb; lia || done].
    + destruct (lookup_lt_is_Some_2 fs k ltac:(lia)) as [fd Hfd]. rewrite Hfd. cbn [lift].
      pose proof (Hr k fd Hfd) as Hrk. rewrite Nat.ltb_irrefl in Hrk.
      destruct (read_chunk_spec fuel st fd t k Hs ltac:(lia) Ht Hfuel Hm Hrk) as (fd' & Hread & Hr').
      step_run. rewrite Hread. exists (splice st (512 * k) (blk data t k), <[k:=fd']> fs).
      split; [done |]. unfold inv. cbn [fst snd].
      split; [rewrite length_splice, length_blk; lia |].
      split; [by rewrite length_insert |]. split.
      * intros j g Hj. destruct (decide (j = k)) as [-> |].
        -- rewrite list_lookup_insert_eq in Hj by lia. injection Hj as <-.
           by rewrite (proj2 (Nat.ltb_lt k (k + 1))) by lia.
        -- rewrite list_lookup_insert_ne in Hj by done. specialize (Hr j g Hj).
           destruct (Nat.ltb_spec j k), (Nat.ltb_spec j (k + 1)); lia || done.
      * intros j Hj Hp. destruct (decide (j = k)) as [-> |].
        -- apply sub_splice_eq; [lia | by rewrite length_blk].
        -- rewrite sub_splice_ne; [apply Hb; lia || done | lia |]. rewrite length_blk. lia.
  - cbn [fst snd] in *. split; [done |]. split.
    + split; [done |]. intros k fd Hk. pose proof (lookup_lt_Some _ _ _ Hk).
      specialize (H3 k fd Hk). by rewrite (proj2 (Nat.ltb_lt k (0 + 5))) in H3 by lia.
    + intros k Hk. apply H4. lia.
Qed.

(** The rebuild completes the stripe. *)
Lemma rebuild_missing_spec stripe t :
  length stripe = 2560%nat -> missing <= 5 ->
  (forall k, (k < 5)%nat -> present k -> sub stripe (512 * k) 512 = blk data t k) ->
  exists stripe', rebuild_missing missing stripe = Some stripe' /\ length stripe' = 2560%nat /\
    forall k, (k < 4)%nat -> sub stripe' (512 * k) 512 = blk data t k.
Proof.
  intros Hlen Hm Hb. unfold present in Hb.
  destruct (blk_rebuilt data t) as (R0 & R1 & R2 & R3).
  assert (Hcase : missing = 1 \/ missing = 2 \/ missing = 3 \/ missing = 4 \/ missing = 5 \/
    missing <= 0) by lia.
  assert (Hdone : forall P b, length b = 512%nat -> (P <= 2048)%nat ->
    length (splice stripe P b) = 2560%nat).
  { intros P b Hlb HP. rewrite length_splice; lia. }
  assert (Hfin : forall m P, (m < 5)%nat -> P = (512 * m)%nat ->
    (forall k, (k < 5)%nat -> k <> m -> sub stripe (512 * k) 512 = blk data t k) ->
    forall k, (k < 5)%nat -> sub (splice stripe P (blk data t m)) (512 * k) 512 = blk data t k).
  { intros m P Hmm -> Ho k Hk. destruct (decide (k = m)) as [-> |].
    - apply sub_splice_eq; [lia | by rewrite length_blk].
    - rewrite sub_splice_ne; [by apply Ho | lia | rewrite length_blk; lia]. }
  assert (Hgo : forall m P r, (m < 4)%nat -> missing = Z.of_nat m + 1 -> P = (512 * m)%nat ->
    r = blk data t m ->
    length (splice stripe P r) = 2560%nat /\
    forall k, (k < 4)%nat -> sub (splice stripe P r) (512 * k) 512 = blk data t k).
  { intros m P r Hm4 Hmis HP ->. split; [apply Hdone; [apply length_blk | lia] |].
    intros k Hk. apply Hfin; [lia | done | | lia]. intros j Hj Hne. apply Hb; [done | lia]. }
  pose proof (Hb 0%nat) as B0. pose proof (Hb 1%nat) as B1. pose proof (Hb 2%nat) as B2.
  pose proof (Hb 3%nat) as B3. pose proof (Hb 4%nat) as B4.
  cbn [Nat.mul Nat.add Z.of_nat] in B0, B1, B2, B3, B4.
  destruct Hcase as [-> | [-> | [-> | [-> | [-> | Hneg]]]]]; cbn [rebuild_missing].
  1-5: rewrite rebuildLBA_spec by (unfold apart; lia); eexists; split; [reflexivity |].
  - rewrite B1, B2, B3, B4 by lia. apply (Hgo 0%nat); [lia | done | done | exact R0].
  - rewrite B0, B2, B3, B4 by lia. apply (Hgo 1%nat); [lia | done | done | exact R1].
  - rewrite B0, B1, B3, B4 by lia. apply (Hgo 2%nat); [lia | done | done | exact R2].
  - rewrite B0, B1, B2, B4 by lia. apply (Hgo 3%nat); [lia | done | done | exact R3].
  - split; [apply Hdone; [apply length_rebuilt | lia] |].
    intros k Hk. rewrite sub_splice_ne; [apply Hb; lia | lia | lia].
  - exists stripe. split; [destruct missing; done || lia |]. split; [done |].
    intros k Hk. apply Hb; lia.
Qed.

Lemma restore_stripe_spec fuel stripe fds t :
  length stripe = 2560%nat -> (t < N)%nat -> (1 <= fuel)%nat -> missing <= 5 -> all_ready t fds ->
  exists stripe' fds', restore_stripe fuel missing (stripe, fds) = Ret (stripe', fds') /\
    length stripe' = 2560%nat /\ all_ready (t + 1) fds' /\
    sub stripe' 0 STRIPE = padded data t.
Proof.
  intros Hlen Ht Hfuel Hm Hr. unfold restore_stripe.
  destruct (read_all_spec fuel stripe fds t Hlen Ht Hfuel Hr) as (st & fs & -> & Hl & Hr' & Hb).
  step_run. destruct (rebuild_missing_spec st t Hl Hm Hb) as (st' & -> & Hl' & Hb').
  step_run. exists st', fs. split; [done |]. split; [done |]. split; [done |].
  by apply stripe_from_blocks.
Qed.
End restoring.

Lemma padded_full data s :
  (STRIPE * s + STRIPE <= length data)%nat -> padded data s = sub data (STRIPE * s) STRIPE.
Proof.
  intros H. unfold padded. rewrite length_sub.
  replace (STRIPE - _)%nat with 0%nat by lia. by rewrite app_nil_r.
Qed.

Lemma restoreFile_spec data missing fuel stripe0 chunks :
  length stripe0 = 2560%nat -> length chunks = 5%nat -> missing <= 5 -> (1 <= fuel)%nat ->
  (forall k c, chunks !! k = Some c -> present missing k -> holds data (nstripes data) k c) ->
  restoreFile fuel stripe0 chunks (Z.of_nat (length data)) missing =
  Ret (data, Z.of_nat (length data)).
Proof.
  intros Hst Hch Hm Hfuel Hhold. set (N := nstripes data).
  pose proof (Nat.div_mod_eq (length data) STRIPE) as Hdiv.
  pose proof (Nat.mod_upper_bound (length data) STRIPE ltac:(lia)) as Hmod.
  set (q := (length data / STRIPE)%nat) in *. set (r := (length data mod STRIPE)%nat) in *.
  assert (Hq : Z.of_nat (length data) ÷ (4 * 512) = Z.of_nat q).
  { rewrite Z.quot_div_nonneg by lia. change (4 * 512) with (Z.of_nat STRIPE).
    by rewrite <- Nat2Z.inj_div. }
  assert (Hr : Z.rem (Z.of_nat (length data)) (4 * 512) = Z.of_nat r).
  { rewrite Z.rem_mod_nonneg by lia. change (4 * 512) with (Z.of_nat STRIPE).
    by rewrite <- Nat2Z.inj_mod. }
  unfold restoreFile. rewrite Hq, Hr, Nat2Z.id. cbv zeta.
  edestruct (for_loop_run (fun t (s : list Z * list chunk * list Z) =>
      length s.1.1 = 2560%nat /\ all_ready data N missing t s.1.2 /\
      s.2 = sub data 0 (STRIPE * t))) as ([[st fds] out] & Hrun & Hl & Hready & Hout);
    [| | rewrite Hrun; clear Hrun; cbn [fst snd] in *; step_run].
  - unfold all_ready. cbn [fst snd]. split; [done |]. split; [| done].
    split; [by rewrite length_map |].
    intros k fd Hk Hp. change (map fd_open chunks) with (fd_open <$> chunks) in Hk.
    apply list_lookup_fmap_Some in Hk as (c & -> & Hc). split; [done |]. by apply Hhold.
  - intros t [[st fds] out] Ht (Hl & Hready & Hout). cbn [fst snd] in *.
    destruct (restore_stripe_spec data N missing fuel st fds t Hl ltac:(unfold N, nstripes; lia)
      Hfuel Hm Hready) as (st' & fds' & Hrun & Hl' & Hr' & Hsub).
    rewrite Hrun. exists (st', fds', out ++ sub st' 0 STRIPE). split; [done |].
    cbn [fst snd]. split; [done |]. split; [done |].
    rewrite Hsub, padded_full, Hout by lia.
    rewrite sub_app0. f_equal. lia.
  - rewrite ?Nat2Z.id, ?Nat.add_0_l in Hready, Hout.
    destruct (Z.eqb_spec (Z.of_nat r) 0) as [Hz | Hz].
    + rewrite Hout, sub_all by lia. done.
    + destruct (restore_stripe_spec data N missing fuel st fds q Hl ltac:(unfold N, nstripes; lia)
        Hfuel Hm Hready) as (st' & fds' & Hrun & Hl' & Hr' & Hsub).
      rewrite Hrun. step_run. f_equal. f_equal. cbn [fst].
      rewrite ?Nat2Z.id, Hout.
      assert (sub st' 0 r = sub data (STRIPE * q) r) as ->.
      { transitivity (sub (sub st' 0 STRIPE) 0 r); [by rewrite sub_sub by lia |].
        rewrite Hsub. unfold padded. rewrite sub_app_l by (rewrite length_sub; lia).
        rewrite sub_sub by lia. f_equal. lia. }
      rewrite sub_app0. apply sub_all. lia.
Qed.

(** ** Properties *)

(** C6: a file of up to INT_MAX bytes striped over any five chunk files
    (whatever they held before, from whatever stack garbage) is counted
    exactly, and is restored byte for byte when any one of the five chunk
    files is replaced by anything else and named as missing, or none is. *)
Theorem raid_roundtrip data chunks stripe0 stripe1 missing fuel fuel' :
  Z.of_nat (length data) <= INT_MAX -> length chunks = 5%nat ->
  length stripe0 = 2560%nat -> length stripe1 = 2560%nat -> 0 <= missing <= 5 ->
  (length data / STRIPE + 1 <= fuel)%nat -> (1 <= fuel')%nat ->
  exists chunks', stripeFile fuel stripe0 data chunks = Ret (Z.of_nat (length data), chunks') /\
    forall chunks'', length chunks'' = 5%nat ->
      (forall k, missing <> Z.of_nat k + 1 -> chunks'' !! k = chunks' !! k) ->
      restoreFile fuel' stripe1 chunks'' (Z.of_nat (length data)) missing =
      Ret (data, Z.of_nat (length data)).
Proof.
  intros Hint Hch Hs0 Hs1 Hm Hfuel Hfuel'.
  destruct (stripeFile_spec data stripe0 chunks fuel Hint Hs0 Hch Hfuel) as (ch' & Hrun & _ & Hh).
  exists ch'. split; [done |]. intros ch'' Hlen Hsame.
  apply restoreFile_spec; [done | done | lia | done |].
  intros k c Hk Hp. rewrite Hsame in Hk by done. by apply Hh.
Qed.

Lemma raid_roundtrip_witness :
  exists chunks', stripeFile 2 (replicate 2560 7) (replicate 2048 5) (replicate 5 [1; 2; 3]) =
    Ret (2048, chunks').
Proof.
  destruct (raid_roundtrip (replicate 2048 5) (replicate 5 [1; 2; 3]) (replicate 2560 7)
    (replicate 2560 9) 3 2 1) as (ch & H & _);
    [by vm_compute | done | by vm_compute | by vm_compute | lia | apply Nat.leb_le; by vm_compute
    | lia |].
  exists ch. exact H.
Defined.

(** [xorLBA] followed by [rebuildLBA] recovers any one of the four data
    sectors from the other three and the parity, in one memory where the five
    sectors do not overlap, and both change only their output sector. *)
Theorem rebuild_recovers mem o1 o2 o3 o4 P R :
  (o1 + 512 <= length mem /\ o2 + 512 <= length mem /\ o3 + 512 <= length mem /\
   o4 + 512 <= length mem /\ P + 512 <= length mem /\ R + 512 <= length mem)%nat ->
  apart P o1 /\ apart P o2 /\ apart P o3 /\ apart P o4 ->
  apart R o1 /\ apart R o2 /\ apart R o3 /\ apart R P ->
  exists mem1 mem2, xorLBA mem o1 o2 o3 o4 P = Some mem1 /\
    rebuildLBA mem1 o1 o2 o3 P R = Some mem2 /\
    sub mem2 R 512 = sub mem o4 512 /\
    forall o, apart P o -> apart R o -> sub mem2 o 512 = sub mem o 512.
Proof.
  intros (H1 & H2 & H3 & H4 & HP & HR) HaP HaR.
  set (p := xor4 (sub mem o1 512) (sub mem o2 512) (sub mem o3 512) (sub mem o4 512)).
  set (mem1 := splice mem P p). exists mem1. eexists.
  rewrite xorLBA_spec by (done || lia). split; [done |].
  assert (Hp : length p = 512%nat) by apply length_xor4.
  assert (Hl1 : length mem1 = length mem) by (unfold mem1; rewrite length_splice; lia).
  rewrite rebuildLBA_spec by (done || lia). split; [done |].
  assert (Hsub : forall o, apart P o -> sub mem1 o 512 = sub mem o 512).
  { intros o Ho. unfold apart in Ho. unfold mem1. apply sub_splice_ne; lia. }
  assert (HsP : sub mem1 P 512 = p) by (unfold mem1; apply sub_splice_eq; lia).
  destruct HaP as (A1 & A2 & A3 & A4). rewrite !Hsub, HsP by done. split.
  - rewrite sub_splice_eq by (rewrite ?length_rebuilt; lia).
    apply (rebuilt_xor4 (sub mem o1 512) (sub mem o2 512) (sub mem o3 512) (sub mem o4 512));
      rewrite length_sub; lia.
  - intros o Ho1 Ho2. rewrite <- (Hsub o Ho1). unfold apart in Ho2.
    apply sub_splice_ne; [lia |]. rewrite length_rebuilt. lia.
Qed.

Lemma rebuild_recovers_witness :
  exists mem1 mem2, xorLBA (replicate 3072 3) 0 512 1024 1536 2048 = Some mem1 /\
    rebuildLBA mem1 0 512 1024 2048 2560 = Some mem2.
Proof.
  destruct (rebuild_recovers (replicate 3072 3) 0 512 1024 1536 2048 2560) as (m1 & m2 & H1 & H2 & _);
    [rewrite length_replicate; lia | unfold apart; lia | unfold apart; lia |].
  exists m1, m2. split; [exact H1 | exact H2].
Defined.

Lemma check_bytes_spec (mem : list Z) o1 o2 n i :
  (o1 + i + n <= length mem)%nat -> (o2 + i + n <= length mem)%nat ->
  check_bytes mem o1 o2 n i =
    Some (if bool_decide (sub mem (o1 + i) n = sub mem (o2 + i) n) then OK else ERROR).
Proof.
  revert i. induction n as [| n IH]; intros i H1 H2; cbn [check_bytes].
  { done. }
  rewrite !elt_Some by lia. step_option.
  assert (Hhead : forall o, (o + i + S n <= length mem)%nat ->
    sub mem (o + i) (S n) = elt mem (o + i) :: sub mem (o + (i + 1)) n).
  { intros o Ho. unfold sub. rewrite (drop_S mem (elt mem (o + i))) by (apply elt_Some; lia).
    cbn [take]. f_equal. f_equal. f_equal. lia. }
  rewrite !Hhead by lia. destruct (Z.eqb_spec (elt mem (o1 + i)) (elt mem (o2 + i))) as [He | Hne].
  - rewrite IH by lia. f_equal. rewrite He.
    destruct (decide (sub mem (o1 + (i + 1)) n = sub mem (o2 + (i + 1)) n)) as [Hs | Hs].
    + by rewrite !bool_decide_true by (done || congruence).
    + rewrite !bool_decide_false; [done | congruence | done].
  - rewrite bool_decide_false; [done | congruence].
Qed.

(** [checkEquivLBA] decides equality of two sectors. *)
Theorem checkEquivLBA_decides mem o1 o2 :
  (o1 + 512 <= length mem)%nat -> (o2 + 512 <= length mem)%nat ->
  checkEquivLBA mem o1 o2 = Some (if bool_decide (sub mem o1 512 = sub mem o2 512) then OK else ERROR).
Proof.
  intros H1 H2. unfold checkEquivLBA. rewrite check_bytes_spec by (unfold SECTOR_SIZE; lia).
  by rewrite !Nat.add_0_r.
Qed.

Lemma checkEquivLBA_decides_witness : checkEquivLBA (replicate 1024 3) 0 512 = Some OK.
Proof.
  rewrite (checkEquivLBA_decides (replicate 1024 3) 0 512) by (rewrite length_replicate; lia).
  by vm_compute.
Defined.
