(* ===== verification/Ecc.v ===== *)
(** * Emulated ECC memory: the Hamming SECDED code of hamming-emulator/

    [ecclib.c] keeps a data memory and a code memory side by side and protects
    every data byte with four Hamming parity bits and one overall parity bit;
    [ecctest.c] injects faults with [flip_bit].  The definitions below follow
    the two files expression by expression; a memory access outside the
    emulated memory is undefined behaviour and is returned as [None]. *)
From Stdlib Require Import String.
From stdpp Require Import option list.
From S2P Require Import Prelude.

(** ** ecclib.h *)

Definition MEM_SIZE : Z := 1024.
Definition NO_ERROR : Z := 0.
Definition PW_ERROR : Z := -1.
Definition SINGLE_BIT_ERROR_CORRECTED : Z := -2.
Definition DOUBLE_BIT_ERROR : Z := -3.
Definition UNKNOWN_ERROR : Z := -4.

Definition P01_BIT : Z := 0x01.
Definition P02_BIT : Z := 0x02.
Definition P03_BIT : Z := 0x04.
Definition P04_BIT : Z := 0x08.
Definition PW_BIT : Z := 0x10.
Definition ENCODED_BIT : Z := 0x20.

Definition DATA_BIT_1 : Z := 0x01.
Definition DATA_BIT_2 : Z := 0x02.
Definition DATA_BIT_3 : Z := 0x04.
Definition DATA_BIT_4 : Z := 0x08.
Definition DATA_BIT_5 : Z := 0x10.
Definition DATA_BIT_6 : Z := 0x20.
Definition DATA_BIT_7 : Z := 0x40.
Definition DATA_BIT_8 : Z := 0x80.

Definition SYNBITS : Z := 0x0F.

Record ecc_t := { data_memory : list Z; code_memory : list Z }.

(** ** ecclib.c: the code word of a data byte *)

(** [get_codeword] reads [ecc->data_memory[offset]] only, as [d]. *)
Definition codeword_of (d : Z) : Z :=
  let cw := 0 in
  let cw := cw .| (P01_BIT .&
     ((d .& DATA_BIT_1) .^ ((d .& DATA_BIT_2) .>> 1) .^ ((d .& DATA_BIT_4) .>> 3) .^
      ((d .& DATA_BIT_5) .>> 4) .^ ((d .& DATA_BIT_7) .>> 6))) in
  let cw := cw .| (P02_BIT .&
     (((d .& DATA_BIT_1) .^ ((d .& DATA_BIT_3) .>> 2) .^ ((d .& DATA_BIT_4) .>> 3) .^
       ((d .& DATA_BIT_6) .>> 5) .^ ((d .& DATA_BIT_7) .>> 6)) .<< 1)) in
  let cw := cw .| (P03_BIT .&
     ((((d .& DATA_BIT_2) .>> 1) .^ ((d .& DATA_BIT_3) .>> 2) .^
       ((d .& DATA_BIT_4) .>> 3) .^ ((d .& DATA_BIT_8) .>> 7)) .<< 2)) in
  let cw := cw .| (P04_BIT .&
     ((((d .& DATA_BIT_5) .>> 4) .^ ((d .& DATA_BIT_6) .>> 5) .^
       ((d .& DATA_BIT_7) .>> 6) .^ ((d .& DATA_BIT_8) .>> 7)) .<< 3)) in
  let cw := cw .| (PW_BIT .&
     ((((d .& DATA_BIT_1) .^ ((d .& DATA_BIT_2) .>> 1) .^ ((d .& DATA_BIT_3) .>> 2) .^
        ((d .& DATA_BIT_4) .>> 3) .^ ((d .& DATA_BIT_5) .>> 4) .^
        ((d .& DATA_BIT_6) .>> 5) .^ ((d .& DATA_BIT_7) .>> 6) .^
        ((d .& DATA_BIT_8) .>> 7)) .^
       ((cw .& P01_BIT) .^ ((cw .& P02_BIT) .>> 1) .^ ((cw .& P03_BIT) .>> 2) .^
        ((cw .& P04_BIT) .>> 3))) .<< 4)) in
  cw .| ENCODED_BIT.

Definition get_codeword (ecc : ecc_t) (offset : Z) : option Z :=
  codeword_of <$> aget (data_memory ecc) offset.

(** The overall parity of the stored bits, [pW2] of [read_byte]. *)
Definition stored_parity (d c : Z) : Z :=
  PW_BIT .&
    ((((d .& DATA_BIT_1) .^ ((d .& DATA_BIT_2) .>> 1) .^ ((d .& DATA_BIT_3) .>> 2) .^
       ((d .& DATA_BIT_4) .>> 3) .^ ((d .& DATA_BIT_5) .>> 4) .^
       ((d .& DATA_BIT_6) .>> 5) .^ ((d .& DATA_BIT_7) .>> 6) .^
       ((d .& DATA_BIT_8) .>> 7)) .^
      ((c .& P01_BIT) .^ ((c .& P02_BIT) .>> 1) .^ ((c .& P03_BIT) .>> 2) .^
       ((c .& P04_BIT) .>> 3))) .<< 4).

(** ** ecclib.c: writing, reading, enabling *)

(** Returns the result code and the updated memory. *)
Definition write_byte (ecc : ecc_t) (offset byteToWrite : Z) : option (Z * ecc_t) :=
  dm ← aset (data_memory ecc) offset byteToWrite;
  let ecc := {| data_memory := dm; code_memory := code_memory ecc |} in
  codeword ← get_codeword ecc offset;
  cm ← aset (code_memory ecc) offset codeword;
  Some (NO_ERROR, {| data_memory := data_memory ecc; code_memory := cm |}).

(** Returns the result code, the memory and the value of [*byteRead], which
    the function never assigns. *)
Definition read_byte (ecc : ecc_t) (offset byteRead : Z) : option (Z * ecc_t * Z) :=
  codeword ← get_codeword ecc offset;
  d ← aget (data_memory ecc) offset;
  c ← aget (code_memory ecc) offset;
  let SYNDROME := (codeword .& SYNBITS) .^ (c .& SYNBITS) in
  let pW := c .& PW_BIT in
  let pW2 := stored_parity d c in
  if (SYNDROME =? 0) && (pW =? pW2) then Some (NO_ERROR, ecc, byteRead)
  else if (SYNDROME =? 0) && negb (pW =? pW2) then
    cm ← aset (code_memory ecc) offset (c .| (pW2 .& PW_BIT));
    Some (PW_ERROR, {| data_memory := data_memory ecc; code_memory := cm |}, byteRead)
  else if negb (SYNDROME =? 0) && (pW =? pW2) then
    Some (DOUBLE_BIT_ERROR, ecc, byteRead)
  else if negb (SYNDROME =? 0) && negb (pW =? pW2) then
    Some (SYNDROME, ecc, byteRead)
  else Some (UNKNOWN_ERROR, ecc, byteRead).

(** The loop [for(idx=0; idx < MEM_SIZE; idx++) ecc->code_memory[idx]=0];
    the data memory is left as it was. *)
Definition enable_ecc_memory (ecc : ecc_t) : ecc_t :=
  {| data_memory := data_memory ecc;
     code_memory := replicate (Z.to_nat MEM_SIZE) 0 |}.

(** ** ecctest.c: fault injection *)

(** The memory bit that position [bit_to_flip] of the encoded word selects. *)
Inductive target := DataBit (k : Z) | ParityBit (k : Z).

Definition flip_target (bit_to_flip : Z) : option target :=
  match bit_to_flip with
  | 0 => Some (ParityBit 4) | 1 => Some (ParityBit 0) | 2 => Some (ParityBit 1)
  | 4 => Some (ParityBit 2) | 8 => Some (ParityBit 3)
  | 3 => Some (DataBit 0) | 5 => Some (DataBit 1) | 6 => Some (DataBit 2)
  | 7 => Some (DataBit 3) | 9 => Some (DataBit 4) | 10 => Some (DataBit 5)
  | 11 => Some (DataBit 6) | 12 => Some (DataBit 7)
  | _ => None
  end.

Definition flip_bit (ecc : ecc_t) (offset bit_to_flip : Z) : option ecc_t :=
  match flip_target bit_to_flip with
  | None => Some ecc
  | Some (DataBit k) =>
      byte ← aget (data_memory ecc) offset;
      dm ← aset (data_memory ecc) offset (u8 (byte .^ (1 .<< k)));
      Some {| data_memory := dm; code_memory := code_memory ecc |}
  | Some (ParityBit k) =>
      byte ← aget (code_memory ecc) offset;
      cm ← aset (code_memory ecc) offset (u8 (byte .^ (1 .<< k)));
      Some {| data_memory := data_memory ecc; code_memory := cm |}
  end.

(** ** ecclib.c: the printed forms (after the address prefix) *)

Definition bit_char (w mask : Z) : string := if w .& mask =? 0 then "0" else "1".

Open Scope string_scope.

Definition print_code_word (codeword : Z) : string :=
  bit_char codeword PW_BIT ++ bit_char codeword P01_BIT ++ bit_char codeword P02_BIT ++
  "_" ++ bit_char codeword P03_BIT ++ "___" ++ bit_char codeword P04_BIT ++ "____".

Definition print_data_word (dataword : Z) : string :=
  "___" ++ bit_char dataword DATA_BIT_1 ++ "_" ++ bit_char dataword DATA_BIT_2 ++
  bit_char dataword DATA_BIT_3 ++ bit_char dataword DATA_BIT_4 ++ "_" ++
  bit_char dataword DATA_BIT_5 ++ bit_char dataword DATA_BIT_6 ++
  bit_char dataword DATA_BIT_7 ++ bit_char dataword DATA_BIT_8 ++ "    => " ++
  bit_char dataword DATA_BIT_8 ++ bit_char dataword DATA_BIT_7 ++
  bit_char dataword DATA_BIT_6 ++ bit_char dataword DATA_BIT_5 ++ " " ++
  bit_char dataword DATA_BIT_4 ++ bit_char dataword DATA_BIT_3 ++
  bit_char dataword DATA_BIT_2 ++ bit_char dataword DATA_BIT_1.

Definition print_encoded (codeword dataword : Z) : string :=
  bit_char codeword PW_BIT ++ bit_char codeword P01_BIT ++ bit_char codeword P02_BIT ++
  bit_char dataword DATA_BIT_1 ++ bit_char codeword P03_BIT ++
  bit_char dataword DATA_BIT_2 ++ bit_char dataword DATA_BIT_3 ++
  bit_char dataword DATA_BIT_4 ++ bit_char codeword P04_BIT ++
  bit_char dataword DATA_BIT_5 ++ bit_char dataword DATA_BIT_6 ++
  bit_char dataword DATA_BIT_7 ++ bit_char dataword DATA_BIT_8.

Definition print_code (codeword : Z) : string :=
  bit_char codeword PW_BIT ++ bit_char codeword P01_BIT ++ bit_char codeword P02_BIT ++
  bit_char codeword P03_BIT ++ bit_char codeword P04_BIT.

Close Scope string_scope.

(** ** The memory as cells

    A cell is the pair of the data byte and the code byte at one offset; every
    operation acts on one cell. *)

Record wf (ecc : ecc_t) : Prop := {
  wf_data : Z.of_nat (length (data_memory ecc)) = MEM_SIZE;
  wf_code : Z.of_nat (length (code_memory ecc)) = MEM_SIZE }.

Definition put (ecc : ecc_t) (o d c : Z) : ecc_t :=
  {| data_memory := <[Z.to_nat o := d]> (data_memory ecc);
     code_memory := <[Z.to_nat o := c]> (code_memory ecc) |}.

#[global] Arguments put : simpl never.

Definition cell_read (d c : Z) : Z * Z :=
  let SYNDROME := (codeword_of d .& SYNBITS) .^ (c .& SYNBITS) in
  let pW := c .& PW_BIT in
  let pW2 := stored_parity d c in
  if SYNDROME =? 0 then
    if pW =? pW2 then (NO_ERROR, c) else (PW_ERROR, c .| (pW2 .& PW_BIT))
  else if pW =? pW2 then (DOUBLE_BIT_ERROR, c) else (SYNDROME, c).

Definition cell_flip (p : Z) (dc : Z * Z) : Z * Z :=
  match flip_target p with
  | None => dc
  | Some (DataBit k) => (u8 (dc.1 .^ (1 .<< k)), dc.2)
  | Some (ParityBit k) => (dc.1, u8 (dc.2 .^ (1 .<< k)))
  end.

Section cells.
Context (ecc : ecc_t) (o : Z) (Hwf : wf ecc) (Ho : 0 <= o < MEM_SIZE).

Lemma wf_put d c : wf (put ecc o d c).
Proof. destruct Hwf. split; simpl; by rewrite length_insert. Qed.

Lemma put_put d c d' c' : put (put ecc o d c) o d' c' = put ecc o d' c'.
Proof. unfold put; simpl. by rewrite !list_insert_insert_eq. Qed.

Lemma put_data d c : aget (data_memory (put ecc o d c)) o = Some d.
Proof.
  destruct Hwf. eapply aget_aset_eq with (l := data_memory ecc), aset_Some. lia.
Qed.

Lemma put_code d c : aget (code_memory (put ecc o d c)) o = Some c.
Proof.
  destruct Hwf. eapply aget_aset_eq with (l := code_memory ecc), aset_Some. lia.
Qed.

Lemma aset_data d c x :
  aset (data_memory (put ecc o d c)) o x = Some (data_memory (put ecc o x c)).
Proof.
  destruct Hwf. unfold put; simpl. rewrite aset_Some by (rewrite length_insert; lia).
  by rewrite list_insert_insert_eq.
Qed.

Lemma aset_code d c x :
  aset (code_memory (put ecc o d c)) o x = Some (code_memory (put ecc o d x)).
Proof.
  destruct Hwf. unfold put; simpl. rewrite aset_Some by (rewrite length_insert; lia).
  by rewrite list_insert_insert_eq.
Qed.

(** The write stores the byte and its code word in the cell. *)
Lemma write_byte_put b :
  write_byte ecc o b = Some (NO_ERROR, put ecc o b (codeword_of b)).
Proof.
  unfold write_byte, get_codeword. destruct Hwf as [Hd Hc].
  rewrite aset_Some by lia. simpl.
  change (<[Z.to_nat o:=b]> (data_memory ecc)) with (data_memory (put ecc o b 0)).
  rewrite put_data. simpl. by rewrite aset_Some by lia.
Qed.

(** The read classifies the cell and may rewrite its code byte. *)
Lemma read_byte_put d c r :
  read_byte (put ecc o d c) o r =
  Some ((cell_read d c).1, put ecc o d (cell_read d c).2, r).
Proof.
  unfold read_byte, get_codeword, cell_read.
  rewrite put_data, put_code.
  step_option. rewrite aset_code.
  destruct (_ =? 0), (_ =? stored_parity d c); done.
Qed.

Lemma flip_bit_put d c p :
  flip_bit (put ecc o d c) o p =
  Some (put ecc o (cell_flip p (d, c)).1 (cell_flip p (d, c)).2).
Proof.
  unfold flip_bit, cell_flip. destruct (flip_target p) as [[k | k] |]; [| | done].
  - rewrite put_data. step_option. by rewrite aset_data.
  - rewrite put_code. step_option. by rewrite aset_code.
Qed.
End cells.

(** ** The code at one cell, by evaluation *)

Definition byte_eq (p q : Z * Z) : bool := (p.1 =? q.1) && (p.2 =? q.2).

Lemma byte_eq_true p q : byte_eq p q = true -> p = q.
Proof.
  unfold byte_eq. intros [?%Z.eqb_eq ?%Z.eqb_eq]%andb_true_iff. by destruct p, q; simpl in *; subst.
Qed.

(** What [read_byte] must report for a cell with the positions [p] (and [q])
    flipped. *)
Definition single_code (p : Z) : Z := if p =? 0 then PW_ERROR else p.

Lemma cell_clean d : byte d -> cell_read d (codeword_of d) = (NO_ERROR, codeword_of d).
Proof.
  intros Hd. apply byte_eq_true. revert d Hd.
  by apply (forallb_seqZ
    (fun d => byte_eq (cell_read d (codeword_of d)) (NO_ERROR, codeword_of d))).
Qed.

Lemma cell_single d p :
  byte d -> 0 <= p <= 12 ->
  let dc := cell_flip p (d, codeword_of d) in
  (cell_read dc.1 dc.2).1 = single_code p /\
  (p <> 0 -> (cell_read dc.1 dc.2).2 = dc.2) /\
  cell_flip p dc = (d, codeword_of d).
Proof.
  intros Hd Hp dc.
  pose (ok := fun d p =>
    let dc := cell_flip p (d, codeword_of d) in
    ((cell_read dc.1 dc.2).1 =? single_code p) &&
    ((p =? 0) || ((cell_read dc.1 dc.2).2 =? dc.2)) &&
    byte_eq (cell_flip p dc) (d, codeword_of d)).
  assert (H : ok d p = true).
  { apply (forallb_seqZ (ok d) 13); [| lia]. revert d Hd dc.
    apply (forallb_seqZ (fun d => forallb (ok d) (seqZ 0 13)) 256). by vm_compute. }
  unfold ok in H. fold dc in H.
  apply andb_true_iff in H as [[H1%Z.eqb_eq H2]%andb_true_iff H3%byte_eq_true].
  repeat split; [done | | done]. intros Hne.
  apply orb_true_iff in H2 as [?%Z.eqb_eq | ?%Z.eqb_eq]; done.
Qed.

Lemma cell_double d p q :
  byte d -> 0 <= p -> p < q <= 12 ->
  let dc := cell_flip q (cell_flip p (d, codeword_of d)) in
  cell_read dc.1 dc.2 = (DOUBLE_BIT_ERROR, dc.2).
Proof.
  intros Hd Hp Hq dc.
  pose (ok := fun d p q =>
    let dc := cell_flip q (cell_flip p (d, codeword_of d)) in
    (q <=? p) || byte_eq (cell_read dc.1 dc.2) (DOUBLE_BIT_ERROR, dc.2)).
  assert (H : ok d p q = true).
  { apply (forallb_seqZ (ok d p) 13); [| lia].
    apply (forallb_seqZ (fun p => forallb (ok d p) (seqZ 0 13)) 13); [| lia].
    revert d Hd dc.
    apply (forallb_seqZ
      (fun d => forallb (fun p => forallb (ok d p) (seqZ 0 13)) (seqZ 0 13)) 256).
    by vm_compute. }
  unfold ok in H. fold dc in H.
  apply orb_true_iff in H as [?%Z.leb_le | H%byte_eq_true]; [lia | done].
Qed.

(** ** Properties *)

Section properties.
Context (ecc : ecc_t) (o b r : Z) (Hwf : wf ecc) (Ho : 0 <= o < MEM_SIZE) (Hb : byte b).

Lemma put_frame d c j :
  j <> o ->
  aget (data_memory (put ecc o d c)) j = aget (data_memory ecc) j /\
  aget (code_memory (put ecc o d c)) j = aget (code_memory ecc) j.
Proof using Hwf Ho.
  intros Hj. destruct Hwf.
  split; (eapply aget_aset_ne; [apply aset_Some; lia | done]).
Qed.

Lemma pw_flip_cell : cell_flip 0 (b, codeword_of b) = (b, codeword_of b .^ PW_BIT).
Proof using Hb.
  unfold cell_flip; simpl. f_equal. revert b Hb.
  assert (H : forall d, byte d ->
    (u8 (codeword_of d .^ 16) =? codeword_of d .^ PW_BIT) = true).
  { by apply (forallb_seqZ (fun d => u8 (codeword_of d .^ 16) =? codeword_of d .^ PW_BIT)). }
  intros d Hd. by apply Z.eqb_eq, H.
Qed.

Lemma pw_read_cell :
  cell_read b (codeword_of b .^ PW_BIT) =
  (PW_ERROR, if codeword_of b .& PW_BIT =? 0 then codeword_of b .^ PW_BIT
             else codeword_of b).
Proof using Hb.
  apply byte_eq_true. revert b Hb.
  by apply (forallb_seqZ (fun b => byte_eq (cell_read b (codeword_of b .^ PW_BIT))
    (PW_ERROR, if codeword_of b .& PW_BIT =? 0 then codeword_of b .^ PW_BIT
               else codeword_of b))).
Qed.
End properties.

(** Reading back a byte just written reports NO_ERROR and changes nothing;
    the write stores the byte and touches no other location. *)
Theorem write_read_no_error ecc o b r :
  wf ecc -> 0 <= o < MEM_SIZE -> byte b ->
  exists ecc1, write_byte ecc o b = Some (NO_ERROR, ecc1) /\
    read_byte ecc1 o r = Some (NO_ERROR, ecc1, r) /\
    aget (data_memory ecc1) o = Some b /\
    forall j, j <> o -> aget (data_memory ecc1) j = aget (data_memory ecc) j /\
                        aget (code_memory ecc1) j = aget (code_memory ecc) j.
Proof.
  intros Hwf Ho Hb. exists (put ecc o b (codeword_of b)).
  rewrite write_byte_put, read_byte_put, cell_clean, put_data by done.
  repeat split; by apply put_frame.
Qed.

(** A memory for the witnesses: all bytes zero. *)
Definition zero_ecc : ecc_t :=
  enable_ecc_memory {| data_memory := replicate 1024 0; code_memory := [] |}.

Lemma zero_ecc_wf : wf zero_ecc.
Proof. by split. Qed.

Lemma write_read_no_error_witness :
  exists ecc1, write_byte zero_ecc 7 0xAB = Some (NO_ERROR, ecc1).
Proof.
  destruct (write_read_no_error zero_ecc 7 0xAB 0) as (e & H & _);
    [apply zero_ecc_wf | unfold MEM_SIZE; lia | by vm_compute | by exists e].
Defined.

(** C3: after a single fault anywhere in the encoded word of a written byte
    (position 0 is the overall parity bit, 1..12 the Hamming word), the read
    reports PW_ERROR for position 0 and the faulty position otherwise, leaves
    the memory alone in the latter case, and flipping the faulty position in the
    memory as it was before the read restores the written memory.  (For
    position 0 the read may itself have set the parity bit.) *)
Theorem single_error_located ecc o b r p :
  wf ecc -> 0 <= o < MEM_SIZE -> byte b -> 0 <= p <= 12 ->
  exists ecc1 ecc2 ecc3, write_byte ecc o b = Some (NO_ERROR, ecc1) /\
    flip_bit ecc1 o p = Some ecc2 /\
    read_byte ecc2 o r = Some (if p =? 0 then PW_ERROR else p, ecc3, r) /\
    (p <> 0 -> ecc3 = ecc2) /\ flip_bit ecc2 o p = Some ecc1.
Proof.
  intros Hwf Ho Hb Hp. destruct (cell_single b p Hb Hp) as (H1 & H2 & H3).
  do 3 eexists. rewrite write_byte_put by done.
  split; [done |]. rewrite flip_bit_put by done. split; [done |].
  rewrite read_byte_put, H1, flip_bit_put by done. split; [done |].
  split.
  - intros Hne. by rewrite H2.
  - by rewrite <- surjective_pairing, H3.
Qed.

Lemma single_error_located_witness :
  exists e1 e2 e3, write_byte zero_ecc 3 0x5A = Some (NO_ERROR, e1) /\
    flip_bit e1 3 10 = Some e2 /\ read_byte e2 3 0 = Some (10, e3, 0).
Proof.
  destruct (single_error_located zero_ecc 3 0x5A 0 10) as (e1 & e2 & e3 & H1 & H2 & H3 & _);
    [apply zero_ecc_wf | unfold MEM_SIZE; lia | by vm_compute | lia | by exists e1, e2, e3].
Defined.

(** C4: any two faults in the encoded word of a written byte are reported as
    DOUBLE_BIT_ERROR and the memory is left as it was. *)
Theorem double_error_detected ecc o b r p q :
  wf ecc -> 0 <= o < MEM_SIZE -> byte b -> 0 <= p -> p < q <= 12 ->
  exists ecc1 ecc2 ecc3, write_byte ecc o b = Some (NO_ERROR, ecc1) /\
    flip_bit ecc1 o p = Some ecc2 /\ flip_bit ecc2 o q = Some ecc3 /\
    read_byte ecc3 o r = Some (DOUBLE_BIT_ERROR, ecc3, r).
Proof.
  intros Hwf Ho Hb Hp Hq. pose proof (cell_double b p q Hb Hp Hq) as H. simpl in H.
  do 3 eexists. rewrite write_byte_put by done. split; [done |].
  rewrite flip_bit_put by done. split; [done |].
  rewrite flip_bit_put by done. split; [done |].
  by rewrite <- surjective_pairing, read_byte_put, H by done.
Qed.

Lemma double_error_detected_witness :
  exists e1 e2 e3, write_byte zero_ecc 0 0xCC = Some (NO_ERROR, e1) /\
    flip_bit e1 0 0 = Some e2 /\ flip_bit e2 0 12 = Some e3 /\
    read_byte e3 0 0 = Some (DOUBLE_BIT_ERROR, e3, 0).
Proof.
  apply double_error_detected;
    [apply zero_ecc_wf | unfold MEM_SIZE; lia | by vm_compute | lia | lia].
Defined.

(** A fault of the overall parity bit is always reported as PW_ERROR, but
    the repair only works in one direction: the read restores the written
    memory exactly when the parity bit of the code word is one, since the
    repair can set the bit and never clear it. *)
Theorem pw_repair_only_sets ecc o b r :
  wf ecc -> 0 <= o < MEM_SIZE -> byte b ->
  exists ecc1 ecc2 ecc3, write_byte ecc o b = Some (NO_ERROR, ecc1) /\
    flip_bit ecc1 o 0 = Some ecc2 /\ read_byte ecc2 o r = Some (PW_ERROR, ecc3, r) /\
    (if codeword_of b .& PW_BIT =? 0 then ecc3 = ecc2 /\ ecc3 <> ecc1 else ecc3 = ecc1).
Proof.
  intros Hwf Ho Hb. do 3 eexists. rewrite write_byte_put by done. split; [done |].
  rewrite flip_bit_put, pw_flip_cell by done. split; [done |]. simpl fst; simpl snd.
  rewrite read_byte_put, pw_read_cell by done. split; [done |]. simpl snd.
  case_match; [| done]. split; [done |]. intros Heq.
  assert (Hc : codeword_of b .^ PW_BIT = codeword_of b).
  { pose proof (put_code ecc o Hwf Ho b (codeword_of b)) as Hp.
    rewrite <- Heq, put_code in Hp by done. by injection Hp. }
  apply (f_equal (fun z => Z.testbit z 4)) in Hc.
  rewrite Z.lxor_spec in Hc. by destruct (Z.testbit (codeword_of b) 4).
Qed.

Lemma pw_repair_only_sets_witness :
  exists e1 e2 e3, write_byte zero_ecc 0 0xAB = Some (NO_ERROR, e1) /\
    flip_bit e1 0 0 = Some e2 /\ read_byte e2 0 0 = Some (PW_ERROR, e3, 0) /\ e3 <> e1.
Proof.
  destruct (pw_repair_only_sets zero_ecc 0 0xAB 0) as (e1 & e2 & e3 & H1 & H2 & H3 & _ & H5);
    [apply zero_ecc_wf | unfold MEM_SIZE; lia | by vm_compute | by exists e1, e2, e3].
Defined.

(** Whatever the memory holds, a read never corrects: it leaves the data
    memory and the caller's byte as they were, and returns neither
    SINGLE_BIT_ERROR_CORRECTED nor UNKNOWN_ERROR. *)
Theorem read_byte_effect ecc o r rc ecc' r' :
  read_byte ecc o r = Some (rc, ecc', r') ->
  r' = r /\ data_memory ecc' = data_memory ecc /\
  (rc = NO_ERROR \/ rc = PW_ERROR \/ rc = DOUBLE_BIT_ERROR \/ 0 < rc).
Proof.
  unfold read_byte. destruct (get_codeword ecc o) as [cw |]; [| done].
  destruct (aget (data_memory ecc) o) as [d |]; [| done].
  destruct (aget (code_memory ecc) o) as [c |]; [| done]. step_option.
  set (s := (_ .^ _)). set (pw2 := stored_parity d c).
  assert (0 <= s) as Hs by (apply Z.lxor_nonneg; split; intros _; apply Z.land_nonneg; by right).
  destruct (Z.eqb_spec s 0), (Z.eqb_spec (c .& PW_BIT) pw2); simpl.
  1,3,4: intros [= <- <- <-]; repeat split; auto; right; right; right; lia.
  destruct (aset _ _ _); [| done]. simpl. intros [= <- <- <-]. auto.
Qed.

Lemma read_byte_effect_witness :
  exists rc e r, read_byte zero_ecc 5 9 = Some (rc, e, r) /\ r = 9.
Proof.
  destruct (read_byte zero_ecc 5 9) as [[[rc e] r] |] eqn:H; [| by vm_compute in H].
  exists rc, e, r. split; [done |]. by destruct (read_byte_effect _ _ _ _ _ _ H).
Defined.
