(* ===== verification/Lcm.v ===== *)
(** * Greatest common divisor and least common multiple: lcm/lcmc.c

    Division, remainder and the Euclidean algorithm by repeated subtraction on
    [int]s.  A signed overflow is undefined; the loops take fuel, and the
    theorems say how much is enough and when no fuel is. *)
From S2P Require Import Prelude.

(** An [int] result, undefined when it does not fit. *)
Definition int_of (z : Z) : outcome Z := if in_int z then Ret z else Undef.

Fixpoint gcfc (fuel : nat) (a b : Z) : outcome Z :=
  match fuel with
  | O => NoFuel
  | S fuel =>
      if a =? b then Ret a
      else if b <? a then a ← int_of (a - b); gcfc fuel a b
      else b ← int_of (b - a); gcfc fuel a b
  end.

Fixpoint divide_loop (fuel : nat) (b r cnt : Z) : outcome Z :=
  match fuel with
  | O => NoFuel
  | S fuel =>
      if b <=? r then
        r ← int_of (r - b); cnt ← int_of (cnt + 1); divide_loop fuel b r cnt
      else Ret cnt
  end.

Definition divide (fuel : nat) (a b : Z) : outcome Z := divide_loop fuel b a 0.

Fixpoint remain (fuel : nat) (r b : Z) : outcome Z :=
  match fuel with
  | O => NoFuel
  | S fuel => if b <=? r then r ← int_of (r - b); remain fuel r b else Ret r
  end.

Definition lcmc (fuel : nat) (a b : Z) : outcome Z :=
  prod ← int_of (a * b);
  g ← gcfc fuel a b;
  divide fuel prod g.

(** The values of lcmwrapper.c. *)
Example lcmc_wrapper : lcmc 3000 146 18 = Ret 1314.
Proof. vm_compute. reflexivity. Qed.

Lemma int_of_Ret z : INT_MIN <= z <= INT_MAX -> int_of z = Ret z.
Proof. intros H. unfold int_of, in_int. by rewrite !(proj2 (Z.leb_le _ _)) by lia. Qed.

Lemma int_of_Undef z : z < INT_MIN \/ INT_MAX < z -> int_of z = Undef.
Proof. intros H. unfold int_of, in_int, INT_MIN, INT_MAX in *. repeat zcase; done || lia. Qed.

(** The subtractions keep the common divisors, and their sum falls. *)
Lemma gcfc_gcd fuel a b :
  0 < a <= INT_MAX -> 0 < b <= INT_MAX -> a + b <= Z.of_nat fuel -> gcfc fuel a b = Ret (Z.gcd a b).
Proof.
  revert a b. induction fuel as [|fuel IH]; intros a b Ha Hb Hf; [lia|]. cbn [gcfc].
  unfold INT_MAX in *. destruct (Z.eqb_spec a b) as [->|Hne]; [by rewrite Z.gcd_diag, Z.abs_eq by lia|].
  destruct (Z.ltb_spec b a); rewrite int_of_Ret by (unfold INT_MIN, INT_MAX; lia); step_run;
    rewrite IH by lia.
  - by rewrite Z.gcd_comm, Z.gcd_sub_diag_r, Z.gcd_comm.
  - by rewrite Z.gcd_sub_diag_r.
Qed.

Lemma divide_loop_div fuel b : forall r cnt,
  0 < b -> 0 <= r <= INT_MAX -> 0 <= cnt -> cnt + r <= INT_MAX -> r / b < Z.of_nat fuel ->
  divide_loop fuel b r cnt = Ret (cnt + r / b).
Proof.
  induction fuel as [|fuel IH]; intros r cnt Hb Hr Hc Hcr Hf.
  { pose proof (Z.div_pos r b). lia. }
  cbn [divide_loop]. unfold INT_MAX in *. destruct (Z.leb_spec b r) as [Hle|Hlt].
  - rewrite !int_of_Ret by (unfold INT_MIN, INT_MAX; lia). step_run.
    assert (r / b = (r - b) / b + 1) as Hdiv.
    { replace r with (r - b + 1 * b) at 1 by lia. by rewrite Z.div_add by lia. }
    rewrite IH by lia. rewrite Hdiv. f_equal. lia.
  - by rewrite Z.div_small, Z.add_0_r by lia.
Qed.

Lemma remain_mod fuel b : forall r,
  0 < b -> 0 <= r <= INT_MAX -> r / b < Z.of_nat fuel -> remain fuel r b = Ret (r mod b).
Proof.
  induction fuel as [|fuel IH]; intros r Hb Hr Hf.
  { pose proof (Z.div_pos r b). lia. }
  cbn [remain]. unfold INT_MAX in *. destruct (Z.leb_spec b r) as [Hle|Hlt].
  - rewrite int_of_Ret by (unfold INT_MIN, INT_MAX; lia). step_run.
    assert (r / b = (r - b) / b + 1) as Hdiv.
    { replace r with (r - b + 1 * b) at 1 by lia. by rewrite Z.div_add by lia. }
    rewrite IH by lia. f_equal. replace r with (r - b + 1 * b) at 2 by lia.
    by rewrite Z.mod_add by lia.
  - by rewrite Z.mod_small by lia.
Qed.

(** Zero is never reached by subtracting zero. *)
Lemma gcfc_zero fuel b : 0 < b <= INT_MAX -> gcfc fuel 0 b = NoFuel /\ gcfc fuel b 0 = NoFuel.
Proof.
  intros Hb. unfold INT_MAX in Hb.
  induction fuel as [|fuel [IH1 IH2]]; [done|]. cbn [gcfc].
  rewrite (proj2 (Z.eqb_neq 0 b)), (proj2 (Z.eqb_neq b 0)) by lia.
  rewrite (proj2 (Z.ltb_ge b 0)), (proj2 (Z.ltb_lt 0 b)), Z.sub_0_r by lia.
  rewrite int_of_Ret by (unfold INT_MIN, INT_MAX; lia). by step_run.
Qed.

(** For positive [int]s, [divide] and [remain] are quotient and remainder,
    [gcfc] is the greatest common divisor, and [lcmc] is the least common
    multiple when the product fits in an [int] and undefined when it does
    not, even if the multiple itself would fit; with a zero argument the loop
    of [gcfc] does not end. *)
Theorem lcmc_correct (a b : Z) (fuel : nat) :
  0 < a <= INT_MAX -> 0 < b <= INT_MAX -> Z.max (a + b) (a * b + 1) <= Z.of_nat fuel ->
  gcfc fuel a b = Ret (Z.gcd a b) /\ divide fuel a b = Ret (a / b) /\ remain fuel a b = Ret (a mod b) /\
  (a * b <= INT_MAX -> lcmc fuel a b = Ret (Z.lcm a b)) /\
  (INT_MAX < a * b -> lcmc fuel a b = Undef) /\
  gcfc fuel 0 b = NoFuel /\ gcfc fuel a 0 = NoFuel.
Proof.
  intros Ha Hb Hf. assert (a / b <= a) by (apply Z.div_le_upper_bound; nia).
  assert (a <= a * b) by nia. set (d := a / b) in *.
  split; [apply gcfc_gcd; lia|]. split; [|split; [|split; [|split; [|split]]]].
  - unfold divide. rewrite divide_loop_div by (fold d; lia). done.
  - apply remain_mod; fold d; lia.
  - intros Hab. unfold lcmc, divide. rewrite int_of_Ret by (unfold INT_MIN; lia). step_run.
    rewrite gcfc_gcd by lia. step_run.
    assert (0 < Z.gcd a b) as Hg.
    { pose proof (Z.gcd_nonneg a b). destruct (Z.eq_dec (Z.gcd a b) 0) as [E|]; [|lia].
      apply Z.gcd_eq_0_l in E. lia. }
    assert (a * b / Z.gcd a b <= a * b) by (apply Z.div_le_upper_bound; nia).
    rewrite divide_loop_div by lia. f_equal. rewrite Z.add_0_l. unfold Z.lcm.
    rewrite Z.abs_eq.
    + rewrite Z.divide_div_mul_exact; [done|lia|apply Z.gcd_divide_r].
    + apply Z.mul_nonneg_nonneg; [lia|]. apply Z.div_pos; lia.
  - intros Hab. unfold lcmc. rewrite int_of_Undef by lia. done.
  - by apply gcfc_zero.
  - by apply gcfc_zero.
Qed.

Lemma lcmc_correct_witness : lcmc 3000 146 18 = Ret (Z.lcm 146 18) /\ remain 3000 146 18 = Ret 2.
Proof.
  destruct (lcmc_correct 146 18 3000) as (_ & _ & Hr & Hl & _);
    [unfold INT_MAX; lia..|lia|]. split; [apply Hl; unfold INT_MAX; lia|exact Hr].
Defined.
