(* ===== verification/Sieve.v ===== *)
(** * The threaded sieve: erastothenes_pthreads/erast.c

    A bit per number in an array of bytes; for each prime four threads clear
    its multiples, each test-and-set of a byte under a semaphore.  The bytes
    of the array are unsigned chars, [MAX] and the indices [unsigned long
    long].  The atomic updates of the threads of one round are the elements of
    their index lists, and a scheduler picks the order in which they happen,
    so the theorems hold for every interleaving.  [MAX] is a parameter; the
    program's value is [MAX_value]. *)
From Stdlib Require Import Znumtheory.
From stdpp Require Import option list sets.
From S2P Require Import Prelude.
#[local] Open Scope Z_scope.

Definition NUM_THREADS : Z := 4.
Definition MAX_value : Z := 4000000.
Definition CODE_LENGTH : Z := 8.

(** ** The packed bits *)

Definition chk_isprime (isprime : list Z) (i : Z) : option bool :=
  b ← aget isprime (i / CODE_LENGTH);
  Some (0 <? b .& (1 .<< (i mod CODE_LENGTH))).

(** The update between [sem_wait] and [sem_post]. *)
Definition set_isprime (isprime : list Z) (i val : Z) : option (list Z) :=
  let idx := i / CODE_LENGTH in
  let bitpos := i mod CODE_LENGTH in
  b ← aget isprime idx;
  aset isprime idx (u8 (if 0 <? val then b .| (1 .<< bitpos) else b .& Z.lnot (1 .<< bitpos))).

(** ** The rounds *)

Section sieve.
Context (MAX : Z).

(** The indices that [invalidate_thread] clears, from [j] on. *)
Fixpoint invalidate_indices (fuel : nat) (thread_idx p j : Z) : outcome (list Z) :=
  match fuel with
  | O => NoFuel
  | S fuel =>
      if j <? u64 (MAX + 1) then
        if u64 (MAX + 1) <? u64 (j + u64 (thread_idx * p)) then Ret []
        else
          rest ← invalidate_indices fuel thread_idx p (u64 (j + u64 (NUM_THREADS * p)));
          Ret (u64 (j + u64 (thread_idx * p)) :: rest)
      else Ret []
  end.

Definition invalidate_thread (fuel : nat) (thread_idx p : Z) : outcome (list Z) :=
  invalidate_indices fuel thread_idx p (u64 (2 * p)).

(** The permutation of thread indices computed by [main]'s loop over pairs. *)
Definition threadID : list Z := flat_map (fun k => [NUM_THREADS - 1 - 2 * k; 2 * k]) (seqZ 0 2).

(** Clear the given bits one after the other. *)
Fixpoint clear_all (isprime : list Z) (js : list Z) : option (list Z) :=
  match js with
  | [] => Some isprime
  | j :: js => isprime ← set_isprime isprime j 0; clear_all isprime js
  end.

(** One round: the four threads; [schedule] orders their updates. *)
Definition invalidate (fuel : nat) (schedule : list Z -> list Z) (p : Z) (isprime : list Z)
    : outcome (list Z) :=
  lists ← for_loop (length threadID) 0 (fun t acc =>
    l ← invalidate_thread fuel (elt threadID t) p; Ret (acc ++ l)) [];
  lift (clear_all isprime (schedule lists)).

(** [for(j=p+1; j<MAX+1; j++) if(chk_isprime(j)) { p=j; break; }] *)
Fixpoint next_p (fuel : nat) (isprime : list Z) (p j : Z) : outcome Z :=
  match fuel with
  | O => NoFuel
  | S fuel =>
      if j <? u64 (MAX + 1) then
        b ← lift (chk_isprime isprime j);
        if b : bool then Ret j else next_p fuel isprime p (u64 (j + 1))
      else Ret p
  end.

(** The [while] loop; [schedule p] orders the updates of the round of [p]. *)
Fixpoint rounds (fuel : nat) (schedule : Z -> list Z -> list Z) (p : Z) (isprime : list Z)
    : outcome (list Z) :=
  match fuel with
  | O => NoFuel
  | S fuel' =>
      if u64 (p * p) <=? MAX then
        isprime ← invalidate fuel (schedule p) p isprime;
        p ← next_p fuel isprime p (u64 (p + 1));
        rounds fuel' schedule p isprime
      else Ret isprime
  end.

(** [isprime[0]=0xFC], then every number from 2 below MAX is set. *)
Definition init_isprime (isprime : list Z) : option (list Z) :=
  isprime ← aset isprime 0 0xFC;
  for_loop (Z.to_nat (MAX - 2)) 2 (fun i isprime => set_isprime isprime (Z.of_nat i) 1) isprime.

Definition count_primes (isprime : list Z) : option Z :=
  for_loop (Z.to_nat (MAX + 1)) 0 (fun i cnt =>
    b ← chk_isprime isprime (Z.of_nat i); Some (if b : bool then u32 (cnt + 1) else cnt)) 0.

(** [main], on the memory [malloc] returned; the final array and [cnt]. *)
Definition main (fuel : nat) (schedule : Z -> list Z -> list Z) (memory : list Z)
    : outcome (list Z * Z) :=
  isprime ← lift (init_isprime memory);
  isprime ← rounds fuel schedule 2 isprime;
  cnt ← lift (count_primes isprime);
  Ret (isprime, cnt).
End sieve.

(** 25 primes up to 100. *)
Example main_100 : (r ← main 100 100 (fun _ l => l) (replicate 13 0xFF); Ret (snd r)) = Ret 25.
Proof. vm_compute. reflexivity. Qed.

(** ** Bits *)

Definition bit (isprime : list Z) (i : Z) : bool :=
  Z.testbit (elt isprime (Z.to_nat (i / 8))) (i mod 8).

(** An index inside the array. *)
Definition inside (isprime : list Z) (i : Z) : Prop :=
  0 <= i /\ i / 8 < Z.of_nat (length isprime).

Lemma aget_elt_Z (l : list Z) i :
  0 <= i < Z.of_nat (length l) -> aget l i = Some (elt l (Z.to_nat i)).
Proof. intros Hi. unfold aget. rewrite (proj2 (Z.leb_le 0 i)) by lia. apply elt_Some. lia. Qed.

Lemma elt_insert_eq (l : list Z) i x : (i < length l)%nat -> elt (<[i := x]> l) i = x.
Proof. intros Hi. unfold elt. by rewrite list_lookup_insert_eq. Qed.

Lemma elt_insert_ne (l : list Z) i j x : j <> i -> elt (<[i := x]> l) j = elt l j.
Proof. intros Hij. unfold elt. by rewrite list_lookup_insert_ne. Qed.

Lemma inside_index isprime i : inside isprime i -> 0 <= i / 8 < Z.of_nat (length isprime).
Proof. intros [Hi Hl]. split; [apply Z.div_pos; lia|done]. Qed.

Lemma land_mask_bit b k : 0 <= k -> (0 <? b .& (1 .<< k)) = Z.testbit b k.
Proof.
  intros Hk. rewrite Z.shiftl_1_l, land_pow2 by done.
  destruct (Z.testbit b k); [|done]. apply Z.ltb_lt. by apply Z.pow_pos_nonneg.
Qed.

Lemma chk_isprime_bit isprime i : inside isprime i -> chk_isprime isprime i = Some (bit isprime i).
Proof.
  intros Hi%inside_index. unfold chk_isprime, CODE_LENGTH. rewrite aget_elt_Z by done.
  cbn [mbind option_bind]. unfold bit. rewrite land_mask_bit; [done|]. apply Z.mod_pos_bound. lia.
Qed.

Lemma same_bit i j : 0 <= i -> 0 <= j -> Z.to_nat (i / 8) = Z.to_nat (j / 8) -> i mod 8 = j mod 8 -> i = j.
Proof.
  intros Hi Hj Hq Hr. assert (0 <= i / 8 /\ 0 <= j / 8) as [? ?] by (split; apply Z.div_pos; lia).
  rewrite (Z.div_mod i 8), (Z.div_mod j 8) by lia. assert (i / 8 = j / 8) by lia. lia.
Qed.

Lemma set_isprime_bit isprime i val :
  inside isprime i ->
  exists isprime', set_isprime isprime i val = Some isprime' /\
    length isprime' = length isprime /\
    forall j, 0 <= j -> bit isprime' j = if j =? i then 0 <? val else bit isprime j.
Proof.
  intros Hin. pose proof (inside_index _ _ Hin) as Hi. destruct Hin as [Hi0 _].
  unfold set_isprime, CODE_LENGTH. rewrite aget_elt_Z by done. cbn [mbind option_bind].
  pose proof (Z.mod_pos_bound i 8 ltac:(lia)) as Hb.
  rewrite aset_Some by done. eexists. split; [reflexivity|]. split; [apply length_insert|].
  intros j Hj. pose proof (Z.mod_pos_bound j 8 ltac:(lia)) as Hbj. unfold bit.
  destruct (decide (Z.to_nat (j / 8) = Z.to_nat (i / 8))) as [Heq|Hne].
  - rewrite Heq, elt_insert_eq by lia.
    rewrite wrap_testbit, (proj2 (Z.ltb_lt (j mod 8) 8)) by lia. cbn [andb].
    assert (Z.testbit (1 .<< (i mod 8)) (j mod 8) = (j =? i)) as Hbit.
    { rewrite Z.shiftl_1_l, Z.pow2_bits_eqb by lia. destruct (Z.eqb_spec j i) as [->|Hji].
      - apply Z.eqb_refl.
      - apply Z.eqb_neq. intros Hm. apply Hji. symmetry. by apply same_bit. }
    destruct (0 <? val).
    + rewrite Z.lor_spec, Hbit. destruct (j =? i); [apply orb_true_r|apply orb_false_r].
    + rewrite Z.land_spec, Z.lnot_spec, Hbit by lia.
      destruct (j =? i); [apply andb_false_r|apply andb_true_r].
  - rewrite elt_insert_ne by done. destruct (Z.eqb_spec j i) as [->|]; done.
Qed.

(** The bits cleared do not depend on the order of the updates. *)
Lemma clear_all_bit js : forall isprime,
  (forall j, j ∈ js -> inside isprime j) ->
  exists isprime', clear_all isprime js = Some isprime' /\ length isprime' = length isprime /\
    forall i, 0 <= i -> bit isprime' i = bit isprime i && negb (bool_decide (i ∈ js)).
Proof.
  induction js as [|j js IH]; intros isprime Hin.
  - exists isprime. repeat split; [done..|]. intros i Hi. by rewrite andb_true_r.
  - cbn [clear_all].
    destruct (set_isprime_bit isprime j 0) as (a1 & -> & Hl1 & Hb1); [apply Hin; set_solver|].
    cbn [mbind option_bind]. destruct (IH a1) as (a2 & -> & Hl2 & Hb2).
    { intros i Hi. unfold inside. rewrite Hl1. apply Hin. set_solver. }
    exists a2. split; [done|]. split; [congruence|]. intros i Hi. rewrite Hb2, Hb1 by done.
    change (0 <? 0) with false. destruct (Z.eqb_spec i j) as [->|Hne].
    + rewrite (bool_decide_eq_true_2 (j ∈ j :: js)) by set_solver. by rewrite andb_false_r.
    + f_equal. f_equal. apply bool_decide_ext. set_solver.
Qed.

(** ** Divisors *)

Lemma prime_le_2 p : prime p -> 2 <= p.
Proof. intros [Hp _]. lia. Qed.

Lemma prime_divide_prime p q : prime p -> prime q -> (p | q) -> p = q.
Proof.
  intros Hp [Hq1 Hq]%prime_alt Hd. pose proof (prime_le_2 p Hp).
  destruct (Z.eq_dec p q); [done|]. destruct (Hq p); [|done].
  apply Z.divide_pos_le in Hd; lia.
Qed.

#[export] Instance prime_decision p : Decision (prime p) := prime_dec p.

(** A composite number has a prime divisor up to its square root. *)
Lemma prime_divisor n : 2 <= n -> ~ prime n -> exists d, prime d /\ (d | n) /\ d * d <= n.
Proof.
  intros Hn. assert (0 <= n) as H0 by lia. revert Hn. pattern n.
  apply Z_lt_induction; [|exact H0]. clear n H0. intros n IH Hn Hnp. destruct (not_prime_divide n ltac:(lia) Hnp) as (m & Hm & [k Hk]).
  assert (1 < k < n) as Hk1 by nia.
  assert (exists s, 1 < s < n /\ (s | n) /\ s * s <= n) as (s & Hs & Hsn & Hss).
  { destruct (Z.le_gt_cases m k).
    - exists m. split; [lia|]. split; [by exists k|nia].
    - exists k. split; [lia|]. split; [exists m; lia|nia]. }
  destruct (prime_dec s) as [Hp|Hnp']; [by exists s|].
  destruct (IH s ltac:(lia) ltac:(lia) Hnp') as (d & Hd & Hds & Hdd).
  exists d. split; [done|]. split; [by apply Z.divide_trans with s|nia].
Qed.

(** ** The program *)

Section correct.
Context (MAX : Z).
Hypothesis HMAX : 4 <= MAX < 2 ^ 31.
(** The index [MAX + 1], which a thread may clear, is inside the array. *)
Hypothesis Hlast : MAX mod 8 <> 7.
(** The bit of [MAX] itself is never set. *)
Hypothesis Hcomposite : ~ prime MAX.

Definition array_ok (isprime : list Z) : Prop := length isprime = Z.to_nat (MAX / 8 + 1).

Lemma inside_ok isprime i : array_ok isprime -> 0 <= i <= MAX + 1 -> inside isprime i.
Proof using HMAX Hlast.
  intros Hl Hi. split; [lia|]. rewrite Hl.
  assert (0 <= MAX / 8) by (apply Z.div_pos; lia). rewrite Z2Nat.id by lia.
  assert (i / 8 <= (MAX + 1) / 8) by (apply Z.div_le_mono; lia).
  assert ((MAX + 1) / 8 = MAX / 8); [|lia].
  clear - Hlast HMAX. Z.to_euclidean_division_equations. lia.
Qed.

(** The indices of one thread. *)
Lemma invalidate_indices_spec fuel t p : forall j,
  2 <= p <= MAX -> 0 <= t < 4 -> 0 <= j <= 2 ^ 35 -> 1 <= Z.of_nat fuel ->
  MAX + 1 - j < Z.of_nat fuel ->
  exists l, invalidate_indices MAX fuel t p j = Ret l /\
    forall x, x ∈ l <-> exists k, 0 <= k /\ x = j + 4 * k * p + t * p /\
                                j + 4 * k * p <= MAX /\ x <= MAX + 1.
Proof using HMAX.
  clear Hlast Hcomposite.
  induction fuel as [|fuel IH]; intros j Hp Ht Hj Hf1 Hf; [lia|].
  cbn [invalidate_indices]. unfold NUM_THREADS.
  assert (0 <= t * p <= 3 * MAX) by nia.
  rewrite (wrap_small 64 (MAX + 1)), (wrap_small 64 (t * p)), (wrap_small 64 (j + t * p))
    by (unfold in_range; lia).
  destruct (Z.ltb_spec j (MAX + 1)) as [Hlt|Hge].
  2: { exists []. split; [done|]. intros x. split; [set_solver|]. intros (k & Hk & _ & Hle & _). nia. }
  destruct (Z.ltb_spec (MAX + 1) (j + t * p)) as [Hgt|Hle].
  { exists []. split; [done|]. intros x. split; [set_solver|]. intros (k & Hk & -> & _ & Hx). nia. }
  rewrite (wrap_small 64 (4 * p)), (wrap_small 64 (j + 4 * p)) by (unfold in_range; lia).
  destruct (IH (j + 4 * p)) as (l & -> & Hl); [lia..|destruct fuel; lia|lia|].
  step_run. eexists. split; [reflexivity|]. intros x. rewrite elem_of_cons, Hl. split.
  - intros [->|(k & Hk & -> & Hk1 & Hk2)]; [exists 0; lia|exists (k + 1); lia].
  - intros (k & Hk & -> & Hk1 & Hk2). destruct (Z.eq_dec k 0) as [->|]; [left; lia|].
    right. exists (k - 1). lia.
Qed.

Lemma invalidate_thread_spec fuel t p :
  2 <= p <= MAX -> 0 <= t < 4 -> MAX + 2 - p <= Z.of_nat fuel ->
  exists l, invalidate_thread MAX fuel t p = Ret l /\
    forall x, x ∈ l <-> exists k, 0 <= k /\ x = 2 * p + 4 * k * p + t * p /\
                                2 * p + 4 * k * p <= MAX /\ x <= MAX + 1.
Proof using HMAX.
  clear Hlast Hcomposite.
  intros Hp Ht Hf. unfold invalidate_thread. rewrite wrap_small by (unfold in_range; lia).
  apply invalidate_indices_spec; lia.
Qed.

(** The four threads together: the multiples of [p] from [2 * p] up to MAX,
    and nothing else but perhaps MAX + 1. *)
Lemma thread_lists_spec fuel p :
  2 <= p <= MAX -> MAX + 2 - p <= Z.of_nat fuel ->
  exists l, for_loop (length threadID) 0 (fun t acc =>
      l ← invalidate_thread MAX fuel (elt threadID t) p; Ret (acc ++ l)) [] = Ret l /\
    (forall x, x ∈ l -> 0 <= x <= MAX + 1) /\
    (forall x, x <= MAX -> x ∈ l <-> (p | x) /\ 2 * p <= x).
Proof using HMAX.
  clear Hlast Hcomposite.
  intros Hp Hf. change (length threadID) with 4%nat. cbn [for_loop].
  destruct (invalidate_thread_spec fuel 0 p) as (l0 & H0 & E0); [lia..|].
  destruct (invalidate_thread_spec fuel 1 p) as (l1 & H1 & E1); [lia..|].
  destruct (invalidate_thread_spec fuel 2 p) as (l2 & H2 & E2); [lia..|].
  destruct (invalidate_thread_spec fuel 3 p) as (l3 & H3 & E3); [lia..|].
  change (elt threadID 0) with 3. change (elt threadID (0 + 1)) with 0.
  change (elt threadID (0 + 1 + 1)) with 1. change (elt threadID (0 + 1 + 1 + 1)) with 2.
  rewrite H3. step_run. rewrite H0. step_run. rewrite H1. step_run. rewrite H2. step_run.
  eexists. split; [reflexivity|]. split.
  - intros x. rewrite !elem_of_app. set_unfold.
    intros [[[[Hx|Hx%E3]|Hx%E0]|Hx%E1]|Hx%E2]; [done|..]; destruct Hx as (k & ? & -> & ?); nia.
  - intros x Hx. rewrite !elem_of_app, E0, E1, E2, E3. split.
    + intros [[[[Hn|Hk]|Hk]|Hk]|Hk]; [set_solver|..]; destruct Hk as (k & Hk & -> & _);
        (split; [|nia]).
      * exists (2 + 4 * k + 3). lia.
      * exists (2 + 4 * k + 0). lia.
      * exists (2 + 4 * k + 1). lia.
      * exists (2 + 4 * k + 2). lia.
    + intros [[m ->] Hm]. assert (2 <= m) as Hm2 by nia.
      pose proof (Z.div_mod (m - 2) 4 ltac:(lia)) as Hd.
      pose proof (Z.mod_pos_bound (m - 2) 4 ltac:(lia)) as Hr.
      set (k := (m - 2) / 4) in *. set (r := (m - 2) mod 4) in *.
      assert (0 <= k) by lia. assert (m * p = 2 * p + 4 * k * p + r * p) as Hmp by nia.
      assert (r = 0 \/ r = 1 \/ r = 2 \/ r = 3) as [E|[E|[E|E]]] by lia; rewrite E in Hmp.
      * left; left; right. exists k. lia.
      * left; right. exists k. lia.
      * right. exists k. lia.
      * left; left; left; right. exists k. lia.
Qed.

(** A round clears exactly the proper multiples of its prime. *)
Lemma invalidate_spec fuel schedule p isprime :
  (forall l, schedule l ≡ₚ l) -> array_ok isprime -> 2 <= p <= MAX -> MAX + 2 - p <= Z.of_nat fuel ->
  exists isprime', invalidate MAX fuel schedule p isprime = Ret isprime' /\ array_ok isprime' /\
    forall i, 0 <= i <= MAX ->
      bit isprime' i = bit isprime i && negb ((i mod p =? 0) && (2 * p <=? i)).
Proof using HMAX Hlast.
  clear Hcomposite. intros Hs Hok Hp Hf. unfold invalidate.
  destruct (thread_lists_spec fuel p Hp Hf) as (l & -> & Hin & Hl). step_run.
  destruct (clear_all_bit (schedule l) isprime) as (a & -> & Hla & Hb).
  { intros j Hj. apply inside_ok; [done|]. apply Hin. by rewrite <- (Hs l). }
  eexists. split; [reflexivity|]. split; [unfold array_ok in *; congruence|].
  intros i Hi. rewrite Hb by lia. f_equal. f_equal. apply eq_true_iff_eq.
  rewrite bool_decide_eq_true, (Hs l), Hl by lia.
  by rewrite andb_true_iff, Z.eqb_eq, Z.leb_le, Z.mod_divide by lia.
Qed.

(** *** Initialisation *)

Lemma init_spec memory :
  array_ok memory ->
  exists isprime, init_isprime MAX memory = Some isprime /\ array_ok isprime /\
    bit isprime 0 = false /\ bit isprime 1 = false /\
    forall i, 2 <= i < MAX -> bit isprime i = true.
Proof using HMAX Hlast.
  clear Hcomposite. intros Hok. unfold init_isprime.
  assert (0 <= MAX / 8) by (apply Z.div_pos; lia).
  rewrite aset_Some by (rewrite Hok; lia). cbn [mbind option_bind].
  destruct (for_loop_option (fun k a => array_ok a /\ bit a 0 = false /\ bit a 1 = false /\
      forall i, 2 <= i < Z.of_nat k -> bit a i = true)
      (fun i isprime => set_isprime isprime (Z.of_nat i) 1) (Z.to_nat (MAX - 2)) 2
      (<[Z.to_nat 0 := 0xFC]> memory)) as (a & -> & Ha & H0 & H1 & Hb).
  - unfold array_ok, bit. rewrite length_insert. split; [done|].
    change (Z.to_nat (0 / 8)) with 0%nat. change (Z.to_nat (1 / 8)) with 0%nat.
    rewrite elt_insert_eq by (rewrite Hok; lia). split; [done|]. split; [done|]. lia.
  - intros k a Hk (Ha & H0 & H1 & Hb).
    destruct (set_isprime_bit a (Z.of_nat k) 1) as (a' & -> & Hl & Hbit); [apply inside_ok; [done|lia]|].
    eexists. split; [reflexivity|]. split; [unfold array_ok in *; congruence|].
    rewrite !Hbit by lia. rewrite !(proj2 (Z.eqb_neq _ _)) by lia. split; [done|]. split; [done|].
    intros i Hi. rewrite Hbit by lia. destruct (Z.eqb_spec i (Z.of_nat k)); [done|]. apply Hb. lia.
  - eexists. split; [reflexivity|]. split; [done|]. split; [done|]. split; [done|].
    intros i Hi. apply Hb. lia.
Qed.

(** *** The next candidate *)

Lemma next_p_spec fuel isprime p r : forall j,
  array_ok isprime -> 0 <= j <= r -> r <= MAX -> bit isprime r = true ->
  MAX + 1 - j < Z.of_nat fuel ->
  exists m, next_p MAX fuel isprime p j = Ret m /\ j <= m <= r /\ bit isprime m = true /\
    forall x, j <= x < m -> bit isprime x = false.
Proof using HMAX Hlast.
  clear Hcomposite.
  induction fuel as [|fuel IH]; intros j Hok Hj Hr Hbit Hf; [lia|]. cbn [next_p].
  rewrite (wrap_small 64 (MAX + 1)) by (unfold in_range; lia).
  rewrite (proj2 (Z.ltb_lt j (MAX + 1))) by lia.
  rewrite chk_isprime_bit by (apply inside_ok; [done|lia]). step_run.
  destruct (bit isprime j) eqn:Eb.
  - exists j. split; [done|]. split; [lia|]. split; [done|]. lia.
  - rewrite (wrap_small 64 (j + 1)) by (unfold in_range; lia).
    assert (j <> r) by congruence.
    destruct (IH (j + 1)) as (m & -> & Hm & Hbm & Hx); [done|lia|done|done|lia|].
    exists m. split; [done|]. split; [lia|]. split; [done|]. intros x Hxm.
    destruct (Z.eq_dec x j) as [->|]; [done|]. apply Hx. lia.
Qed.

(** *** The invariant of the rounds *)

(** No prime below [p] divides [i] properly. *)
Definition survives (p i : Z) : Prop := forall d, prime d -> d < p -> (d | i) -> d = i.

Record sieved (p : Z) (isprime : list Z) : Prop := {
  sv_ok : array_ok isprime;
  sv_prime : prime p;
  sv_le : p <= MAX;
  sv_0 : bit isprime 0 = false;
  sv_1 : bit isprime 1 = false;
  sv_set : forall i, 2 <= i < MAX -> survives p i -> bit isprime i = true;
  sv_clear : forall i, 2 <= i <= MAX -> bit isprime i = true -> survives p i
}.

Lemma survives_prime p i : prime i -> survives p i.
Proof using Type. intros Hi d Hd _ Hdi. by apply prime_divide_prime. Qed.

Lemma proper_multiple p i : 2 <= p -> 0 < i -> (p | i) -> p <> i -> 2 * p <= i.
Proof using Type.
  clear. intros Hp Hi [k ->] Hne. assert (0 < k) by nia. assert (k <> 1) by (intros ->; lia). nia.
Qed.

Hypothesis Hbig : exists r, prime r /\ r < MAX < r * r.

(** A round and the search for the next prime. *)
Lemma sieve_round_spec fuel schedule p isprime :
  (forall l, schedule l ≡ₚ l) -> sieved p isprime -> p * p <= MAX -> MAX + 2 - p <= Z.of_nat fuel ->
  exists isprime' p', invalidate MAX fuel schedule p isprime = Ret isprime' /\
    next_p MAX fuel isprime' p (u64 (p + 1)) = Ret p' /\ p < p' /\ sieved p' isprime'.
Proof using HMAX Hlast Hbig.
  clear Hcomposite. intros Hs [Hok Hp Hle H0 H1 Hset Hclear] Hpp Hf.
  pose proof (prime_le_2 p Hp) as Hp2. destruct Hbig as (r & Hr & Hr1 & Hr2).
  destruct (invalidate_spec fuel schedule p isprime Hs Hok ltac:(lia) Hf) as (a & Ha & Hoka & Hbit).
  assert (forall i, 2 <= i < MAX -> survives (p + 1) i -> bit a i = true) as Hset'.
  { intros i Hi Hsv. rewrite Hbit by lia. rewrite Hset; [|lia|intros d Hd Hlt; apply Hsv; [done|lia]].
    cbn [andb]. apply negb_true_iff, andb_false_iff.
    destruct (Z.eqb_spec (i mod p) 0) as [E|]; [right|by left].
    apply Z.mod_divide in E; [|lia]. rewrite <- (Hsv p Hp ltac:(lia) E). apply Z.leb_gt. lia. }
  assert (forall i, 2 <= i <= MAX -> bit a i = true -> survives (p + 1) i) as Hclear'.
  { intros i Hi Hb d Hd Hlt Hdi. rewrite Hbit in Hb by lia. apply andb_true_iff in Hb as [Hb Hn].
    destruct (Z.eq_dec d p) as [->|]; [|apply (Hclear i Hi Hb d Hd); [lia|done]].
    destruct (Z.eq_dec p i) as [|Hne]; [done|]. exfalso.
    pose proof (proper_multiple p i ltac:(lia) ltac:(lia) Hdi Hne).
    rewrite (proj2 (Z.eqb_eq _ _)), (proj2 (Z.leb_le _ _)) in Hn; [done|lia|].
    by apply Z.mod_divide; [lia|]. }
  pose proof (prime_le_2 r Hr). assert (p < r) by (apply Z.square_lt_simpl_nonneg; lia).
  destruct (next_p_spec fuel a p r (p + 1)) as (m & Hm & Hpm & Hbm & Hmin);
    [done|lia|lia|apply Hset'; [lia|by apply survives_prime]|lia|].
  assert (forall d, prime d -> p < d -> ~ d < m) as Hgap.
  { intros d Hd Hlt Hdm.
    specialize (Hmin d ltac:(lia)). rewrite Hset' in Hmin; [done|lia|by apply survives_prime]. }
  exists a, m. split; [done|]. rewrite (wrap_small 64) by (unfold in_range; lia). split; [done|].
  split; [lia|]. split; try done.
  - destruct (prime_dec m) as [|Hnp]; [done|]. exfalso.
    destruct (prime_divisor m ltac:(lia) Hnp) as (d & Hd & Hdm & Hdd).
    pose proof (prime_le_2 d Hd). assert (d < m) by nia.
    destruct (Z.le_gt_cases d p); [|by apply (Hgap d Hd)].
    pose proof (Hclear' m ltac:(lia) Hbm d Hd ltac:(lia) Hdm). lia.
  - lia.
  - rewrite Hbit by lia. by rewrite H0.
  - rewrite Hbit by lia. by rewrite H1.
  - intros i Hi Hsv. apply Hset'; [done|]. intros d Hd Hlt. apply Hsv; [done|lia].
  - intros i Hi Hb d Hd Hlt. apply (Hclear' i Hi Hb d Hd).
    destruct (Z.le_gt_cases d p); [lia|]. by destruct (Hgap d Hd).
Qed.

Lemma rounds_spec schedule : forall fuel p isprime,
  (forall p l, schedule p l ≡ₚ l) -> sieved p isprime -> MAX + 2 - p <= Z.of_nat fuel ->
  exists isprime', rounds MAX fuel schedule p isprime = Ret isprime' /\ array_ok isprime' /\
    forall i, 0 <= i <= MAX -> bit isprime' i = true <-> prime i.
Proof using HMAX Hlast Hbig Hcomposite.
  induction fuel as [|fuel IH]; intros p isprime Hs Hsv Hf.
  { destruct Hsv. lia. }
  pose proof Hsv as [Hok Hp Hle H0 H1 Hset Hclear]. pose proof (prime_le_2 p Hp) as Hp2.
  cbn [rounds]. rewrite wrap_small by (unfold in_range; nia).
  destruct (Z.leb_spec (p * p) MAX) as [Hpp|Hpp].
  - destruct (sieve_round_spec (S fuel) (schedule p) p isprime (Hs p) Hsv Hpp Hf)
      as (a & p' & -> & Hn & Hlt & Hsv'). step_run. rewrite Hn. step_run. apply IH; [done|done|lia].
  - exists isprime. split; [done|]. split; [done|]. intros i Hi. split.
    + intros Hb. destruct (Z.eq_dec i 0) as [->|]; [congruence|].
      destruct (Z.eq_dec i 1) as [->|]; [congruence|].
      destruct (prime_dec i) as [|Hnp]; [done|]. exfalso.
      destruct (prime_divisor i ltac:(lia) Hnp) as (d & Hd & Hdi & Hdd).
      pose proof (prime_le_2 d Hd).
      pose proof (Hclear i ltac:(lia) Hb d Hd ltac:(nia) Hdi). nia.
    + intros Hpi. pose proof (prime_le_2 i Hpi). apply Hset.
      * destruct (Z.eq_dec i MAX) as [->|]; [done|lia].
      * by apply survives_prime.
Qed.

Lemma count_spec isprime :
  array_ok isprime -> (forall i, 0 <= i <= MAX -> bit isprime i = true <-> prime i) ->
  count_primes MAX isprime = Some (Z.of_nat (length (filter prime (seqZ 0 (MAX + 1))))).
Proof using HMAX Hlast.
  clear Hcomposite Hbig. intros Hok Hbit. unfold count_primes.
  destruct (for_loop_option (fun k cnt =>
      cnt = Z.of_nat (length (filter prime (seqZ 0 (Z.of_nat k)))) /\ cnt <= Z.of_nat k)
    (fun i cnt => b ← chk_isprime isprime (Z.of_nat i); Some (if b : bool then u32 (cnt + 1) else cnt))
    (Z.to_nat (MAX + 1)) 0 0) as (cnt & -> & -> & _).
  - done.
  - intros k cnt Hk [-> Hle]. rewrite chk_isprime_bit by (apply inside_ok; [done|lia]).
    cbn [mbind option_bind]. eexists. split; [reflexivity|].
    rewrite Nat.add_1_r, Nat2Z.inj_succ, <- Z.add_1_r, seqZ_app, list.filter_app, length_app by lia.
    change (seqZ (0 + Z.of_nat k) 1) with [Z.of_nat k].
    specialize (Hbit (Z.of_nat k) ltac:(lia)).
    destruct (bit isprime (Z.of_nat k)); [rewrite filter_cons_True by by apply Hbit|
      rewrite filter_cons_False by (intros Hpk; by apply Hbit in Hpk)]; cbn [length filter list_filter].
    + rewrite wrap_small by (unfold in_range; lia). lia.
    + rewrite Nat.add_0_r; lia.
  - replace (Z.of_nat (0 + Z.to_nat (MAX + 1))) with (MAX + 1) by lia. done.
Qed.

Lemma sieved_2 isprime :
  array_ok isprime -> bit isprime 0 = false -> bit isprime 1 = false ->
  (forall i, 2 <= i < MAX -> bit isprime i = true) -> sieved 2 isprime.
Proof using HMAX.
  clear Hcomposite Hbig Hlast. intros Hok H0 H1 Hb. split; try done.
  - apply prime_alt. split; [lia|]. intros n Hn. lia.
  - lia.
  - intros i Hi _. by apply Hb.
  - intros i Hi _ d Hd Hlt. pose proof (prime_le_2 d Hd). lia.
Qed.

Lemma main_spec fuel schedule memory :
  (forall p l, schedule p l ≡ₚ l) -> array_ok memory -> MAX <= Z.of_nat fuel ->
  exists isprime, main MAX fuel schedule memory
    = Ret (isprime, Z.of_nat (length (filter prime (seqZ 0 (MAX + 1))))) /\
    forall i, 0 <= i <= MAX -> chk_isprime isprime i = Some (bool_decide (prime i)).
Proof using HMAX Hlast Hbig Hcomposite.
  intros Hs Hmem Hf. unfold main.
  destruct (init_spec memory Hmem) as (a & -> & Ha & H0 & H1 & Hb). step_run.
  destruct (rounds_spec schedule fuel 2 a Hs (sieved_2 a Ha H0 H1 Hb)) as (a' & -> & Ha' & Hbit); [lia|].
  step_run. rewrite (count_spec a' Ha' Hbit). step_run. exists a'. split; [done|]. intros i Hi.
  rewrite chk_isprime_bit by (apply inside_ok; [done|lia]). f_equal.
  apply eq_true_iff_eq. rewrite bool_decide_eq_true. by apply Hbit.
Qed.
End correct.

(** ** The hypotheses of the section, discharged *)

(** A number below 2500 without a divisor below 50 is prime. *)
Definition no_small_divisor (n : Z) : bool :=
  forallb (fun d => negb (n mod d =? 0)) (seqZ 2 48).

Lemma no_small_divisor_prime n : 1 < n < 2500 -> no_small_divisor n = true -> prime n.
Proof.
  intros Hn Hd. destruct (prime_dec n) as [|Hnp]; [done|]. exfalso.
  destruct (prime_divisor n ltac:(lia) Hnp) as (d & Hpd & Hdn & Hdd).
  pose proof (prime_le_2 d Hpd).
  unfold no_small_divisor in Hd. rewrite forallb_forall in Hd.
  specialize (Hd d). rewrite negb_true_iff, Z.eqb_neq in Hd. apply Hd.
  - apply list_elem_of_In, elem_of_seqZ. nia.
  - by apply Z.mod_divide; [lia|].
Qed.

Lemma MAX_value_composite : ~ prime MAX_value.
Proof. intros Hp. apply prime_alt in Hp as [_ Hp]. apply (Hp 2); [done|]. by exists 2000000. Qed.

Lemma MAX_value_prime_above_root : exists r, prime r /\ r < MAX_value < r * r.
Proof. exists 2003. split; [by apply no_small_divisor_prime|done]. Qed.

(** C38: the threaded sieve computes the primes.  Whatever memory [malloc]
    returned and whatever order the scheduler chooses, round by round, for the
    byte updates of the four threads, [main] returns with bit [i] of the array
    set exactly when [i] is prime, for every [i] in [0..MAX], and [cnt] is the
    number of those primes; no access leaves the array and every loop ends. *)
Theorem sieve_correct (fuel : nat) (schedule : Z -> list Z -> list Z) (memory : list Z) :
  (forall p l, schedule p l ≡ₚ l) -> length memory = Z.to_nat (MAX_value / CODE_LENGTH + 1) ->
  MAX_value <= Z.of_nat fuel ->
  exists isprime, main MAX_value fuel schedule memory
    = Ret (isprime, Z.of_nat (length (filter prime (seqZ 0 (MAX_value + 1))))) /\
    forall i, 0 <= i <= MAX_value -> chk_isprime isprime i = Some (bool_decide (prime i)).
Proof.
  intros Hs Hmem Hf. apply main_spec; try done.
  - apply MAX_value_composite.
  - apply MAX_value_prime_above_root.
Qed.

Lemma sieve_correct_witness :
  exists isprime,
    main MAX_value (Z.to_nat MAX_value) (fun _ l => reverse l)
      (replicate (Z.to_nat (MAX_value / CODE_LENGTH + 1)) 0xA5)
    = Ret (isprime, Z.of_nat (length (filter prime (seqZ 0 (MAX_value + 1))))) /\
    forall i, 0 <= i <= MAX_value -> chk_isprime isprime i = Some (bool_decide (prime i)).
Proof.
  apply (sieve_correct (Z.to_nat MAX_value) (fun _ l => reverse l)
           (replicate (Z.to_nat (MAX_value / CODE_LENGTH + 1)) 0xA5)).
  - intros p l. apply reverse_Permutation.
  - by rewrite length_replicate.
  - by rewrite Z2Nat.id.
Defined.

(** 25 primes below 100, found by threads running last to first. *)
Example sieve_100 :
  snd <$> (match main 100 100 (fun _ l => reverse l) (replicate 13 0) with
           | Ret r => Some r | _ => None end) = Some 25.
Proof. vm_compute. reflexivity. Qed.
