(* ===== verification/MessageQueue.v ===== *)
(** * Message queues: POSIX-Examples-Updated/posix_mq.c, POSIX_MQ_LOOP/heap_mq.c
    and VxWorks-Examples/heap_mq.c

    [Copy] sends a message through the queue by value, [Loop] does so for ever,
    [Heap] sends pointers to blocks that the receiver frees; the last is a step
    relation over the heap, the queue and the program counters of two tasks. *)
From Stdlib Require Import String.
From S2P Require Import Prelude CString.
From stdpp Require Import option list gmap.
#[local] Open Scope Z_scope.

(** ** The queue of the operating system *)

Record attr := { mq_maxmsg : nat; mq_msgsize : nat }.
Record message := { msg_prio : Z; msg_data : list Z }.

Inductive result (A : Type) := Error | Blocks | Success (a : A).
Arguments Error {A}.
Arguments Blocks {A}.
Arguments Success {A} a.

(** Behind the messages of its priority or a higher one. *)
Fixpoint enqueue (m : message) (q : list message) : list message :=
  match q with
  | [] => [m]
  | x :: q' => if msg_prio x <? msg_prio m then m :: q else x :: enqueue m q'
  end.

Definition mq_send (a : attr) (q : list message) (data : list Z) (prio : Z) : result (list message) :=
  if (mq_msgsize a <? length data)%nat then Error
  else if (mq_maxmsg a <=? length q)%nat then Blocks
  else Success (enqueue {| msg_prio := prio; msg_data := data |} q).

Definition mq_receive (a : attr) (q : list message) (size : nat) : result (message * list message) :=
  if (size <? mq_msgsize a)%nat then Error
  else match q with [] => Blocks | m :: q => Success (m, q) end.

Lemma length_enqueue m q : length (enqueue m q) = S (length q).
Proof. induction q as [|x q IH]; cbn; [done|]. case_match; cbn; [done|by rewrite IH]. Qed.

(** Among equals the queue is first in, first out. *)
Lemma enqueue_last m q : Forall (fun x => msg_prio m <= msg_prio x) q -> enqueue m q = q ++ [m].
Proof.
  induction 1 as [|x q Hx _ IH]; cbn; [done|]. by rewrite (proj2 (Z.ltb_ge _ _)), IH.
Qed.

(** ** posix_mq.c *)

Module Copy.
Definition MAX_MSG_SIZE : nat := 128.
Definition canned_msg : list Z :=
  bytes "this is a test, and only a test, in the event of a real emergency, you would be instructed ..."%string ++ [0].

(** What [receiver] does: prints a message, reports an error, waits for ever, or
    writes or reads outside its buffer. *)
Inductive received := Printed (text : list Z) (prio : Z) | Reported | Waiting | OutOfBounds.

(** [junk] is what the array holds before. *)
Definition receiver (a : attr) (junk : list Z) (q : list message) : received * list message :=
  match mq_receive a q MAX_MSG_SIZE with
  | Error => (Reported, q)
  | Blocks => (Waiting, q)
  | Success (m, q) =>
      match
        buffer ← store junk 0 (msg_data m);
        buffer ← aset buffer (Z.of_nat (length (msg_data m))) 0;
        n ← strlen buffer; Some (take n buffer)
      with
      | Some text => (Printed text (msg_prio m), q)
      | None => (OutOfBounds, q)
      end
  end.

(** [true]: it returns; a blocked sender never does, as the receiver comes after. *)
Definition sender (a : attr) (q : list message) : bool * list message :=
  match mq_send a q canned_msg 30 with
  | Error => (true, q)
  | Blocks => (false, q)
  | Success q => (true, q)
  end.

(** [a] and [q] are those of the queue that [mq_open] finds or creates. *)
Definition main (a : attr) (junk : list Z) (q : list message) : received * list message :=
  let '(returned, q) := sender a q in
  if returned then receiver a junk q else (Waiting, q).

Definition attributes : attr := {| mq_maxmsg := 10; mq_msgsize := MAX_MSG_SIZE |}.
End Copy.

(** ** POSIX_MQ_LOOP/heap_mq.c *)

Module Loop.
Definition canned_msg : list Z :=
  bytes "This is a test, and only a test, in the event of real emergency, you would be instructed...."%string ++ [0].

(** A pass of the receiver's loop: the terminator goes to [buffer[MAX_MSG_SIZE]]. *)
Definition receiver_pass (a : attr) (junk : list Z) (q : list message) : Copy.received * list message :=
  match mq_receive a q Copy.MAX_MSG_SIZE with
  | Error => (Copy.Reported, q)
  | Blocks => (Copy.Waiting, q)
  | Success (m, q) =>
      match
        buffer ← store junk 0 (msg_data m);
        buffer ← aset buffer (Z.of_nat Copy.MAX_MSG_SIZE) 0;
        n ← strlen buffer; Some (take n buffer)
      with
      | Some text => (Copy.Printed text (msg_prio m), q)
      | None => (Copy.OutOfBounds, q)
      end
  end.

Definition sender_pass (a : attr) (q : list message) : result (list message) :=
  mq_send a q canned_msg 30.
End Loop.

(** ** VxWorks-Examples/heap_mq.c *)

Module Heap.
Definition SIZE : nat := 4096.

(** [heap_mq]'s loops over [imagebuff]; [pixel] is a char. *)
Definition fill_row (i : nat) (b : list Z) : option (list Z) :=
  r ← for_loop 64 i
        (fun j (r : list Z * Z) => let '(b, pixel) := r in
           b ← aset b (Z.of_nat j) (u8 pixel); Some (b, swrap 8 (pixel + 1)))
        (b, 65);
  aset (fst r) (Z.of_nat i + 64 - 1) 10.

Definition fill (b : list Z) : option (list Z) :=
  b ← for_loop 64 0 (fun r b => fill_row (64 * r) b) b;
  b ← aset b 4095 0;
  aset b 63 0.

(** A static array starts as zeros. *)
Definition imagebuff : list Z := default [] (fill (replicate SIZE 0)).

Inductive sender_pc := Allocate | Copying (p : Z) | Sending (p : Z) | Sleeping.
Inductive receiver_pc := Receiving | Showing (p id : Z) | Freeing (p : Z).

Record state := {
  heap : gmap Z (list Z); queue : list message; sender_at : sender_pc; receiver_at : receiver_pc
}.

(** What the operating system does: the block [malloc] returns and what is in
    it, whether a call succeeds; the other events are the tasks' own. *)
Inductive event :=
  | Malloc (p : Z) (junk : list Z) | Strcpy | MqSend (sent : bool) | Wake
  | MqReceive (got : bool) | Print | Free.

(** Not possible now, an access outside the heap, or the state after. *)
Inductive next := Disabled | Crash | Next (s : state).

Section step.
(** The size of a pointer. *)
Context (psize : nat).

Definition attributes : attr := {| mq_maxmsg := 100; mq_msgsize := psize + 4 |}.

Definition pack (p id : Z) : list Z := le_bytes psize p ++ le_bytes 4 id.

Definition unpack (buffer : list Z) : Z * Z :=
  (le_value (take psize buffer), swrap 32 (le_value (take 4 (drop psize buffer)))).

(** A new block: not NULL, not one in use. *)
Definition fresh_block (h : gmap Z (list Z)) (p : Z) (junk : list Z) : bool :=
  (0 <? p) && (p <? 256 ^ Z.of_nat psize) && bool_decide (h !! p = None) && (length junk =? SIZE)%nat.

(** [strcpy(buffptr, imagebuff)] *)
Definition strcpy (block src : list Z) : option (list Z) :=
  n ← strlen src; store block 0 (take (n + 1) src).

Definition sender (e : event) (s : state) : next :=
  let go h q pc := Next {| heap := h; queue := q; sender_at := pc; receiver_at := receiver_at s |} in
  match sender_at s, e with
  | Allocate, Malloc p junk =>
      if p =? 0 then go (heap s) (queue s) (Copying 0)
      else if fresh_block (heap s) p junk then go (<[p := junk]> (heap s)) (queue s) (Copying p)
      else Disabled
  | Copying p, Strcpy =>
      match b ← heap s !! p; strcpy b imagebuff with
      | Some b => go (<[p := b]> (heap s)) (queue s) (Sending p)
      | None => Crash
      end
  | Sending p, MqSend false => go (heap s) (queue s) Sleeping
  | Sending p, MqSend true =>
      match mq_send attributes (queue s) (pack p 999) 30 with
      | Success q => go (heap s) q Sleeping
      | _ => Disabled
      end
  | Sleeping, Wake => go (heap s) (queue s) Allocate
  | _, _ => Disabled
  end.

Definition receiver (e : event) (s : state) : next :=
  let go h q pc := Next {| heap := h; queue := q; sender_at := sender_at s; receiver_at := pc |} in
  match receiver_at s, e with
  | Receiving, MqReceive false => go (heap s) (queue s) Receiving
  | Receiving, MqReceive true =>
      match mq_receive attributes (queue s) (psize + 4) with
      | Success (m, q) => let '(p, id) := unpack (msg_data m) in go (heap s) q (Showing p id)
      | _ => Disabled
      end
  | Showing p id, Print =>
      match b ← heap s !! p; strlen b with
      | Some _ => go (heap s) (queue s) (Freeing p)
      | None => Crash
      end
  | Freeing p, Free =>
      match heap s !! p with Some _ => go (delete p (heap s)) (queue s) Receiving | None => Crash end
  | _, _ => Disabled
  end.

Definition of_sender (e : event) : bool :=
  match e with Malloc _ _ | Strcpy | MqSend _ | Wake => true | _ => false end.

Definition step (e : event) (s : state) : next := if of_sender e then sender e s else receiver e s.

(** In every interleaving. *)
Fixpoint run (es : list event) (s : state) : next :=
  match es with
  | [] => Next s
  | e :: es => match step e s with Next s => run es s | r => r end
  end.

(** On one processor: the receiver, at priority 90, runs before the sender, at
    100, unless it waits for a message. *)
Definition receiver_waits (s : state) : bool :=
  match receiver_at s, queue s with Receiving, [] => true | _, _ => false end.

Fixpoint run_prio (es : list event) (s : state) : next :=
  match es with
  | [] => Next s
  | e :: es =>
      if of_sender e && negb (receiver_waits s) then Disabled
      else match step e s with Next s => run_prio es s | r => r end
  end.

Definition start : state :=
  {| heap := ∅; queue := []; sender_at := Allocate; receiver_at := Receiving |}.
End step.
End Heap.

(** ** Facts *)

Module HeapProofs.
Import Heap.

Lemma imagebuff_text : strlen imagebuff = Some 63%nat /\ take 63 imagebuff = seqZ 65 63.
Proof. split; vm_compute; reflexivity. Qed.

Lemma length_imagebuff : length imagebuff = SIZE.
Proof. vm_compute. reflexivity. Qed.

(** A block with the text of the message. *)
Definition holds_text (b : list Z) : Prop :=
  length b = SIZE /\ strlen b = Some 63%nat /\ take 63 b = seqZ 65 63.

Lemma strcpy_text b : length b = SIZE -> exists b', strcpy b imagebuff = Some b' /\ holds_text b'.
Proof.
  intros Hb. unfold strcpy. destruct imagebuff_text as [-> Ht]. step_option.
  assert (H64 : take (63 + 1) imagebuff = seqZ 65 63 ++ [0]) by (vm_compute; reflexivity).
  rewrite H64. rewrite store_Some by (rewrite Hb; apply Nat.leb_le; vm_compute; reflexivity). eexists. split; [done|].
  unfold splice. rewrite take_0, app_nil_l, <- app_assoc. cbn [app].
  split; [|split].
  - rewrite length_app. cbn [length]. rewrite length_drop, Hb, length_seqZ. vm_compute. reflexivity.
  - rewrite strlen_app; [done|]. intros c Hc%elem_of_seqZ. lia.
  - apply take_app_length'. by rewrite length_seqZ.
Qed.

Section blocks.
Context (psize : nat).

(** The pointer goes through the message. *)
Lemma unpack_pack p id :
  0 <= p < 256 ^ Z.of_nat psize -> 0 <= id <= INT_MAX -> unpack psize (pack psize p id) = (p, id).
Proof.
  intros Hp Hid. unfold unpack, pack.
  rewrite take_app_length', drop_app_length' by by rewrite length_le_bytes.
  rewrite (take_ge (le_bytes 4 id)) by by rewrite length_le_bytes.
  rewrite !le_value_bytes, Z.mod_small by done. f_equal.
  unfold INT_MAX in Hid. rewrite Z.mod_small by (cbn; lia). apply swrap_int. unfold INT_MIN, INT_MAX. lia.
Qed.

Definition pointer (m : message) : Z := fst (unpack psize (msg_data m)).

Definition sender_block (s : state) : list Z :=
  match sender_at s with Copying p | Sending p => [p] | _ => [] end.
Definition receiver_block (s : state) : list Z :=
  match receiver_at s with Showing p _ | Freeing p => [p] | _ => [] end.

#[local] Opaque imagebuff.

(** The blocks in use: of the sender, in the queue, of the receiver. *)
Definition owned (s : state) : list Z :=
  sender_block s ++ map pointer (queue s) ++ receiver_block s.

(** The blocks that the text was copied to. *)
Definition ready (s : state) : list Z :=
  match sender_at s with Sending p => [p] | _ => [] end ++ map pointer (queue s) ++ receiver_block s.

(** The sends that failed. *)
Definition failed (es : list event) : nat :=
  length (List.filter (fun e => match e with MqSend false => true | _ => false end) es).

Definition text_at (h : gmap Z (list Z)) (p : Z) : Prop := exists b, h !! p = Some b /\ holds_text b.

Definition in_pointer (p : Z) : Prop := 0 < p < 256 ^ Z.of_nat psize.

(** Every block is that of the sender, of one message or of the receiver, or was
    lost with a send that failed; a block that is passed on holds the text. *)
Record inv (k : nat) (s : state) : Prop := {
  i_blocks : exists lost, length lost = k /\ owned s ++ lost ≡ₚ elements (dom (heap s));
  i_sender : match sender_at s with
             | Copying p => in_pointer p /\ exists b, heap s !! p = Some b /\ length b = SIZE
             | Sending p => in_pointer p
             | _ => True
             end;
  i_text : Forall (text_at (heap s)) (ready s);
  i_queue : Forall (fun m => exists p, in_pointer p /\ m = {| msg_prio := 30; msg_data := pack psize p 999 |})
              (queue s);
  i_length : (length (queue s) <= 100)%nat
}.

Lemma inv_start : inv 0 start.
Proof. split; cbn; [|done|constructor|constructor|lia]. by exists []. Qed.

Lemma pointer_pack p : in_pointer p -> pointer {| msg_prio := 30; msg_data := pack psize p 999 |} = p.
Proof. intros Hp. unfold pointer. cbn [msg_data]. rewrite unpack_pack; [done| |by split]. unfold in_pointer in Hp. lia. Qed.

Lemma text_at_insert_fresh h p b q : h !! p = None -> text_at h q -> text_at (<[p := b]> h) q.
Proof.
  intros Hp (c & Hc & Ht). exists c. split; [|done]. rewrite lookup_insert_ne; [done|]. intros ->. congruence.
Qed.

Lemma text_at_insert_ne h p b q : p <> q -> text_at h q -> text_at (<[p := b]> h) q.
Proof. intros Hne (c & Hc & Ht). exists c. by rewrite lookup_insert_ne. Qed.

Lemma text_at_delete h p q : p <> q -> text_at h q -> text_at (delete p h) q.
Proof. intros Hne (c & Hc & Ht). exists c. by rewrite lookup_delete_ne. Qed.

Lemma elements_new (h : gmap Z (list Z)) p b :
  h !! p = None -> elements (dom (<[p := b]> h)) ≡ₚ p :: elements (dom h).
Proof.
  intros Hp. rewrite dom_insert_L. apply elements_union_singleton. by apply not_elem_of_dom.
Qed.

Lemma elements_freed (h : gmap Z (list Z)) p l :
  p :: l ≡ₚ elements (dom h) -> l ≡ₚ elements (dom (delete p h)).
Proof.
  intros Hl. assert (Hp : p ∈ dom h) by (apply elem_of_elements; rewrite <- Hl; left).
  rewrite dom_delete_L. apply (Permutation_cons_inv (a := p)). rewrite Hl.
  rewrite <- (elements_union_singleton (dom h ∖ {[p]}) p) by set_solver.
  by rewrite <- union_difference_singleton_L.
Qed.

(** No block is owned twice. *)
Lemma owned_NoDup k s : inv k s -> NoDup (owned s).
Proof.
  intros [(lost & _ & Hp) _ _ _ _]. apply (NoDup_app (owned s) lost). rewrite Hp. apply NoDup_elements.
Qed.

(** *** Steps *)

Lemma ready_owned s p : p ∈ ready s -> p ∈ owned s.
Proof. unfold ready, owned, sender_block. destruct (sender_at s); set_solver. Qed.

Lemma inv_sender k e s :
  inv k s -> (forall junk, e <> Malloc 0 junk) ->
  match sender psize e s with
  | Disabled => True
  | Crash => False
  | Next s' => inv (k + failed [e]) s'
  end.
Proof.
  intros I He. pose proof (owned_NoDup k s I) as Hnd.
  destruct I as [(lost & Hk & Hp) Hs Ht Hq Hl]. unfold sender, owned, ready, sender_block in *.
  destruct (sender_at s) as [|p|p|] eqn:Hpc, e as [p' junk| |[|]| | | |]; try done; cbn [failed List.filter length].
  - destruct (Z.eqb_spec p' 0) as [->|_]; [by destruct (He junk)|].
    destruct (fresh_block psize (heap s) p' junk) eqn:Hf; [|done].
    unfold fresh_block in Hf. rewrite !andb_true_iff in Hf. destruct Hf as [[[H0 H1] Hn] Hj].
    apply bool_decide_eq_true in Hn. apply Z.ltb_lt in H0, H1. apply Nat.eqb_eq in Hj.
    split; cbn; [|split; [by split|]; exists junk; by rewrite lookup_insert_eq| |done|done].
    + exists lost. split; [lia|]. rewrite elements_new by done. by constructor.
    + eapply Forall_impl; [exact Ht|]. intros q. by apply text_at_insert_fresh.
  - destruct Hs as [Hin (b & Hb & Hlb)]. rewrite Hb. step_option.
    destruct (strcpy_text b Hlb) as (b' & -> & Hb'). cbn in Hnd. apply NoDup_cons in Hnd as [Hni _].
    split; cbn; [|done| |done|done].
    + exists lost. split; [lia|]. by rewrite dom_insert_lookup_L.
    + constructor; [exists b'; split; [by rewrite lookup_insert_eq|done]|].
      rewrite Forall_forall in Ht |- *. intros q Hq'. apply text_at_insert_ne; [|by apply Ht].
      intros ->. by destruct Hni.
  - unfold mq_send. assert (Hle : length (pack psize p 999) = (psize + 4)%nat)
      by (unfold pack; by rewrite length_app, !length_le_bytes).
    rewrite Hle. cbn [mq_msgsize mq_maxmsg attributes]. rewrite Nat.ltb_irrefl.
    destruct (Nat.leb_spec 100 (length (queue s))) as [|Hlt]; [done|].
    rewrite enqueue_last.
    2: { eapply Forall_impl; [exact Hq|]. by intros m (q & _ & ->). }
    assert (Hperm : map pointer (queue s ++ [{| msg_prio := 30; msg_data := pack psize p 999 |}]) ++ receiver_block s
      ≡ₚ p :: map pointer (queue s) ++ receiver_block s).
    { rewrite map_app. cbn [map]. rewrite (pointer_pack p Hs), <- app_assoc. cbn.
      by rewrite <- Permutation_middle. }
    split; cbn [sender_at receiver_at queue heap sender_block receiver_block owned ready]; try done.
    + exists lost. split; [lia|]. rewrite <- Hp. cbn. by rewrite Hperm.
    + cbn. unfold receiver_block in *. cbn. by rewrite Hperm.
    + apply Forall_app. split; [done|]. constructor; [|constructor]. by exists p.
    + rewrite length_app. cbn. lia.
  - split; cbn; [|done| |done|done].
    + exists (p :: lost). split; [cbn; lia|]. rewrite <- Hp. cbn. by rewrite <- Permutation_middle.
    + cbn in Ht. by apply Forall_cons in Ht as [_ Ht].
  - split; cbn; [|done|done|done|done]. exists lost. split; [lia|done].
Qed.

Lemma inv_receiver k e s :
  inv k s ->
  match receiver psize e s with
  | Disabled => True
  | Crash => False
  | Next s' => inv k s'
  end.
Proof.
  intros I. pose proof (owned_NoDup k s I) as Hnd.
  destruct I as [(lost & Hk & Hp) Hs Ht Hq Hl]. unfold receiver, owned, ready, receiver_block in *.
  destruct (receiver_at s) as [|p id|p] eqn:Hpc, e as [| | | |[|]| |]; try done.
  - unfold mq_receive. cbn [mq_msgsize attributes]. rewrite Nat.ltb_irrefl.
    destruct (queue s) as [|m q] eqn:Hqs; [done|].
    assert (Hptr : unpack psize (msg_data m) = (pointer m, 999) /\ Forall (fun m => exists p, in_pointer p /\
        m = {| msg_prio := 30; msg_data := pack psize p 999 |}) q).
    { apply Forall_cons in Hq as [(p & Hin & ->) Hq]. split; [|done]. rewrite pointer_pack by done. cbn [msg_data].
      apply unpack_pack; [unfold in_pointer in Hin; lia|by split]. }
    destruct Hptr as [-> Hq']. cbn [map] in Hp, Ht. rewrite app_nil_r in Hp, Ht.
    assert (Hmove : forall l, l ++ pointer m :: map pointer q ≡ₚ l ++ map pointer q ++ [pointer m])
      by (intros l; by rewrite (Permutation_app_comm (map pointer q))).
    split; cbn; [|done| |done|cbn in Hl; lia].
    + exists lost. split; [done|]. unfold owned, sender_block. cbn. by rewrite <- Hmove.
    + unfold ready. cbn. by rewrite <- Hmove.
  - split; cbn; try done. by exists lost.
  - assert (Hp' : text_at (heap s) p) by (rewrite Forall_forall in Ht; apply Ht; set_solver).
    destruct Hp' as (b & -> & _ & Hb & _). step_option. rewrite Hb.
    split; cbn; [|done|done|done|done]. by exists lost.
  - assert (Hp' : text_at (heap s) p) by (rewrite Forall_forall in Ht; apply Ht; set_solver).
    destruct Hp' as (b & -> & _).
    rewrite app_assoc in Hnd, Hp, Ht. apply NoDup_app in Hnd as (_ & Hni & _).
    assert (Hne : forall q, q ∈ sender_block s ++ map pointer (queue s) -> p <> q)
      by (intros q Hq' ->; apply (Hni q Hq'); by left).
    split; cbn; [| | |done|done].
    + exists lost. split; [done|]. apply elements_freed. rewrite <- Hp. unfold owned. cbn.
      by rewrite app_nil_r, <- (Permutation_cons_append _ p).
    + destruct (sender_at s) as [|q|q|] eqn:Hsp; try done.
      destruct Hs as [Hin (c & Hc)]. split; [done|]. exists c. rewrite lookup_delete_ne; [done|].
      apply Hne. unfold sender_block. rewrite Hsp. by left.
    + apply Forall_app in Ht as [Ht _]. unfold ready. cbn. rewrite app_nil_r.
      rewrite Forall_forall in Ht |- *. intros q Hq'. apply text_at_delete; [|by apply Ht].
      apply Hne. unfold sender_block. destruct (sender_at s); set_solver.
Qed.

Lemma inv_step k e s :
  inv k s -> (forall junk, e <> Malloc 0 junk) ->
  match step psize e s with
  | Disabled => True
  | Crash => False
  | Next s' => inv (k + failed [e]) s'
  end.
Proof.
  intros I He. unfold step. destruct (of_sender e) eqn:Hof; [by apply inv_sender|].
  pose proof (inv_receiver k e s I) as H.
  destruct e; try done; cbn; rewrite Nat.add_0_r; exact H.
Qed.

Lemma failed_cons e es : failed (e :: es) = (failed [e] + failed es)%nat.
Proof. unfold failed. cbn. by destruct e as [| |[|]| | | |]. Qed.

(** The state is one of the invariant after every run. *)
Lemma inv_run es : forall k s,
  inv k s -> (forall junk, Malloc 0 junk ∉ es) ->
  match run psize es s with
  | Disabled => True
  | Crash => False
  | Next s' => inv (k + failed es) s'
  end.
Proof.
  induction es as [|e es IH]; intros k s I He; cbn [run]; [by rewrite Nat.add_0_r|].
  pose proof (inv_step k e s I) as Hs. destruct (step psize e s) as [| |s1].
  - done.
  - apply Hs. intros junk ->. by apply (He junk); left.
  - rewrite failed_cons, Nat.add_assoc. apply IH.
    + apply Hs. intros junk ->. by apply (He junk); left.
    + intros junk Hin. apply (He junk). by right.
Qed.

(** A run by priority is a run. *)
Lemma run_prio_run es : forall s s', run_prio psize es s = Next s' -> run psize es s = Next s'.
Proof.
  induction es as [|e es IH]; intros s s'; cbn; [done|]. destruct (of_sender e && _); [done|].
  destruct (step psize e s); [done..|]. apply IH.
Qed.

(** By priority one block is in use at a time. *)
Definition alone (s : state) : Prop :=
  (length (owned s) <= 1)%nat /\
  match sender_at s with Copying _ | Sending _ => receiver_waits s = true | _ => True end.

Lemma waits_nothing s : receiver_waits s = true -> queue s = [] /\ receiver_block s = [].
Proof. unfold receiver_waits, receiver_block. by destruct (receiver_at s), (queue s). Qed.

(** The branches of a step that are possible. *)
Ltac branches H :=
  repeat match type of H with context [match ?x with _ => _ end] => destruct x eqn:? end;
  try discriminate H; injection H as <-.

Lemma alone_step e s s' :
  alone s -> of_sender e && negb (receiver_waits s) = false -> step psize e s = Next s' -> alone s'.
Proof.
  intros [Hl Hw] Hg Hs. unfold step in Hs. destruct (of_sender e) eqn:Hof; cbn [andb] in Hg.
  - apply negb_false_iff in Hg. destruct (waits_nothing s Hg) as [Hq Hr].
    unfold owned in Hl. rewrite Hq, Hr in Hl. unfold receiver_waits in Hg. rewrite Hq in Hg.
    unfold sender, mq_send in Hs. unfold alone, owned, sender_block, receiver_block, receiver_waits.
    destruct (receiver_at s); try done. rewrite Hq in Hs.
    branches Hs; cbn; rewrite ?Hq; cbn; try (split; [lia|done]).
    match goal with H : _ = Success _ |- _ => branches H end. cbn. split; [lia|done].
  - unfold owned, receiver_block in Hl. unfold receiver_waits in Hw.
    unfold receiver, mq_receive in Hs. unfold alone, owned, sender_block, receiver_block, receiver_waits in *.
    branches Hs; cbn; try (split; [exact Hl|done]).
    + destruct (_ <? _)%nat; [done|]. destruct (queue s) as [|x q]; [done|]. simplify_eq. cbn in Hl.
      destruct (sender_at s); try done; cbn in *; rewrite !length_app in *; cbn in *; (split; [lia|done]).
    + destruct (sender_at s); try done; cbn in *; rewrite !length_app in *; cbn in *; (split; [lia|done]).
Qed.

Lemma alone_run es : forall s s', alone s -> run_prio psize es s = Next s' -> alone s'.
Proof.
  induction es as [|e es IH]; intros s s' Ha; cbn; [by intros [= <-]|].
  destruct (of_sender e && _) eqn:Hg; [done|]. destruct (step psize e s) as [| |s1] eqn:Hs; [done..|].
  apply IH. by eapply alone_step.
Qed.
End blocks.
End HeapProofs.

(** ** Theorems *)

(** C33: heap_mq.c of VxWorks, in every interleaving of its tasks and for every
    result of its calls: while malloc returns blocks no access leaves the heap,
    every block in use belongs to exactly one of the sender, a queued message
    and the receiver, or was lost with a send that failed, at most 100 messages
    wait and all of them point to the text; with the priorities of the tasks one
    message waits at most and one block is in use; a NULL from malloc is
    written to. *)
Theorem every_block_owned (psize : nat) (es : list Heap.event) :
  (forall junk, Heap.Malloc 0 junk ∉ es) ->
  Heap.run psize es Heap.start <> Heap.Crash /\
  (forall s, Heap.run psize es Heap.start = Heap.Next s ->
     (exists lost, length lost = HeapProofs.failed es /\
        HeapProofs.owned psize s ++ lost ≡ₚ elements (dom (Heap.heap s))) /\
     Forall (HeapProofs.text_at (Heap.heap s)) (HeapProofs.ready psize s) /\
     (length (Heap.queue s) <= 100)%nat) /\
  (forall s, Heap.run_prio psize es Heap.start = Heap.Next s ->
     (length (Heap.queue s) <= 1)%nat /\ (size (Heap.heap s) <= 1 + HeapProofs.failed es)%nat) /\
  Heap.run psize [Heap.Malloc 0 []; Heap.Strcpy] Heap.start = Heap.Crash.
Proof.
  intros He. pose proof (HeapProofs.inv_run psize es 0 _ (HeapProofs.inv_start psize) He) as H.
  split; [|split; [|split]].
  - by destruct (Heap.run psize es Heap.start).
  - intros s Hs. rewrite Hs in H. by destruct H as [Hp _ Ht _ Hl].
  - intros s Hs. rewrite (HeapProofs.run_prio_run _ _ _ _ Hs) in H. destruct H as [(lost & Hk & Hp) _ _ _ _].
    assert (Ha : HeapProofs.alone psize s)
      by (eapply HeapProofs.alone_run; [|exact Hs]; split; [cbn; lia|done]).
    destruct Ha as [Hle _]. split.
    + unfold HeapProofs.owned in Hle. rewrite !length_app, length_map in Hle. lia.
    + rewrite <- size_dom. unfold size, set_size. cbn. rewrite <- Hp, length_app, Hk. lia.
  - reflexivity.
Qed.

(** A message from [malloc] to [free], on a machine with 32-bit pointers. *)
Lemma every_block_owned_witness :
  let es := [Heap.Malloc 16 (replicate Heap.SIZE 7); Heap.Strcpy; Heap.MqSend true;
             Heap.MqReceive true; Heap.Print; Heap.Free; Heap.Wake] in
  Heap.run_prio 4 es Heap.start = Heap.Next Heap.start /\ Heap.run 4 es Heap.start <> Heap.Crash.
Proof.
  intros es. split; [vm_compute; reflexivity|].
  apply (every_block_owned 4 es). intros junk Hin. unfold es in Hin.
  repeat (apply elem_of_cons in Hin as [Hin|Hin]; [discriminate Hin|]). by apply elem_of_nil in Hin.
Defined.

Lemma canned_text : exists t, Copy.canned_msg = t ++ [0] /\ length t = 94%nat /\ Forall (fun c => c <> 0) t.
Proof.
  exists (take 94 Copy.canned_msg). split; [reflexivity|]. split; [reflexivity|].
  apply (bool_decide_eq_true _). vm_compute. reflexivity.
Qed.

Lemma receiver_text junk t prio q :
  length junk = Copy.MAX_MSG_SIZE -> (S (length t) < Copy.MAX_MSG_SIZE)%nat -> Forall (fun c => c <> 0) t ->
  Copy.receiver Copy.attributes junk ({| msg_prio := prio; msg_data := t ++ [0] |} :: q) =
    (Copy.Printed t prio, q).
Proof.
  intros Hj Hl Ht. unfold Copy.receiver, mq_receive.
  change (_ <? mq_msgsize _)%nat with false. cbv iota. cbn [msg_data msg_prio].
  rewrite store_Some by (rewrite length_app, Hj; cbn [length]; lia). step_option.
  unfold splice. rewrite take_0, app_nil_l, Nat.add_0_l.
  rewrite aset_Some by (rewrite !length_app, length_drop, Hj, ?length_app; cbn [length]; lia). step_option.
  rewrite Nat2Z.id, <- (Nat.add_0_r (length (t ++ [0]))), insert_app_r, <- app_assoc. cbn [app].
  rewrite strlen_app by (rewrite Forall_forall in Ht; exact Ht). step_option.
  by rewrite take_app_length.
Qed.

(** posix_mq.c: with an empty queue the message is delivered, with its priority;
    a full one stops the program in [sender]; a message of 128 bytes that was
    waiting there makes [receiver] write behind its buffer. *)
Theorem posix_mq_once (junk : list Z) (q : list message) (m : message) :
  length junk = Copy.MAX_MSG_SIZE ->
  Copy.main Copy.attributes junk [] = (Copy.Printed (take 94 Copy.canned_msg) 30, []) /\
  (length q = 10%nat -> Copy.main Copy.attributes junk q = (Copy.Waiting, q)) /\
  (length (msg_data m) = Copy.MAX_MSG_SIZE -> 30 <= msg_prio m -> (length q < 9)%nat ->
     fst (Copy.main Copy.attributes junk (m :: q)) = Copy.OutOfBounds).
Proof.
  intros Hj. destruct canned_text as (t & Ht & Hl & Hz). split; [|split].
  - unfold Copy.main, Copy.sender, mq_send. rewrite Ht, length_app, Hl.
    change (_ <? _)%nat with false. cbv iota. change (_ <=? _)%nat with false. cbv iota.
    cbn [enqueue]. rewrite receiver_text by (done || rewrite Hl; unfold Copy.MAX_MSG_SIZE; lia).
    by rewrite take_app_length'.
  - intros Hq. unfold Copy.main, Copy.sender, mq_send. rewrite Ht, length_app, Hl, Hq. done.
  - intros Hm Hp Hq. unfold Copy.main, Copy.sender, mq_send. rewrite Ht, length_app, Hl.
    change (_ <? _)%nat with false. cbv iota. cbn [length mq_maxmsg Copy.attributes].
    rewrite (proj2 (Nat.leb_gt _ _)) by lia. cbn [enqueue msg_prio]. rewrite (proj2 (Z.ltb_ge _ _)) by lia.
    unfold Copy.receiver, mq_receive. change (_ <? _)%nat with false. cbv iota.
    rewrite store_Some by (rewrite Hm, Hj; done). step_option. unfold aset, splice.
    rewrite take_0, app_nil_l, length_app, length_drop, Hm, Hj, Z.ltb_irrefl. done.
Qed.

(** POSIX_MQ_LOOP/heap_mq.c: every message that is received makes the receiver
    write behind its buffer, and the queue never holds more than ten. *)
Theorem loop_receiver_overflows (a : attr) (junk : list Z) (m : message) (q : list message) :
  length junk = Copy.MAX_MSG_SIZE -> (mq_msgsize a <= Copy.MAX_MSG_SIZE)%nat ->
  Loop.receiver_pass a junk (m :: q) = (Copy.OutOfBounds, q).
Proof.
  intros Hj Ha. unfold Loop.receiver_pass, mq_receive. rewrite (proj2 (Nat.ltb_ge _ _) Ha).
  destruct (store junk 0 (msg_data m)) as [b|] eqn:Hs; [|done]. step_option.
  unfold store in Hs. destruct (_ <=? _)%nat eqn:Hle; [|done]. injection Hs as <-. apply Nat.leb_le in Hle.
  unfold aset. rewrite length_splice by lia.
  rewrite (proj2 (Z.ltb_ge _ _)) by (rewrite Hj in *; unfold Copy.MAX_MSG_SIZE in *; lia).
  by rewrite andb_false_r.
Qed.

Theorem loop_sender_bounded (a : attr) (q q' : list message) :
  (length q <= mq_maxmsg a)%nat -> Loop.sender_pass a q = Success q' -> (length q' <= mq_maxmsg a)%nat.
Proof.
  intros Hq. unfold Loop.sender_pass, mq_send. destruct (_ <? _)%nat; [done|].
  destruct (Nat.leb_spec (mq_maxmsg a) (length q)) as [|Hlt]; [done|]. intros [= <-].
  rewrite length_enqueue. lia.
Qed.
