(* ===== verification/TcpSets.v ===== *)
(** * Linux_TCP_Examples/inet_server.c and inet_client.c

    The conversation of the two programs once they are connected: a number of
    sets, and for each set three lines from the server and three from the
    client.  Each program is a deterministic machine over its program counter,
    the two directions of the connection are queues of bytes, and a run is any
    interleaving.  The programs of Linux_serial/ are the same with other lines. *)
From Stdlib Require Import String.
From S2P Require Import Prelude CString.
From stdpp Require Import option list.
#[local] Open Scope Z_scope.

(** ** Two machines whose steps commute *)

Section commuting.
Context {S W : Type} (step : W -> S -> option S).

Fixpoint run (ws : list W) (s : S) : option S :=
  match ws with [] => Some s | w :: ws => s ← step w s; run ws s end.

Lemma run_sides_app ws ws' s s1 : run ws s = Some s1 -> run (ws ++ ws') s = run ws' s1.
Proof.
  revert s; induction ws as [|w ws IH]; intros s; cbn [run app]; [by intros [= ->]|].
  destruct (step w s) as [s'|]; [|done]. apply IH.
Qed.

Lemma run_trans ws ws' s s1 s2 : run ws s = Some s1 -> run ws' s1 = Some s2 -> run (ws ++ ws') s = Some s2.
Proof. intros H1 H2. by rewrite (run_sides_app _ _ _ _ H1). Qed.

(** The steps of different machines commute in the states of an invariant. *)
Context (Inv : S -> Prop) (keeps : forall w s s', Inv s -> step w s = Some s' -> Inv s').
Context (commute : forall v w s a b, Inv s -> v <> w -> step v s = Some a -> step w s = Some b ->
  exists c, step w a = Some c /\ step v b = Some c).
Context `{EqDecision W}.

(** A step and a run from the same state. *)
Lemma strip w ws : forall s a b,
  Inv s -> step w s = Some a -> run ws s = Some b ->
  exists us vs c, run us a = Some c /\ run vs b = Some c /\
    (1 + length us = length ws + length vs)%nat.
Proof.
  induction ws as [|v ws IH]; intros s a b Hi Ha Hb; cbn in Hb.
  - injection Hb as <-. exists [], [w], a. cbn. rewrite Ha. done.
  - destruct (step v s) as [s1|] eqn:Hv; [|done]. cbn in Hb.
    destruct (decide (v = w)) as [->|Hne].
    + rewrite Ha in Hv. injection Hv as <-. exists ws, [], b. cbn. split; [done|]. split; [done|lia].
    + destruct (commute _ _ _ _ _ Hi Hne Hv Ha) as (c & Hc1 & Hc2).
      destruct (IH s1 c b (keeps _ _ _ Hi Hv) Hc1 Hb) as (us & vs & d & H1 & H2 & H3).
      exists (v :: us), vs, d. cbn. rewrite Hc2. split; [done|]. split; [done|]. lia.
Qed.

Lemma run_keeps ws : forall s s', Inv s -> run ws s = Some s' -> Inv s'.
Proof.
  induction ws as [|w ws IH]; intros s s' Hi; cbn; [by intros [= <-]|].
  destruct (step w s) as [s1|] eqn:Hw; [|done]. apply IH. by eapply keeps.
Qed.

(** Two runs from the same state meet, after equally many steps. *)
Lemma meet ws1 : forall ws2 s a b,
  Inv s -> run ws1 s = Some a -> run ws2 s = Some b ->
  exists us vs c, run us a = Some c /\ run vs b = Some c /\
    (length ws1 + length us = length ws2 + length vs)%nat.
Proof.
  induction ws1 as [|w ws1 IH]; intros ws2 s a b Hi Ha Hb; cbn in Ha.
  - injection Ha as <-. exists ws2, [], b. cbn. split; [done|]. split; [done|lia].
  - destruct (step w s) as [s1|] eqn:Hw; [|done]. cbn in Ha.
    destruct (strip w ws2 s s1 b Hi Hw Hb) as (us & vs & c & H1 & H2 & H3).
    destruct (IH us s1 a c (keeps _ _ _ Hi Hw) Ha H1) as (us' & vs' & d & H4 & H5 & H6).
    exists us', (vs ++ vs'), d. split; [done|]. split; [by eapply run_trans|]. rewrite length_app. cbn. lia.
Qed.

(** One run to a state without steps decides all the others. *)
Lemma all_runs_end ws s final :
  Inv s -> run ws s = Some final -> (forall w, step w final = None) ->
  forall ws' s', run ws' s = Some s' ->
    exists us, run us s' = Some final /\ (length ws' + length us = length ws)%nat.
Proof.
  intros Hi Hf Hstuck ws' s' Hs'. destruct (meet ws' ws s s' final Hi Hs' Hf) as (us & vs & c & H1 & H2 & H3).
  destruct vs as [|v vs]; [|cbn in H2; by rewrite Hstuck in H2]. injection H2 as <-.
  exists us. split; [done|]. cbn in H3. lia.
Qed.
End commuting.

(** ** The programs *)

Definition NSTRS : nat := 3.
Definition EOF : Z := -1.

Inductive server_pc := S_recv | S_send (j : Z) (i : nat) | S_read (j : Z) (i : nat) | S_close | S_listen.
Inductive client_pc := C_number | C_read (j : Z) (i : nat) | C_send (j : Z) (i : nat) | C_close | C_done.

Inductive side := Server | Client.
#[export] Instance side_eq_dec : EqDecision side.
Proof. solve_decision. Defined.

(** [taken] counts the bytes that reached the server; the outputs are what
    [putchar] wrote. *)
Record state := {
  server_at : server_pc; client_at : client_pc;
  to_server : list Z; to_client : list Z; taken : nat;
  num_sets : Z; server_out : list Z; client_out : list Z
}.

Definition start : state := Build_state S_recv C_number [] [] 0 0 [] [].

Section session.
(** Whether [char] is signed; the lines of the two programs; the sets the
    client asks for; the bytes of the client that the network delivers: it may
    lose the last ones, as [SO_LINGER] with time 0 discards them at [close]. *)
Context (char_signed : bool) (server_strs client_strs : list (list Z)) (MAX_IT : Z) (delivered : nat).

Definition to_char (c : Z) : Z := if char_signed then swrap 8 c else wrap 8 c.

Definition client_closed (s : state) : bool := match client_at s with C_done => true | _ => false end.
Definition server_closed (s : state) : bool := match server_at s with S_listen => true | _ => false end.

(** What the server can read now. *)
Definition arrived (s : state) : list Z := take (delivered - taken s) (to_server s).

(** [while((c = fgetc(fp)) != EOF) { putchar(c); if(c == '\n') break; }], one
    character: what is written and whether the loop goes on. *)
Definition read_char (r : Z) : list Z * bool :=
  let c := to_char r in
  if c =? EOF then ([], false) else ([u8 c], negb (c =? 10)).

(** [n] is [num_sets]. *)
Definition enter_set (n j : Z) : server_pc := if j <? n then S_send j 0 else S_close.

Definition server_line (go_on : bool) (n j : Z) (i : nat) : server_pc :=
  if go_on then S_read j i
  else if (i + 1 <? NSTRS)%nat then S_read j (i + 1) else enter_set n (j + 1).

Definition server_reads (j : Z) (i : nat) (r : Z) (s : state) : state :=
  let '(out, go_on) := read_char r in
  Build_state (server_line go_on (num_sets s) j i) (client_at s) (to_server s) (to_client s) (taken s) (num_sets s)
    (if num_sets s <? 4 then server_out s ++ out else server_out s) (client_out s).

Definition with_server (pc : server_pc) (s : state) : state :=
  Build_state pc (client_at s) (to_server s) (to_client s) (taken s) (num_sets s) (server_out s) (client_out s).

Definition take_bytes (n : nat) (s : state) : state :=
  Build_state (server_at s) (client_at s) (drop n (to_server s)) (to_client s) (taken s + n) (num_sets s)
    (server_out s) (client_out s).

Definition server_send (bs : list Z) (s : state) : state :=
  Build_state (server_at s) (client_at s) (to_server s) (to_client s ++ bs) (taken s) (num_sets s)
    (server_out s) (client_out s).

(** [recv] overwrites as many bytes of [num_sets] as have come. *)
Definition receive_number (s : state) : state :=
  let b := take 4 (arrived s) in
  let s := take_bytes (length b) s in
  let n := swrap 32 (le_value (b ++ drop (length b) (le_bytes 4 (num_sets s)))) in
  Build_state (server_at s) (client_at s) (to_server s) (to_client s) (taken s) n (server_out s) (client_out s).

Definition server_step (s : state) : option state :=
  match server_at s with
  | S_recv =>
      match arrived s with
      | [] => if client_closed s then Some (with_server (enter_set (num_sets s) 0) s) else None
      | _ => let s := receive_number s in Some (with_server (enter_set (num_sets s) 0) s)
      end
  | S_send j i =>
      bs ← server_strs !! i;
      Some (with_server (if (i + 1 <? NSTRS)%nat then S_send j (i + 1) else S_read j 0) (server_send bs s))
  | S_read j i =>
      match arrived s with
      | r :: _ => Some (server_reads j i r (take_bytes 1 s))
      | [] => if client_closed s then Some (server_reads j i EOF s) else None
      end
  | S_close => Some (with_server S_listen s)
  | S_listen => None
  end.

Definition next_set (j : Z) : client_pc := if j <? MAX_IT then C_read j 0 else C_close.

Definition client_line (go_on : bool) (j : Z) (i : nat) : client_pc :=
  if go_on then C_read j i else if (i + 1 <? NSTRS)%nat then C_read j (i + 1) else C_send j 0.

Definition client_reads (j : Z) (i : nat) (r : Z) (s : state) : state :=
  let '(out, go_on) := read_char r in
  Build_state (server_at s) (client_line go_on j i) (to_server s) (drop 1 (to_client s)) (taken s) (num_sets s)
    (server_out s) (client_out s ++ out).

Definition client_send (bs : list Z) (pc : client_pc) (s : state) : state :=
  Build_state (server_at s) pc (to_server s ++ bs) (to_client s) (taken s) (num_sets s)
    (server_out s) (client_out s).

Definition client_step (s : state) : option state :=
  match client_at s with
  | C_number => Some (client_send (le_bytes 4 MAX_IT) (next_set 0) s)
  | C_read j i =>
      match to_client s with
      | r :: _ => Some (client_reads j i r s)
      | [] => if server_closed s then Some (client_reads j i EOF s) else None
      end
  | C_send j i =>
      bs ← client_strs !! i;
      Some (client_send bs (if (i + 1 <? NSTRS)%nat then C_send j (i + 1) else next_set (j + 1)) s)
  | C_close => Some (client_send [] C_done s)
  | C_done => None
  end.

Definition step (w : side) (s : state) : option state :=
  match w with Server => server_step s | Client => client_step s end.
End session.

(** The lines of the programs. *)
Definition tcp_server_strs : list (list Z) :=
  map (fun l => bytes l ++ [10])
    ["This is the first server string."; "This is the second server string.";
     "This is the third server string."]%string.
Definition tcp_client_strs : list (list Z) :=
  map (fun l => bytes l ++ [10])
    ["Jack be nimble."; "Jack be quick."; "Jack jump over the candlestick."]%string.
Definition tcp_MAX_IT : Z := 3.

Definition serial_server_strs : list (list Z) := tcp_server_strs.
Definition serial_client_strs : list (list Z) :=
  map (fun l => bytes l ++ [10])
    ["This is the first client string."; "This is the second client string.";
     "This is the third client string."]%string.
Definition serial_MAX_IT : Z := 1.

(** ** Commutation *)

Section proofs.
Context (char_signed : bool) (server_strs client_strs : list (list Z)) (MAX_IT : Z) (delivered : nat).
Context (Hdelivered : (4 <= delivered)%nat).

#[local] Abbreviation tcp := (step char_signed server_strs client_strs MAX_IT delivered).

(** The number comes in one piece, and before anything else. *)
Definition whole_number (s : state) : Prop :=
  server_at s = S_recv -> taken s = 0%nat /\
    ((client_at s = C_number /\ to_server s = []) \/ (client_at s <> C_number /\ (4 <= length (to_server s))%nat)).

Lemma length_number : length (le_bytes 4 MAX_IT) = 4%nat.
Proof. apply length_le_bytes. Qed.

Lemma server_leaves_recv s s' :
  server_step char_signed server_strs delivered s = Some s' -> server_at s' <> S_recv.
Proof.
  unfold server_step, server_reads, server_line, enter_set. intros H.
  destruct (server_at s) eqn:Hs; repeat (case_match; try done); simplify_option_eq; cbn; repeat case_match; try done.
Qed.

Lemma whole_number_keeps w s s' : whole_number s -> tcp w s = Some s' -> whole_number s'.
Proof.
  intros Hi. destruct w; cbn.
  { intros H Hr. by destruct (server_leaves_recv s s' H). }
  intros H. unfold whole_number in *.
  assert (Hs : server_at s' = server_at s /\ taken s' = taken s /\ client_at s' <> C_number /\
    exists bs, to_server s' = to_server s ++ bs /\ (client_at s = C_number -> length bs = 4%nat)).
  { unfold client_step, client_reads, client_line, next_set in H.
    destruct (client_at s) eqn:Hc; repeat (case_match; try done); simplify_option_eq; cbn;
      (split; [done|]); (split; [done|]); (split; [by repeat case_match|]);
      first [by eexists | by exists []; rewrite app_nil_r]. }
  destruct Hs as (-> & -> & Hne & bs & -> & Hbs). intros Hr. specialize (Hi Hr) as [Ht Hi].
  split; [done|]. right. split; [done|]. rewrite length_app.
  destruct Hi as [[Hc _]|[_ Hl]]; [rewrite (Hbs Hc); lia | lia].
Qed.

(** What has arrived stays first when the client sends more. *)
Lemma arrived_more n q bs (r : Z) l : take n q = r :: l -> exists l', take n (q ++ bs) = r :: l' /\ drop 1 (q ++ bs) = drop 1 q ++ bs.
Proof. destruct n as [|n], q as [|x q]; cbn; intros [= -> ?]; by eexists. Qed.

(** What a step of the client does depends on nothing the server changes while
    it runs, and the other way round. *)
Lemma client_local s b :
  server_at s <> S_listen -> tcp Client s = Some b ->
  exists pc bs out k,
    b = Build_state (server_at s) pc (to_server s ++ bs) (drop k (to_client s)) (taken s) (num_sets s)
          (server_out s) out /\
    forall spc ts x tk ns so,
      tcp Client (Build_state spc (client_at s) ts (to_client s ++ x) tk ns so (client_out s)) =
      Some (Build_state spc pc (ts ++ bs) (drop k (to_client s) ++ x) tk ns so out).
Proof.
  destruct s as [spc cpc ts tc tk ns so co]. cbn. intros Hopen. unfold client_step. cbn.
  assert (Hsc : forall s, server_at s = spc -> server_closed s = false)
    by (intros s Hs; unfold server_closed; rewrite Hs; by destruct spc).
  destruct cpc as [|j i|j i| |]; cbn; try done.
  - intros [= <-]. by exists (next_set MAX_IT 0), (le_bytes 4 MAX_IT), co, 0%nat.
  - destruct tc as [|r tc]; [by rewrite Hsc|]. unfold client_reads.
    destruct (read_char char_signed r) as [o g] eqn:Hr. intros [= <-].
    exists (client_line g j i), [], (co ++ o), 1%nat. split; [by rewrite app_nil_r|].
    intros. cbn. by rewrite Hr, !app_nil_r.
  - destruct (client_strs !! i) as [bs|]; [|done]. cbn. intros [= <-].
    eexists _, bs, co, 0%nat. split; [reflexivity|]. done.
  - intros [= <-]. by exists C_done, [], co, 0%nat.
Qed.

Lemma server_local s a :
  whole_number s -> client_at s <> C_done -> tcp Server s = Some a ->
  exists pc k x ns so,
    a = Build_state pc (client_at s) (drop k (to_server s)) (to_client s ++ x) (taken s + k) ns so (client_out s) /\
    forall cpc bs tc co,
      tcp Server (Build_state (server_at s) cpc (to_server s ++ bs) tc (taken s) (num_sets s) (server_out s) co) =
      Some (Build_state pc cpc (drop k (to_server s) ++ bs) (tc ++ x) (taken s + k) ns so co).
Proof.
  destruct s as [spc cpc ts tc tk ns so co]. unfold whole_number. cbn. intros Hi Hopen. unfold server_step. cbn.
  assert (Hcc : forall s, client_at s = cpc -> client_closed s = false)
    by (intros s Hs; unfold client_closed; rewrite Hs; by destruct cpc).
  destruct spc as [|j i|j i| |]; cbn; try done.
  - destruct (Hi eq_refl) as [-> [[_ ->]|[_ Hl]]].
    { unfold arrived. cbn. rewrite take_nil. by rewrite Hcc. }
    unfold receive_number, arrived. cbn. rewrite Nat.sub_0_r.
    destruct ts as [|b0 [|b1 [|b2 [|b3 ts]]]]; cbn in Hl; try lia.
    destruct delivered as [|[|[|[|d]]]]; try lia. cbn. rewrite !take_0. cbn. intros [= <-].
    eexists _, 4%nat, [], _, so. split; [by rewrite app_nil_r|]. intros. cbn. rewrite !take_0. cbn. by rewrite app_nil_r, drop_0.
  - destruct (server_strs !! i) as [bs|]; [|done]. cbn. intros [= <-].
    eexists _, 0%nat, bs, ns, so. split; [by rewrite drop_0, Nat.add_0_r|]. intros. cbn.
    by rewrite drop_0, Nat.add_0_r.
  - unfold arrived. cbn. destruct (take (delivered - tk) ts) as [|r l] eqn:Hq; [by rewrite Hcc|].
    unfold server_reads. destruct (read_char char_signed r) as [o g] eqn:Hr. intros [= <-]. cbn.
    eexists _, 1%nat, [], ns, _. split; [by rewrite app_nil_r|]. intros cpc' bs tc' co'. cbn.
    destruct (arrived_more _ _ bs _ _ Hq) as (l' & -> & Hd). rewrite Hr. cbn.
    by rewrite app_nil_r, Hd.
  - intros [= <-]. eexists _, 0%nat, [], ns, so. split; [by rewrite drop_0, Nat.add_0_r, app_nil_r|].
    intros. cbn. by rewrite drop_0, Nat.add_0_r, app_nil_r.
Qed.

Lemma commute_sides s a b :
  whole_number s -> tcp Server s = Some a -> tcp Client s = Some b ->
  exists c, tcp Client a = Some c /\ tcp Server b = Some c.
Proof.
  intros Hi Ha Hb.
  assert (Hs : server_at s <> S_listen) by (intros Hs; cbn in Ha; unfold server_step in Ha; by rewrite Hs in Ha).
  assert (Hc : client_at s <> C_done) by (intros Hc; cbn in Hb; unfold client_step in Hb; by rewrite Hc in Hb).
  destruct (client_local s b Hs Hb) as (pc & bs & out & k & -> & Hcl).
  destruct (server_local s a Hi Hc Ha) as (pc' & k' & x & ns & so & -> & Hsl).
  eexists. split; [apply Hcl|]. apply Hsl.
Qed.

Lemma sides_commute v w s a b :
  whole_number s -> v <> w -> tcp v s = Some a -> tcp w s = Some b ->
  exists c, tcp w a = Some c /\ tcp v b = Some c.
Proof.
  intros Hi Hne Ha Hb. destruct v, w; try done; [exact (commute_sides s a b Hi Ha Hb)|].
  destruct (commute_sides s b a Hi Hb Ha) as (c & H1 & H2). by exists c.
Qed.

(** ** One run *)

#[local] Abbreviation St := Build_state.

(** What the server prints of [l]. *)
Definition echo (n : Z) (l : list Z) : list Z := if n <? 4 then l else [].

Definition plain (c : Z) : Prop := 0 <= c < 128 /\ c <> 10.
Definition is_line (l : list Z) : Prop := exists t, l = t ++ [10] /\ Forall plain t.

Lemma read_char_ascii c : 0 <= c < 128 -> read_char char_signed c = ([c], negb (c =? 10)).
Proof.
  intros Hc. unfold read_char, to_char, EOF.
  assert (Hch : (if char_signed then swrap 8 c else wrap 8 c) = c)
    by (destruct char_signed; [apply swrap_small; cbn; lia | apply wrap_small; unfold in_range; cbn; lia]).
  rewrite Hch, (proj2 (Z.eqb_neq c (-1))) by lia.
  by rewrite wrap_small by (unfold in_range; cbn; lia).
Qed.

Lemma echo_app n a b : echo n (a ++ b) = echo n a ++ echo n b.
Proof. unfold echo. by destruct (n <? 4). Qed.

Lemma run_side_steps {w : side} k ws s1 s2 s3 :
  run tcp (repeat w k) s1 = Some s2 -> run tcp ws s2 = Some s3 -> run tcp (repeat w k ++ ws) s1 = Some s3.
Proof. apply run_trans. Qed.

Lemma client_reads_byte spc j i ts c q tk n so co :
  0 <= c < 128 ->
  tcp Client (St spc (C_read j i) ts (c :: q) tk n so co) =
  Some (St spc (client_line (negb (c =? 10)) j i) ts q tk n so (co ++ [c])).
Proof. intros Hc. cbn. unfold client_reads. by rewrite read_char_ascii. Qed.

Lemma client_reads_line spc j i ts l q tk n so co :
  is_line l ->
  run tcp (repeat Client (length l)) (St spc (C_read j i) ts (l ++ q) tk n so co) =
  Some (St spc (client_line false j i) ts q tk n so (co ++ l)).
Proof.
  intros (t & -> & Ht). revert co. induction Ht as [|c t [Hc Hne] _ IH]; intros co;
    cbn [app length repeat run]; rewrite client_reads_byte by lia; cbn [mbind option_bind].
  - done.
  - rewrite (proj2 (Z.eqb_neq c 10)) by done. cbn [negb client_line]. rewrite IH.
    by rewrite <- app_assoc.
Qed.

Lemma server_reads_byte cpc j i c q tc tk n so co :
  (tk < delivered)%nat -> 0 <= c < 128 ->
  tcp Server (St (S_read j i) cpc (c :: q) tc tk n so co) =
  Some (St (server_line (negb (c =? 10)) n j i) cpc q tc (tk + 1) n (so ++ echo n [c]) co).
Proof.
  intros Htk Hc. cbn. unfold server_step, arrived. cbn.
  destruct (delivered - tk)%nat as [|d] eqn:Hd; [lia|]. cbn. unfold server_reads.
  rewrite read_char_ascii by done. cbn. unfold echo. destruct (n <? 4); [done|]. by rewrite app_nil_r.
Qed.

Lemma server_reads_chars cpc j i t q tc tk n so co :
  (tk + length t <= delivered)%nat -> Forall plain t ->
  run tcp (repeat Server (length t)) (St (S_read j i) cpc (t ++ q) tc tk n so co) =
  Some (St (S_read j i) cpc q tc (tk + length t) n (so ++ echo n t) co).
Proof.
  intros Hl Ht. revert tk so Hl. induction Ht as [|c t [Hc Hne] _ IH]; intros tk so Hl;
    cbn [app length repeat run] in *.
  - rewrite Nat.add_0_r. unfold echo. destruct (n <? 4); by rewrite app_nil_r.
  - rewrite server_reads_byte by lia. cbn [mbind option_bind].
    rewrite (proj2 (Z.eqb_neq c 10)) by done. cbn [negb server_line].
    rewrite IH by lia. rewrite <- app_assoc, <- echo_app. cbn [app].
    by replace (tk + 1 + length t)%nat with (tk + S (length t))%nat by lia.
Qed.

Lemma server_reads_line cpc j i l q tc tk n so co :
  (tk + length l <= delivered)%nat -> is_line l ->
  run tcp (repeat Server (length l)) (St (S_read j i) cpc (l ++ q) tc tk n so co) =
  Some (St (server_line false n j i) cpc q tc (tk + length l) n (so ++ echo n l) co).
Proof.
  intros Hl (t & -> & Ht). rewrite length_app in *. cbn [length] in *.
  rewrite repeat_app. apply (run_side_steps _ _ _ (St (S_read j i) cpc ([10] ++ q) tc (tk + length t) n (so ++ echo n t) co)).
  - rewrite <- app_assoc. apply server_reads_chars; [lia|done].
  - cbn [repeat run app]. rewrite server_reads_byte by lia. cbn. 
    by rewrite <- app_assoc, <- echo_app, Nat.add_assoc.
Qed.

Context (Hserver : length server_strs = NSTRS /\ Forall is_line server_strs).
Context (Hclient : length client_strs = NSTRS /\ Forall is_line client_strs).
Context (Hmax : 1 <= MAX_IT <= INT_MAX).

Lemma three (l : list (list Z)) :
  length l = NSTRS /\ Forall is_line l ->
  exists a b c, l = [a; b; c] /\ is_line a /\ is_line b /\ is_line c.
Proof.
  intros [Hl Hf]. destruct l as [|a [|b [|c [|d l]]]]; try done.
  apply Forall_cons in Hf as [Ha Hf]. apply Forall_cons in Hf as [Hb Hf]. apply Forall_cons in Hf as [Hc _].
  by exists a, b, c.
Qed.

Lemma server_sends cpc ts tc tk n so co j :
  run tcp (repeat Server 3) (St (S_send j 0) cpc ts tc tk n so co) =
  Some (St (S_read j 0) cpc ts (tc ++ concat server_strs) tk n so co).
Proof.
  destruct (three _ Hserver) as (a & b & c & -> & _). cbn.
  unfold with_server, server_send. cbn. by rewrite app_nil_r, <- !app_assoc.
Qed.

Lemma client_sends spc ts tc tk n so co j :
  run tcp (repeat Client 3) (St spc (C_send j 0) ts tc tk n so co) =
  Some (St spc (next_set MAX_IT (j + 1)) (ts ++ concat client_strs) tc tk n so co).
Proof.
  destruct (three _ Hclient) as (a & b & c & -> & _). cbn.
  unfold client_send. cbn. by rewrite app_nil_r, <- !app_assoc.
Qed.

Lemma client_reads_set spc ts tk n so co j :
  exists ws, run tcp ws (St spc (C_read j 0) ts (concat server_strs) tk n so co) =
    Some (St spc (C_send j 0) ts [] tk n so (co ++ concat server_strs)).
Proof.
  destruct (three _ Hserver) as (a & b & c & E & Ha & Hb & Hc).
  rewrite (f_equal (@concat Z) E). cbn [concat].
  eexists. eapply run_trans; [by apply client_reads_line|]. eapply run_trans; [by apply client_reads_line|].
  etrans; [by apply client_reads_line|]. cbn. by rewrite <- !app_assoc, app_nil_r.
Qed.

Lemma server_reads_set cpc tc tk n so co j :
  (tk + length (concat client_strs) <= delivered)%nat ->
  exists ws, run tcp ws (St (S_read j 0) cpc (concat client_strs) tc tk n so co) =
    Some (St (enter_set n (j + 1)) cpc [] tc (tk + length (concat client_strs)) n
            (so ++ echo n (concat client_strs)) co).
Proof.
  destruct (three _ Hclient) as (a & b & c & E & Ha & Hb & Hc).
  rewrite (f_equal (@concat Z) E). cbn [concat]. rewrite !length_app. intros Hl. cbn [length] in Hl.
  eexists. eapply run_trans; [apply server_reads_line; [lia|done]|].
  eapply run_trans; [apply server_reads_line; [lia|done]|].
  etrans; [apply server_reads_line; [lia|done]|]. cbn.
  rewrite app_nil_r, !echo_app, <- !app_assoc. by rewrite Nat.add_0_r, !Nat.add_assoc.
Qed.

Lemma next_set_more j : j < MAX_IT -> next_set MAX_IT j = C_read j 0.
Proof. intros H. unfold next_set. by rewrite (proj2 (Z.ltb_lt _ _) H). Qed.
Lemma enter_set_more j n : j < n -> enter_set n j = S_send j 0.
Proof. intros H. unfold enter_set. by rewrite (proj2 (Z.ltb_lt _ _) H). Qed.

(** A set that is not the last. *)
Lemma one_set tk so co j :
  j + 1 < MAX_IT -> (tk + length (concat client_strs) <= delivered)%nat ->
  exists ws, run tcp ws (St (S_send j 0) (C_read j 0) [] [] tk MAX_IT so co) =
    Some (St (S_send (j + 1) 0) (C_read (j + 1) 0) [] [] (tk + length (concat client_strs)) MAX_IT
            (so ++ echo MAX_IT (concat client_strs)) (co ++ concat server_strs)).
Proof.
  intros Hj Hl.
  destruct (client_reads_set (S_read j 0) [] tk MAX_IT so co j) as [ws1 H1].
  destruct (server_reads_set (C_read (j + 1) 0) [] tk MAX_IT so (co ++ concat server_strs) j Hl) as [ws2 H2].
  eexists. eapply run_trans; [apply server_sends|]. eapply run_trans; [exact H1|].
  eapply run_trans; [apply client_sends|]. rewrite next_set_more by done.
  cbn [app]. rewrite <- (enter_set_more (j + 1) MAX_IT) by done. exact H2.
Qed.

(** [m] sets, then the server has sent the lines of one more. *)
Lemma many_sets m : forall tk so co j,
  j + Z.of_nat m < MAX_IT -> (tk + m * length (concat client_strs) <= delivered)%nat ->
  exists ws, run tcp ws (St (S_send j 0) (C_read j 0) [] [] tk MAX_IT so co) =
    Some (St (S_send (j + Z.of_nat m) 0) (C_read (j + Z.of_nat m) 0) [] []
            (tk + m * length (concat client_strs)) MAX_IT
            (so ++ echo MAX_IT (concat (replicate m (concat client_strs))))
            (co ++ concat (replicate m (concat server_strs)))).
Proof.
  induction m as [|m IH]; intros tk so co j Hj Hl.
  - exists []. cbn. unfold echo. rewrite Z.add_0_r, Nat.add_0_r, app_nil_r.
    destruct (_ <? _); by rewrite app_nil_r.
  - destruct (one_set tk so co j) as [ws1 H1]; [lia|cbn in Hl; lia|].
    destruct (IH (tk + length (concat client_strs))%nat (so ++ echo MAX_IT (concat client_strs))
      (co ++ concat server_strs) (j + 1)) as [ws2 H2]; [lia|cbn in Hl; lia|].
    exists (ws1 ++ ws2). eapply run_trans; [exact H1|]. rewrite H2. cbn [replicate concat].
    rewrite echo_app, <- !app_assoc. replace (j + 1 + Z.of_nat m) with (j + Z.of_nat (S m)) by lia.
    by replace (tk + length (concat client_strs) + m * length (concat client_strs))%nat
      with (tk + S m * length (concat client_strs))%nat by lia.
Qed.

(** The number, and the sets before the last. *)
Lemma opening :
  (4 + (Z.to_nat MAX_IT - 1) * length (concat client_strs) <= delivered)%nat ->
  exists ws, run tcp ws start =
    Some (St (S_send (MAX_IT - 1) 0) (C_read (MAX_IT - 1) 0) [] []
            (4 + (Z.to_nat MAX_IT - 1) * length (concat client_strs)) MAX_IT
            (echo MAX_IT (concat (replicate (Z.to_nat MAX_IT - 1) (concat client_strs))))
            (concat (replicate (Z.to_nat MAX_IT - 1) (concat server_strs)))).
Proof.
  intros Hd. destruct (many_sets (Z.to_nat MAX_IT - 1) 4 [] [] 0) as [ws Hws]; [lia|done|].
  exists ([Client; Server] ++ ws). eapply run_trans.
  2: { rewrite Hws. by replace (0 + Z.of_nat (Z.to_nat MAX_IT - 1)) with (MAX_IT - 1) by lia. }
  assert (Hr : tcp Server (St S_recv (C_read 0 0) (le_bytes 4 MAX_IT) [] 0 0 [] []) =
    Some (St (S_send 0 0) (C_read 0 0) [] [] 4 MAX_IT [] [])).
  { unfold step, server_step, receive_number, arrived. cbn [server_at client_at to_server to_client taken
      num_sets server_out client_out]. rewrite Nat.sub_0_r, (take_ge (le_bytes 4 MAX_IT)) by (rewrite length_number; lia).
    rewrite (take_ge (le_bytes 4 MAX_IT)) by by rewrite length_number.
    rewrite length_number, (drop_ge (le_bytes 4 0)) by by rewrite length_le_bytes.
    rewrite app_nil_r, le_value_bytes, Z.mod_small, swrap_int by (unfold INT_MAX, INT_MIN in *; cbn; lia).
    unfold take_bytes. cbn [server_at client_at to_server to_client taken num_sets server_out client_out].
    rewrite (drop_ge (le_bytes 4 MAX_IT)) by by rewrite length_number.
    unfold with_server. cbn. by rewrite (enter_set_more 0 MAX_IT) by lia. }
  cbn [run]. change (tcp Client start) with
    (Some (St S_recv (next_set MAX_IT 0) (le_bytes 4 MAX_IT) [] 0 0 [] [])).
  cbn [mbind option_bind]. rewrite next_set_more by lia. rewrite Hr. reflexivity.
Qed.

(** *** The last set *)

(** What arrives of the lines when the last bytes are lost. *)
Lemma server_reads_part ls : forall cpc i tc tk n so co j,
  Forall is_line ls -> (length ls + i = NSTRS)%nat -> (tk <= delivered)%nat ->
  (delivered - tk < length (concat ls))%nat ->
  exists ws i', (i' < NSTRS)%nat /\
    run tcp ws (St (S_read j i) cpc (concat ls) tc tk n so co) =
    Some (St (S_read j i') cpc (drop (delivered - tk) (concat ls)) tc delivered n
            (so ++ echo n (take (delivered - tk) (concat ls))) co).
Proof.
  induction ls as [|l ls IH]; intros cpc i tc tk n so co j Hls Hi Htk Hk; cbn [concat length] in *; [lia|].
  apply Forall_cons in Hls as [Hl Hls]. rewrite length_app in Hk.
  destruct (le_lt_dec (length l) (delivered - tk)) as [Hle|Hlt].
  - assert (Hls' : ls <> []) by (intros ->; cbn in Hk; lia).
    assert (Hi' : (i + 1 < NSTRS)%nat) by (destruct ls; [done|cbn in Hi; lia]).
    destruct (IH cpc (i + 1)%nat tc (tk + length l)%nat n (so ++ echo n l) co j) as (ws & i' & Hi2 & Hws);
      [done|lia|lia|lia|].
    exists (repeat Server (length l) ++ ws), i'. split; [done|].
    eapply run_trans; [apply server_reads_line; [lia|done]|].
    cbn [server_line]. rewrite (proj2 (Nat.ltb_lt _ _)) by done. rewrite Hws.
    rewrite drop_app_ge, take_app_ge by lia. rewrite echo_app, <- app_assoc.
    by replace (delivered - (tk + length l))%nat with (delivered - tk - length l)%nat by lia.
  - destruct Hl as (t & -> & Ht). rewrite length_app in Hlt. cbn in Hlt.
    set (k := (delivered - tk)%nat) in *.
    exists (repeat Server (length (take k t))), i. split; [lia|].
    rewrite <- (take_drop k t) at 2. rewrite <- !app_assoc.
    rewrite server_reads_chars; [|rewrite length_take; lia|by apply Forall_take].
    rewrite length_take, (drop_app_le t), (take_app_le t) by lia.
    by replace (tk + k `min` length t)%nat with delivered by lia.
Qed.

Lemma server_at_eof ts tc n so co j i :
  char_signed = true ->
  tcp Server (St (S_read j i) C_done ts tc delivered n so co) =
  Some (St (server_line false n j i) C_done ts tc delivered n so co).
Proof.
  intros Hs. assert (E : read_char char_signed EOF = ([], false)) by by rewrite Hs.
  cbn. unfold server_step, arrived. cbn. rewrite Nat.sub_diag, take_0. cbn. unfold server_reads.
  rewrite E. cbn. rewrite app_nil_r. by destruct (n <? 4).
Qed.

Lemma server_ends_set ts tc n so co j i :
  char_signed = true -> (i < NSTRS)%nat ->
  exists ws, run tcp ws (St (S_read j i) C_done ts tc delivered n so co) =
    Some (St (enter_set n (j + 1)) C_done ts tc delivered n so co).
Proof.
  intros Hs Hi. exists (repeat Server (NSTRS - i)).
  destruct i as [|[|[|i]]]; [| | |unfold NSTRS in Hi; lia]; cbn [NSTRS Nat.sub repeat run];
    rewrite ?server_at_eof by done; cbn [mbind option_bind server_line]; cbn [Nat.add NSTRS Nat.ltb Nat.leb];
    repeat (rewrite server_at_eof by done; cbn [mbind option_bind server_line]; cbn [Nat.add NSTRS Nat.ltb Nat.leb]);
    done.
Qed.

(** What the client has sent after the number. *)
Definition client_text : list Z := concat (replicate (Z.to_nat MAX_IT) (concat client_strs)).
Definition server_text : list Z := concat (replicate (Z.to_nat MAX_IT) (concat server_strs)).

Definition final : state :=
  St S_listen C_done (drop (delivered - 4) client_text) [] delivered MAX_IT
    (echo MAX_IT (take (delivered - 4) client_text)) server_text.

Context (Hlast : (4 + (Z.to_nat MAX_IT - 1) * length (concat client_strs) <= delivered)%nat).
Context (Hall : (delivered <= 4 + Z.to_nat MAX_IT * length (concat client_strs))%nat).

Lemma length_replicated m (l : list Z) : length (concat (replicate m l)) = (m * length l)%nat.
Proof. induction m as [|m IH]; cbn; [done|]. by rewrite length_app, IH. Qed.

Lemma replicated_last m (l : list Z) : (0 < m)%nat -> concat (replicate m l) = concat (replicate (m - 1) l) ++ l.
Proof.
  intros Hm. destruct m as [|m]; [lia|]. rewrite Nat.sub_succ, Nat.sub_0_r, replicate_S_end, concat_app.
  cbn. by rewrite app_nil_r.
Qed.

(** The client is done, the server is about to read the last lines. *)
Definition tk_last : nat := 4 + (Z.to_nat MAX_IT - 1) * length (concat client_strs).

Lemma tk_last_bounds : (tk_last <= delivered <= tk_last + length (concat client_strs))%nat.
Proof.
  unfold tk_last. split; [exact Hlast|]. assert (1 <= Z.to_nat MAX_IT)%nat by lia.
  destruct (Z.to_nat MAX_IT) as [|m]; [lia|]. cbn in *. lia.
Qed.

Lemma client_ends :
  exists ws, run tcp ws start =
    Some (St (S_read (MAX_IT - 1) 0) C_done (concat client_strs) [] tk_last MAX_IT
            (echo MAX_IT (concat (replicate (Z.to_nat MAX_IT - 1) (concat client_strs)))) server_text).
Proof.
  destruct (opening Hlast) as [ws Hws].
  set (so := echo MAX_IT _) in *. set (co := concat (replicate _ (concat server_strs))) in *.
  destruct (client_reads_set (S_read (MAX_IT - 1) 0) [] tk_last MAX_IT so co (MAX_IT - 1)) as [ws1 H1].
  exists (ws ++ repeat Server 3 ++ ws1 ++ repeat Client 3 ++ [Client]).
  eapply run_trans; [exact Hws|]. eapply run_trans; [apply server_sends|]. eapply run_trans; [exact H1|].
  eapply run_trans; [apply client_sends|].
  unfold next_set. rewrite (proj2 (Z.ltb_ge _ _)) by lia. cbn. unfold client_send. cbn.
  unfold server_text. rewrite replicated_last by lia. by rewrite app_nil_r.
Qed.

Lemma run_to_final :
  char_signed = true \/ delivered = (tk_last + length (concat client_strs))%nat ->
  exists ws, run tcp ws start = Some final.
Proof.
  intros Hs. destruct client_ends as [ws Hws].
  set (so := echo MAX_IT (concat (replicate _ (concat client_strs)))) in *.
  pose proof tk_last_bounds as Hb. set (k := (delivered - tk_last)%nat).
  assert (Hrest : exists ws, run tcp ws
      (St (S_read (MAX_IT - 1) 0) C_done (concat client_strs) [] tk_last MAX_IT so server_text) =
    Some (St S_close C_done (drop k (concat client_strs)) [] delivered MAX_IT
      (so ++ echo MAX_IT (take k (concat client_strs))) server_text)).
  { assert (Hend : enter_set MAX_IT (MAX_IT - 1 + 1) = S_close)
      by (unfold enter_set; by rewrite (proj2 (Z.ltb_ge _ _)) by lia).
    destruct (le_lt_dec (length (concat client_strs)) k) as [Hge|Hlt].
    - destruct (server_reads_set C_done [] tk_last MAX_IT so server_text (MAX_IT - 1)) as [ws1 H1];
        [unfold k in *; lia|].
      exists ws1. rewrite H1, Hend, drop_ge, take_ge by done.
      by replace (tk_last + length (concat client_strs))%nat with delivered by (unfold k in *; lia).
    - destruct Hs as [Hs|Hs]; [|unfold k in *; lia]. destruct Hclient as [Hlen Hlines].
      destruct (server_reads_part client_strs C_done 0 [] tk_last MAX_IT so server_text (MAX_IT - 1))
        as (ws1 & i & Hi & H1); [done|rewrite Hlen; done|lia|done|].
      destruct (server_ends_set (drop k (concat client_strs)) [] MAX_IT
        (so ++ echo MAX_IT (take k (concat client_strs))) server_text (MAX_IT - 1) i Hs Hi) as [ws2 H2].
      exists (ws1 ++ ws2). rewrite Hend in H2.
      eapply run_trans; [exact H1|exact H2]. }
  destruct Hrest as [ws1 H1]. exists (ws ++ ws1 ++ [Server]).
  eapply run_trans; [exact Hws|]. eapply run_trans; [exact H1|]. cbn. unfold with_server, final. cbn.
  unfold client_text. rewrite replicated_last by lia. set (C := concat (replicate _ (concat client_strs))) in *.
  assert (HC : (delivered - 4 = length C + k)%nat)
    by (unfold C; rewrite length_replicated; unfold k, tk_last; lia).
  rewrite HC, drop_app_add, take_app_add, echo_app. done.
Qed.

Lemma start_whole : whole_number start.
Proof. intros _. split; [done|]. by left. Qed.

Lemma final_stuck w : tcp w final = None.
Proof. by destruct w. Qed.

(** *** A reader that never sees the end of the stream *)

Definition spinning (s : state) : Prop :=
  client_at s = C_done /\ arrived delivered s = [] /\ exists j i, server_at s = S_read j i.

Definition leaving (s : state) : Prop := server_at s = S_close \/ server_at s = S_listen.

Lemma spinning_step w s s' : char_signed = false -> spinning s -> tcp w s = Some s' -> spinning s'.
Proof.
  intros Hs (Hc & Ha & j & i & Hr). assert (E : read_char char_signed EOF = ([255], true)) by by rewrite Hs.
  destruct w; cbn.
  - unfold server_step. rewrite Hr, Ha. unfold client_closed. rewrite Hc. unfold server_reads. rewrite E.
    intros [= <-]. split; [exact Hc|]. split; [exact Ha|]. by exists j, i.
  - unfold client_step. by rewrite Hc.
Qed.

Lemma leaving_step w s s' : leaving s -> tcp w s = Some s' -> leaving s'.
Proof.
  intros Hl. destruct w; cbn.
  - unfold server_step. destruct Hl as [-> | ->]; [|done]. intros [= <-]. by right.
  - unfold client_step, client_reads. intros H.
    repeat (case_match; try done); simplify_option_eq; exact Hl.
Qed.

Lemma run_spins :
  char_signed = false -> (delivered < tk_last + length (concat client_strs))%nat ->
  exists ws s, run tcp ws start = Some s /\ spinning s.
Proof.
  intros Hs Hlt. pose proof tk_last_bounds as Hb. destruct client_ends as [ws Hws].
  destruct Hclient as [Hlen Hlines].
  destruct (server_reads_part client_strs C_done 0 [] tk_last MAX_IT
    (echo MAX_IT (concat (replicate (Z.to_nat MAX_IT - 1) (concat client_strs)))) server_text (MAX_IT - 1))
    as (ws1 & i & Hi & H1); [done|rewrite Hlen; done|lia|lia|].
  eexists (ws ++ ws1), _. split; [by eapply run_trans|].
  split; [done|]. split; [|by eexists _, _]. unfold arrived. cbn [taken]. by rewrite Nat.sub_diag, take_0.
Qed.
End proofs.

(** ** Theorems *)

(** C32: the server and the client, for all lines, numbers of sets and
    interleavings, when the network loses at most the last lines of the client
    (which [SO_LINGER] may do at its close): where [char] is signed, or nothing
    is lost, every run can be continued to the same end after the same number of
    steps, so neither waits for the other for ever; at the end the client has
    printed every line of the server and the server what arrived of the client's
    lines, if there were fewer than four sets.  Where [char] is unsigned and a
    byte is lost, the server never leaves the loop that reads it. *)
Theorem sets_exchanged (server_strs client_strs : list (list Z)) (MAX_IT : Z) (delivered : nat) :
  length server_strs = NSTRS /\ Forall is_line server_strs ->
  length client_strs = NSTRS /\ Forall is_line client_strs ->
  1 <= MAX_IT <= INT_MAX ->
  let set := length (concat client_strs) in
  let all := (4 + Z.to_nat MAX_IT * set)%nat in
  (all - set <= delivered <= all)%nat ->
  (forall char_signed, char_signed = true \/ delivered = all ->
   exists n, forall ws s,
     run (step char_signed server_strs client_strs MAX_IT delivered) ws start = Some s ->
     exists us, (length ws + length us)%nat = n /\
       run (step char_signed server_strs client_strs MAX_IT delivered) us s =
       Some (final server_strs client_strs MAX_IT delivered)) /\
  ((delivered < all)%nat -> forall ws s,
     run (step false server_strs client_strs MAX_IT delivered) ws start = Some s ->
     server_at s <> S_close /\ server_at s <> S_listen).
Proof.
  intros Hs Hc Hm set all Hd.
  assert (Hset : all = (4 + (Z.to_nat MAX_IT - 1) * set + set)%nat).
  { unfold all. assert (1 <= Z.to_nat MAX_IT)%nat by lia.
    destruct (Z.to_nat MAX_IT) as [|m]; [lia|]. rewrite Nat.sub_succ, Nat.sub_0_r. lia. }
  pose proof (Nat.le_0_l ((Z.to_nat MAX_IT - 1) * set)) as Hpos.
  assert (H4 : (4 <= delivered)%nat) by lia.
  assert (Hlast : (4 + (Z.to_nat MAX_IT - 1) * set <= delivered)%nat) by lia.
  split.
  - intros cs Hend.
    destruct (run_to_final cs server_strs client_strs MAX_IT delivered H4 Hs Hc Hm Hlast) as [ws0 H0]; [lia|..].
    + destruct Hend as [Hend|Hend]; [by left|right]. unfold tk_last. fold set. lia.
    + exists (length ws0). intros ws s Hws.
      destruct (all_runs_end _ whole_number (whole_number_keeps cs server_strs client_strs MAX_IT delivered H4)
        (sides_commute cs server_strs client_strs MAX_IT delivered H4) ws0 start _ start_whole H0
        (final_stuck _ _ _ _ _) ws s Hws) as (us & H1 & H2). by exists us.
  - intros Hlt ws s Hws.
    destruct (run_spins false server_strs client_strs MAX_IT delivered H4 Hs Hc Hm Hlast) as (ws0 & s0 & H0 & Hsp);
      [lia|done|unfold tk_last; fold set; lia|].
    enough (~ leaving s) as Hn by (split; intros H; apply Hn; [by left|by right]).
    intros Hl.
    destruct (meet _ whole_number (whole_number_keeps false server_strs client_strs MAX_IT delivered H4)
        (sides_commute false server_strs client_strs MAX_IT delivered H4) ws ws0 start s s0 start_whole Hws H0)
      as (us & vs & c & H1 & H2 & _).
    assert (Hc1 : leaving c) by (eapply run_keeps; [|exact Hl|exact H1]; intros w' x y Hx; by apply leaving_step).
    assert (Hc2 : spinning delivered c)
      by (eapply run_keeps; [|exact Hsp|exact H2]; intros w' x y Hx; by apply spinning_step).
    destruct Hc2 as (_ & _ & j & i & Hr). destruct Hc1 as [Hc1|Hc1]; congruence.
Qed.

(** The strings of the source files are lines. *)
Definition lineb (l : list Z) : bool :=
  match reverse l with
  | c :: t => (c =? 10) && forallb (fun c => (0 <=? c) && (c <? 128) && negb (c =? 10)) t
  | [] => false
  end.

Lemma lineb_is_line l : lineb l = true -> is_line l.
Proof.
  unfold lineb. intros H. destruct (reverse l) as [|c t] eqn:Hr; [done|].
  apply andb_true_iff in H as [->%Z.eqb_eq Ht]. exists (reverse t). split.
  - by rewrite <- reverse_cons, <- Hr, reverse_involutive.
  - apply Forall_reverse. apply Forall_forall. intros x Hx.
    rewrite forallb_forall in Ht. apply list_elem_of_In in Hx. specialize (Ht x Hx).
    unfold plain. rewrite !andb_true_iff, negb_true_iff in Ht. lia.
Qed.

Lemma lines_of strs : forallb lineb strs = true -> Forall is_line strs.
Proof.
  intros H. rewrite forallb_forall in H. apply Forall_forall. intros l Hl%list_elem_of_In.
  by apply lineb_is_line, H.
Qed.

(** The programs of Linux_TCP_Examples, with nothing lost. *)
Lemma sets_exchanged_witness :
  exists n, forall ws s,
    run (step true tcp_server_strs tcp_client_strs tcp_MAX_IT 193) ws start = Some s ->
    exists us, (length ws + length us)%nat = n /\
      run (step true tcp_server_strs tcp_client_strs tcp_MAX_IT 193) us s =
      Some (final tcp_server_strs tcp_client_strs tcp_MAX_IT 193).
Proof.
  apply (sets_exchanged tcp_server_strs tcp_client_strs tcp_MAX_IT 193).
  - split; [reflexivity|]. apply lines_of. reflexivity.
  - split; [reflexivity|]. apply lines_of. reflexivity.
  - unfold INT_MAX, tcp_MAX_IT. lia.
  - vm_compute. lia.
  - by left.
Defined.
