(* ===== verification/Brighten.v ===== *)
(** * Image brightening: c-brighten/brighten.c

    The whole program as a function from the bytes of the input file to those of
    brighter.ppm: the header is read line by line, the pixels are scaled, raised
    and saturated.  A file is its bytes; [fread] gives all it is asked for unless
    the file ends. *)
From Stdlib Require Import String.
From S2P Require Import Prelude CString Sys.
From stdpp Require Import option list.
#[local] Open Scope Z_scope.

(** The program calls nothing that the model leaves open: [Exit] is exit(-1),
    [Wild] an access outside an array or the use of an unset variable. *)
#[local] Abbreviation prog := (prog Empty_set).

(** ** Input *)

(** An open file: what is left, and the end-of-file indicator. *)
Record file := { rest : list Z; at_end : bool }.

Fixpoint line_of (f : list Z) : list Z * list Z :=
  match f with
  | [] => ([], [])
  | c :: f => if c =? 10 then ([c], f) else let '(l, r) := line_of f in (c :: l, r)
  end.

(** [getline]: a line with its newline, [None] at the end of the file. *)
Definition getline (f : file) : option (list Z * file) :=
  match rest f with
  | [] => None
  | _ => let '(l, r) := line_of (rest f) in
         Some (l, {| rest := r; at_end := match r with [] => negb (bool_decide (last l = Some 10)) | _ => at_end f end |})
  end.

Definition is_space (c : Z) : bool := (c =? 32) || (9 <=? c) && (c <=? 13).
Definition is_digit (c : Z) : bool := (48 <=? c) && (c <=? 57).

Fixpoint span (p : Z -> bool) (s : list Z) : list Z * list Z :=
  match s with
  | [] => ([], [])
  | c :: s' => if p c then let '(a, b) := span p s' in (c :: a, b) else ([], s)
  end.

(** The characters of a string before its terminator. *)
Definition chars (s : list Z) : list Z := fst (span (fun c => negb (c =? 0)) s).

(** [%s]: the first word. *)
Definition scan_word (s : list Z) : list Z :=
  fst (span (fun c => negb (is_space c)) (snd (span is_space (chars s)))).

(** [%u] of a string without sign: the value and what follows; [None] where there
    are no digits or the value does not fit, which leaves the variable unset. *)
Definition scan_u (s : list Z) : option (Z * list Z) :=
  let '(ds, r) := span is_digit (snd (span is_space s)) in
  match ds with [] => None | _ => if undigits ds <? 2 ^ 32 then Some (undigits ds, r) else None end.

(** [sscanf(aline, "%u %u", &col, &row)] *)
Definition scan_size (s : list Z) : option (Z * Z) :=
  a ← scan_u (chars s); b ← scan_u (snd a); Some (fst a, fst b).

(** [strcat] of a string into an array. *)
Definition strcat (a s : list Z) : option (list Z) := strncat a 0 (chars s) (length (chars s)).

(** ** readppm *)

Record image := { img : list Z; image_header : list Z; headerlen : Z; bufflen : Z; row : Z; col : Z; chan : Z }.

(** A line of the header: only a failure that makes [*headerlen] negative is
    noticed; after another one [aline] is unspecified. *)
Definition header_line (f : file) (header : list Z) (headerlen : Z) :
    prog (list Z * file * list Z * Z) :=
  match getline f with
  | None => if headerlen + -1 <? 0 then Exit else Wild
  | Some (l, f) => h ← or_wild (strcat header l); Value (l, f, h, headerlen + Z.of_nat (length l))
  end.

(** The loop of [fread]: [size] bytes at a time. *)
Fixpoint read_pixels (n : nat) (f : file) (size : nat) (off : nat) (toread : Z) (img : list Z) :
    prog (list Z) :=
  match n with
  | O => Running
  | S n =>
      let b := take size (rest f) in
      let f := {| rest := drop size (rest f); at_end := at_end f || (length b <? size)%nat |} in
      match b with
      | [] => if at_end f then Value img else Exit
      | _ =>
          img ← or_wild (store img off b);
          let toread := i32 (toread - Z.of_nat (length b)) in
          if (0 <? toread) && negb (at_end f) then read_pixels n f size (off + length b) toread img
          else Value img
      end
  end.

(** The size of [magic]. *)
Definition MAGIC : nat := 2.

(** [behind] is the number of bytes behind [magic] that nothing uses: 0 as far as
    C goes; the padding of the stack frame, on a machine. *)
Definition readppm (fuel behind : nat) (img header : list Z) (content : list Z) : prog image :=
  a ← header_line {| rest := content; at_end := false |} header 0;
  let '(aline, f, header, hlen) := a in
  let magic := scan_word aline in
  if (MAGIC + behind <? length magic + 1)%nat then Wild
  else
    let channels := if bool_decide (take 2 magic = bytes "P6"%string) then 3 else 1 in
    a ← header_line f header hlen;
    let '(_, f, header, hlen) := a in
    a ← header_line f header hlen;
    let '(aline, f, header, hlen) := a in
    size ← or_wild (scan_size aline);
    let '(col, row) := size in
    let n := u32 (u32 (row * col) * channels) in
    a ← header_line f header hlen;
    let '(_, f, header, hlen) := a in
    img ← read_pixels fuel f (Z.to_nat n) 0 (i32 n) img;
    Value {| img := img; image_header := header; headerlen := hlen; bufflen := i32 n; row := row; col := col;
             chan := channels |}.

(** ** main *)

Definition SAT : Z := 255.

(** [(unsigned)(img[...] * alpha) + beta > SAT ? SAT : ...] with [alpha] 1.25 and
    [beta] 25: the product is exact in a double. *)
Definition bright (b : Z) : Z :=
  let pix := u32 (5 * b / 4 + 25) in
  if SAT <? pix then SAT else pix.

Definition PIXIDX (col chan i j k : Z) : Z := u32 (u32 (u32 (i * col) * chan) + u32 (j * chan) + k).

(** The bodies of the three loops. *)
Definition bright_byte (m : image) (i j k : nat) (newimg : list Z) : option (list Z) :=
  let x := PIXIDX (col m) (chan m) (Z.of_nat i) (Z.of_nat j) (Z.of_nat k) in
  b ← aget (img m) x; aset newimg x (bright b).
Definition bright_pixel (m : image) (i j : nat) (newimg : list Z) : option (list Z) :=
  for_loop (Z.to_nat (chan m)) 0 (bright_byte m i j) newimg.
Definition bright_row (m : image) (i : nat) (newimg : list Z) : option (list Z) :=
  for_loop (Z.to_nat (col m)) 0 (bright_pixel m i) newimg.
Definition brighten (m : image) (newimg : list Z) : option (list Z) :=
  for_loop (Z.to_nat (row m)) 0 (bright_row m) newimg.

(** [writeppm]: one [fwrite] each for the header and the pixels, of which the
    file takes [accepts n] bytes. *)
Definition fwrite_once (accepts : nat -> nat) (buffer : list Z) (n : Z) : prog (list Z) :=
  if (n <? 0) || (Z.of_nat (length buffer) <? n) then Wild
  else
    let w := Nat.min (accepts (Z.to_nat n)) (Z.to_nat n) in
    if (w =? 0)%nat then Exit else Value (take w buffer).

Definition writeppm (accepts : nat -> nat) (buffer : list Z) (bufferlen : Z) (header : list Z) (headerlen : Z) :
    prog (list Z) :=
  h ← fwrite_once accepts header headerlen;
  b ← fwrite_once accepts buffer bufferlen;
  Value (h ++ b).

(** [junk] and [junk'] are what [img] and [newimg] hold at first, [header] an
    array of 512 bytes. *)
Definition main (fuel behind : nat) (accepts : nat -> nat) (junk junk' header : list Z) (content : list Z) :
    prog (list Z) :=
  header ← or_wild (aset header 0 0);
  m ← readppm fuel behind junk header content;
  newimg ← or_wild (brighten m junk');
  writeppm accepts newimg (bufflen m) (image_header m) (headerlen m).



(** ** Header lines *)

(** A character of a line: neither the newline nor a terminator. *)
Definition in_line (c : Z) : Prop := c <> 10 /\ c <> 0.

Lemma line_of_app l r : Forall in_line l -> line_of (l ++ 10 :: r) = (l ++ [10], r).
Proof.
  induction 1 as [|c l [Hc _] _ IH]; [done|]. cbn. by rewrite (proj2 (Z.eqb_neq c 10)), IH.
Qed.

Lemma span_app p a b : Forall (fun c => p c = true) a -> span p (a ++ b) = (a ++ fst (span p b), snd (span p b)).
Proof.
  induction 1 as [|c a Hc _ IH]; cbn [app]; [by destruct (span p b)|].
  cbn [span]. by rewrite Hc, IH.
Qed.

Lemma span_stop p c b : p c = false -> span p (c :: b) = ([], c :: b).
Proof. intros H. cbn. by rewrite H. Qed.

Lemma chars_all s : Forall (fun c => c <> 0) s -> chars s = s.
Proof.
  intros H. unfold chars. rewrite <- (app_nil_r s) at 1. rewrite span_app; cbn; [by rewrite app_nil_r|].
  eapply Forall_impl; [exact H|]. intros c Hc. cbn. by rewrite (proj2 (Z.eqb_neq c 0)).
Qed.

Lemma line_nonzero l : Forall in_line l -> Forall (fun c => c <> 0) (l ++ [10]).
Proof.
  intros H. apply Forall_app. split; [|by constructor]. eapply Forall_impl; [exact H|]. by intros c [_ ?].
Qed.

Lemma strcat_app t b s :
  Forall (fun c => c <> 0) t -> Forall (fun c => c <> 0) s -> (length s <= length b)%nat ->
  strcat (t ++ 0 :: b) s = Some ((t ++ s) ++ 0 :: drop (length s) b).
Proof.
  intros Ht Hs Hl. unfold strcat. rewrite chars_all by done. unfold strncat. rewrite drop_0.
  rewrite strlen_app by (rewrite Forall_forall in Ht; exact Ht). step_option.
  rewrite Nat.add_0_l, take_ge, store_app by (done || rewrite length_app; cbn [length]; lia).
  by rewrite length_app, Nat.add_comm, <- !app_assoc.
Qed.

Lemma header_line_app l r t b :
  Forall in_line l -> Forall (fun c => c <> 0) t -> (length l < length b)%nat ->
  header_line {| rest := l ++ 10 :: r; at_end := false |} (t ++ 0 :: b) (Z.of_nat (length t)) =
  Value (l ++ [10], {| rest := r; at_end := false |},
         (t ++ l ++ [10]) ++ 0 :: drop (S (length l)) b, Z.of_nat (length (t ++ l ++ [10]))).
Proof.
  intros Hl Ht Hb. unfold header_line, getline. cbn [rest at_end].
  destruct (l ++ 10 :: r) eqn:E; [by destruct l|]. rewrite <- E, line_of_app by done.
  rewrite strcat_app; [|done|by apply line_nonzero|rewrite length_app; cbn; lia].
  cbn [or_wild mbind prog_bind]. rewrite length_app, Nat.add_1_r. repeat f_equal.
  - rewrite last_snoc. by destruct r.
  - rewrite !length_app. cbn. lia.
Qed.

(** ** The size of the image *)

Lemma is_digit_spec c : 48 <= c <= 57 -> is_digit c = true /\ is_space c = false.
Proof. unfold is_digit, is_space. lia. Qed.

(** [%d] of a number that is not negative. *)
Definition decimal (z : Z) : list Z := format_d 0 z.

Lemma decimal_digits z : 0 <= z -> decimal z = digits (ndigits 9 z) z.
Proof. intros Hz. unfold decimal, format_d. by rewrite (proj2 (Z.ltb_ge _ _)). Qed.

Lemma ndigits_enough z : 0 <= z <= INT_MAX -> z < 10 ^ Z.of_nat (ndigits 9 z).
Proof.
  intros Hz. destruct (Z.lt_ge_cases z (10 ^ Z.of_nat (ndigits 9 z))) as [|Hge]; [done|].
  destruct (le_lt_dec (ndigits 9 z) 9) as [Hle|Hlt].
  - pose proof (ndigits_large 9 z _ Hle Hge). lia.
  - unfold INT_MAX in Hz. pose proof (Z.pow_le_mono_r 10 10 (Z.of_nat (ndigits 9 z))). lia.
Qed.

Lemma decimal_cons z : 0 <= z -> exists c l, decimal z = c :: l.
Proof.
  intros Hz. rewrite decimal_digits by done. destruct (digits (ndigits 9 z) z) as [|c l] eqn:E; [|by exists c, l].
  assert (Hl : length (digits (ndigits 9 z) z) = 0%nat) by by rewrite E.
  rewrite length_digits in Hl. unfold ndigits in Hl. destruct (z <? 10); discriminate Hl.
Qed.

Lemma decimal_char z c : 0 <= z -> c ∈ decimal z -> 48 <= c <= 57.
Proof. intros Hz. rewrite decimal_digits by done. apply digits_char. Qed.

Lemma undigits_decimal z : 0 <= z <= INT_MAX -> undigits (decimal z) = z.
Proof.
  intros Hz. rewrite decimal_digits, undigits_digits by lia. apply Z.mod_small.
  split; [lia|]. by apply ndigits_enough.
Qed.

Lemma scan_u_decimal z r :
  0 <= z <= INT_MAX -> (forall c r', r = c :: r' -> is_digit c = false) ->
  scan_u (decimal z ++ r) = Some (z, r).
Proof.
  intros Hz Hr. unfold scan_u. destruct (decimal_cons z) as (c & l & E); [lia|].
  assert (Hd : Forall (fun c => is_digit c = true) (decimal z)).
  { apply Forall_forall. intros x Hx. apply is_digit_spec, (decimal_char z); [lia|done]. }
  assert (Hs : span is_space (decimal z ++ r) = ([], decimal z ++ r)).
  { rewrite E. apply span_stop, is_digit_spec, (decimal_char z); [lia|]. rewrite E. by left. }
  rewrite Hs. cbn [snd]. rewrite span_app by done.
  assert (Hsr : span is_digit r = ([], r)) by (destruct r as [|x r']; [done|by apply span_stop, (Hr x r')]).
  rewrite Hsr. cbn [fst snd]. rewrite app_nil_r, undigits_decimal by done.
  rewrite E, (proj2 (Z.ltb_lt _ _)); [done|]. unfold INT_MAX in Hz. lia.
Qed.

(** The line of the size. *)
Definition size_line (col row : Z) : list Z := decimal col ++ 32 :: decimal row.

Lemma size_line_in_line col row : 0 <= col -> 0 <= row -> Forall in_line (size_line col row).
Proof.
  intros Hc Hr. apply Forall_forall. intros x Hx. unfold size_line in Hx. unfold in_line.
  apply elem_of_app in Hx as [Hx|Hx]; [pose proof (decimal_char col x Hc Hx); lia|].
  apply elem_of_cons in Hx as [->|Hx]; [lia|]. pose proof (decimal_char row x Hr Hx). lia.
Qed.

Lemma scan_size_line col row :
  0 <= col <= INT_MAX -> 0 <= row <= INT_MAX -> scan_size (size_line col row ++ [10]) = Some (col, row).
Proof.
  intros Hc Hr. unfold scan_size.
  rewrite chars_all by (apply line_nonzero, size_line_in_line; lia).
  unfold size_line. rewrite <- app_assoc. cbn [app].
  rewrite scan_u_decimal by (done || by intros ? ? [= <- _]). step_option. cbn [fst snd].
  assert (H : scan_u (32 :: decimal row ++ [10]) = scan_u (decimal row ++ [10])).
  { unfold scan_u. cbn [span]. change (is_space 32) with true. cbv iota.
    destruct (span is_space (decimal row ++ [10])). done. }
  rewrite H, scan_u_decimal by (done || by intros ? ? [= <- _]). done.
Qed.

(** ** The pixels *)

Lemma take_drop_insert (f : Z -> Z) (l l' : list Z) (x : nat) b :
  l !! x = Some b -> (x < length l')%nat ->
  <[x := f b]> (map f (take x l) ++ drop x l') = map f (take (S x) l) ++ drop (S x) l'.
Proof.
  intros Hb Hx. assert (Hl : (x < length l)%nat) by by eapply lookup_lt_Some.
  destruct (lookup_lt_is_Some_2 l' x Hx) as [c Hc].
  rewrite (drop_S l' c x Hc), (take_S_r l x b Hb), map_app, <- app_assoc. cbn [map app].
  rewrite insert_app_r_alt by (rewrite length_map, length_take; lia).
  by rewrite length_map, length_take, Nat.min_l, Nat.sub_diag by lia.
Qed.

Section pixels.
Context (m : image) (newimg : list Z).
Context (Hrow : 0 <= row m) (Hcol : 0 <= col m) (Hchan : 0 <= chan m).

#[local] Abbreviation n := (row m * col m * chan m).
Context (Hn : n < 2 ^ 32) (Himg : n <= Z.of_nat (length (img m))) (Hnew : n <= Z.of_nat (length newimg)).

(** The first [x] bytes are done. *)
Definition upto (x : Z) (l : list Z) : Prop :=
  l = map bright (take (Z.to_nat x) (img m)) ++ drop (Z.to_nat x) newimg.

#[local] Abbreviation at_ i j k :=
  (Z.of_nat i * (col m * chan m) + Z.of_nat j * chan m + Z.of_nat k).

Lemma bright_byte_upto i j k l :
  Z.of_nat i < row m -> Z.of_nat j < col m -> Z.of_nat k < chan m ->
  upto (at_ i j k) l -> exists l', bright_byte m i j k l = Some l' /\ upto (at_ i j (k + 1)) l'.
Proof.
  intros Hi Hj Hk ->. set (x := at_ i j k).
  assert (0 <= Z.of_nat i * (col m * chan m) <= (row m - 1) * (col m * chan m))
    by (split; [apply Z.mul_nonneg_nonneg; nia | apply Z.mul_le_mono_nonneg_r; nia]).
  assert (0 <= Z.of_nat j * chan m <= (col m - 1) * chan m)
    by (split; [nia | apply Z.mul_le_mono_nonneg_r; nia]).
  assert (Hx : 0 <= x < n) by (unfold x; lia).
  assert (Z.of_nat i * col m <= Z.of_nat i * (col m * chan m)) by (apply Z.mul_le_mono_nonneg_l; nia).
  assert (Hidx : PIXIDX (col m) (chan m) (Z.of_nat i) (Z.of_nat j) (Z.of_nat k) = x).
  { unfold PIXIDX. rewrite (wrap_small 32 (Z.of_nat i * col m)), (wrap_small 32 (Z.of_nat i * col m * chan m)),
      (wrap_small 32 (Z.of_nat j * chan m)), wrap_small; [unfold x; ring|..]; unfold in_range, x in *; lia. }
  unfold bright_byte. rewrite Hidx. cbv zeta.
  destruct (aget_Some (img m) x) as [b Hb]; [lia|]. rewrite Hb. step_option.
  unfold aget in Hb. rewrite (proj2 (Z.leb_le 0 x)) in Hb by lia.
  rewrite aset_Some by (rewrite length_app, length_map, length_take, length_drop; lia).
  eexists. split; [done|]. unfold upto. rewrite take_drop_insert by (done || lia).
  by replace (Z.to_nat (at_ i j (k + 1))) with (S (Z.to_nat x)) by (unfold x; lia).
Qed.

Lemma bright_pixel_upto i j l :
  Z.of_nat i < row m -> Z.of_nat j < col m ->
  upto (at_ i j 0) l -> exists l', bright_pixel m i j l = Some l' /\ upto (at_ i (j + 1) 0) l'.
Proof.
  intros Hi Hj Hl.
  destruct (for_loop_option (fun k => upto (at_ i j k)) (bright_byte m i j) (Z.to_nat (chan m)) 0 l Hl)
    as (l' & H & Hl').
  - intros k l1 Hk. apply bright_byte_upto; lia.
  - exists l'. split; [exact H|].
    replace (at_ i (j + 1) 0) with (at_ i j (0 + Z.to_nat (chan m))); [done|].
    rewrite Nat.add_0_l, Z2Nat.id, Nat2Z.inj_add by done. ring.
Qed.

Lemma bright_row_upto i l :
  Z.of_nat i < row m ->
  upto (at_ i 0 0) l -> exists l', bright_row m i l = Some l' /\ upto (at_ (i + 1) 0 0) l'.
Proof.
  intros Hi Hl.
  destruct (for_loop_option (fun j => upto (at_ i j 0)) (bright_pixel m i) (Z.to_nat (col m)) 0 l Hl)
    as (l' & H & Hl').
  - intros j l1 Hj. apply bright_pixel_upto; lia.
  - exists l'. split; [exact H|].
    replace (at_ (i + 1) 0 0) with (at_ i (0 + Z.to_nat (col m)) 0); [done|].
    rewrite Nat.add_0_l, Z2Nat.id, Nat2Z.inj_add by done. ring.
Qed.

Lemma brighten_spec :
  brighten m newimg = Some (map bright (take (Z.to_nat n) (img m)) ++ drop (Z.to_nat n) newimg).
Proof.
  destruct (for_loop_option (fun i => upto (at_ i 0 0)) (bright_row m) (Z.to_nat (row m)) 0 newimg)
    as (l' & H & Hl').
  - done.
  - intros i l1 Hi. apply bright_row_upto; lia.
  - unfold brighten. rewrite H, Hl'. 
    replace (at_ (0 + Z.to_nat (row m)) 0 0) with n; [done|].
    rewrite Nat.add_0_l, Z2Nat.id by done. ring.
Qed.
End pixels.

(** One pass reads what the file has of the image. *)
Lemma read_pixels_once fuel n pixels junk :
  (0 < n)%nat -> (n <= length junk)%nat -> Z.of_nat n <= INT_MAX ->
  read_pixels (S fuel) {| rest := pixels; at_end := false |} n 0 (i32 (Z.of_nat n)) junk =
  Value (take n pixels ++ drop (length (take n pixels)) junk).
Proof.
  intros Hn Hj Hm. cbn [read_pixels rest at_end orb]. destruct (take n pixels) as [|c b] eqn:E.
  { cbn [length drop app]. by rewrite (proj2 (Nat.ltb_lt 0 n)). }
  assert (Hl : length (c :: b) = Nat.min n (length pixels)) by by rewrite <- E, length_take.
  rewrite <- E in *. clear E. rewrite store_Some by lia. cbn [or_wild mbind prog_bind].
  unfold splice. rewrite take_0, app_nil_l, Nat.add_0_l.
  rewrite (swrap_int (Z.of_nat n)) by (unfold INT_MIN, INT_MAX in *; lia).
  rewrite swrap_int by (unfold INT_MIN, INT_MAX in *; lia).
  destruct (Nat.ltb_spec (length (take n pixels)) n) as [Hlt|Hge].
  - by rewrite andb_false_r.
  - by rewrite (proj2 (Z.ltb_ge _ _)) by lia.
Qed.

(** The header of a PPM file: its magic, any number of comment lines, its size
    and its largest value. *)
Definition ppm_header (comments : list (list Z)) (col row sat : Z) : list Z :=
  bytes "P6"%string ++ 10 :: flat_map (fun c => c ++ [10]) comments ++
  size_line col row ++ 10 :: decimal sat ++ [10].

(** A comment starts with a hash. *)
Definition is_comment (c : list Z) : Prop := Forall in_line c /\ head c = Some 35.

Definition IMAGE_BYTES : Z := 640 * 480 * 3.

Lemma decimal_in_line z : 0 <= z -> Forall in_line (decimal z).
Proof.
  intros Hz. apply Forall_forall. intros x Hx. pose proof (decimal_char z x Hz Hx). unfold in_line. lia.
Qed.

Lemma p6_in_line : Forall in_line (bytes "P6"%string).
Proof. by repeat constructor. Qed.

(** The first line, with room for the terminator of [magic]. *)
Lemma magic_fits behind : (0 < behind)%nat ->
  (MAGIC + behind <? length (scan_word (bytes "P6"%string ++ [10%Z])) + 1)%nat = false.
Proof. intros Hb. apply Nat.ltb_ge. change (length _) with 2%nat. unfold MAGIC. lia. Qed.

Lemma readppm_ok fuel behind comment sat col row pixels junk tl :
  Forall in_line comment -> 0 <= sat ->
  0 < col -> 0 < row -> row * col * 3 <= IMAGE_BYTES -> IMAGE_BYTES <= Z.of_nat (length junk) ->
  (length (ppm_header [comment] col row sat) <= length tl)%nat -> (0 < behind)%nat ->
  let n := Z.to_nat (row * col * 3) in
  exists tl',
  readppm (S fuel) behind junk (0 :: tl) (ppm_header [comment] col row sat ++ pixels) =
  Value {| img := take n pixels ++ drop (length (take n pixels)) junk;
           image_header := ppm_header [comment] col row sat ++ 0 :: tl';
           headerlen := Z.of_nat (length (ppm_header [comment] col row sat));
           bufflen := row * col * 3; row := row; col := col; chan := 3 |}.
Proof.
  intros Hcm Hsat Hc Hr Hsz Hj Htl Hb n. unfold ppm_header, IMAGE_BYTES in *.
  pose proof (size_line_in_line col row ltac:(lia) ltac:(lia)) as Hsl.
  pose proof (decimal_in_line sat Hsat) as Hsatl. cbn [flat_map] in *.
  rewrite app_nil_r in *.
  repeat rewrite ?length_app in Htl; cbn [length] in Htl; rewrite ?length_app in Htl; cbn [length] in Htl;
    rewrite ?length_app in Htl; cbn [length] in Htl.
  unfold readppm. repeat (rewrite <- !app_assoc; cbn [app]).
  assert (Hlen : length (bytes "P6"%string) = 2%nat) by done. rewrite Hlen in Htl.
  rewrite (header_line_app (bytes "P6"%string) _ [] tl p6_in_line ltac:(constructor) ltac:(lia) :
    header_line _ (0 :: tl) 0 = _).
  cbn [mbind prog_bind]. rewrite (magic_fits behind Hb).
  rewrite header_line_app;
    [|done|by apply line_nonzero, p6_in_line|rewrite length_drop; lia]. cbn [mbind prog_bind].
  rewrite header_line_app;
    [|done|apply Forall_app; split; apply line_nonzero; [apply p6_in_line | done]|rewrite !length_drop; lia].
  cbn [mbind prog_bind].
  rewrite scan_size_line by (unfold INT_MAX; nia). cbn [or_wild mbind prog_bind].
  rewrite header_line_app;
    [|done| |rewrite !length_drop; lia].
  2: { apply Forall_app; split; [apply Forall_app; split|]; apply line_nonzero; [apply p6_in_line|done|done]. }
  cbn [mbind prog_bind].
  change (take 2 _) with (bytes "P6"%string). rewrite bool_decide_eq_true_2 by done.
  assert (Hu : u32 (u32 (row * col) * 3) = row * col * 3).
  { rewrite (wrap_small 32 (row * col)), wrap_small by (unfold in_range; lia). done. }
  rewrite Hu. fold n. replace (row * col * 3) with (Z.of_nat n) by (unfold n; lia).
  rewrite read_pixels_once by (unfold n, INT_MAX; lia). cbn [mbind prog_bind].
  eexists. rewrite swrap_int by (unfold n, INT_MIN, INT_MAX; lia).
  do 3 f_equal; repeat (cbn [app]; rewrite <- ?app_assoc); reflexivity.
Qed.

(** A third line that is not a size leaves [row] unset. *)
Lemma readppm_unset fuel behind l2 l3 r junk tl :
  Forall in_line l2 -> Forall in_line l3 -> scan_size (l3 ++ [10]) = None ->
  (length l2 + length l3 + 5 < length tl)%nat -> (0 < behind)%nat ->
  readppm fuel behind junk (0 :: tl) (bytes "P6"%string ++ 10 :: l2 ++ 10 :: l3 ++ 10 :: r) = Wild.
Proof.
  intros H2 H3 Hs Htl Hb. unfold readppm.
  rewrite (header_line_app (bytes "P6"%string) _ [] tl p6_in_line ltac:(constructor)
    ltac:(change (length (bytes "P6"%string)) with 2%nat; lia) : header_line _ (0 :: tl) 0 = _).
  cbn [mbind prog_bind]. rewrite (magic_fits behind Hb).
  rewrite header_line_app;
    [|done|by apply line_nonzero, p6_in_line|change (length (bytes "P6"%string)) with 2%nat; rewrite length_drop; lia].
  cbn [mbind prog_bind].
  rewrite header_line_app;
    [|done|apply Forall_app; split; apply line_nonzero; [apply p6_in_line | done]
      |change (length (bytes "P6"%string)) with 2%nat; rewrite !length_drop; lia].
  cbn [mbind prog_bind]. by rewrite Hs.
Qed.

(** Neither a comment nor the largest value is a size. *)
Lemma comment_no_size c : is_comment c -> scan_size (c ++ [10]) = None.
Proof.
  intros [Hc Hh]. destruct c as [|x c]; [done|]. injection Hh as ->. unfold scan_size.
  rewrite chars_all by by apply line_nonzero. done.
Qed.

Lemma value_no_size z : 0 <= z <= INT_MAX -> scan_size (decimal z ++ [10]) = None.
Proof.
  intros Hz. unfold scan_size. rewrite chars_all by (apply line_nonzero, decimal_in_line; lia).
  rewrite scan_u_decimal by (done || by intros ? ? [= <- _]). done.
Qed.

Lemma readppm_other_comments fuel behind comments sat col row pixels junk tl :
  Forall is_comment comments -> length comments <> 1%nat -> 0 <= sat <= INT_MAX ->
  0 < col -> 0 < row -> (length (ppm_header comments col row sat) < length tl)%nat -> (0 < behind)%nat ->
  readppm fuel behind junk (0 :: tl) (ppm_header comments col row sat ++ pixels) = Wild.
Proof.
  intros Hcs H1 Hsat Hc Hr Htl Hb. unfold ppm_header in *. rewrite !length_app in Htl.
  cbn [length] in Htl. change (length (bytes "P6"%string)) with 2%nat in Htl.
  pose proof (size_line_in_line col row ltac:(lia) ltac:(lia)) as Hsl.
  repeat (rewrite <- !app_assoc; cbn [app]).
  destruct comments as [|c1 [|c2 cs]]; [| done |]; cbn [flat_map app] in *.
  - apply readppm_unset; [done | apply decimal_in_line; lia | by apply value_no_size | | done].
    rewrite ?length_app in Htl. cbn [length] in Htl. rewrite ?length_app in Htl. cbn [length] in Htl. lia.
  - apply list.Forall_cons in Hcs as [[Hc1 _] [Hc2 _]%list.Forall_cons].
    repeat (rewrite <- !app_assoc; cbn [app]).
    apply readppm_unset; [done | apply Hc2 | by apply comment_no_size | | done].
    rewrite ?length_app in Htl. cbn [length] in Htl. lia.
Qed.

(** The image that is brightened: the array keeps what the file does not fill. *)
Definition read_image (n : nat) (pixels junk : list Z) : list Z :=
  take n (pixels ++ drop (length pixels) junk).

Lemma read_image_take n pixels junk :
  take n (take n pixels ++ drop (length (take n pixels)) junk) = read_image n pixels junk.
Proof.
  unfold read_image. destruct (le_lt_dec n (length pixels)) as [Hle|Hlt].
  - rewrite !take_app_le by (rewrite ?length_take; lia). by rewrite take_take, Nat.min_id.
  - by rewrite (take_ge pixels) by lia.
Qed.

Lemma fwrite_once_ok accepts buffer rest n :
  n = Z.of_nat (length buffer) -> 0 < n -> (0 < accepts (length buffer))%nat ->
  fwrite_once accepts (buffer ++ rest) n = Value (take (accepts (length buffer)) buffer).
Proof.
  intros -> Hn Ha. unfold fwrite_once. rewrite (proj2 (Z.ltb_ge _ 0)) by lia.
  rewrite (proj2 (Z.ltb_ge _ _)) by (rewrite length_app; lia). cbn [orb]. rewrite Nat2Z.id.
  rewrite (proj2 (Nat.eqb_neq _ 0)) by lia. rewrite take_app_le by lia.
  destruct (le_lt_dec (length buffer) (accepts (length buffer))) as [Hle|Hlt].
  - by rewrite Nat.min_r, !take_ge by lia.
  - by rewrite Nat.min_l by lia.
Qed.

(** On bytes the sum does not wrap. *)
Lemma bright_saturated n pixels junk :
  Forall byte pixels -> Forall byte junk ->
  map bright (read_image n pixels junk) = map (fun b => Z.min 255 (5 * b / 4 + 25)) (read_image n pixels junk).
Proof.
  intros Hp Hj. apply map_ext_in. intros b Hb%list_elem_of_In.
  assert (byte b) as Hbyte.
  { unfold read_image in Hb. revert b Hb. apply list.Forall_forall. apply Forall_take, list.Forall_app.
    split; [done|by apply Forall_drop]. }
  unfold in_range in Hbyte. change (2 ^ 8) with 256 in Hbyte.
  assert (0 <= 5 * b / 4 <= 319) by (split; [apply Z.div_pos; lia | apply Z.div_le_upper_bound; lia]).
  unfold bright, SAT. rewrite wrap_small by (unfold in_range; lia).
  destruct (Z.ltb_spec 255 (5 * b / 4 + 25)); lia.
Qed.

(** C34: the program on every PPM file of at most 640 by 480 pixels whose header
    is shorter than 512 bytes, with any number of comment lines and of pixels.  As
    C goes it is undefined on each of them: the terminator of the magic number is
    stored behind [magic].  Where the byte there is free and the header has
    exactly one comment line, brighter.ppm has the same header and every byte
    scaled by 1.25, raised by 25 and saturated, as far as the file system takes
    them in one write each; bytes missing in the file are those the array held.
    With no comment line, or more than one, another line is taken for the size,
    and the program goes on with an unset variable. *)
Theorem brighten_ppm (fuel behind : nat) (accepts : nat -> nat) (comments : list (list Z)) (w h sat : Z)
    (pixels junk junk' header : list Z) :
  Forall is_comment comments -> 0 <= sat <= INT_MAX ->
  0 < w -> 0 < h -> h * w * 3 <= IMAGE_BYTES ->
  Z.of_nat (length junk) = IMAGE_BYTES -> Z.of_nat (length junk') = IMAGE_BYTES ->
  Forall byte pixels -> Forall byte junk ->
  length header = 512%nat -> (S (length (ppm_header comments w h sat)) < 512)%nat ->
  (forall k, 0 < k -> 0 < accepts k)%nat ->
  let n := Z.to_nat (h * w * 3) in
  let hdr := ppm_header comments w h sat in
  main (S fuel) behind accepts junk junk' header (hdr ++ pixels) =
    if (behind =? 0)%nat then Wild
    else if (length comments =? 1)%nat then
      Value (take (accepts (length hdr)) hdr ++
             take (accepts n) (map (fun b => Z.min 255 (5 * b / 4 + 25)) (read_image n pixels junk)))
    else Wild.
Proof.
  intros Hcm Hsat Hc Hr Hsz Hj Hj' Hpix Hjunk Hh Hhdr Ha n hdr.
  rewrite <- bright_saturated by done.
  destruct header as [|h0 tl]; [done|]. cbn in Hh. unfold main.
  change (aset (h0 :: tl) 0 0) with (Some (0 :: tl)). cbn [or_wild mbind prog_bind].
  destruct (Nat.eqb_spec behind 0) as [->|Hb].
  { unfold readppm, hdr, ppm_header. rewrite <- app_assoc. cbn [app].
    rewrite (header_line_app (bytes "P6"%string) _ [] tl p6_in_line ltac:(constructor)
      ltac:(change (length (bytes "P6"%string)) with 2%nat; lia) : header_line _ (0 :: tl) 0 = _).
    reflexivity. }
  destruct (Nat.eqb_spec (length comments) 1) as [H1|H1].
  2: { unfold hdr; rewrite readppm_other_comments by (done || lia). done. }
  destruct comments as [|c [|]]; [done | | done]. apply Forall_inv in Hcm as [Hcm _].
  destruct (readppm_ok fuel behind c sat w h pixels junk tl) as [tl' E];
    [done|lia|done|done|done|lia|unfold hdr in *; lia|lia|].
  fold hdr n in E. rewrite E. cbn [mbind prog_bind].
  assert (Hn : Z.of_nat n = h * w * 3) by (unfold n; lia). unfold IMAGE_BYTES in *.
  rewrite brighten_spec; cbn [row col chan img]; [|lia|lia|lia|lia| |lia].
  2: { rewrite length_app, length_drop, length_take. lia. }
  fold n. rewrite read_image_take. cbn [or_wild mbind prog_bind bufflen image_header headerlen].
  assert (Hl : length (map bright (read_image n pixels junk)) = n).
  { rewrite length_map. unfold read_image. rewrite length_take, length_app, length_drop. lia. }
  assert (Hpos : (0 < length hdr)%nat) by (unfold hdr, ppm_header; rewrite length_app; cbn; lia).
  unfold writeppm. rewrite (fwrite_once_ok accepts hdr (0 :: tl') _ eq_refl) by (try apply Ha; lia).
  cbn [mbind prog_bind]. rewrite fwrite_once_ok by (rewrite ?Hl; try apply Ha; lia). by rewrite Hl.
Qed.

(** A picture of two pixels, in a frame with padding behind [magic]. *)
Lemma brighten_ppm_witness :
  main 1 1 id (replicate (Z.to_nat IMAGE_BYTES) 0) (replicate (Z.to_nat IMAGE_BYTES) 0) (replicate 512 1)
    (ppm_header [bytes "#c"%string] 2 1 255 ++ [0; 100; 200; 255; 1; 2]) =
  Value (ppm_header [bytes "#c"%string] 2 1 255 ++ [25; 150; 255; 255; 26; 27]).
Proof.
  assert (Hj : Z.of_nat (length (replicate (Z.to_nat IMAGE_BYTES) 0)) = IMAGE_BYTES)
    by (rewrite length_replicate; by apply Z2Nat.id).
  assert (H0 : in_range 8 0) by (unfold in_range; lia).
  etransitivity.
  - apply (brighten_ppm 0 1 id).
    + constructor; [|constructor]. split; [by repeat constructor | reflexivity].
    + split; [discriminate | unfold INT_MAX; lia].
    + done.
    + done.
    + done.
    + exact Hj.
    + exact Hj.
    + repeat constructor; done.
    + apply (list.Forall_replicate (in_range 8) _ 0 H0).
    + apply length_replicate.
    + apply Nat.ltb_lt. reflexivity.
    + intros k Hk. exact Hk.
  - cbn [Nat.eqb id length]. rewrite !take_ge by (rewrite ?length_map; unfold read_image; rewrite ?length_take; lia).
    unfold read_image. rewrite take_app_le by (apply Nat.leb_le; reflexivity). reflexivity.
Defined.
