(* ===== verification/Deadlock.v ===== *)
(** * Two threads and two mutexes: deadlock.c and deadlock_timeout.c

    The demonstrations of example-sync-updated-2.  A thread is the code it has
    still to run, one constructor per call or update of a shared variable with
    its continuation; a state of the process is the owners of the two mutexes,
    the two counters and the code of [main] and of the threads.  A step runs
    one operation of one of them, chosen freely; a blocked operation has no
    step, except that a timed lock may time out while the mutex is taken.
    [sleep] is a step without effect, so the theorems hold for all timings.

    The state space is finite.  Invariants are checked on a list of states
    that contains the first one and is closed under steps; the length of a run
    is bounded by the code that is left. *)
From Stdlib Require Import String.
From stdpp Require Import option list sets relations.
From S2P Require Import Prelude.
#[local] Open Scope Z_scope.

(** ** Threads *)

Inductive resource := A | B.
Inductive actor := Main | Thread1 | Thread2.

#[export] Instance resource_eq_dec : EqDecision resource. Proof. solve_decision. Defined.
#[export] Instance actor_eq_dec : EqDecision actor. Proof. solve_decision. Defined.

Inductive code :=
  | Exit                                      (** [pthread_exit], or [exit] in [main] *)
  | Wild                                      (** undefined behaviour *)
  | Lock (m : resource) (k : code)            (** [pthread_mutex_lock] *)
  | Timedlock (m : resource) (got timeout : code)
                                              (** [pthread_mutex_timedlock] and the test of [rc] *)
  | Unlock (m : resource) (k : code)          (** [pthread_mutex_unlock] *)
  | Count (m : resource) (d : Z) (k : code)   (** [rsrcACnt += d] or [rsrcBCnt += d] *)
  | Sleep (k : code)                          (** [sleep] *)
  | Create (t : actor) (k : code)             (** [pthread_create] *)
  | Join (t : actor) (k : code).              (** [pthread_join] *)

#[export] Instance code_eq_dec : EqDecision code. Proof. solve_decision. Defined.

(** ** The process *)

(** The owners of the mutexes, the counters, and what each thread has still to
    run; a thread that was not created has no code. *)
Record sys := {
  rsrcA : option actor;
  rsrcB : option actor;
  rsrcACnt : Z;
  rsrcBCnt : Z;
  main_code : code;
  thread1 : option code;
  thread2 : option code
}.

#[export] Instance sys_eq_dec : EqDecision sys. Proof. solve_decision. Defined.

Definition owner (m : resource) (s : sys) : option actor :=
  match m with A => rsrcA s | B => rsrcB s end.

Definition set_owner (m : resource) (o : option actor) (s : sys) : sys :=
  {| rsrcA := match m with A => o | B => rsrcA s end;
     rsrcB := match m with A => rsrcB s | B => o end;
     rsrcACnt := rsrcACnt s; rsrcBCnt := rsrcBCnt s;
     main_code := main_code s; thread1 := thread1 s; thread2 := thread2 s |}.

Definition add_cnt (m : resource) (d : Z) (s : sys) : sys :=
  {| rsrcA := rsrcA s; rsrcB := rsrcB s;
     rsrcACnt := match m with A => rsrcACnt s + d | B => rsrcACnt s end;
     rsrcBCnt := match m with A => rsrcBCnt s | B => rsrcBCnt s + d end;
     main_code := main_code s; thread1 := thread1 s; thread2 := thread2 s |}.

Definition code_of (t : actor) (s : sys) : option code :=
  match t with Main => Some (main_code s) | Thread1 => thread1 s | Thread2 => thread2 s end.

Definition set_code (t : actor) (c : code) (s : sys) : sys :=
  {| rsrcA := rsrcA s; rsrcB := rsrcB s; rsrcACnt := rsrcACnt s; rsrcBCnt := rsrcBCnt s;
     main_code := match t with Main => c | _ => main_code s end;
     thread1 := match t with Thread1 => Some c | _ => thread1 s end;
     thread2 := match t with Thread2 => Some c | _ => thread2 s end |}.

Section process.
(** What a created thread runs. *)
Context (grabRsrcs : actor -> code).

(** One operation of thread [t]; [timeout] is whether a timed lock that has to
    wait gives up now.  Unlocking a mutex that another thread owns, which is
    undefined, has no step. *)
Definition act (t : actor) (timeout : bool) (s : sys) : option sys :=
  c ← code_of t s;
  match c with
  | Exit | Wild => None
  | Lock m k =>
      match owner m s with
      | None => Some (set_code t k (set_owner m (Some t) s))
      | Some _ => None
      end
  | Timedlock m got late =>
      match owner m s with
      | None => Some (set_code t got (set_owner m (Some t) s))
      | Some _ => if timeout then Some (set_code t late s) else None
      end
  | Unlock m k =>
      if bool_decide (owner m s = Some t) then Some (set_code t k (set_owner m None s)) else None
  | Count m d k => Some (set_code t k (add_cnt m d s))
  | Sleep k => Some (set_code t k s)
  | Create t' k => Some (set_code t k (set_code t' (grabRsrcs t') s))
  | Join t' k =>
      if bool_decide (code_of t' s = Some Exit) then Some (set_code t k s) else None
  end.

Definition step (s s' : sys) : Prop := exists t timeout, act t timeout s = Some s'.
End process.

(** The static initializers, before [main] starts. *)
Definition start (main : code) : sys :=
  {| rsrcA := None; rsrcB := None; rsrcACnt := 0; rsrcBCnt := 0;
     main_code := main; thread1 := None; thread2 := None |}.

(** ** deadlock.c *)

(** The [safe] and [noWait] flags [main] takes from the arguments after the
    program's name. *)
Definition flags (args : list string) : bool * bool :=
  match args with
  | [a] =>
      if String.prefix "safe" a then (true, false)
      else if String.prefix "race" a then (false, true)
      else (false, false)
  | _ => (false, false)
  end.

(** [if(!noWait) sleep(1);] *)
Definition pause (noWait : bool) (k : code) : code := if noWait then k else Sleep k.

(** [grabRsrcs] with the index of [THREAD_1], and with any other. *)
Definition grabRsrcs (noWait : bool) (t : actor) : code :=
  match t with
  | Thread1 =>
      Lock A (Count A 1 (pause noWait (Lock B (Count B 1 (Unlock B (Unlock A Exit))))))
  | _ =>
      Lock B (Count B 1 (pause noWait (Lock A (Count A 1 (Unlock A (Unlock B Exit))))))
  end.

(** The creations and joins of [main]. *)
Definition main (safe : bool) : code :=
  if safe then Create Thread1 (Join Thread1 (Create Thread2 (Join Thread2 Exit)))
  else Create Thread1 (Create Thread2 (Join Thread1 (Join Thread2 Exit))).

(** ** deadlock_timeout.c *)

Definition NUM_THREADS : nat := 2.
Definition THREAD_1 : Z := 1.
Definition THREAD_2 : Z := 2.

(** The second mutex is taken with a timed lock; on [ETIMEDOUT] the thread
    takes back its count, unlocks the first one and exits. *)
Definition grabRsrcs_timeout (noWait : bool) (threadIdx : Z) : code :=
  if threadIdx =? THREAD_1 then
    Lock A (Count A 1 (pause noWait (Timedlock B
      (Count B 1 (Count B (-1) (Unlock B (Count A (-1) (Unlock A Exit)))))
      (Count A (-1) (Unlock A Exit)))))
  else
    Lock B (Count B 1 (pause noWait (Timedlock A
      (Count A 1 (Count A (-1) (Unlock A (Count B (-1) (Unlock B Exit)))))
      (Count B (-1) (Unlock B Exit))))).

(** [main]: each index is stored in [threadParams], of [len] elements, before
    its thread is created; a store outside is undefined.  The source has
    [NUM_THREADS] elements. *)
Definition main_timeout (len : nat) (safe : bool) : code :=
  match aset (replicate len 0) THREAD_1 THREAD_1 with
  | None => Wild
  | Some threadParams =>
      let second :=
        match aset threadParams THREAD_2 THREAD_2 with
        | None => Wild
        | Some _ => Create Thread2 (if safe then Join Thread2 Exit else Join Thread1 (Join Thread2 Exit))
        end in
      Create Thread1 (if safe then Join Thread1 second else second)
  end.

(** A thread runs with the index stored for it. *)
Definition stored (noWait : bool) (t : actor) : code :=
  grabRsrcs_timeout noWait (match t with Thread1 => THREAD_1 | _ => THREAD_2 end).

(** ** Exploration of the states *)

Section explore.
Context (body : actor -> code).

Definition choices : list (actor * bool) :=
  [(Main, false); (Thread1, false); (Thread1, true); (Thread2, false); (Thread2, true); (Main, true)].

Definition succs (s : sys) : list sys := omap (fun c => act body c.1 c.2 s) choices.

Lemma elem_of_succs s s' : s' ∈ succs s <-> step body s s'.
Proof.
  unfold succs. rewrite list_elem_of_omap. split.
  - intros ([t o] & _ & H). by exists t, o.
  - intros (t & o & H). exists (t, o). split; [|done]. destruct t, o; unfold choices; set_solver.
Qed.

(** Add [todo] and everything reachable from it to [seen]. *)
Fixpoint explore (fuel : nat) (seen todo : list sys) : list sys :=
  match fuel, todo with
  | S fuel, s :: todo =>
      if bool_decide (s ∈ seen) then explore fuel seen todo
      else explore fuel (s :: seen) (succs s ++ todo)
  | _, _ => seen
  end.

Definition closed (l : list sys) : bool :=
  forallb (fun s => forallb (fun s' => bool_decide (s' ∈ l)) (succs s)) l.

Lemma closed_reachable l s0 s :
  closed l = true -> s0 ∈ l -> rtc (step body) s0 s -> s ∈ l.
Proof.
  intros Hc H0 Hr. induction Hr as [s|s s1 s2 Hs _ IH]; [done|]. apply IH.
  unfold closed in Hc. rewrite forallb_forall in Hc. apply list_elem_of_In in H0.
  specialize (Hc s H0). rewrite forallb_forall in Hc.
  apply elem_of_succs, list_elem_of_In in Hs. eapply bool_decide_eq_true_1, (Hc s1 Hs).
Qed.

(** A test that holds on a closed list holds on all reachable states. *)
Lemma invariant_by_exploration (l : list sys) (s0 : sys) (P : sys -> bool) :
  bool_decide (s0 ∈ l) && closed l && forallb P l = true ->
  forall s, rtc (step body) s0 s -> P s = true.
Proof.
  rewrite !andb_true_iff, bool_decide_eq_true, forallb_forall. intros [[H0 Hc] HP] s Hr.
  apply HP, list_elem_of_In. by eapply closed_reachable.
Qed.
End explore.

(** ** The length of runs *)

Section runs.
Context (body : actor -> code) (bound : nat).

(** The operations left, with what a created thread may run. *)
Fixpoint weight (c : code) : nat :=
  match c with
  | Exit | Wild => 0
  | Timedlock _ got late => S (weight got + weight late)
  | Create _ k => S (bound + weight k)
  | Lock _ k | Unlock _ k | Count _ _ k | Sleep k | Join _ k => S (weight k)
  end.

Definition opt_weight (c : option code) : nat := match c with Some c => weight c | None => 0 end.
Definition sys_weight (s : sys) : nat :=
  weight (main_code s) + opt_weight (thread1 s) + opt_weight (thread2 s).

Hypothesis Hbody : forall t, (weight (body t) <= bound)%nat.

Lemma act_weight t o s s' : act body t o s = Some s' -> (sys_weight s' < sys_weight s)%nat.
Proof using Hbody.
  pose proof (Hbody Main). pose proof (Hbody Thread1). pose proof (Hbody Thread2).
  unfold act. intros H'. apply bind_Some in H' as (c & Hc & H').
  destruct s as [a b ca cb m t1 t2], t; cbn [code_of main_code thread1 thread2] in Hc; simplify_eq;
    destruct c; repeat case_match; simplify_eq;
    repeat match goal with r : resource |- _ => destruct r | t : actor |- _ => destruct t end;
    cbn; lia.
Qed.

Lemma runs_bounded n : forall s s',
  nsteps (step body) n s s' -> (n + sys_weight s' <= sys_weight s)%nat.
Proof using Hbody.
  induction n as [|n IH]; intros s s' Hn; inversion Hn as [|? ? s1 ? (t & o & Ha) Hr]; subst; [lia|].
  apply IH in Hr. apply act_weight in Ha. lia.
Qed.
End runs.

(** ** Final states *)

(** Everything ended, the mutexes are free and the counters as given. *)
Definition finished (a b : Z) (s : sys) : bool :=
  bool_decide (s = {| rsrcA := None; rsrcB := None; rsrcACnt := a; rsrcBCnt := b;
                      main_code := Exit; thread1 := Some Exit; thread2 := Some Exit |}).

(** Each thread owns one mutex and waits for the other, and [main] waits for
    the threads. *)
Definition deadlocked (s : sys) : bool :=
  match rsrcA s, rsrcB s, main_code s, thread1 s, thread2 s with
  | Some Thread1, Some Thread2, Join Thread1 _, Some (Lock B _), Some (Lock A _) => true
  | _, _, _, _, _ => false
  end.

Lemma deadlocked_stuck body s s' : deadlocked s = true -> ~ step body s s'.
Proof.
  unfold deadlocked. intros Hd. repeat (case_match; try done).
  intros (who & o & Ha). unfold act, code_of in Ha. destruct who;
    repeat match goal with H : ?f s = _ |- _ => rewrite H in Ha end; cbn in Ha.
  - case_bool_decide; [congruence|done].
  - by destruct (rsrcB s).
  - by destruct (rsrcA s).
Qed.

(** Whether some operation is enabled. *)
Definition can_step (body : actor -> code) (s : sys) : bool :=
  match succs body s with [] => false | _ => true end.

Lemma can_step_step body s : can_step body s = true -> exists s', step body s s'.
Proof.
  unfold can_step. destruct (succs body s) as [|s' l] eqn:E; [done|]. intros _.
  exists s'. apply elem_of_succs. rewrite E. by left.
Qed.

(** The run in which the given threads take the steps, without timeouts. *)
Fixpoint run (body : actor -> code) (l : list actor) (s : sys) : option sys :=
  match l with
  | [] => Some s
  | t :: l => s ← act body t false s; run body l s
  end.

Lemma run_reachable body l : forall s s', run body l s = Some s' -> rtc (step body) s s'.
Proof.
  induction l as [|t l IH]; intros s s' H; cbn in H; [by simplify_eq|].
  apply bind_Some in H as (s1 & H1 & H). eapply rtc_l; [by exists t, false|by apply IH].
Qed.

Lemma run_finds body (P : sys -> bool) l s0 :
  match run body l s0 with Some s => P s | None => false end = true ->
  exists s, rtc (step body) s0 s /\ P s = true.
Proof.
  destruct (run body l s0) as [s|] eqn:E; [|done]. intros HP. exists s.
  split; [by eapply run_reachable|done].
Qed.

(** The reachable states of a program. *)
Definition states (body : actor -> code) (main : code) : list sys :=
  explore body 2000 [] [start main].

Lemma explored body main (P : sys -> bool) :
  bool_decide (start main ∈ states body main) && closed body (states body main) &&
    forallb P (states body main) = true ->
  forall s, rtc (step body) (start main) s -> P s = true.
Proof. apply invariant_by_exploration. Qed.

(** A state that is not final is not stuck. *)
Lemma progress_or body (P : sys -> bool) s :
  can_step body s || P s = true -> (exists s', step body s s') \/ P s = true.
Proof. intros [H|H]%orb_true_iff; [left; by apply can_step_step|by right]. Qed.

(** The operations of a thread of deadlock.c. *)
Definition ops (noWait : bool) : nat := if noWait then 6 else 7.

(** ** The properties *)

(** C28: deadlock.c, whatever its arguments and for every interleaving: every
    run has at most 30 steps.  With the argument [safe] a run can only stop
    with all threads ended, both mutexes free and both counters at 2.  In the
    other two modes some runs end like that, some reach a deadlock, which is a
    state that no step leaves, and a run cannot stop anywhere else. *)
Theorem deadlock_modes (args : list string) :
  let '(safe, noWait) := flags args in
  let steps := step (grabRsrcs noWait) in
  let s0 := start (main safe) in
  (forall n s, nsteps steps n s0 s -> (n <= 30)%nat) /\
  (safe = true -> forall s, rtc steps s0 s -> (exists s', steps s s') \/ finished 2 2 s = true) /\
  (safe = false ->
     (forall s, rtc steps s0 s ->
        (exists s', steps s s') \/ finished 2 2 s = true \/ deadlocked s = true) /\
     (exists s, rtc steps s0 s /\ finished 2 2 s = true) /\
     (exists s, rtc steps s0 s /\ deadlocked s = true /\ forall s', ~ steps s s')).
Proof.
  destruct (flags args) as [safe noWait]. cbv zeta. split; [|split].
  - intros n s Hn. apply (runs_bounded (grabRsrcs noWait) 8) in Hn.
    + revert Hn. destruct safe; cbn; lia.
    + intros []; destruct noWait; cbn; lia.
  - intros -> s Hs. apply progress_or. revert s Hs. apply explored.
    destruct noWait; vm_compute; reflexivity.
  - intros ->. split; [|split].
    + intros s Hs.
      assert (can_step (grabRsrcs noWait) s || (finished 2 2 s || deadlocked s) = true) as H.
      { revert s Hs. apply explored. destruct noWait; vm_compute; reflexivity. }
      apply (progress_or _ (fun s => finished 2 2 s || deadlocked s)) in H as [H|H]; [by left|].
      right. by apply orb_true_iff.
    + eapply (run_finds _ (finished 2 2) ([Main; Main] ++ replicate (ops noWait) Thread1
                ++ replicate (ops noWait) Thread2 ++ [Main; Main])).
      destruct noWait; vm_compute; reflexivity.
    + destruct (run_finds (grabRsrcs noWait) deadlocked ([Main; Main]
          ++ replicate (ops noWait - 4) Thread1 ++ replicate (ops noWait - 4) Thread2)
          (start (main false))) as (s & Hr & Hd).
      * destruct noWait; vm_compute; reflexivity.
      * exists s. split; [done|]. split; [done|]. intros s'. by apply deadlocked_stuck.
Qed.

Lemma deadlock_modes_witness :
  flags ["race"%string] = (false, true) /\
  exists s, rtc (step (grabRsrcs true)) (start (main false)) s /\ deadlocked s = true.
Proof.
  split; [reflexivity|]. destruct (deadlock_modes ["race"%string]) as (_ & _ & H).
  destruct (H eq_refl) as (_ & _ & s & Hr & Hd & _). by exists s.
Defined.

(** [main] has stored behind the array; thread 1, the only one there is, has
    ended and left everything as it was. *)
Definition undefined (s : sys) : bool :=
  bool_decide (s = {| rsrcA := None; rsrcB := None; rsrcACnt := 0; rsrcBCnt := 0;
                      main_code := Wild; thread1 := Some Exit; thread2 := None |}).

(** Each thread owns one mutex and waits, for a time, for the other. *)
Definition both_wait (s : sys) : bool :=
  match rsrcA s, rsrcB s, main_code s, thread1 s, thread2 s with
  | Some Thread1, Some Thread2, Join Thread1 _, Some (Timedlock B _ _), Some (Timedlock A _ _) => true
  | _, _, _, _, _ => false
  end.

Lemma both_wait_timeout body t o s s' : both_wait s = true -> act body t o s = Some s' -> o = true.
Proof.
  unfold both_wait. intros Hd. repeat (case_match; try done). intros Ha. destruct o; [done|].
  unfold act, code_of in Ha.
  destruct t; repeat match goal with H : ?f s = _ |- _ => rewrite H in Ha end; cbn in Ha.
  - case_bool_decide; [congruence|done].
  - by destruct (rsrcB s).
  - by destruct (rsrcA s).
Qed.

(** Only whether the array has a third element matters. *)
Lemma main_timeout_len len safe :
  (NUM_THREADS < len)%nat -> main_timeout len safe = main_timeout 3 safe.
Proof.
  unfold NUM_THREADS. intros Hl. unfold main_timeout, THREAD_1, THREAD_2.
  rewrite (aset_Some (replicate len 0)) by (rewrite length_replicate; lia).
  rewrite aset_Some by (rewrite length_insert, length_replicate; lia). done.
Qed.

(** C31: deadlock_timeout.c for all arguments and interleavings: every run has
    at most 40 steps, and the counters are 0 or 1 in every state.  In the
    program as it is, with two elements of [threadParams], a run can only stop
    where [main] has stored the index of the second thread behind the array,
    which is undefined, before that thread exists.  With an element more, a run
    can stop only with all threads ended, both mutexes free and both counters
    back at 0: the timed locks exclude the deadlock.  The state in which each
    thread has one mutex and waits for the other is reached all the same unless
    the mode is safe, and only timeouts leave it. *)
Theorem timeouts_exclude_deadlock (args : list string) (len : nat) :
  (NUM_THREADS <= len)%nat ->
  let '(safe, noWait) := flags args in
  let steps := step (stored noWait) in
  let s0 := start (main_timeout len safe) in
  (forall n s, nsteps steps n s0 s -> (n <= 40)%nat) /\
  (forall s, rtc steps s0 s ->
     0 <= rsrcACnt s <= 1 /\ 0 <= rsrcBCnt s <= 1 /\
     ((exists s', steps s s') \/
      if (len =? NUM_THREADS)%nat then undefined s = true else finished 0 0 s = true)) /\
  (safe = false -> (NUM_THREADS < len)%nat ->
     exists s, rtc steps s0 s /\ both_wait s = true /\
       forall t o s', act (stored noWait) t o s = Some s' -> o = true).
Proof.
  intros Hlen. destruct (flags args) as [safe noWait]. cbv zeta.
  assert (Hm : (len = NUM_THREADS /\ main_timeout len safe = main_timeout 2 safe) \/
               ((NUM_THREADS < len)%nat /\ main_timeout len safe = main_timeout 3 safe)).
  { destruct (decide (len = NUM_THREADS)) as [->|]; [by left | right].
    split; [lia | apply main_timeout_len; lia]. }
  split; [|split].
  - intros n s Hn. apply (runs_bounded (stored noWait) 16) in Hn.
    + assert (sys_weight 16 (start (main_timeout len safe)) <= 40)%nat; [|lia].
      apply Nat.leb_le. destruct Hm as [[_ ->] | [_ ->]], safe; vm_compute; reflexivity.
    + intros []; destruct noWait; cbn; lia.
  - intros s Hs.
    assert ((can_step (stored noWait) s ||
        (if (len =? NUM_THREADS)%nat then undefined s else finished 0 0 s)) &&
      ((0 <=? rsrcACnt s) && (rsrcACnt s <=? 1) && (0 <=? rsrcBCnt s) && (rsrcBCnt s <=? 1))
      = true) as [Hp Hc]%andb_true_iff.
    { destruct Hm as [[-> Hm] | [Hlt Hm]]; rewrite Hm in Hs.
      - revert s Hs. apply explored. destruct safe, noWait; vm_compute; reflexivity.
      - rewrite (proj2 (Nat.eqb_neq len NUM_THREADS)) by lia.
        revert s Hs. apply explored. destruct safe, noWait; vm_compute; reflexivity. }
    rewrite !andb_true_iff, !Z.leb_le in Hc.
    apply (progress_or _ (fun s => if (len =? NUM_THREADS)%nat then undefined s else finished 0 0 s)) in Hp.
    destruct (len =? NUM_THREADS)%nat; tauto.
  - intros -> Hlt. destruct Hm as [[-> _] | [_ ->]]; [unfold NUM_THREADS in Hlt; lia|].
    destruct (run_finds (stored noWait) both_wait ([Main; Main]
      ++ replicate (ops noWait - 4) Thread1 ++ replicate (ops noWait - 4) Thread2)
      (start (main_timeout 3 false))) as (s & Hr & Hd).
    + destruct noWait; vm_compute; reflexivity.
    + exists s. split; [done|]. split; [done|]. intros t o s'. by apply both_wait_timeout.
Qed.

(** The program as it is, called with [race]: after thread 1's run, the store
    behind the array; and with an element more, both threads waiting. *)
Lemma timeouts_exclude_deadlock_witness :
  flags ["race"%string] = (false, true) /\
  (forall s, rtc (step (stored true)) (start (main_timeout NUM_THREADS false)) s ->
     (exists s', step (stored true) s s') \/ undefined s = true) /\
  exists s, rtc (step (stored true)) (start (main_timeout 3 false)) s /\ both_wait s = true.
Proof.
  split; [reflexivity|]. split.
  - intros s Hs. destruct (timeouts_exclude_deadlock ["race"%string] NUM_THREADS (le_n _)) as (_ & H & _).
    by destruct (H s Hs) as (_ & _ & Hp).
  - destruct (timeouts_exclude_deadlock ["race"%string] 3 ltac:(unfold NUM_THREADS; lia)) as (_ & _ & H).
    destruct (H eq_refl) as (s & Hr & Hb & _); [unfold NUM_THREADS; lia|]. by exists s.
Defined.
