(* ===== verification/PosixClock.v ===== *)
(** * Measured delays: RT-Clock/posix_clock.c

    [delta_t] subtracts time stamps; [delay_test] sleeps for ten milliseconds
    a hundred times, restarting an interrupted sleep with the remaining time,
    and records how long each sleep took and by how much it was too long.  The
    results of [clock_gettime] and [nanosleep] are arguments. *)
From stdpp Require Import option list.
From S2P Require Import Prelude Timespec.
#[local] Open Scope Z_scope.

(** ** delta_t *)

Definition ERROR : Z := -1.
Definition OK : Z := 0.

(** The difference of two [long] values, which must not overflow, assigned to
    an [int]. *)
Definition int_diff (a b : Z) : option Z :=
  if (- 2 ^ 63 <=? a - b) && (a - b <? 2 ^ 63) then Some (swrap 32 (a - b)) else None.

(** The result and the new contents of [*delta_t]. *)
Definition delta_t (stop start delta : timespec) : option (Z * timespec) :=
  dt_sec ← int_diff (tv_sec stop) (tv_sec start);
  dt_nsec ← int_diff (tv_nsec stop) (tv_nsec start);
  Some
    (if dt_sec =? 0 then
       if (0 <=? dt_nsec) && (dt_nsec <? NSEC_PER_SEC) then
         (OK, {| tv_sec := 0; tv_nsec := dt_nsec |})
       else if NSEC_PER_SEC <? dt_nsec then
         (OK, {| tv_sec := 1; tv_nsec := dt_nsec - NSEC_PER_SEC |})
       else (ERROR, delta)
     else if 0 <? dt_sec then
       if (0 <=? dt_nsec) && (dt_nsec <? NSEC_PER_SEC) then
         (OK, {| tv_sec := dt_sec; tv_nsec := dt_nsec |})
       else if NSEC_PER_SEC <? dt_nsec then
         (OK, {| tv_sec := tv_sec delta + 1; tv_nsec := dt_nsec - NSEC_PER_SEC |})
       else (OK, {| tv_sec := dt_sec - 1; tv_nsec := NSEC_PER_SEC + dt_nsec |})
     else (OK, delta)).

(** ** delay_test *)

Definition TEST_ITERATIONS : nat := 100.
Definition max_sleep_calls : Z := 3.
Definition sleep_requested : timespec := {| tv_sec := 0; tv_nsec := 10 * 1000000 |}.
Definition zero_time : timespec := {| tv_sec := 0; tv_nsec := 0 |}.

(** The globals: [sleep_count], [rtclk_dt], [delay_error], and how often
    [nanosleep] was called. *)
Record globals := {
  sleep_count : Z;
  rtclk_dt : timespec;
  delay_error : timespec;
  calls : nat
}.

Definition slept (g : globals) (count : Z) : globals :=
  {| sleep_count := count; rtclk_dt := rtclk_dt g; delay_error := delay_error g;
     calls := S (calls g) |}.

Section delay_test.
(** The [k]-th call of [nanosleep] for the given time, its result and the
    remaining time, and the [k]-th reading of the clock. *)
Context (nanosleep : nat -> timespec -> Z * timespec) (clock : nat -> timespec).

(** [do ... while] until the sleep is complete. *)
Fixpoint sleep_loop (fuel : nat) (sleep_time : timespec) (g : globals) : outcome globals :=
  match fuel with
  | O => NoFuel
  | S fuel =>
      let '(rc, remaining_time) := nanosleep (calls g) sleep_time in
      if rc =? 0 then Ret (slept g (sleep_count g)) else
      let g := slept g (u32 (sleep_count g + 1)) in
      if ((0 <? tv_sec remaining_time) || (0 <? tv_nsec remaining_time))
         && (sleep_count g <? max_sleep_calls)
      then sleep_loop fuel remaining_time g else Ret g
  end.

(** Test [idx]; the log holds the measured time and the error of each test. *)
Definition one_test (idx : nat) (s : globals * list (timespec * timespec))
    : outcome (globals * list (timespec * timespec)) :=
  let rtclk_start_time := clock (2 * idx) in
  g ← sleep_loop 4 sleep_requested (fst s);
  let rtclk_stop_time := clock (2 * idx + 1) in
  '(_, dt) ← lift (delta_t rtclk_stop_time rtclk_start_time (rtclk_dt g));
  '(_, err) ← lift (delta_t dt sleep_requested (delay_error g));
  Ret ({| sleep_count := sleep_count g; rtclk_dt := dt; delay_error := err; calls := calls g |},
       snd s ++ [(dt, err)]).

Definition delay_test : outcome (globals * list (timespec * timespec)) :=
  for_loop TEST_ITERATIONS 0 one_test
    ({| sleep_count := 0; rtclk_dt := zero_time; delay_error := zero_time; calls := 0 |}, []).
End delay_test.

(** ** The difference of two time stamps *)

Lemma int_diff_small a b : INT_MIN <= a - b <= INT_MAX -> int_diff a b = Some (a - b).
Proof.
  intros H. unfold int_diff. rewrite swrap_int by done. unfold INT_MIN, INT_MAX in H.
  by rewrite (proj2 (Z.leb_le _ _)), (proj2 (Z.ltb_lt _ _)) by lia.
Qed.

(** The difference, when the seconds differ by an [int]. *)
Lemma delta_t_spec stop start delta :
  normalised stop -> normalised start -> INT_MIN <= tv_sec stop - tv_sec start <= INT_MAX ->
  if nsecs start <=? nsecs stop then
    exists d, delta_t stop start delta = Some (OK, d) /\ normalised d /\
      nsecs d = nsecs stop - nsecs start /\ 0 <= tv_sec d <= tv_sec stop - tv_sec start
  else delta_t stop start delta
    = Some (if tv_sec stop =? tv_sec start then ERROR else OK, delta).
Proof.
  unfold normalised, nsecs, NSEC_PER_SEC. intros H1 H2 Hsec.
  unfold delta_t. rewrite (int_diff_small (tv_sec stop)) by done.
  rewrite int_diff_small by (unfold INT_MIN, INT_MAX; lia). step_option.
  unfold NSEC_PER_SEC. repeat (zcase; cbn [andb]); try lia;
    try (eexists; split; [reflexivity|]; cbn [tv_sec tv_nsec]; lia); try done; exfalso; lia.
Qed.

(** ** A test *)

Lemma sleep_loop_ends nanosleep fuel : forall sleep_time g,
  0 <= sleep_count g <= 200 -> max_sleep_calls - sleep_count g < Z.of_nat fuel -> (1 <= fuel)%nat ->
  exists g', sleep_loop nanosleep fuel sleep_time g = Ret g' /\
    rtclk_dt g' = rtclk_dt g /\ delay_error g' = delay_error g /\
    sleep_count g <= sleep_count g' <= Z.max 3 (sleep_count g + 1) /\
    Z.of_nat (calls g') - Z.of_nat (calls g) <= 1 + (Z.min 2 (sleep_count g') - Z.min 2 (sleep_count g)).
Proof.
  induction fuel as [|fuel IH]; intros sleep_time g Hc Hf Hf1; [lia|]. cbn [sleep_loop].
  unfold max_sleep_calls in *.
  destruct (nanosleep (calls g) sleep_time) as [rc rem]. destruct (rc =? 0).
  { eexists. split; [reflexivity|]. cbn [slept rtclk_dt delay_error sleep_count calls].
    repeat split; lia. }
  cbv zeta. cbn [slept sleep_count]. rewrite (wrap_small 32 (_ + 1)) by (unfold in_range; lia).
  destruct ((_ || _) && (sleep_count g + 1 <? 3)) eqn:E.
  - apply andb_true_iff in E as [_ E%Z.ltb_lt].
    destruct (IH rem (slept g (sleep_count g + 1))) as (g' & -> & H1 & H2 & H3 & H4);
      cbn [slept sleep_count] in *; [lia|lia|lia|].
    exists g'. split; [done|]. split; [done|]. split; [done|].
    cbn [slept calls sleep_count] in *. lia.
  - eexists. split; [reflexivity|]. cbn [slept rtclk_dt delay_error sleep_count calls].
    repeat split; lia.
Qed.

(** The error logged before test [i]. *)
Definition previous (log : list (timespec * timespec)) (i : nat) : timespec :=
  match i with O => zero_time | S i => from_option snd zero_time (log !! i) end.

(** What test [i] should log: the time between its clock readings, and how much
    longer than requested it was; after a sleep that was too short, the error
    of the test before. *)
Definition recorded (clock : nat -> timespec) (log : list (timespec * timespec)) (i : nat) : Prop :=
  exists dt err, log !! i = Some (dt, err) /\ normalised dt /\
    nsecs dt = nsecs (clock (2 * i + 1)%nat) - nsecs (clock (2 * i)%nat) /\
    if nsecs sleep_requested <=? nsecs dt
    then normalised err /\ nsecs err = nsecs dt - nsecs sleep_requested
    else err = previous log i.

Section test.
Context (nanosleep : nat -> timespec -> Z * timespec) (clock : nat -> timespec).

(** A clock of an [int] number of seconds that does not run backwards during
    a test. *)
Definition clock_ok : Prop := forall k, normalised (clock k) /\ 0 <= tv_sec (clock k) <= INT_MAX /\
  nsecs (clock (2 * k)%nat) <= nsecs (clock (2 * k + 1)%nat).

Record log_ok (i : nat) (s : globals * list (timespec * timespec)) : Prop := {
  lo_len : length s.2 = i;
  lo_count : 0 <= sleep_count s.1 <= 3 + Z.of_nat i;
  lo_calls : Z.of_nat (calls s.1) <= Z.of_nat i + Z.min 2 (sleep_count s.1);
  lo_err : delay_error s.1 = previous s.2 i;
  lo_recorded : forall j, (j < i)%nat -> recorded clock s.2 j
}.

Lemma recorded_snoc log e j :
  (j < length log)%nat -> recorded clock log j -> recorded clock (log ++ [e]) j.
Proof.
  intros Hj (dt & err & Hl & Hn & Hd & He). exists dt, err.
  rewrite lookup_app_l by done. split; [done|]. split; [done|]. split; [done|].
  destruct (_ <=? _); [done|]. rewrite He. destruct j; [done|]. cbn [previous].
  by rewrite lookup_app_l by lia.
Qed.

Hypothesis Hclock : clock_ok.

Lemma one_test_ok i s :
  (i < TEST_ITERATIONS)%nat -> log_ok i s ->
  exists s', one_test nanosleep clock i s = Ret s' /\ log_ok (i + 1) s'.
Proof using Hclock.
  unfold TEST_ITERATIONS. intros Hi [Hlen Hcnt Hcalls Herr Hrec]. destruct s as [g log]. cbn [fst snd] in *.
  unfold one_test. cbn [fst snd].
  destruct (sleep_loop_ends nanosleep 4 sleep_requested g) as (g' & -> & Hdt & Hde & Hc & Hk);
    [lia|unfold max_sleep_calls; lia|lia|].
  step_run. pose proof (Hclock i) as (_ & _ & Hmono).
  destruct (Hclock (2 * i)%nat) as (Hn0 & Hs0 & _). destruct (Hclock (2 * i + 1)%nat) as (Hn1 & Hs1 & _).
  pose proof (delta_t_spec (clock (2 * i + 1)%nat) (clock (2 * i)%nat) (rtclk_dt g') Hn1 Hn0
                ltac:(unfold INT_MIN, INT_MAX in *; lia)) as H.
  rewrite (proj2 (Z.leb_le _ _)) in H by done. destruct H as (dt & -> & Hndt & Hdiff & Hsec). step_run.
  pose proof (delta_t_spec dt sleep_requested (delay_error g') Hndt
                ltac:(unfold normalised; cbn; unfold NSEC_PER_SEC; lia)
                ltac:(cbn [sleep_requested tv_sec]; unfold INT_MIN, INT_MAX in *; lia)) as H.
  assert (exists r err, delta_t dt sleep_requested (delay_error g') = Some (r, err) /\
    if nsecs sleep_requested <=? nsecs dt
    then normalised err /\ nsecs err = nsecs dt - nsecs sleep_requested
    else err = previous log i) as (r & err & -> & Hr).
  { destruct (nsecs sleep_requested <=? nsecs dt).
    - destruct H as (d & -> & Hd & Hd' & _). by exists OK, d.
    - rewrite H. do 2 eexists. split; [reflexivity|]. congruence. }
  step_run. eexists. split; [reflexivity|]. split; cbn [fst snd sleep_count calls delay_error].
  - rewrite length_app, Hlen. done.
  - lia.
  - lia.
  - rewrite Nat.add_1_r. cbn [previous]. rewrite lookup_app_r, Hlen, Nat.sub_diag by lia. done.
  - intros j Hj. destruct (decide (j < i)%nat) as [Hji|]; [apply recorded_snoc; [lia|by apply Hrec]|].
    assert (j = i) as -> by lia. exists dt, err.
    rewrite lookup_app_r, Hlen, Nat.sub_diag by lia. split; [done|]. split; [done|]. split; [done|].
    destruct (_ <=? _); [done|]. rewrite Hr. destruct i; [done|]. cbn [previous].
    by rewrite lookup_app_l by lia.
Qed.
End test.

(** The delay test ends after its hundred tests, whatever [nanosleep]
    returns and however often it is interrupted, with at most 102 calls of it;
    with a monotonic clock every test logs the normalised difference of its two
    clock readings and, when the sleep was long enough, the excess over ten
    milliseconds; after a sleep that was too short the logged error is the one
    of the test before. *)
Theorem delay_test_correct (nanosleep : nat -> timespec -> Z * timespec) (clock : nat -> timespec) :
  clock_ok clock ->
  exists g log, delay_test nanosleep clock = Ret (g, log) /\ length log = TEST_ITERATIONS /\
    (calls g <= 102)%nat /\ forall i, (i < TEST_ITERATIONS)%nat -> recorded clock log i.
Proof.
  intros Hclock. unfold delay_test.
  destruct (for_loop_run (log_ok clock) (one_test nanosleep clock) TEST_ITERATIONS 0
    ({| sleep_count := 0; rtclk_dt := zero_time; delay_error := zero_time; calls := 0 |}, []))
    as ([g log] & -> & [Hlen Hc Hk _ Hr]).
  - split; try done. intros j Hj. lia.
  - intros j s Hj Hs. apply one_test_ok; [done|lia|done].
  - exists g, log. split; [done|]. split; [done|]. cbn [fst snd] in Hk. change (0 + TEST_ITERATIONS)%nat with 100%nat in Hk. split; [lia|done].
Qed.

(** Every sleep is interrupted with a millisecond left; the clock advances by
    twelve milliseconds. *)
Lemma delay_test_correct_witness :
  exists g log, delay_test (fun _ _ => (-1, {| tv_sec := 0; tv_nsec := 1000000 |}))
      (fun k => {| tv_sec := 7; tv_nsec := if Nat.even k then 0 else 12000000 |}) = Ret (g, log) /\
    log !! 99%nat = Some ({| tv_sec := 0; tv_nsec := 12000000 |}, {| tv_sec := 0; tv_nsec := 2000000 |})
    /\ calls g = 102%nat /\ (calls g <= 102)%nat.
Proof.
  destruct (delay_test_correct (fun _ _ => (-1, {| tv_sec := 0; tv_nsec := 1000000 |}))
    (fun k => {| tv_sec := 7; tv_nsec := if Nat.even k then 0 else 12000000 |}))
    as (g & log & H & _ & Hk & _).
  - intros k. unfold normalised, nsecs, INT_MAX, NSEC_PER_SEC. rewrite Nat.even_even, Nat.even_odd.
    cbn [tv_sec tv_nsec]. destruct (Nat.even k); lia.
  - exists g, log. split; [exact H|]. revert H Hk. vm_compute. intros [= <- <-] Hk.
    split; [reflexivity|]. split; [reflexivity|exact Hk].
Defined.

(** [delta_t] of normalised time stamps whose seconds differ by an [int]:
    the normalised difference when [stop] is not before [start]; when it is
    before in the same second, [ERROR]; when it is before by the seconds too,
    [OK] with [*delta_t] left as it was. *)
Theorem delta_t_correct (stop start delta : timespec) :
  normalised stop -> normalised start -> INT_MIN <= tv_sec stop - tv_sec start <= INT_MAX ->
  (nsecs start <= nsecs stop -> exists d, delta_t stop start delta = Some (OK, d) /\
     normalised d /\ nsecs d = nsecs stop - nsecs start) /\
  (nsecs stop < nsecs start -> delta_t stop start delta
     = Some (if tv_sec stop =? tv_sec start then ERROR else OK, delta)).
Proof.
  intros H1 H2 Hs. pose proof (delta_t_spec stop start delta H1 H2 Hs) as H. split; intros Hle.
  - rewrite (proj2 (Z.leb_le _ _)) in H by done. destruct H as (d & ? & ? & ? & _). by exists d.
  - by rewrite (proj2 (Z.leb_gt _ _)) in H by done.
Qed.

Lemma delta_t_correct_witness :
  delta_t {| tv_sec := 4; tv_nsec := 900 |} {| tv_sec := 5; tv_nsec := 0 |} zero_time
  = Some (OK, zero_time).
Proof.
  apply (delta_t_correct {| tv_sec := 4; tv_nsec := 900 |} {| tv_sec := 5; tv_nsec := 0 |} zero_time);
    unfold normalised, NSEC_PER_SEC, INT_MIN, INT_MAX; first [by split | done].
Defined.
