(* ===== verification/Seqgenex0.v ===== *)
(** * The drift-controlled sequencer: sequencer_generic/seqgenex0.c

    A sequencer thread at 100 Hz that sleeps until an absolute time, computed
    from a time stamp and from how late the last cycle was, and releases three
    services; compiled, as the file is, with [ABS_DELAY] and [DRIFT_CONTROL].
    The readings of the clock, in the order in which the thread makes them, and
    the results of [clock_nanosleep] are arguments.  The sequencer and the three
    services run on one core, each with the priority that [main] gives it. *)
From Stdlib Require Import QArith Qround Lqa.
From stdpp Require Import option list relations.
From S2P Require Import Prelude Double Timespec Sequencer.
#[local] Open Scope Z_scope.

Definition NANOSEC_PER_SEC : Z := 1000000000.
Definition RTSEQ_PERIODS : Z := 2400.
Definition CLOCK_BIAS_NANOSEC : Z := 100000.
Definition DT_SCALING_UNCERTAINTY_NANOSEC : Z := 500000.
Definition RTSEQ_DELAY_NSEC : Z := 10000000.
Definition EINTR : Z := 4.

(** The service table: [(seqCnt % 2) == 0] releases service 1 and so on. *)
Definition table : list (nat * Z) := [(0%nat, 2); (1%nat, 10); (2%nat, 15)].

(** ** Times as doubles *)

(** [getTimeMsec] from a reading of the clock, less the global [start_time]. *)
Definition getTimeMsec (start_time : dbl) (event_ts : timespec) : option dbl :=
  q ← ddiv (d_of_Z (tv_nsec event_ts)) (d_of_Z NANOSEC_PER_SEC);
  Some (dsub (dadd (d_of_Z (tv_sec event_ts)) q) start_time).

(** [RTSEQ_DELAY_NSEC/(double)NANOSEC_PER_SEC] *)
Definition delta_t : option dbl := ddiv (d_of_Z RTSEQ_DELAY_NSEC) (d_of_Z NANOSEC_PER_SEC).

(** The drift control: the nanoseconds to sleep. *)
Definition drift_nsec (current_time last_time : dbl) : option Z :=
  delta ← delta_t;
  let scale_dt := dsub (dsub current_time last_time) delta in
  d_to_long
    (dsub (dsub (d_of_Z RTSEQ_DELAY_NSEC)
                (dmul scale_dt (d_of_Z (NANOSEC_PER_SEC + DT_SCALING_UNCERTAINTY_NANOSEC))))
          (d_of_Z CLOCK_BIAS_NANOSEC)).

(** The absolute time: the present plus [nsec], with one carry. *)
Definition abs_delay (current_time_val : timespec) (nsec : Z) : timespec :=
  let tv_sec := tv_sec current_time_val in
  let tv_nsec := tv_nsec current_time_val + nsec in
  if NANOSEC_PER_SEC <? tv_nsec then {| tv_sec := tv_sec + 1; tv_nsec := tv_nsec - NANOSEC_PER_SEC |}
  else {| tv_sec := tv_sec; tv_nsec := tv_nsec |}.

(** ** The thread *)

Section sequencer.
(** [clock_nanosleep c k t] is the result of the [k]-th call in cycle [c]: zero
    or an error number.  [clock n] is the [n]-th reading of the thread. *)
Context (clock_nanosleep : Z -> nat -> timespec -> Z) (clock : nat -> timespec)
  (start_time : dbl) (abortTest : Z -> bool) (sequencePeriods : Z).

(** The loop around [clock_nanosleep]; [false] is [exit(-1)]. *)
Fixpoint delay_loop (fuel : nat) (c : Z) (k : nat) (delay_time : timespec) : outcome bool :=
  match fuel with
  | O => NoFuel
  | S fuel =>
      let rc := clock_nanosleep c k delay_time in
      if rc =? EINTR then delay_loop fuel c (S k) delay_time
      else Ret (negb (rc <? 0))
  end.

(** One cycle, up to the releases: the time it started and the delay. *)
Definition cycle_delay (seqCnt : Z) (last_time : dbl) : option (dbl * timespec) :=
  current_time ← getTimeMsec start_time (clock (2 * Z.to_nat seqCnt + 1));
  nsec ← drift_nsec current_time last_time;
  Some (current_time, abs_delay (clock (2 * Z.to_nat seqCnt + 2)) nsec).

(** The [do ... while] loop from cycle [seqCnt] on: for each cycle the actions
    from one sleep to the next, and the time slept until. *)
Fixpoint Sequencer_loop (fuel tries : nat) (seqCnt : Z) (last_time : dbl)
    : outcome (list (list action) * list timespec) :=
  match fuel with
  | O => NoFuel
  | S fuel =>
      '(current_time, delay_time) ← lift (cycle_delay seqCnt last_time);
      go ← delay_loop tries seqCnt 0 delay_time;
      if negb go then Ret ([[Exit]], [delay_time]) else
      let released := release table seqCnt in
      let seqCnt := u64 (seqCnt + 1) in
      if negb (abortTest seqCnt) && (seqCnt <? sequencePeriods) then
        '(batches, delays) ← Sequencer_loop fuel tries seqCnt current_time;
        Ret (released :: batches, delay_time :: delays)
      else Ret ([released ++ post_all 3 ++ abort_all 3], [delay_time])
  end.

Definition Sequencer (tries : nat) : outcome (list (list action) * list timespec) :=
  current_time ← lift (getTimeMsec start_time (clock 0));
  delta ← lift delta_t;
  Sequencer_loop (S (Z.to_nat sequencePeriods)) tries 0 (dsub current_time delta).
End sequencer.

(** The services count their releases like those of seqgen.c. *)
Definition Service_1 := service_step seqgen_service 0.
Definition Service_2 := service_step seqgen_service 1.
Definition Service_3 := service_step seqgen_service 2.

(** The attributes: thread 0 is the sequencer, thread [i] runs service [i - 1];
    all on core 3, scheduled by [SCHED_FIFO]. *)
Definition cpuidx : Z := 3.
Definition sequencer_attr (rt_max_prio : Z) : Z * option Z := (rt_max_prio, Some cpuidx).
Definition created (rt_max_prio : Z) : list thread :=
  map (fun i => {| service := (i - 1)%nat; sched_priority := rt_max_prio - Z.of_nat i;
                   cpu := Some cpuidx |}) (seq 1 3).

(** ** The threads on their core

    The sequencer has the highest priority of the core and waits only in its
    sleeps: from one sleep to the next no service runs.  While it sleeps the
    services run, in any order.  [batches] is what it still does, cycle by
    cycle; [prog] of the state is what it still does before it sleeps. *)

Definition woken_for (batch : list action) (s : sys) : sys :=
  {| prog := batch; sem := sem s; flag := flag s; pcs := pcs s; cnt := cnt s |}.

Inductive core_step : sys * list (list action) -> sys * list (list action) -> Prop :=
  | step_sequencer s s' batches :
      seq_step s = Some s' -> core_step (s, batches) (s', batches)
  | step_wakes s batch batches :
      prog s = [] -> core_step (s, batch :: batches) (woken_for batch s, batches)
  | step_service_runs s i s' batches :
      prog s = [] -> (i < 3)%nat -> service_step seqgen_service i s = Some s' ->
      core_step (s, batches) (s', batches).

Definition core_stuck (c : sys * list (list action)) : Prop := forall c', ~ core_step c c'.

(** Three cycles on time, then the shutdown. *)
Example seqgenex0_three_cycles :
  fst <$> (match Sequencer (fun _ _ _ => 0)
      (fun n => {| tv_sec := 0; tv_nsec := 10000000 * Z.of_nat (Nat.div (n + 1) 2) |}) 0%Q
      (fun _ => false) 3 1 with Ret r => Some r | _ => None end)
  = Some [[Post 0; Post 1; Post 2]; [];
          [Post 0; Post 0; Post 1; Post 2; Abort [0%nat]; Abort [1%nat]; Abort [2%nat]]].
Proof. vm_compute. reflexivity. Qed.

(** ** The delay *)

Lemma d_trunc_near x : (x - 1 < inject_Z (d_trunc x) < x + 1)%Q.
Proof.
  unfold d_trunc. destruct (Qle_bool 0 x).
  - pose proof (Qfloor_le x). pose proof (Qlt_floor x) as Hx. rewrite inject_Z_plus in Hx.
    change (inject_Z 1) with 1%Q in Hx. lra.
  - pose proof (Qle_ceiling x). pose proof (Qceiling_lt x) as Hx. unfold Z.sub in Hx.
    rewrite inject_Z_plus in Hx. change (inject_Z (- (1))) with (- (1))%Q in Hx. lra.
Qed.

Lemma d_to_long_small x :
  (- inject_Z (2 ^ 62) <= x <= inject_Z (2 ^ 62))%Q -> d_to_long x = Some (d_trunc x).
Proof.
  intros Hx. pose proof (d_trunc_near x) as Hn. unfold d_to_long.
  assert (- inject_Z (2 ^ 62 + 1) < inject_Z (d_trunc x) < inject_Z (2 ^ 62 + 1))%Q as [H1 H2].
  { rewrite inject_Z_plus. change (inject_Z 1) with 1%Q. lra. }
  rewrite <- inject_Z_opp, <- Zlt_Qlt in H1. rewrite <- Zlt_Qlt in H2.
  rewrite (proj2 (Z.leb_le _ _)), (proj2 (Z.ltb_lt _ _)) by lia. done.
Qed.

(** The constants as rationals. *)
Lemma delta_t_value : exists d, delta_t = Some d /\
  ((1 # 100) - (1 # 1000000000000000000) <= d <= (1 # 100) + (1 # 1000000000000000000))%Q.
Proof. eexists. split; [vm_compute; reflexivity|]. split; by vm_compute. Qed.

Lemma constants_exact :
  (d_of_Z RTSEQ_DELAY_NSEC == 10000000 /\ d_of_Z CLOCK_BIAS_NANOSEC == 100000 /\
   d_of_Z (NANOSEC_PER_SEC + DT_SCALING_UNCERTAINTY_NANOSEC) == 1000500000)%Q.
Proof. repeat split; by vm_compute. Qed.

(** The computation with its roundings, for times at most [b] seconds apart:
    the result is within [err] nanoseconds of the exact value. *)
Lemma drift_nsec_near cur last (b : Q) :
  (1 <= b <= 4294967302)%Q -> (- b <= cur - last <= b)%Q ->
  exists d, drift_nsec cur last = Some d /\
    let exact := (9900000 - (cur - last - (1 # 100)) * 1000500000)%Q in
    (exact - (1 + b * (1 # 100000)) <= inject_Z d <= exact + (1 + b * (1 # 100000)))%Q.
Proof.
  intros Hb Hd. destruct delta_t_value as (delta & Hdelta & Hdv). destruct constants_exact as (Hc1 & Hc2 & Hc3).
  unfold drift_nsec. rewrite Hdelta. step_option. unfold dsub, dmul.
  set (e := (1 # 9007199254740992)%Q).
  pose proof (round53_bounds b (cur - last) ltac:(lra)) as H1. fold e in H1.
  set (x1 := round53 (cur - last)) in *.
  pose proof (round53_bounds (b + 1) (x1 - delta) ltac:(unfold e in *; lra)) as H2. fold e in H2.
  set (x2 := round53 (x1 - delta)) in *.
  set (k := d_of_Z (NANOSEC_PER_SEC + DT_SCALING_UNCERTAINTY_NANOSEC)) in *.
  pose proof (round53_bounds ((b + 2) * 1000500000) (x2 * k)
    ltac:(rewrite Hc3; unfold e in *; lra)) as H3. fold e in H3.
  set (x3 := round53 (x2 * k)) in *. rewrite Hc3 in H3.
  set (m := d_of_Z RTSEQ_DELAY_NSEC) in *. set (o := d_of_Z CLOCK_BIAS_NANOSEC) in *.
  pose proof (round53_bounds ((b + 3) * 1010500000) (m - x3)
    ltac:(rewrite Hc1; unfold e in *; lra)) as H4. fold e in H4.
  set (x4 := round53 (m - x3)) in *. rewrite Hc1 in H4.
  pose proof (round53_bounds ((b + 4) * 1010600000) (x4 - o)
    ltac:(rewrite Hc2; unfold e in *; lra)) as H5. fold e in H5.
  set (x5 := round53 (x4 - o)) in *. rewrite Hc2 in H5.
  exists (d_trunc x5). split.
  - apply d_to_long_small. change (inject_Z (2 ^ 62)) with (4611686018427387904 # 1)%Q.
    unfold e in *; lra.
  - pose proof (d_trunc_near x5). cbv zeta. unfold e in *. lra.
Qed.

(** A normalised reading of an [int] number of seconds. *)
Definition reading_ok (t : timespec) : Prop := normalised t /\ 0 <= tv_sec t <= INT_MAX.

(** Times relative to [start_time] are below [b] seconds. *)
Definition time_bound : Q := (2147483650)%Q.

Lemma event_time_bounds t :
  reading_ok t -> exists q, ddiv (d_of_Z (tv_nsec t)) (d_of_Z NANOSEC_PER_SEC) = Some q /\
    (0 <= dadd (d_of_Z (tv_sec t)) q <= 2147483649)%Q.
Proof.
  unfold reading_ok, normalised, NSEC_PER_SEC, INT_MAX, NANOSEC_PER_SEC. intros [Hn Hs].
  rewrite ddiv_of_Z by lia. eexists. split; [reflexivity|].
  assert (0 <= inject_Z (tv_nsec t) / inject_Z 1000000000 <= 1)%Q as Hq.
  { change (inject_Z 1000000000) with (1000000000 # 1)%Q.
    assert (0 <= inject_Z (tv_nsec t) <= 1000000000 # 1)%Q.
    { change (1000000000 # 1)%Q with (inject_Z 1000000000). change 0%Q with (inject_Z 0).
      rewrite <- !Zle_Qle. lia. }
    unfold Qdiv. change (/ (1000000000 # 1))%Q with (1 # 1000000000)%Q. lra. }
  set (q := (inject_Z (tv_nsec t) / inject_Z 1000000000)%Q) in *.
  pose proof (round53_bounds 1 q ltac:(lra)) as H1.
  destruct (round53_error q ltac:(lra)) as [H2 _].
  assert (d_of_Z (tv_sec t) == inject_Z (tv_sec t))%Q as Hd by (apply d_of_Z_exact; lia).
  assert (0 <= inject_Z (tv_sec t) <= 2147483647)%Q as Hi.
  { change 2147483647%Q with (inject_Z 2147483647). change 0%Q with (inject_Z 0).
    rewrite <- !Zle_Qle. lia. }
  unfold dadd. set (r := round53 q) in *. set (s := d_of_Z (tv_sec t)) in *. rewrite <- Hd in Hi.
  destruct (round53_error (s + r) ltac:(lra)) as [H3 H4]. lra.
Qed.

Lemma getTimeMsec_bounds start_time t :
  reading_ok t -> (0 <= start_time <= 4294967299 # 2)%Q ->
  exists d, getTimeMsec start_time t = Some d /\ (- time_bound <= d <= time_bound)%Q.
Proof.
  intros Ht Hs. destruct (event_time_bounds t Ht) as (q & Hq & Hb). unfold getTimeMsec. rewrite Hq.
  step_option. eexists. split; [reflexivity|]. unfold dsub, time_bound.
  set (x := dadd _ _) in *. pose proof (round53_bounds (4294967299 # 2) (x - start_time) ltac:(lra)). lra.
Qed.

(** [main]'s first call, when [start_time] is still zero. *)
Lemma start_time_bounds t start_time :
  reading_ok t -> getTimeMsec 0%Q t = Some start_time -> (0 <= start_time <= 4294967299 # 2)%Q.
Proof.
  intros Ht. destruct (event_time_bounds t Ht) as (q & Hq & Hb). unfold getTimeMsec. rewrite Hq.
  step_option. intros [= <-]. unfold dsub. set (x := dadd _ _) in *.
  destruct (round53_error (x - 0) ltac:(lra)) as [H1 H2]. lra.
Qed.

(** The carry keeps the instant, but a sum of exactly a second or a negative
    one stays outside the range that [clock_nanosleep] accepts. *)
Lemma abs_delay_instant now d : nsecs (abs_delay now d) = nsecs now + d.
Proof. unfold abs_delay, nsecs, NSEC_PER_SEC, NANOSEC_PER_SEC. cbv zeta. zcase; cbn [tv_sec tv_nsec]; lia. Qed.

Lemma abs_delay_valid now d :
  normalised now -> d < NANOSEC_PER_SEC ->
  normalised (abs_delay now d) <-> 0 <= tv_nsec now + d /\ tv_nsec now + d <> NANOSEC_PER_SEC.
Proof.
  unfold abs_delay, normalised, NSEC_PER_SEC, NANOSEC_PER_SEC. cbv zeta. intros Hn Hd.
  zcase; cbn [tv_sec tv_nsec]; lia.
Qed.

(** ** The run *)

#[local] Opaque drift_nsec getTimeMsec delta_t.

(** Every cycle's sleep ends within [tries] calls: some are interrupted, the
    last returns anything else that is not negative, an error included. *)
Definition sleeps_end (tries : nat) (clock_nanosleep : Z -> nat -> timespec -> Z) : Prop :=
  forall c t, exists k, (k < tries)%nat /\ clock_nanosleep c k t <> EINTR /\
    0 <= clock_nanosleep c k t /\ forall j, (j < k)%nat -> clock_nanosleep c j t = EINTR.

Lemma delay_loop_ends clock_nanosleep c t k : forall fuel i,
  (i <= k < i + fuel)%nat -> clock_nanosleep c k t <> EINTR -> 0 <= clock_nanosleep c k t ->
  (forall j, (j < k)%nat -> clock_nanosleep c j t = EINTR) ->
  delay_loop clock_nanosleep fuel c i t = Ret true.
Proof.
  induction fuel as [|fuel IH]; intros i Hi Hne Hpos Hj; [lia|]. cbn [delay_loop].
  destruct (decide (i = k)) as [->|].
  - rewrite (proj2 (Z.eqb_neq _ _)), (proj2 (Z.ltb_ge _ _)) by done. done.
  - rewrite Hj by lia. rewrite Z.eqb_refl. apply IH; [lia|done..].
Qed.

(** The batches of the cycles [c] to [c + k]; the last one ends with the
    shutdown. *)
Fixpoint cycle_batches (c : Z) (k : nat) : list (list action) :=
  match k with
  | O => [release table c ++ post_all 3 ++ abort_all 3]
  | S k => release table c :: cycle_batches (c + 1) k
  end.

Lemma concat_batches c k :
  concat (cycle_batches c k) = cycles table c (S k) ++ post_all 3 ++ abort_all 3.
Proof.
  revert c. induction k as [|k IH]; intros c; rewrite (cycles_S _ c), <- app_assoc; cbn [cycle_batches concat].
  - by rewrite cycles_O, app_nil_r.
  - by rewrite IH.
Qed.

Lemma length_batches c k : length (cycle_batches c k) = S k.
Proof. revert c. induction k as [|k IH]; intros c; cbn; [done|]. by rewrite IH. Qed.

Lemma last_batch c k :
  exists b, list.last (cycle_batches c k) = Some (b ++ post_all 3 ++ abort_all 3).
Proof.
  revert c. induction k as [|k IH]; intros c; [by exists (release table c)|].
  destruct (IH (c + 1)) as [b Hb]. exists b. cbn [cycle_batches].
  rewrite last_cons, Hb. done.
Qed.

Section run.
Context (clock_nanosleep : Z -> nat -> timespec -> Z) (clock : nat -> timespec)
  (start_time : dbl) (abortTest : Z -> bool) (sequencePeriods n : Z) (tries : nat).
Hypothesis Hsleep : sleeps_end tries clock_nanosleep.
Hypothesis Hclock : forall k, reading_ok (clock k).
Hypothesis Hstart : (0 <= start_time <= 4294967299 # 2)%Q.
Hypothesis Hends : ends_at abortTest sequencePeriods n.

(** The time the cycle before [c] started; before the first, a period earlier
    than the thread. *)
Definition last_of (c : Z) : option dbl :=
  if c =? 0 then
    current_time ← getTimeMsec start_time (clock 0); delta ← delta_t;
    Some (dsub current_time delta)
  else getTimeMsec start_time (clock (2 * Z.to_nat (c - 1) + 1)).

Definition last_bounded (x : dbl) : Prop := (- (2147483651) <= x <= 2147483651)%Q.

Lemma cycle_delay_some c last :
  last_bounded last ->
  exists cur t, cycle_delay clock start_time c last = Some (cur, t) /\
    getTimeMsec start_time (clock (2 * Z.to_nat c + 1)) = Some cur /\ last_bounded cur.
Proof using Hclock Hstart.
  unfold last_bounded. intros Hl.
  destruct (getTimeMsec_bounds start_time (clock (2 * Z.to_nat c + 1)) (Hclock _) Hstart)
    as (cur & Hg & Hcur). unfold time_bound in Hcur.
  destruct (drift_nsec_near cur last 4294967302) as (d & Hd & _); [lra|lra|].
  exists cur, (abs_delay (clock (2 * Z.to_nat c + 2)) d). split; [|split; [exact Hg|lra]].
  apply bind_Some. exists cur. split; [exact Hg|]. apply bind_Some. exists d. split; [exact Hd|reflexivity].
Qed.

Lemma delay_loop_true c t : delay_loop clock_nanosleep tries c 0 t = Ret true.
Proof using Hsleep.
  clear -Hsleep. destruct (Hsleep c t) as (i & Hi & Hne & Hpos & Hj).
  apply (delay_loop_ends _ _ _ i); [lia|done..].
Qed.

Lemma Sequencer_loop_spec k : forall c last fuel,
  0 <= c -> c + Z.of_nat (S k) = n -> (k < fuel)%nat -> last_of c = Some last -> last_bounded last ->
  exists delays,
    Sequencer_loop clock_nanosleep clock start_time abortTest sequencePeriods fuel tries c last
    = Ret (cycle_batches c k, delays) /\
    length delays = S k /\
    forall j t, delays !! j = Some t -> exists last cur, last_of (c + Z.of_nat j) = Some last /\
      cycle_delay clock start_time (c + Z.of_nat j) last = Some (cur, t).
Proof using Hsleep Hclock Hstart Hends.
  induction k as [|k IH]; intros c last fuel Hc Heq Hf Hlast Hb;
    (destruct fuel as [|fuel]; [lia|]); cbn [Sequencer_loop];
    destruct (cycle_delay_some c last Hb) as (cur & t & Hd & Hcur & Hbc); rewrite Hd; step_run;
    rewrite (delay_loop_true c t); step_run; cbn [negb];
    (destruct (ends_at_step _ _ _ c Hends) as [-> Hgo]; [lia|]).
  - rewrite decide_True in Hgo by lia. rewrite Hgo. exists [t].
    split; [done|]. split; [done|].
    intros [|j] t' Hj'; [|done]. injection Hj' as <-. rewrite Z.add_0_r. eauto.
  - rewrite decide_False in Hgo by lia. rewrite Hgo.
    destruct (IH (c + 1) cur fuel) as (delays & Hr & Hlen & Hds); [lia|lia|lia| |done|].
    { unfold last_of. rewrite (proj2 (Z.eqb_neq _ _)) by lia. by rewrite Z.add_simpl_r. }
    rewrite Hr. step_run. exists (t :: delays).
    split; [done|]. split; [cbn; lia|].
    intros [|j] t' Hj'; cbn in Hj'.
    + injection Hj' as <-. rewrite Z.add_0_r. eauto.
    + destruct (Hds j t' Hj') as (l' & c' & H1 & H2). exists l', c'.
      replace (c + Z.of_nat (S j)) with (c + 1 + Z.of_nat j) by lia.
      exact (conj H1 H2).
Qed.
End run.

(** The releases of [n] cycles counted from zero. *)
Lemma nposts_cycles_0 t i p k :
  NoDup t.*1 -> (i, p) ∈ t -> 0 < p -> nposts i (cycles t 0 (S k)) = Z.of_nat k / p + 1.
Proof.
  intros Hnd Hin Hp. rewrite cycles_S, nposts_app, (nposts_cycles _ i p), (nposts_release _ i p) by done.
  rewrite Z.mod_0_l by lia. rewrite Z.eqb_refl. lia.
Qed.

Lemma table_entry i p : (i, p) ∈ table -> 1 < p /\ (i < 3)%nat.
Proof.
  unfold table. rewrite !elem_of_cons, elem_of_nil. intros H. intuition (simplify_eq; lia).
Qed.

(** *** The threads on their core *)

(** What the sequencer still does in all. *)
Definition ahead (c : sys * list (list action)) : sys :=
  {| prog := prog c.1 ++ concat c.2; sem := sem c.1; flag := flag c.1; pcs := pcs c.1;
     cnt := cnt c.1 |}.

Lemma seq_step_ahead s s' batches :
  Exit ∉ prog s -> seq_step s = Some s' -> seq_step (ahead (s, batches)) = Some (ahead (s', batches)).
Proof.
  unfold seq_step, ahead; cbn. destruct (prog s) as [|[j|svcs|] rest]; cbn; [done| | |set_solver];
    by intros _ [= <-].
Qed.

Lemma service_step_ahead k i s s' batches :
  service_step k i s = Some s' ->
  service_step k i (ahead (s, batches)) = Some (ahead (s', batches)).
Proof.
  unfold service_step, ahead; cbn. destruct (pcs s i); cbn; [by intros [= <-]| | |done];
    case_match; first [done | by intros [= <-]].
Qed.

(** A step on the core is one of the threads interleaved freely, or the
    sequencer wakes up. *)
Lemma core_step_refines c c' :
  Exit ∉ prog (ahead c) -> core_step c c' ->
  Sequencer.step seqgen_service 3 (ahead c) (ahead c') /\ c'.2 = c.2 \/
  ahead c' = ahead c /\ S (length c'.2) = length c.2.
Proof.
  intros He Hstep. destruct Hstep as [s s' batches H | s b batches Hp | s i s' batches Hp Hi H];
    cbn in *.
  - left. split; [|done]. apply step_seq, seq_step_ahead; [by apply not_elem_of_app in He as [? _]|done].
  - right. split; [|done]. unfold ahead, woken_for; cbn. by rewrite Hp.
  - left. split; [|done]. apply (step_service _ _ _ i); [done|]. by apply service_step_ahead.
Qed.

Fixpoint aborts (i : nat) (p : list action) : bool :=
  match p with
  | [] => false
  | Abort svcs :: p => bool_decide (i ∈ svcs) || aborts i p
  | _ :: p => aborts i p
  end.

Lemma posts_app i p q : posts i (p ++ q) = posts i p || posts i q.
Proof. induction p as [|[j|svcs|] p IH]; cbn; rewrite ?IH, ?orb_assoc; done. Qed.
Lemma aborts_app i p q : aborts i (p ++ q) = aborts i p || aborts i q.
Proof. induction p as [|[j|svcs|] p IH]; cbn; rewrite ?IH, ?orb_assoc; done. Qed.

(** Service [i] is not left behind: the last batch posts its semaphore and sets
    its flag, both before a service runs again. *)
Definition settled (i : nat) (c : sys * list (list action)) : Prop :=
  match list.last c.2 with
  | Some b => posts i b = true /\ aborts i b = true
  | None => (posts i (prog c.1) = true \/ (pcs c.1 i = Wait -> 0 < sem c.1 i)) /\
            (aborts i (prog c.1) = true \/ flag c.1 i = true)
  end.

Lemma service_settled s s' i j batches :
  sems_nonneg s -> prog s = [] -> service_step seqgen_service j s = Some s' ->
  settled i (s, batches) -> settled i (s', batches).
Proof.
  unfold settled; cbn. intros Hs Hp H. destruct (list.last batches); [done|].
  rewrite Hp. cbn. intros [[|Hw] [|Hf]]; try done.
  assert (prog s' = [] /\ flag s' i = true) as [Hp' Hf'] by (step_cases H; done).
  rewrite Hp', Hf'. cbn. split; [right|by right]. destruct (decide (i = j)) as [->|].
  - step_cases H; by rewrite upd_eq.
  - step_cases H; rewrite ?upd_ne by done; auto.
Qed.

Lemma seq_settled s s' i batches :
  sems_nonneg s -> Exit ∉ prog s -> seq_step s = Some s' ->
  settled i (s, batches) -> settled i (s', batches).
Proof.
  unfold settled; cbn. intros Hs He H. destruct (list.last batches); [done|].
  unfold seq_step in H. specialize (Hs i).
  destruct (prog s) as [|[j|svcs|] rest]; cbn in *; simplify_eq; cbn; [| |set_solver].
  - intros [Hpost Hab]. split; [|done]. unfold upd. destruct (Nat.eqb_spec i j) as [->|].
    + right. rewrite decide_True by done. lia.
    + by rewrite decide_False.
  - intros [Hpost Hab]. split; [done|]. case_bool_decide; [right|].
    + by rewrite decide_True.
    + by rewrite decide_False.
Qed.

Record core_inv (c : sys * list (list action)) : Prop := {
  core_no_exit : Exit ∉ prog (ahead c);
  core_sems : sems_nonneg c.1;
  core_settled i : (i < 3)%nat -> settled i c
}.

Lemma core_step_inv c c' : core_inv c -> core_step c c' -> core_inv c'.
Proof.
  intros [He Hs Hl] Hstep. destruct Hstep as [s s' batches H | s b batches Hp | s i s' batches Hp Hi H];
    cbn in *.
  - assert (Exit ∉ prog s) by (by apply not_elem_of_app in He as [? _]). split; cbn.
    + unfold seq_step in H. destruct (prog s) as [|[]]; simplify_eq; set_solver.
    + eapply (step_sems seqgen_service 3); [by apply step_seq | done].
    + intros i Hi. eapply seq_settled; eauto.
  - split; cbn; [by rewrite Hp in He | done |]. intros i Hi. specialize (Hl i Hi).
    unfold settled in *. cbn [fst snd] in *. rewrite last_cons in Hl.
    destruct (list.last batches); [done|]. destruct Hl. cbn. auto.
  - split; cbn.
    + assert (prog s' = prog s) as -> by (step_cases H; done). done.
    + eapply (step_sems seqgen_service 3); [by eapply step_service | done].
    + intros j Hj. eapply service_settled; eauto.
Qed.

Lemma core_reachable c c' :
  core_inv c -> rtc core_step c c' ->
  core_inv c' /\ rtc (Sequencer.step seqgen_service 3) (ahead c) (ahead c').
Proof.
  intros I Hr. induction Hr as [c | c c1 c2 Hstep _ IH]; [done|].
  destruct (IH (core_step_inv _ _ I Hstep)) as [I2 Hr2]. split; [done|].
  destruct (core_step_refines _ _ (core_no_exit _ I) Hstep) as [[H _] | [<- _]]; [|done].
  by eapply rtc_l.
Qed.

Lemma core_bounded k c c' :
  core_inv c -> nsteps core_step k c c' ->
  (k + weight 3 (ahead c') + length c'.2 <= weight 3 (ahead c) + length c.2)%nat.
Proof.
  intros I Hr. induction Hr as [c | k c c1 c2 Hstep _ IH]; [lia|].
  specialize (IH (core_step_inv _ _ I Hstep)).
  destruct (core_step_refines _ _ (core_no_exit _ I) Hstep) as [[H Hl] | [Ha Hl]].
  - rewrite Hl in IH. apply step_weight in H; [lia|]. exact (core_sems _ I).
  - rewrite Ha in IH. lia.
Qed.

Lemma core_stuck_done c :
  core_inv c -> core_stuck c ->
  prog c.1 = [] /\ c.2 = [] /\ forall i, (i < 3)%nat -> pcs c.1 i = Done.
Proof.
  intros [He Hs Hl] Hst. destruct c as [s batches]. cbn in *.
  assert (Hp : prog s = []).
  { destruct (seq_step s) as [s'|] eqn:H; [by destruct (Hst _ (step_sequencer _ _ _ H))|].
    unfold seq_step in H. by destruct (prog s) as [|[]]. }
  assert (batches = []) as ->.
  { destruct batches as [|b batches]; [done|]. by destruct (Hst _ (step_wakes s b batches Hp)). }
  split; [done|]. split; [done|]. intros i Hi. destruct (Hl i Hi) as [Hw Hf]. cbn in *.
  destruct (service_step seqgen_service i s) as [s'|] eqn:H;
    [by destruct (Hst _ (step_service_runs _ _ _ _ Hp Hi H))|].
  rewrite Hp in Hw, Hf. cbn in *. destruct Hw as [|Hw]; [done|].
  unfold service_step in H. destruct (pcs s i); try done. specialize (Hw eq_refl).
  by rewrite (proj2 (Z.ltb_lt _ _)) in H.
Qed.

Lemma core_start_inv k : core_inv (start [], cycle_batches 0 k).
Proof.
  split; cbn.
  - rewrite concat_batches. intros [Hin|Hin]%elem_of_app; [|by apply shutdown_no_exit in Hin].
    apply list_elem_of_In in Hin. unfold cycles, release in Hin.
    apply in_flat_map in Hin as (c & _ & Hin). apply in_flat_map in Hin as ([i p] & _ & Hin).
    case_match; [destruct Hin as [?|[]]; done | done].
  - intros i. cbn. lia.
  - intros i Hi. unfold settled. cbn [snd]. destruct (last_batch 0 k) as [b ->].
    rewrite posts_app, aborts_app. destruct i as [|[|[|]]]; [..|lia]; cbn; by rewrite !orb_true_r.
Qed.

(** Runs that cannot go on exist. *)
Lemma core_can_step c :
  (exists c', core_step c c') \/ core_stuck c.
Proof.
  destruct c as [s batches]. destruct (seq_step s) as [s'|] eqn:E; [left; eexists; by constructor|].
  assert (prog s = []) as Hp by (unfold seq_step in E; by destruct (prog s) as [|[]]).
  destruct batches as [|b batches]; [|left; eexists; by constructor].
  destruct (service_step seqgen_service 0 s) as [s'|] eqn:E0;
    [left; eexists; apply (step_service_runs _ 0); eauto; lia|].
  destruct (service_step seqgen_service 1 s) as [s'|] eqn:E1;
    [left; eexists; apply (step_service_runs _ 1); eauto; lia|].
  destruct (service_step seqgen_service 2 s) as [s'|] eqn:E2;
    [left; eexists; apply (step_service_runs _ 2); eauto; lia|].
  right. intros c' Hc. inversion Hc as [? ? ? H | | ? i ? ? _ Hi H]; subst; [congruence|].
  destruct i as [|[|[|]]]; [congruence..|lia].
Qed.

Lemma core_run_exists c : core_inv c -> exists σ, rtc core_step c σ /\ core_stuck σ.
Proof.
  remember (weight 3 (ahead c) + length c.2)%nat as w eqn:Hw. revert c Hw.
  induction w as [w IH] using lt_wf_ind. intros c Hw I.
  destruct (core_can_step c) as [[c' Hstep] | Hst]; [|by exists c].
  pose proof (core_bounded 1 c c' I (nsteps_once _ _ Hstep)) as Hlt.
  destruct (IH (weight 3 (ahead c') + length c'.2)%nat ltac:(lia) c' eq_refl (core_step_inv _ _ I Hstep)) as (σ & Hr & Hst).
  exists σ. split; [by eapply rtc_l|done].
Qed.

(** The thread's run, and the time slept until in each cycle. *)
Lemma Sequencer_runs clock_nanosleep clock reading start_time abortTest sequencePeriods n tries :
  sleeps_end tries clock_nanosleep -> (forall k, reading_ok (clock k)) ->
  reading_ok reading -> getTimeMsec 0%Q reading = Some start_time ->
  ends_at abortTest sequencePeriods n ->
  exists delays,
    Sequencer clock_nanosleep clock start_time abortTest sequencePeriods tries
    = Ret (cycle_batches 0 (Z.to_nat (n - 1)), delays) /\
    length delays = Z.to_nat n /\
    forall c t, delays !! c = Some t -> exists last cur,
      last_of clock start_time (Z.of_nat c) = Some last /\
      cycle_delay clock start_time (Z.of_nat c) last = Some (cur, t).
Proof.
  intros Hsleep Hclock Hr Hst He. assert (Hn := He). destruct Hn as (Hn & _).
  pose proof (start_time_bounds reading start_time Hr Hst) as Hstart.
  destruct (getTimeMsec_bounds start_time (clock 0%nat) (Hclock 0%nat) Hstart) as (cur & Hcur & Hb).
  destruct delta_t_value as (delta & Hdelta & Hdv).
  destruct (Sequencer_loop_spec clock_nanosleep clock start_time abortTest sequencePeriods n tries
    Hsleep Hclock Hstart He (Z.to_nat (n - 1)) 0 (dsub cur delta) (S (Z.to_nat sequencePeriods)))
    as (delays & Hrun & Hlen & Hds); [lia|lia|lia| | |].
  { unfold last_of. cbn [Z.eqb]. rewrite Hcur, Hdelta. reflexivity. }
  { unfold last_bounded, dsub, time_bound in *.
    pose proof (round53_bounds (4294967301 # 2) (cur - delta) ltac:(lra)). lra. }
  exists delays. split; [|split; [lia|]].
  - unfold Sequencer. rewrite Hcur, Hdelta. step_run. exact Hrun.
  - intros c t Hct. destruct (Hds c t Hct) as (l & u & H1 & H2). exists l, u. exact (conj H1 H2).
Qed.

Lemma created_below rt_max_prio t :
  t ∈ created rt_max_prio ->
  cpu t = (sequencer_attr rt_max_prio).2 /\ sched_priority t < (sequencer_attr rt_max_prio).1.
Proof.
  intros Ht. apply list_elem_of_In, in_map_iff in Ht as (i & <- & Hi%in_seq). cbn. split; [done|lia].
Qed.

Lemma weight_start_batches batches :
  weight 3 (ahead (start [], batches)) = (4 * length (concat batches) + 6)%nat.
Proof. exact (weight_start 3 (concat batches)). Qed.

Lemma batches_exit_last k : exit_last (concat (cycle_batches 0 k)) = true.
Proof.
  rewrite <- (app_nil_r (concat _)). apply exit_last_app.
  exact (core_no_exit _ (core_start_inv k)).
Qed.

Lemma nposts_batches i p n :
  (i, p) ∈ table -> 1 <= n ->
  nposts i (concat (cycle_batches 0 (Z.to_nat (n - 1)))) = (n - 1) / p + 2.
Proof.
  intros Hin Hn. destruct (table_entry i p Hin) as [Hp Hi].
  rewrite concat_batches, !nposts_app, nposts_post_all, nposts_abort_all by done.
  rewrite (nposts_cycles_0 _ i p); [|by apply (bool_decide_unpack _)|done|lia].
  rewrite Z2Nat.id by lia. lia.
Qed.

(** C22: the sequencer thread of seqgenex0.c, for any readings of the clock and
    sleeps that end although some calls are interrupted, runs to its end: [n]
    cycles counted from 0, each with one absolute delay computed from the last
    two readings, then the shutdown; a service of period [p] is posted in every
    [p]-th cycle from the first on, and once more to shut down.  The threads
    share one core, on which the sequencer has the highest priority: every run
    of the four threads there ends within a bound, no post is lost on the way,
    and when nothing can move any more the sequencer is through and all three
    services have finished, although the posts come before the flags. *)
Theorem seqgenex0_run (clock_nanosleep : Z -> nat -> timespec -> Z) (clock : nat -> timespec)
    (reading : timespec) (start_time : dbl) (abortTest : Z -> bool) (sequencePeriods n : Z)
    (tries : nat) :
  sleeps_end tries clock_nanosleep -> (forall k, reading_ok (clock k)) ->
  reading_ok reading -> getTimeMsec 0%Q reading = Some start_time ->
  ends_at abortTest sequencePeriods n ->
  exists batches delays,
    Sequencer clock_nanosleep clock start_time abortTest sequencePeriods tries = Ret (batches, delays) /\
    concat batches = cycles table 0 (Z.to_nat n) ++ post_all 3 ++ abort_all 3 /\
    length batches = Z.to_nat n /\ length delays = Z.to_nat n /\
    (forall c t, delays !! c = Some t -> exists last cur,
       last_of clock start_time (Z.of_nat c) = Some last /\
       cycle_delay clock start_time (Z.of_nat c) last = Some (cur, t)) /\
    (forall rt_max_prio t, t ∈ created rt_max_prio ->
       cpu t = (sequencer_attr rt_max_prio).2 /\
       sched_priority t < (sequencer_attr rt_max_prio).1) /\
    (forall k σ, nsteps core_step k (start [], batches) σ ->
       (k <= 4 * length (concat batches) + length batches + 6)%nat) /\
    (forall σ, rtc core_step (start [], batches) σ -> core_stuck σ ->
       prog σ.1 = [] /\ σ.2 = [] /\
       (forall i, (i < 3)%nat -> pcs σ.1 i = Done) /\
       (forall i p, (i, p) ∈ table -> cnt σ.1 i + sem σ.1 i = (n - 1) / p + 2)).
Proof.
  intros Hsleep Hclock Hr Hst He. assert (Hn := He). destruct Hn as (Hn & HP & _).
  destruct (Sequencer_runs clock_nanosleep clock reading start_time abortTest sequencePeriods n tries
    Hsleep Hclock Hr Hst He) as (delays & Hrun & Hlen & Hds).
  exists (cycle_batches 0 (Z.to_nat (n - 1))), delays. split; [exact Hrun|].
  pose proof (concat_batches 0 (Z.to_nat (n - 1))) as Hc.
  replace (S (Z.to_nat (n - 1))) with (Z.to_nat n) in * by lia.
  split; [done|]. split; [rewrite length_batches; lia|]. split; [done|]. split; [done|].
  split; [apply created_below|]. split.
  - intros k σ Hk. apply core_bounded in Hk; [|apply core_start_inv]. rewrite weight_start_batches in Hk. cbn [snd] in Hk. lia.
  - intros σ Hσ Hstuck. destruct (core_reachable _ _ (core_start_inv _) Hσ) as [I Hrs].
    destruct (core_stuck_done σ I Hstuck) as (Hp & Hb & Hd). do 3 (split; [done|]).
    intros i p Hin. destruct (table_entry i p Hin) as [Hp0 Hi].
    pose proof (nposts_batches i p n Hin ltac:(lia)) as Hposts.
    assert ((n - 1) / p + 2 < 2 ^ 64) as Hlt.
    { assert ((n - 1) / p <= (n - 1) / 2) by (apply Z.div_le_compat_l; lia).
      pose proof (Z.mul_div_le (n - 1) 2 ltac:(lia)). lia. }
    change (ahead (start [], ?b)) with (start (concat b)) in Hrs.
    destruct (reachable_conserved 3 _ i (ahead σ) (batches_exit_last _) ltac:(by rewrite Hposts) Hrs)
      as (_ & _ & _ & _ & [Heq | (Hx & _)]).
    + cbn in Heq. rewrite Hp, Hb, (Hd i Hi) in Heq. cbn in Heq. lia.
    + by destruct (core_no_exit _ (core_start_inv (Z.to_nat (n - 1)))).
Qed.

(** Readings of 10 ms a cycle and one interrupted call in each. *)
Definition steady_clock (k : nat) : timespec :=
  {| tv_sec := 5; tv_nsec := 10000000 * Z.of_nat (Nat.min 99 (Nat.div (k + 1) 2)) |}.
Definition one_interruption (c : Z) (k : nat) (t : timespec) : Z :=
  match k with O => EINTR | S _ => 0 end.

Lemma seqgenex0_run_witness :
  exists batches delays,
    Sequencer one_interruption steady_clock 0%Q (fun _ => false) 3 2 = Ret (batches, delays) /\
    batches = [[Post 0; Post 1; Post 2]; [];
               [Post 0; Post 0; Post 1; Post 2; Abort [0]; Abort [1]; Abort [2]]]%nat /\
    length delays = 3%nat /\
    (exists σ, rtc core_step (start [], batches) σ /\ core_stuck σ /\
       forall i, (i < 3)%nat -> pcs σ.1 i = Done) /\
    forall k σ, nsteps core_step k (start [], batches) σ -> (k <= 49)%nat.
Proof.
  destruct (seqgenex0_run one_interruption steady_clock {| tv_sec := 0; tv_nsec := 0 |} 0%Q
    (fun _ => false) 3 3 2) as (batches & delays & H & _ & _ & Hl & _ & _ & Hb & Hd).
  - intros c t. exists 1%nat. split; [lia|]. split; [discriminate|]. split; [discriminate|].
    intros j Hj. assert (j = 0%nat) as -> by lia. reflexivity.
  - intros k. unfold reading_ok, normalised, steady_clock, NSEC_PER_SEC, INT_MAX. cbn [tv_sec tv_nsec].
    lia.
  - by split.
  - vm_compute. reflexivity.
  - split; [lia|]. split; [lia|]. split; [reflexivity|by right].
  - exists batches, delays. split; [exact H|].
    assert (Heq : batches = [[Post 0; Post 1; Post 2]; [];
      [Post 0; Post 0; Post 1; Post 2; Abort [0]; Abort [1]; Abort [2]]]%nat).
    { pose proof H as Hv. vm_compute in Hv. by injection Hv as <- _. }
    split; [exact Heq|]. split; [exact Hl|]. subst batches. split; [|exact Hb].
    destruct (core_run_exists (start [], cycle_batches 0 2) (core_start_inv 2)) as (σ & Hσ & Hst).
    exists σ. destruct (Hd σ Hσ Hst) as (_ & _ & Hp & _). auto.
Defined.

(** C23: the absolute delay, for time stamps at most a second apart: in spite
    of the roundings the drift control is within 2 ns of a period less the
    clock bias, corrected by the time the cycle started too late, scaled by
    1.0005; the carry keeps the instant.  The time is one [clock_nanosleep]
    accepts except in two cases: the nanoseconds are negative, after a cycle
    that started more than some 10 ms late, or they are exactly a second,
    which the comparison with [>] does not carry; as its error number is not
    negative, such a cycle goes on without having slept. *)
Theorem absolute_delay (now : timespec) (current_time last_time : dbl) :
  normalised now -> (0 <= current_time - last_time <= 1)%Q ->
  exists nsec, drift_nsec current_time last_time = Some nsec /\
    (let exact := 9900000 - (current_time - last_time - (1 # 100)) * 1000500000 in
     exact - 2 <= inject_Z nsec <= exact + 2)%Q /\
    nsecs (abs_delay now nsec) = nsecs now + nsec /\
    (normalised (abs_delay now nsec) <->
       0 <= tv_nsec now + nsec /\ tv_nsec now + nsec <> NANOSEC_PER_SEC).
Proof.
  intros Hn Hd. destruct (drift_nsec_near current_time last_time 1) as (d & Hdr & He); [lra|lra|].
  cbv zeta in He. exists d. split; [exact Hdr|]. split; [cbv zeta; lra|].
  split; [apply abs_delay_instant|]. apply abs_delay_valid; [done|].
  rewrite Zlt_Qlt. change (inject_Z NANOSEC_PER_SEC) with 1000000000%Q. lra.
Qed.

(** Half a second late. *)
Lemma absolute_delay_witness :
  exists nsec, drift_nsec (1 # 2) 0%Q = Some nsec /\ nsec < 0 /\
    ~ normalised (abs_delay {| tv_sec := 7; tv_nsec := 0 |} nsec).
Proof.
  destruct (absolute_delay {| tv_sec := 7; tv_nsec := 0 |} (1 # 2) 0%Q) as (nsec & Hn & [_ He] & _ & Hv).
  - by split.
  - split; lra.
  - assert (nsec < 0) as Hneg.
    { rewrite Zlt_Qlt. change (inject_Z 0) with 0%Q. lra. }
    exists nsec. split; [exact Hn|]. split; [exact Hneg|]. rewrite Hv. cbn [tv_nsec]. lia.
Defined.
