(* ===== verification/Threads.v ===== *)
(** * Threads on shared and on separate counters

    incdecthread/pthread.c: two threads update a plain and an atomic [int], one
    adding and one subtracting.  A plain update is a load and a store, between
    which the other thread can run; an atomic one is one step.
    sumdigits/sumdigits.c: ten threads add up the numbers of a range each into
    a cell of their own. *)
From stdpp Require Import option list relations.
From S2P Require Import Prelude.
#[local] Open Scope Z_scope.

(** ** incdecthread/pthread.c *)

Module IncDec.
Definition COUNT : nat := Z.to_nat 1000000.
Definition INCDEC_AMOUNT : Z := 1.

(** Where a thread is in an iteration: about to load [gsum], about to store
    the sum it computed, about to update [agsum]. *)
Inductive pc := Load | Store (v : Z) | Atomic.

(** The iterations left and the position in the current one. *)
Record thread := { left : nat; at_pc : pc }.

Record sys := { gsum : Z; agsum : Z; inc : thread; dec : thread }.

(** One step of a thread that adds [d]; an overflow of the plain [int] is
    undefined and has no step, the atomic one wraps around. *)
Definition thread_step (d : Z) (g a : Z) (t : thread) : option (Z * Z * thread) :=
  match left t, at_pc t with
  | O, _ => None
  | S _, Load => if in_int (g + d) then Some (g, a, {| left := left t; at_pc := Store (g + d) |}) else None
  | S _, Store v => Some (v, a, {| left := left t; at_pc := Atomic |})
  | S n, Atomic => Some (g, swrap 32 (a + d), {| left := n; at_pc := Load |})
  end.

Definition incThread (s : sys) : option sys :=
  '(g, a, t) ← thread_step INCDEC_AMOUNT (gsum s) (agsum s) (inc s);
  Some {| gsum := g; agsum := a; inc := t; dec := dec s |}.
Definition decThread (s : sys) : option sys :=
  '(g, a, t) ← thread_step (- INCDEC_AMOUNT) (gsum s) (agsum s) (dec s);
  Some {| gsum := g; agsum := a; inc := inc s; dec := t |}.

Definition step (s s' : sys) : Prop := incThread s = Some s' \/ decThread s = Some s'.

(** The threads created, with [n] iterations each. *)
Definition start (n : nat) : sys :=
  {| gsum := 0; agsum := 0; inc := {| left := n; at_pc := Load |};
     dec := {| left := n; at_pc := Load |} |}.

(** What the joins of [main] wait for. *)
Definition joined (s : sys) : Prop := left (inc s) = O /\ left (dec s) = O.
End IncDec.

(** ** sumdigits/sumdigits.c *)

Module SumDigits.
Definition COUNT : Z := 1000.
Definition NUM_THREADS : nat := 10.
Definition range : Z := COUNT ÷ Z.of_nat NUM_THREADS.

(** [threadParams[t]] and the thread's loop variable and cell of [gsum]. *)
Record worker := { i : Z; end_ : Z; cell : Z }.

Definition created (t : nat) : worker :=
  {| i := Z.of_nat t * range; end_ := Z.of_nat t * range + range - 1; cell := 0 |}.

Definition start : list worker := map created (seq 0 NUM_THREADS).

(** An iteration of [sumThread]. *)
Definition sumThread (w : worker) : option worker :=
  if i w <=? end_ w then
    if in_int (cell w + i w) && in_int (i w + 1) then
      Some {| i := i w + 1; end_ := end_ w; cell := cell w + i w |}
    else None
  else None.

(** Some thread runs an iteration. *)
Inductive step (s : list worker) : list worker -> Prop :=
| step_thread t w w' : s !! t = Some w -> sumThread w = Some w' -> step s (<[t := w']> s).

(** All loops have ended. *)
Definition joined (s : list worker) : Prop := Forall (fun w => end_ w < i w) s.

(** [main]'s reduction: [gsumall]. *)
Definition reduce (s : list worker) : Z := fold_left (fun acc w => acc + cell w) s 0 + COUNT.
End SumDigits.

(** ** The race *)

Module IncDecProofs.
Import IncDec.

(** How far a thread got: stores to [gsum] and updates of [agsum] done. *)
Definition updates (n : nat) (t : thread) : Z := Z.of_nat n - Z.of_nat (left t).
Definition stores (n : nat) (t : thread) : Z :=
  updates n t + match at_pc t with Atomic => 1 | _ => 0 end.

(** A computed sum lies between what the other thread and the own one could
    have reached. *)
Definition loaded_ok (t : thread) (lo hi : Z) : Prop :=
  match at_pc t with Store v => lo <= v <= hi | _ => True end.

Record inv (n : nat) (s : sys) : Prop := {
  inv_inc : (left (inc s) <= n)%nat /\ (left (inc s) = O -> at_pc (inc s) = Load);
  inv_dec : (left (dec s) <= n)%nat /\ (left (dec s) = O -> at_pc (dec s) = Load);
  inv_gsum : - stores n (dec s) <= gsum s <= stores n (inc s);
  inv_inc_loaded : loaded_ok (inc s) (- stores n (dec s) + 1) (stores n (inc s) + 1);
  inv_dec_loaded : loaded_ok (dec s) (- stores n (dec s) - 1) (stores n (inc s) - 1);
  inv_agsum : agsum s = updates n (inc s) - updates n (dec s)
}.

Lemma start_inv n : inv n (start n).
Proof. split; cbn; unfold stores, updates; cbn; lia || done. Qed.

Lemma step_inv n s s' : Z.of_nat n <= INT_MAX -> inv n s -> step s s' -> inv n s'.
Proof.
  intros Hn [[Hi Hi0] [Hd Hd0] Hg Hil Hdl Ha] [H|H]; unfold incThread, decThread in H;
    apply bind_Some in H as ([[g a] t] & Ht & H); injection H as <-;
    unfold thread_step in Ht; destruct s as [gs ag [il ip] [dl dp]];
    cbn [gsum agsum inc dec left at_pc] in *; unfold INCDEC_AMOUNT, INT_MAX in *.
  all: unfold loaded_ok, stores, updates in *; cbn [left at_pc] in *.
  all: repeat (case_match; simplify_eq; try done).
  all: split; cbn [gsum agsum inc dec left at_pc]; unfold loaded_ok, stores, updates; cbn [left at_pc].
  all: try (rewrite swrap_int by (unfold INT_MIN, INT_MAX; lia)).
  all: try done; try lia; try (destruct ip; lia); try (destruct dp; lia).
  all: split; [lia|done].
Qed.

Lemma reachable_inv n s : Z.of_nat n <= INT_MAX -> rtc step (start n) s -> inv n s.
Proof.
  intros Hn Hr. pose proof (start_inv n) as H. revert H.
  induction Hr as [|x y z Hxy _ IH]; [done|]. intros Hx. apply IH. by eapply step_inv.
Qed.

(** A thread that has iterations left can move. *)
Lemma not_joined_moves n s :
  Z.of_nat n <= INT_MAX -> inv n s -> joined s \/ exists s', step s s'.
Proof.
  intros Hn [[Hi Hi0] [Hd Hd0] Hg _ _ _]. unfold INT_MAX in Hn.
  destruct s as [g a [il ip] [dl dp]]; cbn [gsum agsum inc dec left at_pc] in *.
  unfold stores, updates in Hg. cbn [left at_pc] in Hg.
  destruct il as [|il].
  - destruct dl as [|dl]; [by left|]. right. rewrite Hi0 in Hg by done.
    destruct dp as [|v|]; [|eexists; right; reflexivity..].
    eexists. right. unfold decThread, thread_step. cbn [gsum agsum inc dec left at_pc].
    assert (in_int (g + - INCDEC_AMOUNT) = true) as ->; [|reflexivity].
    apply andb_true_iff. unfold INCDEC_AMOUNT, INT_MIN, INT_MAX. rewrite !Z.leb_le. lia.
  - right. destruct ip as [|v|].
    + eexists. left. unfold incThread. cbn [gsum agsum inc dec]. unfold thread_step. cbn [left at_pc].
      assert (in_int (g + INCDEC_AMOUNT) = true) as ->; [|reflexivity].
      apply andb_true_iff. unfold INCDEC_AMOUNT, INT_MIN, INT_MAX. rewrite !Z.leb_le.
      destruct dp, dl; try done; lia.
    + eexists. left. reflexivity.
    + eexists. left. reflexivity.
Qed.

(** The steps left. *)
Definition steps_left (t : thread) : Z :=
  3 * Z.of_nat (left t) - match at_pc t with Load => 0 | Store _ => 1 | Atomic => 2 end.
Definition sys_steps (s : sys) : Z := steps_left (inc s) + steps_left (dec s).

Lemma step_steps s s' : step s s' -> sys_steps s' = sys_steps s - 1.
Proof.
  destruct s as [g a [il ip] [dl dp]]. unfold sys_steps, steps_left.
  intros [H|H]; unfold incThread, decThread, thread_step in H; cbn [gsum agsum inc dec left at_pc] in *;
    repeat (case_match; simplify_eq; try done); cbn [inc dec left at_pc] in *;
    cbn in H; simplify_eq; cbn [inc dec left at_pc]; lia.
Qed.

Lemma run_steps k s s' : nsteps step k s s' -> sys_steps s' = sys_steps s - Z.of_nat k.
Proof.
  intros H. induction H as [s|k x y z Hxy _ IH]; [lia|]. apply step_steps in Hxy. lia.
Qed.

(** ** Every final value *)

(** Both threads before an iteration. *)
Definition at_start (g a : Z) (n : nat) : sys :=
  {| gsum := g; agsum := a; inc := {| left := n; at_pc := Load |};
     dec := {| left := n; at_pc := Load |} |}.

Inductive who := I | D.
Definition run_one (w : who) (s : sys) : option sys :=
  match w with I => incThread s | D => decThread s end.
Fixpoint run (l : list who) (s : sys) : option sys :=
  match l with [] => Some s | w :: l => s ← run_one w s; run l s end.

Lemma run_rtc l : forall s s', run l s = Some s' -> rtc step s s'.
Proof.
  induction l as [|w l IH]; intros s s' H; cbn in H; [by simplify_eq|].
  apply bind_Some in H as (s1 & H1 & H). eapply rtc_l; [|by apply IH].
  destruct w; [by left|by right].
Qed.

(** Three ways to interleave an iteration of each thread: one after the other,
    or both load first and one of the two stores is lost. *)
Lemma iterations g n (d : Z) :
  - INT_MAX < g < INT_MAX -> d = 0 \/ d = 1 \/ d = -1 ->
  rtc step (at_start g 0 (S n)) (at_start (g + d) 0 n).
Proof.
  intros Hg Hd. unfold INT_MAX in Hg.
  assert (in_int (g + INCDEC_AMOUNT) = true /\ in_int (g + - INCDEC_AMOUNT) = true /\
    in_int (g + INCDEC_AMOUNT + - INCDEC_AMOUNT) = true) as (H1 & H2 & H3).
  { unfold in_int, INT_MIN, INT_MAX, INCDEC_AMOUNT. rewrite !andb_true_iff, !Z.leb_le. lia. }
  destruct Hd as [-> | [-> | ->]].
  - apply (run_rtc [I; I; I; D; D; D]). cbn [run run_one]. unfold incThread, decThread, thread_step.
    cbn. rewrite H1. cbn. rewrite H3. cbn. unfold INCDEC_AMOUNT, at_start. do 2 f_equal. lia.
  - apply (run_rtc [I; D; D; I; I; D]). cbn [run run_one]. unfold incThread, decThread, thread_step.
    cbn. rewrite H1. cbn. rewrite H2. cbn. reflexivity.
  - apply (run_rtc [I; D; I; D; I; D]). cbn [run run_one]. unfold incThread, decThread, thread_step.
    cbn. rewrite H1. cbn. rewrite H2. cbn. reflexivity.
Qed.

Lemma all_values n : forall g v,
  Z.abs g + Z.of_nat n <= INT_MAX -> Z.abs (v - g) <= Z.of_nat n ->
  rtc step (at_start g 0 n) (at_start v 0 0).
Proof.
  induction n as [|n IH]; intros g v Hg Hv.
  - replace v with g by lia. apply rtc_refl.
  - eapply rtc_trans; [apply (iterations g n (Z.sgn (v - g))); lia|]. apply IH; lia.
Qed.

(** C39: in every interleaving of the two threads, with any number of
    iterations that an [int] can hold and so with [COUNT]: no sum overflows, the
    run has at most six steps per iteration and ends with both threads
    finished; the atomic counter is then 0; the plain one is any value from
    [-n] to [n] and no other: each of them is the end of some interleaving. *)
Theorem incdec_race (n : nat) :
  Z.of_nat n <= INT_MAX ->
  (forall k s, nsteps step k (start n) s -> Z.of_nat k <= 6 * Z.of_nat n) /\
  (forall s, rtc step (start n) s -> joined s \/ exists s', step s s') /\
  (forall s, rtc step (start n) s -> joined s -> agsum s = 0) /\
  (forall v, - Z.of_nat n <= v <= Z.of_nat n <->
     exists s, rtc step (start n) s /\ joined s /\ gsum s = v).
Proof.
  intros Hn. split; [|split; [|split]].
  - intros k s H. apply run_steps in H as Hs.
    assert (0 <= sys_steps s) as H0.
    { apply rtc_nsteps_2, reachable_inv in H as [[_ Hi] [_ Hd] _ _ _ _]; [|done].
      unfold sys_steps, steps_left. destruct (left (inc s)), (left (dec s));
        rewrite ?Hi, ?Hd by done; repeat case_match; lia. }
    revert Hs. unfold sys_steps at 2, steps_left. cbn [start inc dec left at_pc]. lia.
  - intros s H. apply (not_joined_moves n); [done|by apply reachable_inv].
  - intros s H [Hi Hd]. apply reachable_inv in H as [_ _ _ _ _ Ha]; [|done].
    rewrite Ha. unfold updates. rewrite Hi, Hd. lia.
  - intros v. split.
    + intros Hv. exists (at_start v 0 0). split; [|done]. apply (all_values n 0 v); lia.
    + intros (s & H & [Hi Hd] & <-). apply reachable_inv in H as [[_ Hi0] [_ Hd0] Hg _ _ _]; [|done].
      unfold stores, updates in Hg. rewrite Hi, Hd, Hi0, Hd0 in Hg by done. lia.
Qed.

Lemma COUNT_value : Z.of_nat COUNT = 1000000.
Proof. apply Z2Nat.id. discriminate. Qed.

Lemma incdec_race_witness :
  Z.of_nat COUNT <= INT_MAX /\
  (exists s, rtc step (start COUNT) s /\ joined s /\ gsum s = 1000000) /\
  forall s, rtc step (start COUNT) s -> joined s -> agsum s = 0.
Proof.
  assert (Z.of_nat COUNT <= INT_MAX) as H by (rewrite COUNT_value; by vm_compute).
  split; [exact H|]. destruct (incdec_race COUNT H) as (_ & _ & Ha & Hv). split; [|exact Ha].
  apply Hv. rewrite COUNT_value. lia.
Defined.
End IncDecProofs.

(** ** The sums *)

Module SumDigitsProofs.
Import SumDigits.

(** Worker [t] added up the numbers of its range below [i]. *)
Record worker_ok (t : nat) (w : worker) : Prop := {
  wk_end : end_ w = 100 * Z.of_nat t + 99;
  wk_i : 100 * Z.of_nat t <= i w <= end_ w + 1;
  wk_cell : 2 * cell w = (i w - 1) * i w - (100 * Z.of_nat t - 1) * (100 * Z.of_nat t)
}.

Definition all_ok (s : list worker) : Prop :=
  length s = NUM_THREADS /\ forall t w, s !! t = Some w -> worker_ok t w.

Lemma created_ok t : worker_ok t (created t).
Proof. unfold created. change range with 100. split; cbn [i end_ cell]; lia. Qed.

Lemma start_ok : all_ok start.
Proof.
  split; [done|]. intros t w H. unfold start in H.
  rewrite list_lookup_fmap in H. apply fmap_Some in H as (t' & Ht & ->).
  apply lookup_seq in Ht as [-> _]. apply created_ok.
Qed.

(** An iteration is defined as long as the range is not finished. *)
Lemma sumThread_ok t w :
  (t < NUM_THREADS)%nat -> worker_ok t w ->
  if i w <=? end_ w then exists w', sumThread w = Some w' /\ worker_ok t w' /\ i w' = i w + 1
  else sumThread w = None.
Proof.
  unfold NUM_THREADS. intros Ht [He Hi Hc]. unfold sumThread. destruct (Z.leb_spec (i w) (end_ w)); [|done].
  assert (in_int (cell w + i w) && in_int (i w + 1) = true) as ->.
  { unfold in_int, INT_MIN, INT_MAX. rewrite !andb_true_iff, !Z.leb_le. nia. }
  eexists. split; [reflexivity|]. split; [|done]. split; cbn [i end_ cell]; nia.
Qed.

Lemma step_ok s s' : all_ok s -> step s s' -> all_ok s'.
Proof.
  intros [Hlen Hok] [t w w' Ht Hw]. split; [by rewrite length_insert|].
  intros u v Hu. apply list_lookup_insert_Some in Hu as [(-> & <- & _)|[_ Hu]]; [|by apply Hok].
  assert (u < NUM_THREADS)%nat as Hlt by (rewrite <- Hlen; by eapply lookup_lt_Some).
  pose proof (sumThread_ok u w) as H. specialize (H ltac:(done) (Hok _ _ Ht)).
  rewrite Hw in H. destruct (_ <=? _); [|done]. destruct H as (? & [= <-] & ? & _). done.
Qed.

Lemma reachable_ok s : rtc step start s -> all_ok s.
Proof.
  intros H. pose proof start_ok as H0. revert H0. induction H as [|x y z Hxy _ IH]; [done|].
  intros Hx. by apply IH, (step_ok x).
Qed.

(** The iterations left. *)
Fixpoint remaining (s : list worker) : Z :=
  match s with [] => 0 | w :: s => end_ w + 1 - i w + remaining s end.

Lemma remaining_insert s : forall t w w',
  s !! t = Some w -> remaining (<[t := w']> s) = remaining s - (end_ w - i w) + (end_ w' - i w').
Proof.
  induction s as [|x s IH]; intros [|t] w w' H; [done|done|cbn in H; simplify_eq; cbn; lia|].
  change (remaining (<[S t := w']> (x :: s))) with (end_ x + 1 - i x + remaining (<[t := w']> s)).
  cbn in H. rewrite (IH t w w' H). cbn. lia.
Qed.

Lemma step_remaining s s' : all_ok s -> step s s' -> remaining s' = remaining s - 1.
Proof.
  intros [Hlen Hok] [t w w' Ht Hw]. rewrite (remaining_insert s t w w') by done.
  unfold sumThread in Hw. repeat (case_match; try done). simplify_eq. cbn [i end_]. lia.
Qed.

Lemma remaining_nonneg s : (forall t w, s !! t = Some w -> i w <= end_ w + 1) -> 0 <= remaining s.
Proof.
  induction s as [|x s IH]; intros H; [done|]. cbn. pose proof (H 0%nat x eq_refl).
  assert (0 <= remaining s) as H1 by (apply IH; intros t w Ht; by apply (H (S t) w)).
  lia.
Qed.

Lemma run_remaining k s s' : all_ok s -> nsteps step k s s' -> remaining s' = remaining s - Z.of_nat k.
Proof.
  intros Hs H. revert Hs. induction H as [s|k x y z Hxy _ IH]; intros Hs; [lia|].
  rewrite IH by by eapply step_ok. rewrite (step_remaining x y) by done. lia.
Qed.

(** The cells after the loops. *)
Lemma joined_cells s :
  all_ok s -> joined s -> map cell s = map (fun t => 10000 * Z.of_nat t + 4950) (seq 0 NUM_THREADS).
Proof.
  intros [Hlen Hok] Hj. apply list_eq. intros t. rewrite !list_lookup_fmap.
  destruct (s !! t) as [w|] eqn:E.
  - assert (t < NUM_THREADS)%nat as Ht by (rewrite <- Hlen; by eapply lookup_lt_Some).
    rewrite lookup_seq_lt by done. cbn [fmap option_fmap option_map]. f_equal.
    destruct (Hok t w E) as [He Hi Hc]. pose proof (Forall_lookup_1 _ _ _ _ Hj E) as Hjw. cbn beta in Hjw.
    assert (i w = 100 * Z.of_nat t + 100) as Hiw by lia. rewrite Hiw in Hc. cbn [Nat.add]. nia.
  - apply lookup_ge_None in E. rewrite lookup_seq_ge by lia. done.
Qed.

Lemma fold_cells s : forall acc,
  fold_left (fun acc w => acc + cell w) s acc = fold_left Z.add (map cell s) acc.
Proof. induction s as [|w s IH]; intros acc; [done|]. cbn. apply IH. Qed.

(** In every interleaving of the ten threads no sum overflows, at most
    [COUNT] iterations run, a run only stops when all loops have ended, and
    then [main]'s sum of the cells and [COUNT] is the sum of the numbers from 1
    to [COUNT]. *)
Theorem sumdigits_total :
  (forall k s, nsteps step k start s -> Z.of_nat k <= COUNT) /\
  (forall s, rtc step start s -> joined s \/ exists s', step s s') /\
  (forall s, rtc step start s -> joined s -> reduce s = COUNT * (COUNT + 1) / 2).
Proof.
  split; [|split].
  - intros k s H. pose proof (run_remaining k start s start_ok H) as Hr.
    apply rtc_nsteps_2, reachable_ok in H as [_ Hok].
    assert (0 <= remaining s) as H0.
    { apply remaining_nonneg. intros t w Ht. by destruct (Hok t w Ht) as [_ [_ ?] _]. }
    change (remaining start) with 1000 in Hr. unfold COUNT. lia.
  - intros s [Hlen Hok]%reachable_ok.
    destruct (decide (Forall (fun w => end_ w < i w) s)) as [|Hn]; [by left|]. right.
    apply not_Forall_Exists in Hn; [|apply _]. apply Exists_exists in Hn as (w & Hw & Hle).
    apply list_elem_of_In, list_elem_of_lookup in Hw as [t Ht].
    assert (t < NUM_THREADS)%nat as Hlt by (rewrite <- Hlen; by eapply lookup_lt_Some).
    pose proof (sumThread_ok t w Hlt (Hok t w Ht)) as H.
    rewrite (proj2 (Z.leb_le _ _)) in H by (cbn in Hle; lia). destruct H as (w' & H & _).
    eexists. by eapply step_thread.
  - intros s Hs%reachable_ok Hj. unfold reduce. rewrite fold_cells, joined_cells by done. done.
Qed.

(** The threads one after the other. *)
Lemma sumdigits_total_witness :
  (1000 * (1000 + 1)) / 2 = 500500 /\ forall s, rtc step start s -> joined s -> reduce s = 500500.
Proof.
  split; [reflexivity|]. destruct sumdigits_total as (_ & _ & H). intros s Hs Hj.
  rewrite (H s Hs Hj). reflexivity.
Defined.
End SumDigitsProofs.
