(* ===== verification/Serial.v ===== *)
(** * Serial lines: Linux_serial/serialutil.c

    The line settings kept in [c_cflag] of a [struct termios], the search for
    ctrl-c in a buffer, the loops that read and write a whole buffer, the
    handler that echoes what the line sends, and the modes of a session.  The
    flag values of the C library are parameters; what the code relies on is
    that the fields of [c_cflag] are disjoint.  [read], [write] and
    [cfsetospeed] are arguments. *)
From Stdlib Require Import String.
From stdpp Require Import option list.
From S2P Require Import Prelude CString.
#[local] Open Scope Z_scope.
#[local] Open Scope c_scope.

(** ** Line settings *)

(** The constants of termios.h the source uses; [baud s] is the code that the
    macro B followed by the digits [s] stands for. *)
Record termios_constants := {
  CBAUD : Z; CSIZE : Z; CS5 : Z; CS6 : Z; CS7 : Z; CS8 : Z; CSTOPB : Z; CREAD : Z; CLOCAL : Z;
  PARENB : Z; PARODD : Z; IGNBRK : Z; IGNPAR : Z; VMIN : nat; VTIME : nat; NCCS : nat;
  baud : string -> Z
}.

Record termios := { c_iflag : Z; c_oflag : Z; c_cflag : Z; c_lflag : Z; c_cc : list Z }.

Definition set_cflag (f : Z) (t : termios) : termios :=
  {| c_iflag := c_iflag t; c_oflag := c_oflag t; c_cflag := f; c_lflag := c_lflag t;
     c_cc := c_cc t |}.

Definition EINVAL : Z := 1.

(** The characters the settings are selected by. *)
Definition char (s : string) : Z := nth 0 (bytes s) 0.

(** [toupper] in the C locale. *)
Definition toupper (c : Z) : Z := if (97 <=? c) && (c <=? 122) then c - 32 else c.

Section settings.
Context (k : termios_constants).

(** The speed table; B14400 is defined or not. *)
Context (has_B14400 : bool).
Definition serialdev_speeds : list (string * Z) :=
  map (fun s => (s, baud k s))
    (["0"; "50"; "75"; "110"; "300"; "600"; "1200"; "2400"; "4800"; "9600"]%string
     ++ (if has_B14400 then ["14400"%string] else [])
     ++ ["19200"; "38400"; "57600"; "115200"]%string).

(** All control characters 0, but VMIN 1 and VTIME 0. *)
Definition raw_cc : list Z := <[VTIME k := 0]> (<[VMIN k := 1]> (replicate (NCCS k) 0)).

Definition serialdev_set_raw (t : termios) : termios :=
  let speed := c_cflag t .& CBAUD k in
  {| c_cc := raw_cc; c_iflag := IGNBRK k .| IGNPAR k; c_oflag := 0; c_lflag := 0;
     c_cflag := (CREAD k .| CLOCAL k) .| speed |}.

Definition serialdev_find_speed (speed : string) : Z :=
  match List.find (fun e => String.eqb (fst e) speed) serialdev_speeds with
  | Some (_, code) => code
  | None => - EINVAL
  end.

Definition serialdev_set_speed (t : termios) (speed : string) : termios * Z :=
  let code := serialdev_find_speed speed in
  if code <? 0 then (t, -1)
  else
    let t := set_cflag (c_cflag t .& Z.lnot (CBAUD k)) t in
    (set_cflag (c_cflag t .| code) t, 0).

Definition serialdev_set_databits (t : termios) (databits : string) : termios * Z :=
  let t := set_cflag (c_cflag t .& Z.lnot (CSIZE k)) t in
  let c := char databits in
  if c =? char "5" then (set_cflag (c_cflag t .| CS5 k) t, 0)
  else if c =? char "6" then (set_cflag (c_cflag t .| CS6 k) t, 0)
  else if c =? char "7" then (set_cflag (c_cflag t .| CS7 k) t, 0)
  else if c =? char "8" then (set_cflag (c_cflag t .| CS8 k) t, 0)
  else (t, - EINVAL).

Definition serialdev_set_stopbits (t : termios) (stopbits : string) : termios * Z :=
  let c := char stopbits in
  if c =? char "1" then (set_cflag (c_cflag t .& Z.lnot (CSTOPB k)) t, 0)
  else if c =? char "2" then (set_cflag (c_cflag t .| CSTOPB k) t, 0)
  else (t, - EINVAL).

Definition serialdev_set_parity (t : termios) (parity : string) : termios * Z :=
  let clear t := set_cflag (c_cflag t .& Z.lnot (PARENB k .| PARODD k)) t in
  let c := toupper (char parity) in
  if c =? char "N" then (clear t, 0)
  else if c =? char "O" then
    let t := clear t in (set_cflag (c_cflag t .| (PARENB k .| PARODD k)) t, 0)
  else if c =? char "E" then
    let t := clear t in (set_cflag (c_cflag t .| PARENB k) t, 0)
  else (t, - EINVAL).

(** The settings [initialize_serial_device] makes between [tcgetattr] and
    [tcsetattr]. *)
Definition initialize_settings (cfsetospeed : termios -> Z -> termios) : termios :=
  let t := {| c_cc := raw_cc; c_iflag := 0; c_oflag := 0; c_lflag := 0;
              c_cflag := (((0 .| CREAD k) .| CLOCAL k) .| CS7 k) .| PARENB k |} in
  let t := serialdev_set_raw t in
  let t := cfsetospeed t (baud k "115200") in
  let t := fst (serialdev_set_databits t "8") in
  let t := fst (serialdev_set_parity t "N") in
  fst (serialdev_set_stopbits t "1").

(** [scanf("%s", instr)] into the 15 bytes of [instr]. *)
Definition scan_setting (s : string) : option string :=
  if decide (length (bytes s) < 15)%nat then Some s else None.

(** [terminal_setup], from the four answers typed; the results of the setters
    are ignored. *)
Definition terminal_setup (thetty : termios) (speed parity stop data : string)
    : option termios :=
  instr ← scan_setting speed;
  let thetty := fst (serialdev_set_speed thetty instr) in
  instr ← scan_setting parity;
  let thetty := fst (serialdev_set_parity thetty instr) in
  instr ← scan_setting stop;
  let thetty := fst (serialdev_set_stopbits thetty instr) in
  instr ← scan_setting data;
  Some (fst (serialdev_set_databits thetty instr)).

(** ** The fields of [c_cflag] *)

Inductive field := Speed | Size | Stop | Parity | Receiver.

#[global] Instance field_eq_dec : EqDecision field.
Proof. solve_decision. Defined.

Definition mask (a : field) : Z :=
  match a with
  | Speed => CBAUD k
  | Size => CSIZE k
  | Stop => CSTOPB k
  | Parity => PARENB k .| PARODD k
  | Receiver => CREAD k .| CLOCAL k
  end.

Definition get (t : termios) (a : field) : Z := c_cflag t .& mask a.

(** What termios.h promises: the fields do not overlap and the codes lie in
    their fields. *)
Record laws : Prop := {
  fields_disjoint a b : a <> b -> mask a .& mask b = 0;
  size_codes : Forall (fun v => v .& CSIZE k = v) [CS5 k; CS6 k; CS7 k; CS8 k];
  speed_codes : Forall (fun e => 0 <= e.2 /\ e.2 .& CBAUD k = e.2) serialdev_speeds
}.

(** What the four answers ask for, given the setting before. *)
Definition requested (t : termios) (speed parity stop data : string) (a : field) : Z :=
  match a with
  | Speed => default (get t Speed) (snd <$> List.find (fun e => String.eqb (fst e) speed) serialdev_speeds)
  | Parity =>
      let c := toupper (char parity) in
      if c =? char "N" then 0 else if c =? char "O" then PARENB k .| PARODD k
      else if c =? char "E" then PARENB k else get t Parity
  | Stop =>
      if char stop =? char "1" then 0 else if char stop =? char "2" then CSTOPB k
      else get t Stop
  | Size =>
      let c := char data in
      if c =? char "5" then CS5 k else if c =? char "6" then CS6 k
      else if c =? char "7" then CS7 k else if c =? char "8" then CS8 k else 0
  | Receiver => get t Receiver
  end.
End settings.

(** ** Reading and writing buffers *)

(** Whether [strncmp] finds the first character of the string, the colon, in
    the first [length] bytes; a read past the array is undefined. *)
Fixpoint have_ctrl_c (buf : list Z) (length : nat) : option Z :=
  match length with
  | O => Some 0
  | S length =>
      match buf with
      | [] => None
      | c :: buf => if c =? char ":" then Some 1 else have_ctrl_c buf length
      end
  end.

(** [read(fd, p, n)]: an error, or the bytes it delivered, none at the end of
    the input; [rd i n] is the [i]-th call. *)
Definition reader := nat -> Z -> Z + list Z.
Record reader_ok (rd : reader) : Prop := {
  read_error i n e : rd i n = inl e -> e < 0;
  read_length i n bs : 0 < n -> rd i n = inr bs -> Z.of_nat (length bs) <= n
}.

(** [serial_readn] at the [i]-th read, [ptr] bytes into the buffer. *)
Fixpoint readn_loop (fuel : nat) (rd : reader) (n : Z) (i ptr : nat) (nleft : Z) (buf : list Z)
    : outcome (Z * list Z) :=
  match fuel with
  | O => NoFuel
  | S fuel =>
      if 0 <? nleft then
        match rd i nleft with
        | inl e => Ret (e, buf)
        | inr [] => Ret (swrap 64 (n - nleft), buf)
        | inr bs =>
            buf ← lift (store buf ptr bs);
            readn_loop fuel rd n (i + 1) (ptr + length bs) (nleft - Z.of_nat (length bs)) buf
        end
      else Ret (swrap 64 (n - nleft), buf)
  end.

Definition serial_readn (fuel : nat) (rd : reader) (buf : list Z) (n : Z) : outcome (Z * list Z) :=
  readn_loop fuel rd n 0 0 (swrap 64 n) buf.

(** [write(fd, p, n)]: the result of the [i]-th call. *)
Definition writer := nat -> Z -> Z.

(** [serial_writen]: the result and the bytes sent. *)
Fixpoint writen_loop (fuel : nat) (wr : writer) (n : Z) (i : nat) (ptr : list Z) (nleft : Z)
    (sent : list Z) : outcome (Z * list Z) :=
  match fuel with
  | O => NoFuel
  | S fuel =>
      if 0 <? nleft then
        let nwritten := wr i nleft in
        if nwritten <=? 0 then Ret (nwritten, sent)
        else writen_loop fuel wr n (i + 1) (drop (Z.to_nat nwritten) ptr) (nleft - nwritten)
               (sent ++ take (Z.to_nat nwritten) ptr)
      else Ret (swrap 64 n, sent)
  end.

Definition serial_writen (fuel : nat) (wr : writer) (buf : list Z) (n : Z) : outcome (Z * list Z) :=
  writen_loop fuel wr n 0 buf (swrap 64 n) [].

(** ** Echoing the line *)

(** The loop of [handle_input] that writes to the terminal: every write starts
    at the number of bytes the previous one wrote. *)
Fixpoint echo_loop (fuel : nat) (wr : writer) (inbuff : list Z) (i : nat) (nwritten nleft : Z)
    (sent : list Z) : outcome (list Z) :=
  match fuel with
  | O => NoFuel
  | S fuel =>
      if 0 <? nleft then
        let from := drop (Z.to_nat nwritten) inbuff in
        let nwritten := wr i nleft in
        if nwritten <=? 0 then Ret sent
        else echo_loop fuel wr inbuff (i + 1) nwritten (nleft - nwritten)
               (sent ++ take (Z.to_nat nwritten) from)
      else Ret sent
  end.

Definition echo (fuel : nat) (wr : writer) (inbuff : list Z) (count : Z) : outcome (list Z) :=
  echo_loop fuel wr inbuff 0 0 count [].

(** ** The session's modes *)

Record session := {
  command_mode : bool; hex_input_mode : bool; line_input_mode : bool; file_tx_mode : bool;
  countsofar : Z
}.

Definition set_modes (line file hex : bool) (s : session) : session :=
  {| command_mode := command_mode s; hex_input_mode := hex; line_input_mode := line;
     file_tx_mode := file; countsofar := countsofar s |}.

Definition toggle_command (s : session) : session :=
  {| command_mode := negb (command_mode s); hex_input_mode := hex_input_mode s;
     line_input_mode := line_input_mode s; file_tx_mode := file_tx_mode s;
     countsofar := countsofar s |}.

Definition add_count (count : Z) (s : session) : session :=
  {| command_mode := command_mode s; hex_input_mode := hex_input_mode s;
     line_input_mode := line_input_mode s; file_tx_mode := file_tx_mode s;
     countsofar := countsofar s + count |}.

Definition MAX_INPUT_LENGTH : nat := 4096.
Definition CMD_LINE_INPUT_MODE : Z := 0.
Definition HEX_INPUT_MODE : Z := 1.
Definition TELETYPE_INPUT_MODE : Z := 2.

(** What [handle_input] shows: bytes written to the terminal, or one byte
    printed in hexadecimal. *)
Inductive shown := Text (l : list Z) | Hex (b : Z).

(** The loop of [handle_input]; the terminating 0 of a failed read is stored
    at index -1. *)
Fixpoint handle_loop (fuel : nat) (rd : reader) (wr : nat -> writer) (i : nat) (s : session)
    (inbuff : list Z) (out : list shown) : outcome (session * list shown) :=
  match fuel with
  | O => NoFuel
  | S fuel =>
      match rd i (Z.of_nat MAX_INPUT_LENGTH - 1) with
      | inl e => _ ← lift (aset inbuff e 0); Undef
      | inr bs =>
          let count := Z.of_nat (length bs) in
          inbuff ← lift (store inbuff 0 bs);
          s ← (if in_int (countsofar s + count) then Ret (add_count count s) else Undef);
          inbuff ← lift (aset inbuff count 0);
          o ← (if hex_input_mode s || file_tx_mode s then
                 Ret (map Hex (take (length bs) inbuff))
               else sent ← echo (S (length bs)) (wr i) inbuff count; Ret [Text sent]);
          if count =? Z.of_nat MAX_INPUT_LENGTH - 1
          then handle_loop fuel rd wr (i + 1) s inbuff (out ++ o)
          else Ret (s, out ++ o)
      end
  end.

Definition handle_input (fuel : nat) (rd : reader) (wr : nat -> writer) (s : session)
    : outcome (session * list shown) :=
  handle_loop fuel rd wr 0 s (replicate MAX_INPUT_LENGTH 0) [].

(** The modes [initiate_serial_session] starts with. *)
Definition initiate_modes (type : Z) (s : session) : session :=
  if type =? CMD_LINE_INPUT_MODE then set_modes true false false s
  else if type =? HEX_INPUT_MODE then set_modes false false true s
  else set_modes false false false s.

(** [file_tx_setup] leaves the mode again when it cannot open the file. *)
Definition file_tx_setup (opened : bool) (s : session) : session :=
  if opened then s
  else set_modes (line_input_mode s) false (hex_input_mode s) s.

(** [user_control_c] with the menu selection [ch]; [None] when the program
    exits. *)
Definition user_control_c (ch : Z) (opened : bool) (s : session) : option session :=
  let s := set_modes false (file_tx_mode s) false s in
  if ch =? char "r" then Some (toggle_command s)
  else if ch =? char "z" then Some s
  else if ch =? char "h" then Some (set_modes false (file_tx_mode s) true s)
  else if ch =? char "f" then Some (file_tx_setup opened (set_modes false true false s))
  else if ch =? char "c" then Some (set_modes true (file_tx_mode s) false s)
  else if ch =? char "e" then None
  else Some (set_modes false false false s).

(** The escape sequences of the teletype mode: the session after the character
    that follows the escape, and whether it ends. *)
Definition teletype_escape (c : Z) (opened : bool) (s : session) : session * bool :=
  if c =? char "m" then (s, false)
  else if c =? char "c" then (set_modes true (file_tx_mode s) (hex_input_mode s) s, false)
  else if c =? char "r" then (toggle_command s, false)
  else if c =? char "f" then
    (file_tx_setup opened (set_modes (line_input_mode s) true (hex_input_mode s) s), false)
  else if c =? char "h" then
    (set_modes (line_input_mode s) (file_tx_mode s) true s, false)
  else if c =? char "z" then (s, false)
  else if c =? char "e" then (s, true)
  else (s, false).

Inductive mode := FileTx | Line | HexMode | Teletype.

#[global] Instance mode_eq_dec : EqDecision mode.
Proof. solve_decision. Defined.

(** The branch the session's loop takes. *)
Definition session_mode (s : session) : mode :=
  if file_tx_mode s then FileTx
  else if line_input_mode s then Line
  else if hex_input_mode s then HexMode
  else Teletype.

(** ** Sending a file *)

Definition FILE_TX_BUFF : nat := 1024.

(** [fscanf(txfile, "%2x", (unsigned * ) &file_tx_buff[i])] stores the value in
    the four bytes at [i], least significant first. *)
Definition scan_hex_byte (buff : list Z) (i : nat) (v : Z) : option (list Z) :=
  store buff i [v; 0; 0; 0].

(** The loop that gets a block from a file given by the values its scans read,
    all of them hexadecimal numbers; [None] is the end of the file, where the
    mode is left. *)
Fixpoint get_block (size : nat) (i : nat) (file : list Z) (buff : list Z)
    : option (list Z * option (list Z)) :=
  match size with
  | O => Some (buff, Some file)
  | S size =>
      match file with
      | [] => Some (buff, None)
      | v :: file => buff ← scan_hex_byte buff i v; get_block size (S i) file buff
      end
  end.

(** The blocks sent until the count is exhausted or the file ends; the write
    of a byte and the acknowledgement, which changes nothing but a message,
    are the device's. *)
Fixpoint send_blocks (num_blks : nat) (blk_size : nat) (file : list Z) (buff sent : list Z)
    : option (list Z * nat) :=
  match num_blks with
  | O => Some (sent, O)
  | S num =>
      '(buff, file) ← get_block blk_size 0 file buff;
      match file with
      | None => Some (sent, num_blks)
      | Some file => send_blocks num blk_size file buff (sent ++ take blk_size buff)
      end
  end.

(** ** Proofs: the fields *)

Lemma find_In {A} (P : A -> bool) (l : list A) x : List.find P l = Some x -> In x l.
Proof. intros H. by apply List.find_some in H as [? _]. Qed.

Section fields.
Context (k : termios_constants) (B : bool) (HK : laws k B).
Implicit Types (t : termios) (a b : field).

(** A field of [c_cflag] overwritten: the code's [&= ~mask] and [|= code]. *)
Definition with_field (a : field) (v : Z) (t : termios) : termios :=
  set_cflag ((c_cflag t .& Z.lnot (mask k a)) .| v) t.

Lemma land_disjoint v m m' : v .& m = v -> m .& m' = 0 -> v .& m' = 0.
Proof. intros <- H. by rewrite <- Z.land_assoc, H, Z.land_0_r. Qed.

Lemma get_with_field a v t b :
  v .& mask k a = v ->
  get k (with_field a v t) b = if decide (b = a) then v else get k t b.
Proof.
  intros Hv. unfold get, with_field, set_cflag; cbn [c_cflag].
  rewrite Z.land_lor_distr_l, <- Z.land_assoc, (Z.land_comm (Z.lnot _)).
  destruct (decide (b = a)) as [-> | Hne].
  - by rewrite Z.land_lnot_diag, Z.land_0_r, Hv.
  - assert (Hd : mask k b .& mask k a = 0) by by apply (fields_disjoint k B HK).
    rewrite (land_disjoint v (mask k a)), Z.lor_0_r; [| done | by rewrite Z.land_comm].
    f_equal. apply Z.bits_inj'; intros i Hi.
    rewrite Z.land_spec, Z.lnot_spec by lia.
    apply (f_equal (fun z => Z.testbit z i)) in Hd. rewrite Z.land_spec, Z.bits_0 in Hd.
    by destruct (Z.testbit (mask k b) i), (Z.testbit (mask k a) i).
Qed.

Lemma get_same_flags t t' a : c_cflag t = c_cflag t' -> get k t a = get k t' a.
Proof. unfold get. by intros ->. Qed.

Lemma set_zero a t : set_cflag (c_cflag t .& Z.lnot (mask k a)) t = with_field a 0 t.
Proof. unfold with_field. by rewrite Z.lor_0_r. Qed.

Lemma set_one t : set_cflag (c_cflag t .| CSTOPB k) t = with_field Stop (mask k Stop) t.
Proof.
  unfold with_field. f_equal. apply Z.bits_inj'; intros i Hi. cbn [mask].
  rewrite !Z.lor_spec, Z.land_spec, Z.lnot_spec by lia.
  by destruct (Z.testbit (c_cflag t) i), (Z.testbit (CSTOPB k) i).
Qed.

(** The speed code is the one of the table. *)
Lemma find_speed_spec speed :
  serialdev_find_speed k B speed
  = default (-1) (snd <$> List.find (fun e => String.eqb (fst e) speed) (serialdev_speeds k B)).
Proof. unfold serialdev_find_speed. by destruct (List.find _ _) as [[??]|]. Qed.

Lemma get_set_speed t speed b :
  get k (fst (serialdev_set_speed k B t speed)) b
  = if decide (b = Speed)
    then default (get k t Speed)
           (snd <$> List.find (fun e => String.eqb (fst e) speed) (serialdev_speeds k B))
    else get k t b.
Proof.
  unfold serialdev_set_speed. rewrite find_speed_spec.
  destruct (List.find _ _) as [[s c]|] eqn:Hf; cbn [from_option id fmap option_fmap option_map snd].
  - apply find_In in Hf. pose proof (speed_codes k B HK) as Hc.
    rewrite List.Forall_forall in Hc. destruct (Hc _ Hf) as [H0 Hm]; cbn in H0, Hm.
    rewrite (proj2 (Z.ltb_ge c 0)) by lia. cbn [fst].
    change (set_cflag _ _) with (with_field Speed c t). by rewrite get_with_field.
  - by destruct (decide (b = Speed)) as [-> |].
Qed.

Lemma get_set_parity t parity b :
  get k (fst (serialdev_set_parity k t parity)) b
  = if decide (b = Parity) then requested k B t "" parity "" "" Parity else get k t b.
Proof.
  unfold serialdev_set_parity; cbn [requested].
  destruct (_ =? _); [| destruct (_ =? _); [| destruct (_ =? _)]]; cbn [fst].
  - change (PARENB k .| PARODD k) with (mask k Parity). rewrite set_zero.
    by rewrite get_with_field.
  - change (set_cflag _ _) with (with_field Parity (PARENB k .| PARODD k) t).
    by rewrite get_with_field by apply Z.land_diag.
  - change (set_cflag _ _) with (with_field Parity (PARENB k) t).
    rewrite get_with_field; [done|]. apply Z.bits_inj'; intros i Hi. cbn [mask].
    rewrite Z.land_spec, Z.lor_spec. by destruct (Z.testbit (PARENB k) i).
  - by destruct (decide (b = Parity)) as [-> |].
Qed.

Lemma get_set_stopbits t stop b :
  get k (fst (serialdev_set_stopbits k t stop)) b
  = if decide (b = Stop) then requested k B t "" "" stop "" Stop else get k t b.
Proof.
  unfold serialdev_set_stopbits; cbn [requested].
  destruct (_ =? _); [| destruct (_ =? _)]; cbn [fst].
  - change (CSTOPB k) with (mask k Stop). rewrite set_zero. by rewrite get_with_field.
  - rewrite set_one, get_with_field by apply Z.land_diag. done.
  - by destruct (decide (b = Stop)) as [-> |].
Qed.

Lemma get_set_databits t data b :
  get k (fst (serialdev_set_databits k t data)) b
  = if decide (b = Size) then requested k B t "" "" "" data Size else get k t b.
Proof.
  pose proof (size_codes k B HK) as Hc. inversion Hc as [|?? H5 H]; subst.
  inversion H as [|?? H6 H']; subst. inversion H' as [|?? H7 H'']; subst.
  inversion H'' as [|?? H8 _]; subst.
  unfold serialdev_set_databits; cbn [requested fst].
  destruct (_ =? _); [| destruct (_ =? _); [| destruct (_ =? _); [| destruct (_ =? _)]]];
    cbn [fst set_cflag c_cflag c_iflag c_oflag c_lflag c_cc].
  - change (set_cflag _ _) with (with_field Size (CS5 k) t). by apply get_with_field.
  - change (set_cflag _ _) with (with_field Size (CS6 k) t). by apply get_with_field.
  - change (set_cflag _ _) with (with_field Size (CS7 k) t). by apply get_with_field.
  - change (set_cflag _ _) with (with_field Size (CS8 k) t). by apply get_with_field.
  - change (CSIZE k) with (mask k Size). rewrite set_zero. by rewrite get_with_field.
Qed.
End fields.

(** ** Proofs: the settings *)

(** Decide the comparisons of fields. *)
Ltac decide_fields := repeat (rewrite decide_True by done || rewrite decide_False by done).

(** [terminal_setup] gives every field of the line what the four answers ask for: an unknown speed, parity or stop-bit answer leaves its field alone, and an unknown number of data bits clears the field; no setting disturbs another field or the receiver flags. *)
Theorem terminal_setup_fields k B t speed parity stop data :
  laws k B ->
  Forall (fun s => (length (bytes s) < 15)%nat) [speed; parity; stop; data] ->
  exists t', terminal_setup k B t speed parity stop data = Some t' /\
    forall a, get k t' a = requested k B t speed parity stop data a.
Proof.
  intros HK Hs. unfold terminal_setup, scan_setting.
  repeat match goal with H : Forall _ (_ :: _) |- _ => inversion H; clear H; subst end.
  rewrite !decide_True by done. step_run. eexists; split; [done|]. intros a.
  rewrite (get_set_databits k B HK), (get_set_stopbits k B HK), (get_set_parity k B HK),
    (get_set_speed k B HK).
  destruct a; decide_fields; try done;
    cbn [requested]; by rewrite ?(get_set_parity k B HK), ?(get_set_speed k B HK).
Qed.

Definition linux : termios_constants :=
  {| CBAUD := 4111; CSIZE := 48; CS5 := 0; CS6 := 16; CS7 := 32; CS8 := 48; CSTOPB := 64;
     CREAD := 128; PARENB := 256; PARODD := 512; CLOCAL := 2048; IGNBRK := 1; IGNPAR := 4;
     VMIN := 6; VTIME := 5; NCCS := 32;
     baud s := match List.find (fun e => String.eqb (fst e) s)
         [("50", 1); ("75", 2); ("110", 3); ("300", 7); ("600", 8); ("1200", 9);
          ("2400", 11); ("4800", 12); ("9600", 13); ("19200", 14); ("38400", 15);
          ("57600", 4097); ("115200", 4098)]%string with
       | Some (_, c) => c | None => 0 end |}.

Lemma linux_laws : laws linux false.
Proof.
  split.
  - by intros [] [].
  - by repeat constructor.
  - by repeat constructor; cbn.
Qed.

(** The line opened is 115200 8N1 with the receiver on; the 7 data bits and the
    parity set before [serialdev_set_raw] are gone. *)
Theorem initialize_settings_8N1 k B cfsetospeed :
  laws k B ->
  (forall t a, get k (cfsetospeed t (baud k "115200")) a
               = if decide (a = Speed) then baud k "115200" else get k t a) ->
  let t := initialize_settings k cfsetospeed in
  get k t Speed = baud k "115200" /\ get k t Size = CS8 k /\ get k t Parity = 0 /\
  get k t Stop = 0 /\ get k t Receiver = (CREAD k .| CLOCAL k).
Proof.
  intros HK Hc. unfold initialize_settings. cbv zeta.
  repeat split;
    rewrite (get_set_stopbits k B HK); decide_fields; try done;
    rewrite (get_set_parity k B HK); decide_fields; try done;
    rewrite (get_set_databits k B HK); decide_fields; try done;
    rewrite Hc; decide_fields; try done.
  unfold serialdev_set_raw, get; cbn [c_cflag mask].
  pose proof (fields_disjoint k B HK Speed Receiver) as Hd. cbn [mask] in Hd.
  set (X := (0 .| CREAD k .| _ .| _ .| _)). set (A := CREAD k .| CLOCAL k) in *. clearbody A X.
  rewrite Z.land_lor_distr_l, Z.land_diag, <- Z.land_assoc, Hd, Z.land_0_r by done.
  apply Z.lor_0_r.
Qed.

(** [have_ctrl_c] answers 1 exactly when a colon is among the first [length] bytes: the two-character string it compares is cut to its first character, so that neither a ctrl-c alone nor anything else is found. *)
Theorem have_ctrl_c_finds_colon buf n :
  (n <= length buf)%nat ->
  have_ctrl_c buf n = Some (if decide (58 ∈ take n buf) then 1 else 0).
Proof.
  revert buf; induction n as [|n IH]; intros [|c buf] Hn; cbn in Hn; try lia; [done.. |].
  cbn [have_ctrl_c take]. change (char ":") with 58.
  destruct (Z.eqb_spec c 58) as [-> | Hc].
  - by rewrite decide_True by constructor.
  - rewrite IH by lia. f_equal. apply decide_ext. rewrite elem_of_cons.
    split; [by right | intros [|]; [congruence | done]].
Qed.

(** ** Proofs: reading and writing *)

(** The bytes of the first [m] reads, of which every request is for what is
    left of [n] bytes; no read before the [m]-th fails or ends the input. *)
Inductive reads (rd : reader) (n : Z) : nat -> list Z -> Prop :=
  | reads_0 : reads rd n 0 []
  | reads_S m got bs :
      reads rd n m got -> rd m (n - Z.of_nat (length got)) = inr bs -> bs <> [] ->
      Z.of_nat (length got) < n -> reads rd n (S m) (got ++ bs).

(** What a finished [serial_readn] may return, after the bytes [got]. *)
Inductive readn_result (rd : reader) (n : Z) (m : nat) (got : list Z) : Z -> Prop :=
  | readn_full : Z.of_nat (length got) = n -> readn_result rd n m got n
  | readn_eof : Z.of_nat (length got) < n -> rd m (n - Z.of_nat (length got)) = inr [] ->
      readn_result rd n m got (Z.of_nat (length got))
  | readn_error e : Z.of_nat (length got) < n -> rd m (n - Z.of_nat (length got)) = inl e ->
      readn_result rd n m got e.

Lemma readn_loop_spec rd n fuel m got rest :
  reader_ok rd -> 0 <= n < 2 ^ 63 -> reads rd n m got ->
  n <= Z.of_nat (length got + length rest) -> Z.of_nat (length got) <= n ->
  (Z.to_nat (n - Z.of_nat (length got)) < fuel)%nat ->
  exists m' got' r, reads rd n m' got' /\ readn_result rd n m' got' r /\
    (length got <= length got')%nat /\
    readn_loop fuel rd n m (length got) (n - Z.of_nat (length got)) (got ++ rest)
    = Ret (r, got' ++ drop (length got') (got ++ rest)).
Proof.
  intros Hrd Hn. revert m got rest.
  induction fuel as [|fuel IH]; intros m got rest Hr Hl Hg Hf; [lia|]. cbn [readn_loop].
  assert (Hs : swrap 64 (n - (n - Z.of_nat (length got))) = Z.of_nat (length got)).
  { replace (n - (n - _)) with (Z.of_nat (length got)) by lia. apply swrap_small; lia. }
  destruct (Z.ltb_spec 0 (n - Z.of_nat (length got))) as [Hlt | Hge]; cycle 1.
  { exists m, got, n. rewrite drop_app_length, Hs. split; [done|].
    assert (Z.of_nat (length got) = n) as -> by lia. split; [by constructor; lia | done]. }
  destruct (rd m _) as [e | bs] eqn:Hread.
  { exists m, got, e. rewrite drop_app_length. split; [done|]. split; [|done].
    constructor; [lia | done]. }
  destruct bs as [|b bs'].
  { exists m, got, (Z.of_nat (length got)). rewrite drop_app_length, Hs.
    split; [done|]. split; [|done]. constructor; [lia | done]. }
  set (bs := b :: bs') in *.
  pose proof (read_length _ Hrd _ _ _ Hlt Hread) as Hlen.
  rewrite store_app by lia. step_run. rewrite app_assoc, <- length_app.
  replace (n - _ - Z.of_nat (length bs)) with (n - Z.of_nat (length (got ++ bs)))
    by (rewrite length_app; lia).
  replace (m + 1)%nat with (S m) by lia.
  assert (0 < length bs)%nat by (subst bs; cbn; lia).
  destruct (IH (S m) (got ++ bs) (drop (length bs) rest)) as (m' & got' & r & H1 & H2 & Hle & ->).
  - by constructor; [..| lia].
  - rewrite length_app, length_drop. lia.
  - rewrite length_app. lia.
  - rewrite length_app. lia.
  - rewrite length_app in *. exists m', got', r. split; [done|]. split; [done|].
    split; [lia|]. do 3 f_equal.
    rewrite !drop_app_ge, drop_drop by (rewrite ?length_app; lia). rewrite length_app.
    f_equal. lia.
Qed.

(** [serial_readn] of [n] bytes finishes: it fills the front of the buffer, in order, with the bytes of successive reads, each for what is still missing, and returns [n] when they are all there, the bytes read when the input ends first, and the result of [read] when it fails; the rest of the buffer keeps its contents. *)
Theorem serial_readn_spec rd buf n :
  reader_ok rd -> 0 <= n < 2 ^ 63 -> n <= Z.of_nat (length buf) ->
  exists m got r, reads rd n m got /\ readn_result rd n m got r /\
    serial_readn (S (Z.to_nat n)) rd buf n = Ret (r, got ++ drop (length got) buf).
Proof.
  intros Hrd Hn Hb. unfold serial_readn. rewrite swrap_small by lia.
  destruct (readn_loop_spec rd n (S (Z.to_nat n)) 0 [] buf) as (m & got & r & H1 & H2 & _ & H);
    cbn [length app] in *; try lia; [done | constructor |].
  exists m, got, r. rewrite Z.sub_0_r in H. done.
Qed.

(** A [write] that takes at most what it is given. *)
Definition writer_ok (wr : writer) : Prop := forall i n, wr i n <= n.

Lemma writen_loop_spec wr n fuel i ptr nleft sent :
  writer_ok wr -> nleft = Z.of_nat (length ptr) -> (length ptr < fuel)%nat ->
  exists r t, writen_loop fuel wr n i ptr nleft sent = Ret (r, sent ++ t) /\
    ((t = ptr /\ r = swrap 64 n) \/
     (exists u, ptr = t ++ u /\ u <> [] /\ r <= 0 /\ exists j, r = wr j (Z.of_nat (length u)))).
Proof.
  intros Hwr. revert i ptr nleft sent.
  induction fuel as [|fuel IH]; intros i ptr nleft sent -> Hf; [lia|]. cbn [writen_loop].
  destruct (Z.ltb_spec 0 (Z.of_nat (length ptr))) as [Hlt | Hge]; cycle 1.
  { destruct ptr; [|cbn in Hge; lia]. eexists _, []. rewrite app_nil_r. auto. }
  pose proof (Hwr i (Z.of_nat (length ptr))) as Hw.
  destruct (Z.leb_spec (wr i (Z.of_nat (length ptr))) 0) as [Hle | Hgt].
  { eexists _, []. rewrite app_nil_r. split; [done|]. right. exists ptr.
    destruct ptr; cbn in *; eauto with lia. }
  set (w := Z.to_nat (wr i _)).
  destruct (IH (i + 1)%nat (drop w ptr) (Z.of_nat (length ptr) - wr i (Z.of_nat (length ptr)))
    (sent ++ take w ptr)) as (r & t & -> & Ht); [rewrite length_drop; lia.. |].
  exists r, (take w ptr ++ t). rewrite <- app_assoc. split; [done|].
  destruct Ht as [[-> ->] | (u & Hu & Hne & Hr)].
  - left. by rewrite take_drop.
  - right. exists u. by rewrite <- app_assoc, <- Hu, take_drop.
Qed.

(** C40: [serial_writen] finishes, and however [write] splits the buffer the bytes leave in order: it returns [n] exactly after sending the whole buffer, and otherwise a result of [write] that is not positive after sending a proper prefix. *)
Theorem serial_writen_spec wr buf :
  writer_ok wr -> Z.of_nat (length buf) < 2 ^ 63 ->
  exists r t,
    serial_writen (S (length buf)) wr buf (Z.of_nat (length buf)) = Ret (r, t) /\
    ((t = buf /\ r = Z.of_nat (length buf)) \/
     (exists u, buf = t ++ u /\ u <> [] /\ r <= 0 /\ exists j, r = wr j (Z.of_nat (length u)))).
Proof.
  intros Hwr Hn. unfold serial_writen. rewrite swrap_small by lia.
  destruct (writen_loop_spec wr (Z.of_nat (length buf)) (S (length buf)) 0 buf
    (Z.of_nat (length buf)) []) as (r & t & -> & Ht); [done | done | lia |].
  exists r, t. rewrite swrap_small in Ht by lia. done.
Qed.

(** ** Proofs: the echo *)

Lemma echo_step fuel wr inbuff i nwritten nleft sent :
  0 < nleft -> 0 < wr i nleft ->
  echo_loop (S fuel) wr inbuff i nwritten nleft sent
  = echo_loop fuel wr inbuff (i + 1) (wr i nleft) (nleft - wr i nleft)
      (sent ++ take (Z.to_nat (wr i nleft)) (drop (Z.to_nat nwritten) inbuff)).
Proof.
  intros H1 H2. cbn [echo_loop].
  by rewrite (proj2 (Z.ltb_lt _ _) H1), (proj2 (Z.leb_gt _ _) H2).
Qed.

Lemma echo_done fuel wr inbuff i nwritten sent :
  echo_loop (S fuel) wr inbuff i nwritten 0 sent = Ret sent.
Proof. done. Qed.

(** The echo always finishes. *)
Lemma echo_total fuel wr inbuff i nwritten nleft sent :
  writer_ok wr -> 0 <= nleft < Z.of_nat fuel ->
  exists r, echo_loop fuel wr inbuff i nwritten nleft sent = Ret r.
Proof.
  intros Hwr. revert i nwritten nleft sent.
  induction fuel as [|fuel IH]; intros i nw nl sent Hf; cbn [echo_loop]; [lia|].
  destruct (Z.ltb_spec 0 nl); [|eauto]. destruct (Z.leb_spec (wr i nl) 0); [eauto|].
  apply IH. specialize (Hwr i nl). lia.
Qed.

Lemma echo_complete wr inbuff count :
  (forall i n, wr i n = n) -> echo (S count) wr inbuff (Z.of_nat count) = Ret (take count inbuff).
Proof.
  intros Hwr. unfold echo. destruct count as [|count]; [done|].
  rewrite echo_step by (rewrite ?Hwr; lia). by rewrite Hwr, Z.sub_diag, echo_done, Nat2Z.id.
Qed.

(** On a terminal that takes at most [c] bytes a write, [handle_input]'s echo of up to [3c] bytes is right for the first [2c] only: every write starts at the length of the previous one instead of after all that was written, so the third repeats bytes from offset [c]. *)
Theorem echo_partial_writes c buf rest :
  (0 < c)%nat -> (0 < length buf <= 3 * c)%nat ->
  echo (S (length buf)) (fun _ n => Z.min n (Z.of_nat c)) (buf ++ rest) (Z.of_nat (length buf))
  = Ret (take (2 * c) buf ++ take (length buf - 2 * c) (drop c buf)).
Proof.
  intros Hc Hb. unfold echo. set (l := length buf) in *.
  assert (Hfrom : forall p n, (p + n <= l)%nat ->
    take n (drop p (buf ++ rest)) = take n (drop p buf)).
  { intros p n Hp. rewrite drop_app_le, take_app_le by (rewrite ?length_drop; lia). done. }
  destruct (decide (l <= c)%nat) as [H1 | H1]; [| destruct (decide (l <= 2 * c)%nat) as [H2 | H2]].
  - replace (S l) with (S (S (l - 1))) by lia.
    rewrite echo_step, Z.min_l, Z.sub_diag, echo_done, Hfrom by lia.
    replace (l - 2 * c)%nat with 0%nat by lia. rewrite Nat2Z.id, take_0, app_nil_r.
    cbn [app]. by rewrite drop_0, !take_ge by (subst l; lia).
  - replace (S l) with (S (S (S (l - 2)))) by lia.
    rewrite echo_step, Z.min_r, echo_step, Z.min_l, Z.sub_diag, echo_done, !Hfrom by lia.
    replace (l - 2 * c)%nat with 0%nat by lia. rewrite Nat2Z.id, take_0, app_nil_r.
    cbn [app]. rewrite drop_0, (take_ge (drop c buf)) by (rewrite length_drop; lia).
    by rewrite take_drop, take_ge by (subst l; lia).
  - replace (S l) with (S (S (S (S (l - 3))))) by lia.
    rewrite echo_step, Z.min_r, echo_step, Z.min_r, echo_step, Z.min_l, Z.sub_diag, echo_done,
      !Hfrom by lia.
    rewrite Nat2Z.id. cbn [app Z.to_nat]. rewrite drop_0, take_take_drop. do 2 f_equal; [f_equal; lia|].
    f_equal. lia.
Qed.

(** What [handle_input] shows of the bytes of one read. *)
Definition shows (hex : bool) (bs : list Z) : list shown :=
  if hex then map Hex bs else [Text bs].

(** The reads of one input: every one fills the buffer but the last. *)
Definition delivers (rd : reader) (i : nat) (full : list (list Z)) (last : list Z) : Prop :=
  (forall j bs, (full ++ [last]) !! j = Some bs -> rd (i + j)%nat 4095 = inr bs) /\
  Forall (fun bs => length bs = 4095%nat) full /\ (length last < 4095)%nat.

Definition total (l : list (list Z)) : Z := Z.of_nat (length (concat l)).

Lemma store_prefix (inbuff bs : list Z) :
  (length bs < length inbuff)%nat ->
  exists inbuff', (inb ← store inbuff 0 bs; aset inb (Z.of_nat (length bs)) 0) = Some inbuff' /\
    length inbuff' = length inbuff /\ take (length bs) inbuff' = bs.
Proof.
  intros H. rewrite store_Some by lia. step_run. unfold splice. rewrite take_0. cbn [app].
  rewrite aset_Some by (rewrite length_app, length_drop; lia).
  eexists; split; [done|]. rewrite length_insert, length_app, length_drop, Nat2Z.id.
  split; [lia|]. rewrite take_insert_ge by lia. by rewrite take_app_length.
Qed.

Lemma handle_once fuel rd wr i s inbuff out bs :
  rd i 4095 = inr bs -> (length bs < length inbuff)%nat -> (forall j n, wr i j n = n) ->
  in_int (countsofar s + Z.of_nat (length bs)) = true ->
  exists inbuff', length inbuff' = length inbuff /\
  handle_loop (S fuel) rd wr i s inbuff out
  = let s := add_count (Z.of_nat (length bs)) s in
    let out := out ++ shows (hex_input_mode s || file_tx_mode s) bs in
    if Z.of_nat (length bs) =? 4095 then handle_loop fuel rd wr (i + 1) s inbuff' out
    else Ret (s, out).
Proof.
  intros Hr Hl Hw Hc. destruct (store_prefix inbuff bs Hl) as (inb & Hs & Hl' & Ht).
  exists inb. split; [done|]. cbn [handle_loop].
  change (Z.of_nat MAX_INPUT_LENGTH - 1) with 4095. rewrite Hr. revert Hs.
  destruct (store inbuff 0 bs) as [inb0|]; [|done]. step_run. intros Hs. rewrite Hc. step_run.
  rewrite Hs. step_run. rewrite echo_complete by done. rewrite Ht. unfold shows.
  by destruct (_ || _); step_run.
Qed.

Lemma add_count_add a b s : add_count b (add_count a s) = add_count (a + b) s.
Proof. unfold add_count; cbn. f_equal. lia. Qed.

Lemma handle_loop_spec rd wr full last i s inbuff out fuel :
  delivers rd i full last -> (4095 < length inbuff)%nat -> (forall i j n, wr i j n = n) ->
  0 <= countsofar s -> countsofar s + total (full ++ [last]) <= INT_MAX ->
  (length full < fuel)%nat ->
  handle_loop fuel rd wr i s inbuff out
  = Ret (add_count (total (full ++ [last])) s,
         out ++ concat (map (shows (hex_input_mode s || file_tx_mode s)) (full ++ [last]))).
Proof.
  intros Hd Hb Hw. revert i s inbuff out fuel Hd Hb.
  induction full as [|bs full IH]; intros i s inbuff out fuel (Hr & Hf & Hl) Hb H0 Ht Hfuel;
    (destruct fuel as [|fuel]; [cbn in Hfuel; lia|]); unfold total in *;
    pose proof (Hr 0%nat _ eq_refl) as Hr0; rewrite Nat.add_0_r in Hr0;
    cbn [app concat] in *; rewrite ?length_app in Ht.
  - destruct (handle_once fuel rd wr i s inbuff out last) as (? & _ & ->);
      [done | lia | done | unfold in_int, INT_MIN, INT_MAX in *; cbn [length] in Ht; lia |].
    cbv zeta. rewrite (proj2 (Z.eqb_neq _ _)) by lia. cbn [map concat].
    by rewrite !app_nil_r.
  - inversion Hf as [|?? Hbs Hf']; subst.
    destruct (handle_once fuel rd wr i s inbuff out bs) as (inb & Hinb & ->);
      [done | lia | done | unfold in_int, INT_MIN, INT_MAX in *; lia |].
    cbv zeta. rewrite Hbs. rewrite Z.eqb_refl.
    rewrite IH; cbn [add_count countsofar hex_input_mode file_tx_mode]; try lia.
    + rewrite add_count_add, length_app, Hbs, <- app_assoc. do 3 f_equal. lia.
    + split; [|done]. intros j bs' Hj. rewrite <- (Hr (S j) bs' Hj). f_equal. lia.
    + cbn [length] in Hfuel. lia.
Qed.

(** [handle_input] keeps reading while a read fills the buffer and stops after the first that does not; on a terminal that takes every write it shows exactly the bytes the line delivered, once each and in order (as text, or one hexadecimal number per byte in the hex and file modes), and counts them. *)
Theorem handle_input_shows rd wr full last s fuel :
  delivers rd 0 full last -> (forall i j n, wr i j n = n) ->
  0 <= countsofar s -> countsofar s + total (full ++ [last]) <= INT_MAX ->
  (length full < fuel)%nat ->
  handle_input fuel rd wr s
  = Ret (add_count (total (full ++ [last])) s,
         concat (map (shows (hex_input_mode s || file_tx_mode s)) (full ++ [last]))).
Proof.
  intros Hd Hw H0 Ht Hf. unfold handle_input.
  rewrite (handle_loop_spec rd wr full last); try done.
  rewrite length_replicate. unfold MAX_INPUT_LENGTH. lia.
Qed.

(** A failed read makes the handler store before its buffer. *)
Theorem handle_input_read_error rd wr s fuel e :
  rd 0%nat 4095 = inl e -> e < 0 -> handle_input (S fuel) rd wr s = Undef.
Proof.
  intros Hr He. unfold handle_input. cbn [handle_loop].
  change (Z.of_nat MAX_INPUT_LENGTH - 1) with 4095. rewrite Hr. unfold aset.
  by rewrite (proj2 (Z.leb_gt 0 e)) by lia.
Qed.

(** ** Proofs: modes *)

(** Ctrl-c followed by a menu selection puts the session in the selected mode, unless a file was being sent: then every selection but exit, a file that cannot be opened, and teletype (any other key) leaves it in file mode. *)
Theorem user_control_c_mode ch opened s s' :
  user_control_c ch opened s = Some s' ->
  session_mode s' =
    if decide (ch = char "f") then if opened then FileTx else Teletype
    else if decide (ch ∈ [char "r"; char "z"; char "h"; char "c"]) then
      if file_tx_mode s then FileTx
      else if decide (ch = char "h") then HexMode
      else if decide (ch = char "c") then Line else Teletype
    else Teletype.
Proof.
  unfold user_control_c, session_mode, file_tx_setup, toggle_command. cbv zeta.
  repeat match goal with
  | |- context [?a =? ?b] => destruct (Z.eqb_spec a b) as [-> | ?]
  end; intros [= <-]; cbn.
  all: try (destruct (file_tx_mode s); reflexivity).
  all: try (destruct opened; reflexivity).
  rewrite !decide_False; try done. rewrite !elem_of_cons, elem_of_nil. tauto.
Qed.

(** The escape sequences of the teletype mode enter the mode they name. *)
Theorem teletype_escape_mode c opened s :
  session_mode s = Teletype ->
  session_mode (fst (teletype_escape c opened s)) =
    (if decide (c = char "c") then Line
     else if decide (c = char "h") then HexMode
     else if decide (c = char "f") then if opened then FileTx else Teletype
     else Teletype) /\
  (snd (teletype_escape c opened s) = true <-> c = char "e").
Proof.
  unfold teletype_escape, session_mode, file_tx_setup, toggle_command.
  destruct s as [cmd hex line file n]; cbn. intros Hs.
  destruct file; [done|]. destruct line; [done|]. destruct hex; [done|].
  repeat match goal with
  | |- context [?a =? ?b] => destruct (Z.eqb_spec a b) as [-> | ?]
  end; cbn; rewrite ?decide_True, ?decide_False by done; try by destruct opened.
Qed.

(** ** Proofs: sending a file *)

Lemma get_block_spec size i file buff pre :
  (i + size <= 1021)%nat -> length buff = FILE_TX_BUFF -> (size <= length file)%nat ->
  take i buff = pre ->
  exists buff', get_block size i file buff = Some (buff', Some (drop size file)) /\
    length buff' = FILE_TX_BUFF /\ take (i + size) buff' = pre ++ take size file.
Proof.
  unfold FILE_TX_BUFF. revert i file buff pre.
  induction size as [|size IH]; intros i file buff pre Hi Hb Hf Hp.
  - exists buff. by rewrite drop_0, Nat.add_0_r, take_0, app_nil_r.
  - destruct file as [|v file]; cbn [length] in Hf; [lia|]. cbn [get_block].
    unfold scan_hex_byte. rewrite store_Some by (cbn [length]; lia). step_run.
    destruct (IH (S i) file (splice buff i [v; 0; 0; 0]) (pre ++ [v])) as (b & -> & Hl & Ht);
      [lia | | lia | |].
    + unfold splice. rewrite !length_app, length_take, length_drop. cbn [length]. lia.
    + unfold splice. replace (S i) with (length (take i buff) + 1)%nat by (rewrite length_take; lia).
      rewrite take_app_add. by subst.
    + exists b. split; [done|]. split; [done|]. rewrite <- Nat.add_succ_comm, Ht.
      by rewrite <- app_assoc.
Qed.

(** A file that holds [num] blocks of [size] bytes is sent whole, block after block in order, as long as a block has at most 1021 bytes. *)
Theorem send_blocks_in_order num size file buff sent :
  (size <= 1021)%nat -> length buff = FILE_TX_BUFF -> (num * size <= length file)%nat ->
  send_blocks num size file buff sent = Some (sent ++ take (num * size) file, 0%nat).
Proof.
  intros Hs. revert file buff sent.
  induction num as [|num IH]; intros file buff sent Hb Hf; cbn [send_blocks].
  - by rewrite app_nil_r.
  - destruct (get_block_spec size 0 file buff []) as (b & -> & Hl & Ht);
      [lia | done | lia | by rewrite take_0 |].
    step_run. rewrite IH; [| done | rewrite length_drop; lia].
    cbn [Nat.add app] in Ht. rewrite Ht, <- app_assoc. do 3 f_equal.
    cbn [Nat.mul]. by rewrite take_take_drop.
Qed.

Lemma get_block_overruns size i file buff :
  (i <= 1021)%nat -> (1021 < i + size)%nat -> length buff = FILE_TX_BUFF ->
  (size <= length file)%nat -> get_block size i file buff = None.
Proof.
  unfold FILE_TX_BUFF. revert i file buff.
  induction size as [|size IH]; intros i file buff Hi Hs Hb Hf; [lia|].
  destruct file as [|v file]; cbn [length] in Hf; [lia|]. cbn [get_block]. unfold scan_hex_byte.
  destruct (decide (i = 1021)%nat) as [-> | Hne].
  - by rewrite store_overflow by (cbn [length]; lia).
  - rewrite store_Some by (cbn [length]; lia). step_run. apply IH; [lia.. | | lia].
    unfold splice. rewrite !length_app, length_take, length_drop. cbn [length]. lia.
Qed.

(** A block of 1022 to 1024 bytes fits in the buffer of 1024, but the scan of
    its last bytes writes past it. *)
Theorem send_blocks_overruns num size file buff sent :
  (1021 < size)%nat -> length buff = FILE_TX_BUFF -> (size <= length file)%nat ->
  send_blocks (S num) size file buff sent = None.
Proof. intros. cbn [send_blocks]. by rewrite get_block_overruns by (lia || done). Qed.

(** ** Examples *)

(** An answer of 9 data bits is refused, and leaves the size of 5 bits. *)
Example bad_databits :
  let t := {| c_iflag := 0; c_oflag := 0; c_cflag := 48; c_lflag := 0; c_cc := [] |} in
  serialdev_set_databits linux t "9" = (set_cflag 0 t, - EINVAL) /\ CS5 linux = 0.
Proof. by vm_compute. Qed.

(** A ctrl-c is not found, a colon is. *)
Example ctrl_c_missed : have_ctrl_c [3; 3] 2 = Some 0 /\ have_ctrl_c [3; 58] 2 = Some 1.
Proof. by vm_compute. Qed.

Lemma terminal_setup_fields_witness :
  exists t', terminal_setup linux false
      {| c_iflag := 0; c_oflag := 0; c_cflag := 4095; c_lflag := 0; c_cc := [] |}
      "115200" "e" "2" "7" = Some t' /\
    forall a, get linux t' a
      = match a with Speed => 4098 | Size => 32 | Stop => 64 | Parity => 256 | Receiver => 2176 end.
Proof.
  destruct (terminal_setup_fields linux false
      {| c_iflag := 0; c_oflag := 0; c_cflag := 4095; c_lflag := 0; c_cc := [] |}
      "115200" "e" "2" "7" linux_laws) as (t' & Ht & Hg).
  - repeat constructor; vm_compute; lia.
  - exists t'. split; [exact Ht|]. intros a. rewrite Hg. by destruct a.
Defined.

(** A line that delivers one byte a read and ends after 5. *)
Definition slow_line : reader := fun i _ => inr (if (i <? 5)%nat then [65 + Z.of_nat i] else []).

Lemma serial_readn_spec_witness :
  reader_ok slow_line /\
  exists m got r, reads slow_line 8 m got /\ readn_result slow_line 8 m got r /\
    serial_readn 9 slow_line (replicate 8 0) 8
    = Ret (r, got ++ drop (length got) (replicate 8 0)).
Proof.
  assert (H : reader_ok slow_line).
  { split; [done|]. intros i n bs Hn [= <-]. destruct (i <? 5)%nat; cbn; lia. }
  split; [exact H|].
  apply (serial_readn_spec slow_line (replicate 8 0) 8 H); [lia | cbn; lia].
Defined.

Lemma serial_writen_spec_witness :
  writer_ok (fun _ n => Z.min n 2) /\
  exists r t,
    serial_writen 6 (fun _ n => Z.min n 2) [65; 66; 67; 68; 69] 5 = Ret (r, t) /\
    ((t = [65; 66; 67; 68; 69] /\ r = 5) \/
     (exists u, [65; 66; 67; 68; 69] = t ++ u /\ u <> [] /\ r <= 0 /\
        exists j : nat, r = Z.min (Z.of_nat (length u)) 2)).
Proof.
  assert (H : writer_ok (fun _ n => Z.min n 2)) by (intros i n; lia).
  split; [exact H|].
  apply (serial_writen_spec (fun _ n => Z.min n 2) [65; 66; 67; 68; 69] H). cbn; lia.
Defined.

(** Two bytes a write: the fifth and sixth bytes shown are the third and
    fourth again. *)
Lemma echo_partial_writes_witness :
  (0 < 2)%nat /\
  echo 7 (fun _ n => Z.min n 2) [65; 66; 67; 68; 69; 70; 0] 6 = Ret [65; 66; 67; 68; 67; 68].
Proof.
  split; [lia|].
  apply (echo_partial_writes 2 [65; 66; 67; 68; 69; 70] [0]); [lia | cbn; lia].
Defined.
