(* ===== verification/SerialSession.v ===== *)
(** * Serial lines: the session of Linux_serial/serialutil.c

    The loop of [initiate_serial_session] in its three input modes: what
    [select] says of the keyboard, what [getchar] and [fgets] take from it
    through the buffer of the C library, and what is written to the line.  The
    blocks of a file transfer are in [Serial]. *)
From Stdlib Require Import String.
From stdpp Require Import option list.
From S2P Require Import Prelude CString Serial.
#[local] Open Scope Z_scope.

(** ** The standard input *)

(** What one [read] of the terminal would deliver each time (a line, when the
    terminal hands over lines), what the library has read and not yet given
    out, and whether the input has ended. *)
Record stdin := { pending : list (list Z); buffered : list Z; closed : bool }.

(** [select] reports the descriptor, not the library's buffer. *)
Definition ready (k : stdin) : bool :=
  match pending k with [] => closed k | _ => true end.

Definition EOF : Z := -1.

(** [getchar()]; [None] waits. *)
Definition getchar (k : stdin) : option (Z * stdin) :=
  match buffered k with
  | c :: b => Some (c, Build_stdin (pending k) b (closed k))
  | [] =>
      match pending k with
      | (c :: b) :: p => Some (c, Build_stdin p b (closed k))
      | [] :: p => Some (EOF, Build_stdin p [] (closed k))
      | [] => if closed k then Some (EOF, k) else None
      end
  end.

(** [fgets] with [room] characters left before the terminating 0. *)
Fixpoint fgets_loop (room : nat) (acc : list Z) (k : stdin) : option (list Z * stdin) :=
  match room with
  | O => Some (acc, k)
  | S room =>
      '(c, k) ← getchar k;
      if c =? EOF then Some (acc, k)
      else if c =? 10 then Some (acc ++ [c], k)
      else fgets_loop room (acc ++ [c]) k
  end.

Definition LINE_INPUT : nat := 512.

(** [fgets(line_input, 512, stdin)]: the line, empty for NULL. *)
Definition fgets (k : stdin) : option (list Z * stdin) := fgets_loop (LINE_INPUT - 1) [] k.

(** The string in an array of characters. *)
Fixpoint string_at (l : list Z) : list Z :=
  match l with [] => [] | c :: l => if c =? 0 then [] else c :: string_at l end.

(** ** Hexadecimal input *)

(** The tokens [strtok] finds between spaces, [cur] being the one it is in. *)
Fixpoint strtok (cur : list Z) (l : list Z) : list (list Z) :=
  match l with
  | [] => match cur with [] => [] | _ => [cur] end
  | c :: l =>
      if c =? 32 then match cur with [] => strtok [] l | _ => cur :: strtok [] l end
      else strtok (cur ++ [c]) l
  end.

Definition isspace (c : Z) : bool := (c =? 32) || ((9 <=? c) && (c <=? 13)).

Definition hex_digit (c : Z) : option Z :=
  if (48 <=? c) && (c <=? 57) then Some (c - 48)
  else if (65 <=? c) && (c <=? 70) then Some (c - 55)
  else if (97 <=? c) && (c <=? 102) then Some (c - 87)
  else None.

(** The number at the front of a string, [v] so far; whether it has digits. *)
Fixpoint hex_digits (v : Z) (some : bool) (l : list Z) : option Z :=
  match l with
  | c :: l =>
      match hex_digit c with
      | Some d => hex_digits (16 * v + d) true l
      | None => if some then Some v else None
      end
  | [] => if some then Some v else None
  end.

Fixpoint skip_space (l : list Z) : list Z :=
  match l with c :: l' => if isspace c then skip_space l' else l | [] => [] end.

(** [sscanf(l, "%x", ...)]: the number, if there is one. *)
Definition sscanf_x (l : list Z) : option Z :=
  let l := skip_space l in
  let '(neg, l) := match l with
    | c :: l' => if c =? 45 then (true, l') else if c =? 43 then (false, l') else (false, l)
    | [] => (false, l) end in
  let l := match l with
    | 48 :: x :: l' => if (x =? 120) || (x =? 88) then l' else l
    | _ => l end in
  v ← hex_digits 0 false l; Some (if neg : bool then - v else v).

(** ** The session *)

(** The modes, the keyboard, the variable [hexval] (not set at first), the
    bytes offered to the line, and whether the session has ended. *)
Record state := {
  modes : session; keys : stdin; hexval : option Z; wire : list Z; end_of_session : bool
}.

Definition set_keys (k : stdin) (st : state) : state :=
  Build_state (modes st) k (hexval st) (wire st) (end_of_session st).
Definition set_session (s : session) (st : state) : state :=
  Build_state s (keys st) (hexval st) (wire st) (end_of_session st).
Definition set_hexval (v : Z) (st : state) : state :=
  Build_state (modes st) (keys st) (Some v) (wire st) (end_of_session st).
Definition set_end (b : bool) (st : state) : state :=
  Build_state (modes st) (keys st) (hexval st) (wire st) b.
Definition emit (bs : list Z) (st : state) : state :=
  Build_state (modes st) (keys st) (hexval st) (wire st ++ bs) (end_of_session st).

(** What arrives on the line, and the results of writing to the terminal. *)
Record line_input := { line_reader : reader; echo_writer : nat -> writer; line_fuel : nat }.

Section session.
(** Whether the three bytes after [hexval], which [%x] also writes, are free. *)
Context (padded : bool).
(** The dialogues of the escapes for a file and for the line settings, which
    read the keyboard; whether the file was opened. *)
Context (dialogue : stdin -> bool * stdin).
(** The branch that sends a file. *)
Context (transfer : state -> outcome (option state)).
(** [write] on the line, for whole lines. *)
Context (wr : writer).

(** A line from the keyboard.  [Ret None]: the program waits for keys. *)
Definition line_keys (st : state) : outcome (option state) :=
  match fgets (keys st) with
  | None => Ret None
  | Some ([], k) => Ret (Some (set_keys k st))
  | Some (line, k) =>
      let line := string_at line in
      '(_, sent) ← serial_writen (S (length line)) wr line (Z.of_nat (length line));
      Ret (Some (emit sent (set_keys k st)))
  end.

(** The tokens of a line of hexadecimal numbers. *)
Fixpoint hex_tokens (ts : list (list Z)) (st : state) : outcome state :=
  match ts with
  | [] => Ret st
  | t :: ts =>
      st ← (match sscanf_x t with
            | Some v => if padded then Ret (set_hexval (u8 v) st) else Undef
            | None => Ret st
            end);
      v ← lift (hexval st);
      hex_tokens ts (emit [v] st)
  end.

Definition hex_keys (st : state) : outcome (option state) :=
  match fgets (keys st) with
  | None => Ret None
  | Some ([], k) => Ret (Some (set_keys k st))
  | Some (line, k) =>
      st ← hex_tokens (strtok [] (string_at line)) (set_keys k st);
      Ret (Some st)
  end.

(** A character in teletype mode. *)
Definition teletype_keys (st : state) : outcome (option state) :=
  match getchar (keys st) with
  | None => Ret None
  | Some (c, k) =>
      let st := set_keys k st in
      if c =? 0 then Ret (Some st)
      else if c =? 10 then Ret (Some (if command_mode (modes st) then emit [13] st else st))
      else if c =? 27 then
        match getchar k with
        | None => Ret None
        | Some (c, k) =>
            let '(opened, k) :=
              if (c =? char "f") || (c =? char "z") then dialogue k else (false, k) in
            let '(s, over) := teletype_escape c opened (modes st) in
            Ret (Some (set_end (end_of_session st || over) (set_session s (set_keys k st))))
        end
      else Ret (Some (emit [u8 c] st))
  end.

(** A pass of the loop once [select] has returned, with what the line has to
    read, if anything. *)
Definition pass (dev : option line_input) (st : state) : outcome (option state) :=
  if file_tx_mode (modes st) then transfer st
  else
    let m := session_mode (modes st) in
    s ← (match dev with
         | Some d => '(s, _) ← handle_input (line_fuel d) (line_reader d) (echo_writer d) (modes st); Ret s
         | None => Ret (modes st)
         end);
    let st := set_session s st in
    if ready (keys st) then
      match m with
      | Line => line_keys st
      | HexMode => hex_keys st
      | _ => teletype_keys st
      end
    else Ret (Some st).

(** The start of the session: the modes of [type], nothing typed. *)
Definition initiate_serial_session (type : Z) (s : session) : state :=
  Build_state (initiate_modes type s) (Build_stdin [] [] false) None [] false.

(** What happens: the terminal hands over what was typed, or the loop makes a
    pass. *)
Inductive happens : state -> list (list Z) -> state -> Prop :=
  | happens_nil st : happens st [] st
  | happens_typed st t st' l :
      l <> [] -> closed (keys st') = false -> happens st t st' ->
      happens st (t ++ [l]) (set_keys (Build_stdin (pending (keys st') ++ [l]) (buffered (keys st')) false) st')
  | happens_pass st t st' dev st'' :
      end_of_session st' = false -> happens st t st' -> pass dev st' = Ret (Some st'') -> happens st t st''.
End session.

(** ** Lemmas *)

(** Input from the line changes only the count of a session. *)
Lemma handle_loop_count fuel rd ew i s inbuff out s' o :
  handle_loop fuel rd ew i s inbuff out = Ret (s', o) -> exists n, s' = add_count n s.
Proof.
  revert i s inbuff out. induction fuel as [|fuel IH]; intros i s inbuff out; [done|].
  cbn [handle_loop]. destruct (rd i _) as [e|bs]; [by destruct (aset inbuff e 0)|].
  destruct (store inbuff 0 bs) as [inb|]; [|done]. step_run.
  destruct (in_int _); [|done]. step_run.
  destruct (aset inb _ 0) as [inb'|]; [|done]. step_run.
  destruct (hex_input_mode _ || file_tx_mode _); [|destruct (echo _ _ _ _); [|done..]]; step_run.
  all: destruct (_ =? _).
  all: first [intros [n ->]%IH; rewrite add_count_add; by eexists | intros [= <- <-]; by eexists].
Qed.

Lemma handle_input_count fuel rd ew s s' o :
  handle_input fuel rd ew s = Ret (s', o) -> exists n, s' = add_count n s.
Proof. apply handle_loop_count. Qed.

(** What the line brings changes neither the modes nor the keyboard. *)
Lemma pass_line padded dialogue transfer wr dev st st' :
  file_tx_mode (modes st) = false ->
  pass padded dialogue transfer wr dev st = Ret st' ->
  exists n, pass padded dialogue transfer wr None (set_session (add_count n (modes st)) st) = Ret st'.
Proof.
  intros Hf. unfold pass. rewrite Hf. cbn [modes set_session add_count file_tx_mode]. rewrite Hf.
  destruct dev as [d|].
  - destruct (handle_input _ _ _ _) as [[s o]| |] eqn:Eh; step_run; [|intros [=]..].
    apply handle_input_count in Eh as [n ->]. exists n. done.
  - intros <-. exists 0. destruct st as [[cm hx li fi n] ? ? ? ?]. unfold add_count; cbn [countsofar modes
      command_mode hex_input_mode line_input_mode file_tx_mode]. by rewrite Z.add_0_r.
Qed.

(** ** Teletype mode: what reaches the line *)

(** What the loop sends for a character. *)
Definition translate (cm : bool) (c : Z) : list Z :=
  if c =? 10 then (if cm then [13] else []) else [c].

(** A character that is neither the escape nor 0. *)
Definition plain (c : Z) : Prop := 0 < c < 256 /\ c <> 27.

Section teletype.
Context (padded : bool) (dialogue : stdin -> bool * stdin) (transfer : state -> outcome (option state))
  (wr : writer).

Lemma teletype_pass st c k :
  session_mode (modes st) = Teletype -> ready (keys st) = true ->
  getchar (keys st) = Some (c, k) -> plain c ->
  pass padded dialogue transfer wr None st
  = Ret (Some (emit (translate (command_mode (modes st)) c) (set_keys k st))).
Proof.
  intros Hm Hr Hg [Hc H27]. unfold pass.
  assert (file_tx_mode (modes st) = false) as ->.
  { unfold session_mode in Hm. by destruct (file_tx_mode _). }
  step_run. cbn [keys set_session]. rewrite Hr, Hm. unfold teletype_keys. cbn [keys set_session].
  rewrite Hg, (proj2 (Z.eqb_neq c 0)) by lia. unfold translate.
  destruct (Z.eqb_spec c 10).
  - destruct st as [s ? ? w ?]. cbn [modes set_keys set_session emit]. destruct (command_mode s); [done|].
    unfold emit, set_keys, set_session; cbn. by rewrite app_nil_r.
  - rewrite (proj2 (Z.eqb_neq c 27)), wrap_small by (done || (unfold in_range; lia)). by destruct st.
Qed.

Lemma pass_idle st :
  session_mode (modes st) = Teletype -> ready (keys st) = false ->
  pass padded dialogue transfer wr None st = Ret (Some st).
Proof.
  intros Hm Hr. unfold pass.
  assert (file_tx_mode (modes st) = false) as ->.
  { unfold session_mode in Hm. by destruct (file_tx_mode _). }
  step_run. cbn [keys set_session]. rewrite Hr. by destruct st.
Qed.

(** The session in teletype mode after the chunks [t] were typed. *)
Record teletype_at (cm : bool) (t : list (list Z)) (st : state) : Prop := {
  in_teletype : session_mode (modes st) = Teletype;
  same_command : command_mode (modes st) = cm;
  not_ended : end_of_session st = false;
  not_closed : closed (keys st) = false;
  used : exists u, concat t = u ++ buffered (keys st) ++ concat (pending (keys st)) /\
                   wire st = flat_map (translate cm) u;
  typed_first : exists first, t = first ++ pending (keys st);
  one_behind : pending (keys st) = [] -> buffered (keys st) = match list.last t with Some l => tl l | None => [] end
}.

Lemma teletype_typed cm t l st :
  l <> [] -> teletype_at cm t st ->
  teletype_at cm (t ++ [l])
    (set_keys (Build_stdin (pending (keys st) ++ [l]) (buffered (keys st)) false) st).
Proof.
  intros Hl [Hm Hc He Hcl (u & Hu & Hw) [first Hf] Hb]. split; cbn; try done.
  - exists u. split; [|done]. rewrite !concat_app, Hu. cbn. by rewrite !app_nil_r, <- !app_assoc.
  - exists first. by rewrite app_assoc, <- Hf.
  - by destruct (pending (keys st)).
Qed.

(** A pass goes on by one character, or by none. *)
Lemma teletype_step cm t st :
  Forall (fun l => l <> [] /\ Forall plain l) t -> teletype_at cm t st ->
  exists st', pass padded dialogue transfer wr None st = Ret (Some st') /\ teletype_at cm t st'.
Proof.
  intros Ht [Hm Hc He Hcl (u & Hu & Hw) [first Hf] Hb].
  destruct (ready (keys st)) eqn:Hr; [|exists st; split; [by apply pass_idle | by split; eauto]].
  unfold ready in Hr. destruct st as [s [p b cl] hv w e]; cbn in *.
  destruct p as [|l p]; [congruence|].
  assert (l <> [] /\ Forall plain l) as [Hl Hpl].
  { rewrite Hf in Ht. apply list.Forall_app in Ht as [_ Ht]. by inversion Ht. }
  assert (Hall : Forall plain (u ++ b ++ l ++ concat p)).
  { change (l ++ concat p) with (concat (l :: p)). rewrite <- Hu. apply Forall_concat. eapply Forall_impl; [|exact Ht]. by intros ? []. }
  apply list.Forall_app in Hall as [_ Hall]. apply list.Forall_app in Hall as [Hpb _].
  destruct b as [|c b].
  - destruct l as [|c l]; [done|]. inversion Hpl as [|?? Hpc _]; subst.
    eexists. split; [eapply teletype_pass; done|].
    split; cbn; try done.
    + exists (u ++ [c]). split; [rewrite Hu; by rewrite <- !app_assoc|].
      rewrite flat_map_app. cbn. by rewrite app_nil_r.
    + exists (first ++ [c :: l]). by rewrite <- app_assoc.
    + intros ->. by rewrite last_snoc.
  - inversion Hpb as [|?? Hpc _]; subst.
    eexists. split; [eapply teletype_pass; done|].
    split; cbn; try done.
    + exists (u ++ [c]). split; [rewrite Hu; by rewrite <- !app_assoc|].
      rewrite flat_map_app. cbn. by rewrite app_nil_r.
    + by exists first.
Qed.

Lemma teletype_happens cm t st0 st :
  Forall (fun l => l <> [] /\ Forall plain l) t -> teletype_at cm [] st0 ->
  happens padded dialogue transfer wr st0 t st -> teletype_at cm t st.
Proof.
  intros Ht H0 Hh. induction Hh as [st|st t st' l Hl Hcl Hh IH|st t st' dev st'' He Hh IH Hp]; [done|..].
  - apply list.Forall_app in Ht as [Ht _]. by apply teletype_typed, IH.
  - destruct (IH Ht H0) as [Hm Hc He' Hcl Hu Hf Hb].
    assert (file_tx_mode (modes st') = false) as Hfile.
    { unfold session_mode in Hm. by destruct (file_tx_mode _). }
    destruct (pass_line _ _ _ _ _ _ _ Hfile Hp) as [n Hp'].
    destruct (teletype_step cm t (set_session (add_count n (modes st')) st') Ht) as (st1 & Hp1 & Hst1);
      [by split|]. rewrite Hp1 in Hp'. by injection Hp' as <-.
Qed.
End teletype.

(** C36: In teletype mode, however typing, what the line brings and the passes of
    the loop follow each other, the line gets what was typed in order, each
    character once, a newline as a return in command mode; but [select] does
    not see what [getchar] has buffered, so whenever the loop waits for keys
    all but the first character of the last line typed is still unsent.  The
    loop itself never blocks in a read. *)
Theorem teletype_one_line_behind padded dialogue transfer wr type s t st :
  type <> CMD_LINE_INPUT_MODE -> type <> HEX_INPUT_MODE ->
  Forall (fun l => l <> [] /\ Forall plain l) t ->
  happens padded dialogue transfer wr (initiate_serial_session type s) t st ->
  (exists u, concat t = u ++ buffered (keys st) ++ concat (pending (keys st)) /\
             wire st = flat_map (translate (command_mode s)) u) /\
  (ready (keys st) = false ->
   forall t' l, t = t' ++ [l] ->
   buffered (keys st) = tl l /\
   wire st = flat_map (translate (command_mode s)) (concat t' ++ take 1 l)) /\
  exists st', pass padded dialogue transfer wr None st = Ret (Some st').
Proof.
  intros H0 H1 Ht Hh.
  assert (teletype_at (command_mode s) [] (initiate_serial_session type s)) as Hi.
  { unfold initiate_serial_session, initiate_modes.
    rewrite (proj2 (Z.eqb_neq _ _) H0), (proj2 (Z.eqb_neq _ _) H1).
    split; cbn; try done; [by exists [] | by exists []]. }
  pose proof (teletype_happens _ _ _ _ _ _ _ _ Ht Hi Hh) as Hat.
  pose proof Hat as [Hm Hc He Hcl (u & Hu & Hw) [first Hf] Hb].
  split; [by exists u|]. split.
  - intros Hr t' l ->. unfold ready in Hr. destruct (pending (keys st)) eqn:Hp; [|done].
    specialize (Hb eq_refl). rewrite last_snoc in Hb. split; [done|].
    rewrite Hw. f_equal. rewrite Hb in Hu. cbn [concat] in Hu. rewrite app_nil_r in Hu.
    rewrite concat_app in Hu. cbn in Hu. rewrite app_nil_r in Hu.
    apply (app_inv_tail (tl l)). rewrite <- Hu, <- app_assoc. f_equal.
    by destruct l.
  - destruct (teletype_step padded dialogue transfer wr _ _ _ Ht Hat) as (st' & Hs & _). by exists st'.
Qed.

(** Once the keyboard is closed the loop sends 0xFF for ever. *)
Theorem teletype_end_of_input padded dialogue transfer wr st :
  session_mode (modes st) = Teletype -> keys st = Build_stdin [] [] true ->
  pass padded dialogue transfer wr None st = Ret (Some (emit [0xff] st)).
Proof.
  intros Hm Hk. unfold pass.
  assert (file_tx_mode (modes st) = false) as ->.
  { unfold session_mode in Hm. by destruct (file_tx_mode _). }
  step_run. cbn [keys set_session]. rewrite Hk, Hm. cbn [ready pending closed].
  unfold teletype_keys. cbn [keys set_session]. rewrite Hk. cbn. destruct st as [? k ? ? ?]; cbn in Hk; by subst k.
Qed.

(** ** Lines and hexadecimal lines *)

(** A character of a line. *)
Definition in_line (c : Z) : Prop := 0 < c < 256 /\ c <> 10.

Lemma fgets_loop_line l room acc p b cl :
  Forall in_line l -> (length l < room)%nat ->
  fgets_loop room acc (Build_stdin p (l ++ 10 :: b) cl) = Some (acc ++ l ++ [10], Build_stdin p b cl).
Proof.
  intros Hl. revert room acc. induction Hl as [|c l [Hc H10] Hl IH]; intros room acc Hr;
    (destruct room as [|room]; [cbn in Hr; lia|]); cbn [fgets_loop app getchar buffered pending closed].
  - step_option. done.
  - step_option. rewrite (proj2 (Z.eqb_neq c EOF)) by (unfold EOF; lia).
    rewrite (proj2 (Z.eqb_neq c 10)) by done. rewrite IH by (cbn in Hr; lia). by rewrite <- app_assoc.
Qed.

(** [fgets] takes the first line; what else was handed over with it stays in
    the library's buffer. *)
Lemma fgets_line l p b cl :
  Forall in_line l -> (length l < LINE_INPUT - 1)%nat ->
  fgets (Build_stdin ((l ++ 10 :: b) :: p) [] cl) = Some (l ++ [10], Build_stdin p b cl).
Proof.
  intros Hl Hn. unfold fgets. rewrite <- (app_nil_l (l ++ [10])), <- (fgets_loop_line l (LINE_INPUT - 1) [] p b cl) by done.
  destruct (LINE_INPUT - 1)%nat as [|n]; [lia|]. cbn [fgets_loop]. by destruct l.
Qed.

Lemma string_at_line l : Forall in_line l -> string_at (l ++ [10]) = l ++ [10].
Proof.
  induction 1 as [|c l [Hc _] _ IH]; [done|]. cbn [app string_at].
  rewrite (proj2 (Z.eqb_neq c 0)) by lia. by rewrite IH.
Qed.

Lemma serial_writen_all (wr : writer) buf :
  (forall n, wr 0%nat n = n) -> 0 < Z.of_nat (length buf) < 2 ^ 63 ->
  exists r, serial_writen (S (length buf)) wr buf (Z.of_nat (length buf)) = Ret (r, buf).
Proof.
  intros Hw Hn. unfold serial_writen. rewrite swrap_small by lia.
  destruct (length buf) as [|n] eqn:El; [cbn in Hn; lia|]. cbn [writen_loop].
  rewrite (proj2 (Z.ltb_lt _ _)) by lia. rewrite Hw. cbv zeta.
  rewrite (proj2 (Z.leb_gt _ _)) by lia. rewrite Z.sub_diag. cbn [Z.ltb Z.compare].
  rewrite Nat2Z.id, <- El, firstn_all. by eexists.
Qed.

Section lines.
Context (padded : bool) (dialogue : stdin -> bool * stdin) (transfer : state -> outcome (option state))
  (wr : writer).

(** A pass that has a line to take. *)
Lemma pass_mode st :
  file_tx_mode (modes st) = false -> ready (keys st) = true ->
  pass padded dialogue transfer wr None st =
    match session_mode (modes st) with
    | Line => line_keys wr st | HexMode => hex_keys padded st | _ => teletype_keys dialogue st
    end.
Proof.
  intros Hf Hr. unfold pass. rewrite Hf. step_run. cbn [keys set_session]. rewrite Hr. by destruct st.
Qed.

Lemma mode_not_file s : session_mode s <> FileTx -> file_tx_mode s = false.
Proof. unfold session_mode. by destruct (file_tx_mode s). Qed.

(** In line mode the line typed is sent as it is, newline included; what came
    with it waits in the buffer, where [select] does not see it. *)
Theorem line_mode_pass st l b p :
  session_mode (modes st) = Line -> (forall n, wr 0%nat n = n) ->
  keys st = Build_stdin ((l ++ 10 :: b) :: p) [] false ->
  Forall in_line l -> (length l < 511)%nat ->
  pass padded dialogue transfer wr None st
    = Ret (Some (emit (l ++ [10]) (set_keys (Build_stdin p b false) st))) /\
  ready (Build_stdin p b false) = negb (bool_decide (p = [])).
Proof.
  intros Hm Hw Hk Hl Hn. split; [|by destruct p].
  rewrite pass_mode; [|apply mode_not_file; by rewrite Hm | by rewrite Hk].
  rewrite Hm. unfold line_keys. rewrite Hk, fgets_line by done.
  destruct (l ++ [10]) as [|c l'] eqn:E; [by destruct l|]. rewrite <- E.
  rewrite string_at_line by done.
  destruct (serial_writen_all wr (l ++ [10]) Hw) as [r ->]; [rewrite length_app; cbn; lia|]. done.
Qed.

(** A byte as two hexadecimal digits. *)
Definition hexchar (d : Z) : Z := if d <? 10 then 48 + d else 87 + d.
Definition hex2 (b : Z) : list Z := [hexchar (b / 16); hexchar (b mod 16)].

Lemma hex2_checked b :
  byte b -> sscanf_x (hex2 b) = Some b /\ sscanf_x (hex2 b ++ [10]) = Some b /\ Forall in_line (hex2 b) /\
            Forall (fun c => c <> 32) (hex2 b).
Proof.
  intros Hb.
  pose proof (forallb_seqZ (fun b => bool_decide (sscanf_x (hex2 b) = Some b) &&
    bool_decide (sscanf_x (hex2 b ++ [10]) = Some b) &&
    forallb (fun c => (48 <=? c) && (c <=? 102)) (hex2 b)) 256 ltac:(by vm_compute) b Hb) as H.
  cbv beta in H.
  apply andb_true_iff in H as [[H1%bool_decide_eq_true H2%bool_decide_eq_true]%andb_true_iff H].
  split; [done|]. split; [done|]. rewrite forallb_forall in H.
  split; apply list.Forall_forall; intros c Hc%list_elem_of_In%H; unfold in_line; lia.
Qed.

Lemma strtok_token t cur l :
  Forall (fun c => c <> 32) t -> strtok cur (t ++ l) = strtok (cur ++ t) l.
Proof.
  intros Ht. revert cur. induction Ht as [|c t Hc _ IH]; intros cur; [by rewrite app_nil_r|].
  cbn [app strtok]. rewrite (proj2 (Z.eqb_neq c 32)) by done. rewrite IH. by rewrite <- app_assoc.
Qed.

(** The bytes of a line, each followed by a space. *)
Definition hex_text (bs : list Z) : list Z := flat_map (fun b => hex2 b ++ [32]) bs.

Lemma strtok_text bs l :
  Forall byte bs -> strtok [] (hex_text bs ++ l) = map hex2 bs ++ strtok [] l.
Proof.
  induction 1 as [|b bs Hb _ IH]; [done|]. unfold hex_text. cbn [flat_map map app].
  rewrite <- !app_assoc. rewrite strtok_token by (by apply hex2_checked).
  cbn [app strtok]. rewrite (Z.eqb_refl 32). unfold hex2 at 1. by rewrite <- IH.
Qed.

Lemma hex_tokens_bytes bs ts st :
  padded = true -> Forall byte bs ->
  hex_tokens padded (map hex2 bs ++ ts) st =
  hex_tokens padded ts (Build_state (modes st) (keys st)
    (match list.last bs with Some b => Some b | None => hexval st end) (wire st ++ bs) (end_of_session st)).
Proof.
  intros Hp Hbs. revert st. induction Hbs as [|b bs Hb Hbs IH]; intros st.
  - cbn [map app list.last]. rewrite app_nil_r. by destruct st.
  - cbn [map app hex_tokens]. rewrite (proj1 (hex2_checked b Hb)), Hp. step_run.
    cbn [hexval set_hexval]. rewrite (wrap_small 8 b Hb). step_run. rewrite <- Hp, IH. f_equal.
    cbn [modes keys emit set_hexval wire end_of_session hexval]. f_equal.
    + rewrite last_cons. by destruct (list.last bs).
    + by rewrite <- app_assoc.
Qed.

Lemma in_line_text bs : Forall byte bs -> Forall in_line (hex_text bs).
Proof.
  induction 1 as [|b bs Hb _ IH]; [constructor|]. unfold hex_text. cbn [flat_map].
  apply list.Forall_app. split; [|done]. apply list.Forall_app. split; [by apply hex2_checked|].
  by repeat constructor.
Qed.

Lemma hex_pass st l ts p :
  session_mode (modes st) = HexMode -> keys st = Build_stdin ((l ++ [10]) :: p) [] false ->
  Forall in_line l -> (length l < 511)%nat -> strtok [] (l ++ [10]) = ts ->
  pass padded dialogue transfer wr None st =
  (st ← hex_tokens padded ts (set_keys (Build_stdin p [] false) st); Ret (Some st)).
Proof.
  intros Hm Hk Hl Hn Ht.
  rewrite pass_mode; [|apply mode_not_file; by rewrite Hm | by rewrite Hk].
  rewrite Hm. unfold hex_keys. rewrite Hk, fgets_line by done.
  destruct (l ++ [10]) as [|c l'] eqn:E; [by destruct l|]. rewrite <- E.
  rewrite string_at_line by done. by rewrite E, Ht.
Qed.

(** In hexadecimal mode, where [%x] may write past [hexval], every number of
    the line is sent; a space before the newline, or an empty line, sends the
    last number once more. *)
Theorem hex_line_sent st bs b p :
  padded = true -> session_mode (modes st) = HexMode -> Forall byte bs -> byte b -> (length bs < 100)%nat ->
  (keys st = Build_stdin ((hex_text bs ++ hex2 b ++ [10]) :: p) [] false ->
   exists st', pass padded dialogue transfer wr None st = Ret (Some st') /\ wire st' = wire st ++ bs ++ [b]) /\
  (keys st = Build_stdin ((hex_text (bs ++ [b]) ++ [10]) :: p) [] false ->
   exists st', pass padded dialogue transfer wr None st = Ret (Some st') /\ wire st' = wire st ++ bs ++ [b; b]).
Proof.
  intros Hp Hm Hbs Hb Hn.
  assert (forall bs, length (hex_text bs) = (3 * length bs)%nat) as Hlen.
  { intros l. induction l as [|x l IH]; [done|]. unfold hex_text in *. cbn [flat_map length]. rewrite length_app, IH.
    cbn. lia. }
  destruct (hex2_checked b Hb) as (H1 & H2 & H3 & H4). split; intros Hk.
  - rewrite (hex_pass st (hex_text bs ++ hex2 b) (map hex2 bs ++ [hex2 b ++ [10]]) p); try done.
    + rewrite hex_tokens_bytes by done. cbn [hex_tokens]. rewrite H2, Hp. step_run.
      cbn [hexval set_hexval lift]. rewrite (wrap_small 8 b Hb). step_run. eexists. split; [done|]. cbn.
      by rewrite <- app_assoc.
    + by rewrite <- app_assoc.
    + apply list.Forall_app. split; [by apply in_line_text | done].
    + rewrite length_app, Hlen. cbn. lia.
    + rewrite <- app_assoc, strtok_text by done. f_equal. rewrite strtok_token by done. done.
  - assert (Forall byte (bs ++ [b])) as Hall by (apply list.Forall_app; split; [done | by constructor]).
    rewrite (hex_pass st (hex_text (bs ++ [b])) (map hex2 (bs ++ [b]) ++ [[10]]) p); try done.
    + rewrite hex_tokens_bytes by done. cbn [hex_tokens]. change (sscanf_x [10]) with (@None Z). step_run.
      cbn [hexval]. rewrite last_snoc. step_run. eexists. split; [done|]. cbn.
      by rewrite <- !app_assoc.
    + by apply in_line_text.
    + rewrite Hlen, length_app. cbn. lia.
    + by rewrite strtok_text by done.
Qed.
End lines.

(** ** Witness *)

(** "ab" and "cd" are typed, each with its newline: the line has "ab", a return
    and "c". *)
Lemma teletype_one_line_behind_witness :
  exists st, happens true (fun k => (false, k)) (fun st => Ret (Some st)) (fun _ n => n)
      (initiate_serial_session TELETYPE_INPUT_MODE (Build_session true false false false 0))
      [[97; 98; 10]; [99; 100; 10]] st /\
    buffered (keys st) = [100; 10] /\ wire st = [97; 98; 13; 99].
Proof.
  set (st := Build_state (Build_session true false false false 0) (Build_stdin [] [100; 10] false) None
               [97; 98; 13; 99] false).
  assert (happens true (fun k => (false, k)) (fun st => Ret (Some st)) (fun _ n => n)
      (initiate_serial_session TELETYPE_INPUT_MODE (Build_session true false false false 0))
      [[97; 98; 10]; [99; 100; 10]] st) as Hh.
  { set (st0 := initiate_serial_session TELETYPE_INPUT_MODE (Build_session true false false false 0)).
    pose proof (happens_typed true (fun k => (false, k)) (fun st => Ret (Some st)) (fun _ n => n) st0 [] st0
      [97; 98; 10] ltac:(done) eq_refl (happens_nil _ _ _ _ _)) as H1.
    apply (happens_typed _ _ _ _ _ _ _ [99; 100; 10]) in H1; [|done|done].
    do 4 (eapply (happens_pass _ _ _ _ _ _ _ None) in H1; [|reflexivity|vm_compute; reflexivity]).
    exact H1. }
  exists st. split; [exact Hh|].
  assert (Forall (fun l => l <> [] /\ Forall plain l) [[97; 98; 10]; [99; 100; 10]]) as Ht
    by (repeat constructor; done).
  destruct (proj1 (proj2 (teletype_one_line_behind _ _ _ _ TELETYPE_INPUT_MODE _ _ st
    ltac:(done) ltac:(done) Ht Hh)) eq_refl [[97; 98; 10]] [99; 100; 10] eq_refl) as [H1 H2].
  split; [exact H1 | exact H2].
Defined.
