(* ===== verification/Io.v ===== *)
(** * Programs of device accesses

    The drivers' functions are programs of reads and writes of ports: registers
    of a device, or locations of its configuration space.  A device is anything
    that answers them; a program run on one shows the writes it makes, in order.
    [performs] says what a program does on every device. *)
From stdpp Require Import option list.
From S2P Require Import Prelude.
#[local] Open Scope Z_scope.

(** A result, undefined behaviour, a read of a port or a write to one. *)
Inductive io (P A : Type) : Type :=
  | Pure (a : A)
  | Wild
  | Rd (p : P) (k : Z -> io P A)
  | Wr (p : P) (v : Z) (k : io P A).
Arguments Pure {P A}.
Arguments Wild {P A}.
Arguments Rd {P A}.
Arguments Wr {P A}.

#[export] Instance io_ret P : MRet (io P) := @Pure P.
#[export] Instance io_bind P : MBind (io P) := fun A B f =>
  fix go (c : io P A) : io P B :=
    match c with
    | Pure a => f a
    | Wild => Wild
    | Rd p k => Rd p (fun v => go (k v))
    | Wr p v k => Wr p v (go k)
    end.

Definition read {P} (p : P) : io P Z := Rd p Pure.
Definition write {P} (p : P) (v : Z) : io P unit := Wr p v (Pure tt).
Definition io_of {P A} (o : option A) : io P A := match o with Some a => Pure a | None => Wild end.

(** Several writes in a row. *)
Fixpoint write_all {P} (l : list (P * Z)) : io P unit :=
  match l with [] => Pure tt | (p, v) :: l => Wr p v (write_all l) end.

(** What a device does on an access. *)
Class device (P D : Type) := {
  dev_read : P -> D -> Z * D;
  dev_write : P -> Z -> D -> D
}.

(** A program run on a device: the writes it makes, in order, its result and
    the device after it. *)
Fixpoint run `{device P D} {A} (c : io P A) (d : D) : option (list (P * Z) * A * D) :=
  match c with
  | Pure a => Some ([], a, d)
  | Wild => None
  | Rd p k => let '(v, d) := dev_read p d in run (k v) d
  | Wr p v k => '(l, a, d) ← run k (dev_write p v d); Some ((p, v) :: l, a, d)
  end.

(** The value a port has after a list of writes, if any. *)
Fixpoint last_write `{EqDecision P} (l : list (P * Z)) (p : P) : option Z :=
  match l with
  | [] => None
  | (q, v) :: l =>
      match last_write l p with
      | Some w => Some w
      | None => if decide (q = p) then Some v else None
      end
  end.

Section runs.
Context `{device P D}.
Implicit Types d : D.

Lemma run_bind {A B} (c : io P A) (f : A -> io P B) d :
  run (c ≫= f) d =
    ('(l, a, d) ← run c d; '(l', b, d) ← run (f a) d; Some (l ++ l', b, d)).
Proof.
  revert d; induction c as [a | | r k IH | r v k IH]; intros d.
  - change (Pure a ≫= f) with (f a). cbn [run]. step_run.
    by destruct (run (f a) d) as [[[??]?]|].
  - done.
  - change (Rd r k ≫= f) with (Rd r (fun v => k v ≫= f)). cbn [run].
    destruct (dev_read r d) as [v d']. apply IH.
  - change (Wr r v k ≫= f) with (Wr r v (k ≫= f)). cbn [run]. rewrite IH.
    destruct (run k _) as [[[l a] d']|]; [|done]. step_run.
    by destruct (run (f a) d') as [[[??]?]|].
Qed.

(** Programs whose writes and result do not depend on the device. *)
Definition performs {A} (c : io P A) (l : list (P * Z)) (a : A) : Prop :=
  forall d, exists d', run c d = Some (l, a, d').

Lemma performs_pure {A} (a : A) : performs (Pure a) [] a.
Proof. intros d. by exists d. Qed.

Lemma performs_write r v : performs (write r v) [(r, v)] tt.
Proof. intros d. by eexists. Qed.

Lemma performs_bind {A B} (c : io P A) (f : A -> io P B) l l' a b :
  performs c l a -> performs (f a) l' b -> performs (c ≫= f) (l ++ l') b.
Proof.
  intros Hc Hf d. destruct (Hc d) as [d1 H1]. destruct (Hf d1) as [d2 H2].
  exists d2. rewrite run_bind, H1. step_run. by rewrite H2.
Qed.

Lemma performs_skip {A B} (c : io P A) (f : A -> io P B) l a b :
  performs c [] a -> performs (f a) l b -> performs (c ≫= f) l b.
Proof. apply (performs_bind c f [] l). Qed.

Lemma performs_then {B} r v (f : unit -> io P B) l b :
  performs (f tt) l b -> performs (write r v ≫= f) ((r, v) :: l) b.
Proof. apply (performs_bind (write r v) f [(r, v)]), performs_write. Qed.

(** A read whose value is not used. *)
Lemma performs_read {B} r (c : io P B) l b : performs c l b -> performs (_ ← read r; c) l b.
Proof.
  intros Hc d. cbn [mbind io_bind read run]. destruct (dev_read r d) as [v d']. apply Hc.
Qed.

Lemma performs_write_all l : performs (write_all l) l tt.
Proof.
  induction l as [|[r v] l IH]; [apply performs_pure|]. intros d. cbn [write_all run].
  destruct (IH (dev_write r v d)) as [d' Hd]. rewrite Hd. by exists d'.
Qed.

(** Programs that end on every device and whose writes all satisfy [Q]. *)
Definition within {A} (Q : P * Z -> Prop) (c : io P A) : Prop :=
  forall d, exists l a d', run c d = Some (l, a, d') /\ Forall Q l.

Lemma within_pure {A} Q (a : A) : within Q (Pure a).
Proof. intros d. by exists [], a, d. Qed.

Lemma within_write Q r v : Q (r, v) -> within Q (write r v).
Proof. intros HQ d. eexists _, _, _. split; [reflexivity | by repeat constructor]. Qed.

Lemma within_read {B} Q r (f : Z -> io P B) : (forall v, within Q (f v)) -> within Q (v ← read r; f v).
Proof.
  intros Hf d. cbn [mbind io_bind read run]. destruct (dev_read r d) as [v d']. apply Hf.
Qed.

Lemma within_bind {A B} Q (c : io P A) (f : A -> io P B) :
  within Q c -> (forall a, within Q (f a)) -> within Q (c ≫= f).
Proof.
  intros Hc Hf d. destruct (Hc d) as (l & a & d1 & H1 & Hl).
  destruct (Hf a d1) as (l' & b & d2 & H2 & Hl'). exists (l ++ l'), b, d2.
  rewrite run_bind, H1. step_run. rewrite H2. split; [done|]. by rewrite Forall_app.
Qed.

Lemma within_for_loop {A} Q n i (body : nat -> A -> io P A) a :
  (forall j a, within Q (body j a)) -> within Q (for_loop (M := io P) n i body a).
Proof.
  intros Hb. revert i a. induction n as [|n IH]; intros i a; [apply within_pure|].
  cbn [for_loop]. by apply within_bind.
Qed.

(** The same, with a last write that need not satisfy [Q]. *)
Definition ends_with (Q : P * Z -> Prop) (w : P * Z) (c : io P unit) : Prop :=
  forall d, exists l d', run c d = Some (l ++ [w], tt, d') /\ Forall Q l.

Lemma ends_with_write Q p v : ends_with Q (p, v) (write p v).
Proof. intros d. eexists [], _. by split. Qed.

Lemma ends_with_bind {A} Q w (c : io P A) (f : A -> io P unit) :
  within Q c -> (forall a, ends_with Q w (f a)) -> ends_with Q w (c ≫= f).
Proof.
  intros Hc Hf d. destruct (Hc d) as (l & a & d1 & H1 & Hl).
  destruct (Hf a d1) as (l' & d2 & H2 & Hl'). exists (l ++ l'), d2.
  rewrite run_bind, H1. step_run. rewrite H2, <- app_assoc. split; [done|]. by rewrite Forall_app.
Qed.
End runs.
