(* ===== verification/BtMicrocode.v ===== *)
(** * Bt878 microcode: VxWorks-Drivers/Bt878_Video/btvid3/btvid3.c

    The programs the driver builds in memory for the DMA engine of the Bt878
    video decoder, one for each video mode, as arrays of 32-bit words; what the
    words say is read back by [decode].  Where the arrays and the frame buffers
    lie in memory is a parameter. *)
From stdpp Require Import option list.
From S2P Require Import Prelude CString.
#[local] Open Scope Z_scope.
#[local] Open Scope c_scope.

(** ** Words *)

Definition DMA_MC_SYNC : Z := 0x00080000.
Definition DMA_MC_WRITE : Z := 0x00010000.
Definition DMA_MC_SKIP : Z := 0x00020000.
Definition DMA_MC_JUMP : Z := 0x00B40000.

Definition DMA_MC_SYNC_FM1_WORD_0 : Z := 0x80008006 .| DMA_MC_SYNC.
Definition DMA_MC_SYNC_WORD_1 : Z := 0.
Definition DMA_MC_SKIP_640_SOL : Z := 0x28000280 .| DMA_MC_SKIP.
Definition DMA_MC_SKIP_640_EOL : Z := 0x24000280 .| DMA_MC_SKIP.
Definition DMA_MC_SKIP_40_SOL : Z := 0x28000028 .| DMA_MC_SKIP.
Definition DMA_MC_SKIP_40_EOL : Z := 0x24000028 .| DMA_MC_SKIP.
Definition DMA_MC_SKIP_1280_SOL : Z := 0x28000500 .| DMA_MC_SKIP.
Definition DMA_MC_SKIP_1280_EOL : Z := 0x24000500 .| DMA_MC_SKIP.
Definition DMA_MC_WRITE_1280_LINE : Z := 0x1C000500 .| DMA_MC_WRITE.
Definition DMA_MC_WRITE_80_LINE : Z := 0x1C000050 .| DMA_MC_WRITE.
Definition DMA_MC_SYNC_VRE_WORD_0 : Z := 0x80008004 .| DMA_MC_SYNC.
Definition DMA_MC_SYNC_VRO_WORD_0_IRQ : Z := 0x8100800C.
Definition DMA_MC_JUMP_TO_BEG : Z := 0x70000000 .| DMA_MC_JUMP.

Definition NTSC_640_X_480 : Z := 0.
Definition NTSC_320_X_240 : Z := 1.
Definition NTSC_80_X_60 : Z := 3.
Definition NTSC_320_X_240_GS : Z := 5.

Definition NUMFRAMES : nat := 2.
Definition MCSIZE : nat := 488.
Definition PUNYMCSIZE : nat := 126.
Definition LGMCSIZE : nat := 968.
Definition TESTMCSIZE : nat := 970.

(** ** Memory *)

(** The arrays of microcode. *)
Record mem := {
  dma_test_microcode : list Z; dma_puny_microcode : list Z;
  dma_microcode : list Z; dma_large_microcode : list Z
}.

Inductive arr := Test | Puny | Frame | Large.

Definition get (a : arr) (m : mem) : list Z :=
  match a with
  | Test => dma_test_microcode m
  | Puny => dma_puny_microcode m
  | Frame => dma_microcode m
  | Large => dma_large_microcode m
  end.

Definition set (a : arr) (l : list Z) (m : mem) : mem :=
  let (t, p, f, g) := m in
  match a with
  | Test => Build_mem l p f g
  | Puny => Build_mem t l f g
  | Frame => Build_mem t p l g
  | Large => Build_mem t p f l
  end.

(** The sizes the arrays are declared with. *)
Definition sized (m : mem) : Prop :=
  length (dma_test_microcode m) = TESTMCSIZE /\
  length (dma_puny_microcode m) = (NUMFRAMES * PUNYMCSIZE + 2)%nat /\
  length (dma_microcode m) = (NUMFRAMES * MCSIZE + 2)%nat /\
  length (dma_large_microcode m) = (NUMFRAMES * LGMCSIZE + 2)%nat.

(** The addresses of the arrays and of the frame buffers. *)
Record layout := {
  test_base : Z; mc_base : Z;
  frame_base : Z; y8_base : Z; puny_base : Z
}.

(** An element assigned. *)
Definition put (a : arr) (i : nat) (v : Z) (m : mem) : option mem :=
  l ← nset (get a m) i v; Some (set a l m).

(** Two words, the second at the next index. *)
Definition put2 (a : arr) (i : nat) (v w : Z) (m : mem) : option mem :=
  m ← put a i v m; put a (i + 1) w m.

(** [for(j=first,k=0; k<n; j+=2,k++)], two words at every [j]. *)
Definition lines (a : arr) (first n : nat) (v : Z) (w : nat -> Z) (m : mem) : option mem :=
  for_loop n 0 (fun k m => put2 a (first + 2 * k) v (w k) m) m.

Section generate.
Context (L : layout).

Definition u32 (z : Z) : Z := wrap 32 z.

(** The addresses of the word [n] of the frame buffer [i], as 32-bit words. *)
Definition frame_addr (i n : nat) : Z := u32 (frame_base L + 4 * (Z.of_nat i * 76800 + Z.of_nat n)).
Definition y8_addr (i n : nat) : Z := u32 (y8_base L + 4 * (Z.of_nat i * 19200 + Z.of_nat n)).
Definition puny_addr (i n : nat) : Z := u32 (puny_base L + 4 * (Z.of_nat i * 1200 + Z.of_nat n)).

Definition initialize_test_mc (m : mem) : option mem :=
  m ← put2 Test 0 DMA_MC_SYNC_FM1_WORD_0 DMA_MC_SYNC_WORD_1 m;
  m ← lines Test 2 240 DMA_MC_SKIP_1280_SOL (fun _ => DMA_MC_SKIP_1280_EOL) m;
  m ← put2 Test 482 DMA_MC_SYNC_VRE_WORD_0 DMA_MC_SYNC_WORD_1 m;
  m ← put2 Test 484 DMA_MC_SYNC_FM1_WORD_0 DMA_MC_SYNC_WORD_1 m;
  m ← lines Test 486 240 DMA_MC_SKIP_1280_SOL (fun _ => DMA_MC_SKIP_1280_EOL) m;
  m ← put2 Test 966 DMA_MC_SYNC_VRO_WORD_0_IRQ DMA_MC_SYNC_WORD_1 m;
  put2 Test 968 DMA_MC_JUMP_TO_BEG (u32 (test_base L)) m.

Context (replace_write_with_skip : bool).

(** The branch for 80x60: the words of the even lines go to [dma_microcode]. *)
Definition puny_frame (i : nat) (m : mem) : option mem :=
  let mcidx := (PUNYMCSIZE * i)%nat in
  m ← put2 Puny mcidx DMA_MC_SYNC_FM1_WORD_0 DMA_MC_SYNC_WORD_1 m;
  m ← (if replace_write_with_skip
       then lines Puny (mcidx + 2) 15 DMA_MC_SKIP_40_SOL (fun _ => DMA_MC_SKIP_40_EOL) m
       else lines Puny (mcidx + 2) 15 DMA_MC_WRITE_80_LINE (fun k => puny_addr i (20 + k * 40)) m);
  m ← put2 Puny (mcidx + 32) DMA_MC_SYNC_VRE_WORD_0 DMA_MC_SYNC_WORD_1 m;
  m ← put2 Puny (mcidx + 34) DMA_MC_SYNC_FM1_WORD_0 DMA_MC_SYNC_WORD_1 m;
  m ← (if replace_write_with_skip
       then lines Puny (mcidx + 36) 15 DMA_MC_SKIP_40_SOL (fun _ => DMA_MC_SKIP_40_EOL) m
       else lines Frame (mcidx + 36) 15 DMA_MC_WRITE_80_LINE (fun k => puny_addr i (0 + k * 40)) m);
  put2 Puny (mcidx + 66) DMA_MC_SYNC_VRO_WORD_0_IRQ DMA_MC_SYNC_WORD_1 m.

(** One frame of 120 odd and 120 even lines in [dma_microcode]: the branches
    for 320x240 in colour and in grey differ in the words of a line. *)
Definition frame_320 (skip_sol skip_eol write : Z) (addr : nat -> nat -> Z) (odd stride : nat)
    (i : nat) (m : mem) : option mem :=
  let mcidx := (MCSIZE * i)%nat in
  m ← put2 Frame mcidx DMA_MC_SYNC_FM1_WORD_0 DMA_MC_SYNC_WORD_1 m;
  m ← (if replace_write_with_skip
       then lines Frame (mcidx + 2) 120 skip_sol (fun _ => skip_eol) m
       else lines Frame (mcidx + 2) 120 write (fun k => addr i (odd + k * stride)%nat) m);
  m ← put2 Frame (mcidx + 242) DMA_MC_SYNC_VRE_WORD_0 DMA_MC_SYNC_WORD_1 m;
  m ← put2 Frame (mcidx + 244) DMA_MC_SYNC_FM1_WORD_0 DMA_MC_SYNC_WORD_1 m;
  m ← (if replace_write_with_skip
       then lines Frame (mcidx + 246) 120 skip_sol (fun _ => skip_eol) m
       else lines Frame (mcidx + 246) 120 write (fun k => addr i (0 + k * stride)%nat) m);
  put2 Frame (mcidx + 486) DMA_MC_SYNC_VRO_WORD_0_IRQ DMA_MC_SYNC_WORD_1 m.

(** The branch for 640x480: the words of the lines go to [dma_microcode], at
    the indices of [dma_large_microcode]. *)
Definition large_frame (i : nat) (m : mem) : option mem :=
  let mcidx := (LGMCSIZE * i)%nat in
  m ← put2 Large mcidx DMA_MC_SYNC_FM1_WORD_0 DMA_MC_SYNC_WORD_1 m;
  m ← lines Frame (mcidx + 2) 240 DMA_MC_SKIP_1280_SOL (fun _ => DMA_MC_SKIP_1280_EOL) m;
  m ← put2 Large (mcidx + 482) DMA_MC_SYNC_VRE_WORD_0 DMA_MC_SYNC_WORD_1 m;
  m ← put2 Large (mcidx + 484) DMA_MC_SYNC_FM1_WORD_0 DMA_MC_SYNC_WORD_1 m;
  m ← lines Frame (mcidx + 486) 240 DMA_MC_SKIP_1280_SOL (fun _ => DMA_MC_SKIP_1280_EOL) m;
  put2 Large (mcidx + 966) DMA_MC_SYNC_VRO_WORD_0_IRQ DMA_MC_SYNC_WORD_1 m.

Definition initialize_frame_mc (fsize : Z) (m : mem) : option mem :=
  if fsize =? NTSC_80_X_60 then
    m ← for_loop NUMFRAMES 0 puny_frame m;
    put2 Puny (NUMFRAMES * PUNYMCSIZE) DMA_MC_JUMP_TO_BEG (u32 (mc_base L)) m
  else if fsize =? NTSC_320_X_240_GS then
    m ← for_loop NUMFRAMES 0
          (frame_320 DMA_MC_SKIP_40_SOL DMA_MC_SKIP_40_EOL DMA_MC_WRITE_80_LINE y8_addr 80 160) m;
    put2 Frame (NUMFRAMES * MCSIZE) DMA_MC_JUMP_TO_BEG (u32 (mc_base L)) m
  else if fsize =? NTSC_320_X_240 then
    m ← for_loop NUMFRAMES 0
          (frame_320 DMA_MC_SKIP_640_SOL DMA_MC_SKIP_640_EOL DMA_MC_WRITE_1280_LINE frame_addr
             320 640) m;
    put2 Frame (NUMFRAMES * MCSIZE) DMA_MC_JUMP_TO_BEG (u32 (mc_base L)) m
  else if fsize =? NTSC_640_X_480 then
    m ← for_loop NUMFRAMES 0 large_frame m;
    put2 Large (NUMFRAMES * LGMCSIZE) DMA_MC_JUMP_TO_BEG (u32 (mc_base L)) m
  else Some m.
End generate.

(** ** What a program says *)

(** The instructions the macros spell: the operation is in the top four bits,
    [SYNC], [WRITE] and [JUMP] have a second word. *)
Inductive instr :=
  | Sync (w v : Z)
  | Write (w addr : Z)
  | Skip (w : Z)
  | Jump (w addr : Z).

Definition opcode (w : Z) : Z := w .>> 28.

Fixpoint decode (ws : list Z) : option (list instr) :=
  match ws with
  | [] => Some []
  | w :: ws =>
      if opcode w =? 2 then p ← decode ws; Some (Skip w :: p)
      else
        match ws with
        | [] => None
        | v :: ws =>
            p ← decode ws;
            if opcode w =? 8 then Some (Sync w v :: p)
            else if opcode w =? 1 then Some (Write w v :: p)
            else if opcode w =? 7 then Some (Jump w v :: p)
            else None
        end
  end.

(** The bytes a line has, and whether the instruction interrupts. *)
Definition count (w : Z) : Z := w .& 0xFFF.
Definition irq (w : Z) : bool := Z.testbit w 24.

Definition first_word (i : instr) : Z :=
  match i with Sync w _ | Write w _ | Skip w | Jump w _ => w end.

(** The addresses of the bytes the [WRITE] instructions fill. *)
Definition bytes_written (p : list instr) : list Z :=
  flat_map (fun i => match i with Write w a => seqZ a (count w) | _ => [] end) p.

(** The number of interrupts of a pass through the program. *)
Definition interrupts (p : list instr) : nat := length (filter (fun i => irq (first_word i) = true) p).

(** ** Proofs: code that emits words one after the other *)

Lemma get_set_eq a l m : get a (set a l m) = l.
Proof. by destruct a, m. Qed.

Lemma get_set_ne a b l m : a <> b -> get a (set b l m) = get a m.
Proof. by destruct a, b, m. Qed.

Lemma set_set a l l' m : set a l (set a l' m) = set a l m.
Proof. by destruct a, m. Qed.

Lemma set_get a m : set a (get a m) m = m.
Proof. by destruct a, m. Qed.

(** [f] puts the words [ws] at index [p] of the array [a] and does nothing
    else. *)
Definition emits (a : arr) (p : nat) (ws : list Z) (f : mem -> option mem) : Prop :=
  forall m, (p + length ws <= length (get a m))%nat ->
    f m = Some (set a (splice (get a m) p ws) m).

Lemma splice_nil {A} (l : list A) p : splice l p [] = l.
Proof. unfold splice. cbn [length app]. by rewrite Nat.add_0_r, take_drop. Qed.

Lemma splice_app {A} (l : list A) p b c :
  (p + length b + length c <= length l)%nat ->
  splice (splice l p b) (p + length b) c = splice l p (b ++ c).
Proof.
  intros H. apply list_eq. intros i.
  rewrite !lookup_splice by (rewrite ?length_splice, ?length_app; lia).
  rewrite length_app.
  repeat match goal with |- context [(?x <? ?y)%nat] => destruct (Nat.ltb_spec x y) end;
    try lia; try done.
  - by rewrite lookup_app_l by lia.
  - rewrite lookup_app_r by lia. f_equal. lia.
Qed.

Lemma splice_insert {A} (l : list A) p (x : A) : (p < length l)%nat -> splice l p [x] = <[p := x]> l.
Proof.
  intros H. apply list_eq. intros i. rewrite lookup_splice by lia. cbn [length].
  destruct (decide (i = p)) as [-> | Hne].
  - rewrite list_lookup_insert_eq by done.
    by rewrite Nat.ltb_irrefl, (proj2 (Nat.ltb_lt p (p + 1))), Nat.sub_diag by lia.
  - rewrite list_lookup_insert_ne by done.
    destruct (Nat.ltb_spec i p), (Nat.ltb_spec i (p + 1)); done || lia.
Qed.

Lemma emits_nil a p : emits a p [] Some.
Proof. intros m _. by rewrite splice_nil, set_get. Qed.

Lemma emits_put a p v : emits a p [v] (put a p v).
Proof.
  intros m H. cbn [length] in H. unfold put. rewrite nset_Some by lia. step_run.
  by rewrite splice_insert by lia.
Qed.

Lemma emits_bind a p q ws vs f g :
  emits a p ws f -> emits a q vs g -> q = (p + length ws)%nat ->
  emits a p (ws ++ vs) (fun m => m ← f m; g m).
Proof.
  intros Hf Hg -> m H. rewrite length_app in H. rewrite Hf by lia. step_run.
  rewrite Hg by (rewrite get_set_eq, length_splice; lia).
  by rewrite get_set_eq, set_set, splice_app by lia.
Qed.

Lemma emits_put2 a p v w : emits a p [v; w] (put2 a p v w).
Proof. eapply (emits_bind a p _ [v] [w]); [apply emits_put.. | done]. Qed.

Lemma emits_for_loop a p n i body ws k :
  (forall j, (i <= j < i + n)%nat -> emits a (p + k * (j - i)) (ws j) (body j)) ->
  (forall j, (i <= j < i + n)%nat -> length (ws j) = k) ->
  emits a p (flat_map ws (seq i n)) (for_loop n i body).
Proof.
  revert p i; induction n as [|n IH]; intros p i Hb Hl.
  - apply emits_nil.
  - cbn [seq flat_map for_loop]. rewrite Nat.add_1_r. eapply emits_bind.
    + replace p with (p + k * (i - i))%nat by lia. apply Hb. lia.
    + apply (IH (p + k)%nat).
      * intros j Hj. replace (p + k + k * (j - S i))%nat with (p + k * (j - i))%nat by nia.
        apply Hb. lia.
      * intros j Hj. apply Hl. lia.
    + f_equal. rewrite Hl; lia.
Qed.

Lemma emits_lines a p n v w :
  emits a p (flat_map (fun k => [v; w k]) (seq 0 n)) (lines a p n v w).
Proof.
  apply (emits_for_loop a p n 0 _ _ 2); [|done].
  intros j Hj. rewrite Nat.sub_0_r. apply emits_put2.
Qed.

(** ** Proofs: reading a program back *)

(** The words of an instruction. *)
Definition encode (i : instr) : list Z :=
  match i with Sync w v | Write w v | Jump w v => [w; v] | Skip w => [w] end.

Definition well_formed (i : instr) : Prop :=
  opcode (first_word i) = match i with Sync _ _ => 8 | Write _ _ => 1 | Skip _ => 2 | Jump _ _ => 7 end.

Lemma decode_encode p : Forall well_formed p -> decode (flat_map encode p) = Some p.
Proof.
  induction 1 as [|i p Hi _ IH]; [done|]. unfold well_formed in Hi.
  destruct i; cbn [first_word] in Hi; cbn [flat_map encode app decode]; rewrite Hi; cbn [Z.eqb];
    by rewrite IH.
Qed.

Lemma flat_map_map {A B C} (f : A -> B) (g : B -> list C) l :
  flat_map g (map f l) = flat_map (fun x => g (f x)) l.
Proof. induction l as [|x l IH]; [done|]. cbn. by rewrite IH. Qed.

Lemma flat_map_flat_map {A B C} (f : A -> list B) (g : B -> list C) l :
  flat_map g (flat_map f l) = flat_map (fun x => flat_map g (f x)) l.
Proof. induction l as [|x l IH]; [done|]. cbn. by rewrite flat_map_app, IH. Qed.

(** ** Programs *)

(** A frame: a field of odd lines and a field of even lines, an interrupt at
    the end. *)
Definition frame_program (odd even : list instr) : list instr :=
  [Sync DMA_MC_SYNC_FM1_WORD_0 DMA_MC_SYNC_WORD_1] ++ odd ++
  [Sync DMA_MC_SYNC_VRE_WORD_0 DMA_MC_SYNC_WORD_1; Sync DMA_MC_SYNC_FM1_WORD_0 DMA_MC_SYNC_WORD_1]
  ++ even ++ [Sync DMA_MC_SYNC_VRO_WORD_0_IRQ DMA_MC_SYNC_WORD_1].

(** The lines of a field, written every [stride] words from [first] on. *)
Definition write_field (n : nat) (w : Z) (addr : nat -> Z) (first stride : nat) : list instr :=
  map (fun k => Write w (addr (first + k * stride)%nat)) (seq 0 n).

Definition skip_field (n : nat) (v w : Z) : list instr :=
  flat_map (fun _ => [Skip v; Skip w]) (seq 0 n).

(** The program of two frames of 320x240 pixels. *)
Definition program_320 (L : layout) : list instr :=
  flat_map (fun i =>
    frame_program (write_field 120 DMA_MC_WRITE_1280_LINE (frame_addr L i) 320 640)
                  (write_field 120 DMA_MC_WRITE_1280_LINE (frame_addr L i) 0 640)) (seq 0 NUMFRAMES)
  ++ [Jump DMA_MC_JUMP_TO_BEG (u32 (mc_base L))].

Definition program_gs (L : layout) : list instr :=
  flat_map (fun i =>
    frame_program (write_field 120 DMA_MC_WRITE_80_LINE (y8_addr L i) 80 160)
                  (write_field 120 DMA_MC_WRITE_80_LINE (y8_addr L i) 0 160)) (seq 0 NUMFRAMES)
  ++ [Jump DMA_MC_JUMP_TO_BEG (u32 (mc_base L))].

Definition program_skip (L : layout) (v w : Z) : list instr :=
  flat_map (fun _ => frame_program (skip_field 120 v w) (skip_field 120 v w)) (seq 0 NUMFRAMES)
  ++ [Jump DMA_MC_JUMP_TO_BEG (u32 (mc_base L))].

Definition program_test (L : layout) : list instr :=
  frame_program (skip_field 240 DMA_MC_SKIP_1280_SOL DMA_MC_SKIP_1280_EOL)
                (skip_field 240 DMA_MC_SKIP_1280_SOL DMA_MC_SKIP_1280_EOL)
  ++ [Jump DMA_MC_JUMP_TO_BEG (u32 (test_base L))].

Lemma wf_frame odd even :
  Forall well_formed odd -> Forall well_formed even -> Forall well_formed (frame_program odd even).
Proof. intros. unfold frame_program. rewrite !Forall_app. repeat split; try done; by repeat constructor. Qed.

Lemma wf_write_field n w addr first stride :
  opcode w = 1 -> Forall well_formed (write_field n w addr first stride).
Proof. intros H. unfold write_field. rewrite Forall_map. apply Forall_true. intros k. exact H. Qed.

Lemma wf_skip_field n v w : opcode v = 2 -> opcode w = 2 -> Forall well_formed (skip_field n v w).
Proof.
  intros Hv Hw. unfold skip_field. induction (seq 0 n); [constructor|]. by repeat constructor.
Qed.

Lemma wf_flat_map (f : nat -> list instr) l :
  (forall i, Forall well_formed (f i)) -> Forall well_formed (flat_map f l).
Proof. intros H. induction l as [|i l IH]; [constructor|]. cbn. by rewrite Forall_app. Qed.

Lemma encode_write_field n w addr first stride :
  flat_map encode (write_field n w addr first stride)
  = flat_map (fun k => [w; addr (first + k * stride)%nat]) (seq 0 n).
Proof. unfold write_field. by rewrite flat_map_map. Qed.

Lemma encode_skip_field n v w :
  flat_map encode (skip_field n v w) = flat_map (fun _ => [v; w]) (seq 0 n).
Proof. unfold skip_field. induction (seq 0 n) as [|k l IH]; [done|]. cbn. by rewrite IH. Qed.

(** The words of a frame, as the code puts them. *)
Lemma encode_frame odd even :
  flat_map encode (frame_program odd even)
  = [DMA_MC_SYNC_FM1_WORD_0; DMA_MC_SYNC_WORD_1] ++ flat_map encode odd ++
    [DMA_MC_SYNC_VRE_WORD_0; DMA_MC_SYNC_WORD_1] ++ [DMA_MC_SYNC_FM1_WORD_0; DMA_MC_SYNC_WORD_1]
    ++ flat_map encode even ++ [DMA_MC_SYNC_VRO_WORD_0_IRQ; DMA_MC_SYNC_WORD_1].
Proof. unfold frame_program. by rewrite !flat_map_app. Qed.

Lemma length_field n (v : Z) (w : nat -> Z) : length (flat_map (fun k => [v; w k]) (seq 0 n)) = (2 * n)%nat.
Proof.
  enough (H : forall i, length (flat_map (fun k => [v; w k]) (seq i n)) = (2 * n)%nat) by apply H.
  induction n as [|n IH]; intros i; [done|]. cbn [seq flat_map app length]. rewrite IH. lia.
Qed.

(** Compose the words of a sequence of statements. *)
Ltac emit1 := first [apply emits_put2 | apply emits_lines].
Ltac emit :=
  lazymatch goal with
  | |- emits _ _ (_ ++ _) _ =>
      eapply emits_bind; [emit1 | emit | rewrite ?length_field; cbn [length]; lia]
  | _ => emit1
  end.

(** What the branches for 320x240 put in [dma_microcode]. *)
Lemma emits_frame_320 skip v w write addr odd stride i :
  emits Frame (MCSIZE * i)
    (flat_map encode
       (if skip : bool then frame_program (skip_field 120 v w) (skip_field 120 v w)
        else frame_program (write_field 120 write (addr i) odd stride)
               (write_field 120 write (addr i) 0 stride)))
    (frame_320 skip v w write addr odd stride i).
Proof.
  unfold frame_320. destruct skip; cbv beta iota zeta; rewrite encode_frame, ?encode_skip_field, ?encode_write_field;
    emit.
Qed.

(** The program a call for 320x240 leaves in [dma_microcode]. *)
Lemma generate_320 L skip v w write addr odd stride m :
  sized m ->
  let p := flat_map (fun i =>
        if skip : bool then frame_program (skip_field 120 v w) (skip_field 120 v w)
        else frame_program (write_field 120 write (addr i) odd stride)
               (write_field 120 write (addr i) 0 stride)) (seq 0 NUMFRAMES)
      ++ [Jump DMA_MC_JUMP_TO_BEG (u32 (mc_base L))] in
  (m ← for_loop NUMFRAMES 0 (frame_320 skip v w write addr odd stride) m;
   put2 Frame (NUMFRAMES * MCSIZE) DMA_MC_JUMP_TO_BEG (u32 (mc_base L)) m)
  = Some (set Frame (flat_map encode p) m).
Proof.
  intros (_ & _ & Hl & _) p. set (ws := fun i => flat_map encode
    (if skip then frame_program (skip_field 120 v w) (skip_field 120 v w)
     else frame_program (write_field 120 write (addr i) odd stride)
            (write_field 120 write (addr i) 0 stride))).
  assert (Hws : forall i, length (ws i) = MCSIZE).
  { intros i. subst ws; cbv beta. destruct skip;
      rewrite encode_frame, !length_app, ?encode_skip_field, ?encode_write_field, !length_field;
      reflexivity. }
  assert (Hfs : length (flat_map ws (seq 0 NUMFRAMES)) = (NUMFRAMES * MCSIZE)%nat).
  { unfold NUMFRAMES. cbn [seq flat_map]. by rewrite !length_app, !Hws. }
  assert (He : emits Frame 0 (flat_map ws (seq 0 NUMFRAMES)
                              ++ [DMA_MC_JUMP_TO_BEG; u32 (mc_base L)])
    (fun m => m ← for_loop NUMFRAMES 0 (frame_320 skip v w write addr odd stride) m;
              put2 Frame (NUMFRAMES * MCSIZE) DMA_MC_JUMP_TO_BEG (u32 (mc_base L)) m)).
  { eapply emits_bind; [| apply emits_put2 | by rewrite Hfs].
    apply (emits_for_loop Frame 0 NUMFRAMES 0 _ ws MCSIZE); [|done].
    intros j _. rewrite Nat.sub_0_r. apply emits_frame_320. }
  rewrite He by (rewrite length_app, Hfs; cbn [get length]; rewrite Hl; lia).
  do 2 f_equal. subst p. rewrite flat_map_app, flat_map_flat_map. cbn [get].
  unfold splice. rewrite take_0, drop_ge, app_nil_r; [done|].
  rewrite length_app, Hfs, Hl. cbn [length]. lia.
Qed.

Lemma reads_back a p m :
  Forall well_formed p -> decode (get a (set a (flat_map encode p) m)) = Some p.
Proof. intros Hp. rewrite get_set_eq. by apply decode_encode. Qed.

Lemma wf_frames (f : nat -> list instr) n addr :
  (forall i, Forall well_formed (f i)) ->
  Forall well_formed (flat_map f (seq 0 n) ++ [Jump DMA_MC_JUMP_TO_BEG addr]).
Proof. intros H. rewrite Forall_app. split; [by apply wf_flat_map | by repeat constructor]. Qed.

Lemma microcode_320_loaded L m :
  sized m ->
  exists m', initialize_frame_mc L false NTSC_320_X_240 m = Some m' /\
    decode (dma_microcode m') = Some (program_320 L) /\
    (forall a, a <> Frame -> get a m' = get a m).
Proof.
  intros Hm. exists (set Frame (flat_map encode (program_320 L)) m).
  split; [exact (generate_320 L false _ _ _ _ _ _ m Hm) |]. split.
  - apply (reads_back Frame), wf_frames. intros i. by apply wf_frame; apply wf_write_field.
  - intros a Ha. by apply get_set_ne.
Qed.

(** Called for 320x240 the driver leaves a program in [dma_microcode] that reads back as: for each of the two frames synchronise, write the 120 odd lines of 1280 bytes, synchronise, write the 120 even lines, interrupt; then jump to the beginning.  No other array changes and no index leaves an array. *)
Theorem microcode_320_program L m :
  sized m ->
  exists m', initialize_frame_mc L false NTSC_320_X_240 m = Some m' /\
    decode (dma_microcode m') = Some (program_320 L) /\
    (forall a, a <> Frame -> get a m' = get a m).
Proof. apply microcode_320_loaded. Qed.

(** With [replace_write_with_skip] the lines are skipped instead, and in the
    test program too. *)
Theorem microcode_320_skip L m :
  sized m ->
  exists m', initialize_frame_mc L true NTSC_320_X_240 m = Some m' /\
    decode (dma_microcode m') = Some (program_skip L DMA_MC_SKIP_640_SOL DMA_MC_SKIP_640_EOL).
Proof.
  intros Hm. exists (set Frame (flat_map encode (program_skip L DMA_MC_SKIP_640_SOL DMA_MC_SKIP_640_EOL)) m).
  split; [exact (generate_320 L true _ _ DMA_MC_WRITE_1280_LINE (frame_addr L) 320 640 m Hm) |].
  apply (reads_back Frame), wf_frames. intros i. by apply wf_frame; apply wf_skip_field.
Qed.

Theorem microcode_gs_program L m :
  sized m ->
  exists m', initialize_frame_mc L false NTSC_320_X_240_GS m = Some m' /\
    decode (dma_microcode m') = Some (program_gs L).
Proof.
  intros Hm. exists (set Frame (flat_map encode (program_gs L)) m).
  split; [exact (generate_320 L false _ _ _ _ _ _ m Hm) |].
  apply (reads_back Frame), wf_frames. intros i. by apply wf_frame; apply wf_write_field.
Qed.

Theorem microcode_test_program L m :
  sized m ->
  exists m', initialize_test_mc L m = Some m' /\
    decode (dma_test_microcode m') = Some (program_test L).
Proof.
  intros (Hl & _). exists (set Test (flat_map encode (program_test L)) m). split.
  - assert (He : emits Test 0 (flat_map encode (program_test L)) (initialize_test_mc L)).
    { unfold program_test. rewrite flat_map_app, encode_frame, encode_skip_field, <- !app_assoc.
      unfold initialize_test_mc. emit. }
    assert (Hp : length (flat_map encode (program_test L)) = TESTMCSIZE).
    { unfold program_test. rewrite flat_map_app, encode_frame, encode_skip_field.
      rewrite !length_app, !length_field. reflexivity. }
    rewrite He by (rewrite Hp; cbn [get]; rewrite Hl; lia).
    unfold splice. rewrite take_0, Hp, drop_ge, app_nil_r; [done|].
    cbn [get]. rewrite Hl. lia.
  - apply (reads_back Test). unfold program_test. rewrite Forall_app.
    split; [by apply wf_frame; apply wf_skip_field | by repeat constructor].
Qed.

(** ** Proofs: what the programs write *)

Lemma interleave {A} (f : nat -> list A) n :
  flat_map (fun k => f (2 * k + 1)%nat) (seq 0 n) ++ flat_map (fun k => f (2 * k)%nat) (seq 0 n)
  ≡ₚ flat_map f (seq 0 (2 * n)).
Proof.
  induction n as [|n IH]; [done|]. replace (2 * S n)%nat with (S (S (2 * n))) by lia.
  rewrite !seq_S, !flat_map_app. cbn [Nat.add flat_map]. rewrite !app_nil_r, <- IH.
  replace (S (2 * n)) with (2 * n + 1)%nat by lia. solve_Permutation.
Qed.

Lemma flat_map_ext_seq {B} (f g : nat -> list B) i n :
  (forall k, (i <= k < i + n)%nat -> f k = g k) -> flat_map f (seq i n) = flat_map g (seq i n).
Proof.
  revert i; induction n as [|n IH]; intros i H; [done|]. cbn [seq flat_map].
  rewrite H, IH; [done | intros; apply H; lia | lia].
Qed.

Lemma flat_map_rows b (n : nat) (w : Z) :
  0 <= w -> flat_map (fun r => seqZ (b + w * Z.of_nat r) w) (seq 0 n) = seqZ b (w * Z.of_nat n).
Proof.
  intros Hw. induction n as [|n IH]; [by rewrite Z.mul_0_r|].
  rewrite seq_S, flat_map_app, IH. cbn [Nat.add flat_map]. rewrite app_nil_r.
  replace (w * Z.of_nat (S n)) with (w * Z.of_nat n + w) by lia. by rewrite seqZ_app by lia.
Qed.

Lemma bytes_written_app p q : bytes_written (p ++ q) = bytes_written p ++ bytes_written q.
Proof. apply flat_map_app. Qed.

Lemma bytes_written_field n w addr first stride :
  bytes_written (write_field n w addr first stride)
  = flat_map (fun k => seqZ (addr (first + k * stride)%nat) (count w)) (seq 0 n).
Proof. unfold bytes_written, write_field. by rewrite flat_map_map. Qed.

Lemma bytes_written_frame odd even :
  bytes_written (frame_program odd even) = bytes_written odd ++ bytes_written even.
Proof. unfold frame_program. rewrite !bytes_written_app. cbn. by rewrite app_nil_r. Qed.

(** The two fields of a frame in 1280-byte lines cover it. *)
Lemma frame_tiles b (addr : nat -> Z) :
  (forall n, Z.of_nat n < 76800 -> addr n = b + 4 * Z.of_nat n) ->
  bytes_written (frame_program (write_field 120 DMA_MC_WRITE_1280_LINE addr 320 640)
                               (write_field 120 DMA_MC_WRITE_1280_LINE addr 0 640))
  ≡ₚ seqZ b 307200.
Proof.
  intros Ha. rewrite bytes_written_frame, !bytes_written_field.
  change (count DMA_MC_WRITE_1280_LINE) with 1280.
  rewrite (flat_map_ext_seq _ (fun k => seqZ (b + 1280 * Z.of_nat (2 * k + 1)) 1280) 0 120).
  2: { intros k Hk. rewrite Ha by lia. f_equal. lia. }
  rewrite (flat_map_ext_seq (fun k => seqZ (addr (0 + k * 640)%nat) 1280)
    (fun k => seqZ (b + 1280 * Z.of_nat (2 * k)) 1280) 0 120).
  2: { intros k Hk. rewrite Ha by lia. f_equal. lia. }
  rewrite (interleave (fun r => seqZ (b + 1280 * Z.of_nat r) 1280)).
  by rewrite flat_map_rows by lia.
Qed.

Lemma interrupts_app p q : interrupts (p ++ q) = (interrupts p + interrupts q)%nat.
Proof. unfold interrupts. by rewrite list.filter_app, length_app. Qed.

Lemma interrupts_none p : Forall (fun i => irq (first_word i) = false) p -> interrupts p = 0%nat.
Proof.
  unfold interrupts. induction 1 as [|i p Hi _ IH]; [done|].
  rewrite filter_cons_False; [done | by rewrite Hi].
Qed.

Lemma interrupts_frame n w addr a b s :
  irq w = false ->
  interrupts (frame_program (write_field n w addr a s) (write_field n w addr b s)) = 1%nat.
Proof.
  intros Hw. assert (H : forall f, interrupts (write_field n w addr f s) = 0%nat).
  { intros f. apply interrupts_none. unfold write_field. rewrite Forall_map.
    apply Forall_true. intros k. exact Hw. }
  unfold frame_program. rewrite !interrupts_app, !H. reflexivity.
Qed.

(** C24: one pass of the 320x240 program fills every byte of the two frame buffers exactly once and no other byte, and interrupts exactly once a frame, as long as the buffers lie below 4 GiB. *)
Theorem microcode_320_tiles L m :
  sized m -> 0 <= frame_base L -> frame_base L + 614400 <= 2 ^ 32 ->
  exists m' p, initialize_frame_mc L false NTSC_320_X_240 m = Some m' /\
    decode (dma_microcode m') = Some p /\
    bytes_written p ≡ₚ seqZ (frame_base L) 614400 /\ interrupts p = NUMFRAMES.
Proof.
  intros Hm Hb Hl. destruct (microcode_320_loaded L m Hm) as (m' & Hi & Hd & _).
  exists m', (program_320 L). split; [exact Hi |]. split; [exact Hd |]. split.
  - unfold program_320, NUMFRAMES. cbn [seq flat_map].
    rewrite !bytes_written_app, app_nil_r.
    rewrite (frame_tiles (frame_base L)), (frame_tiles (frame_base L + 307200)).
    + cbn [bytes_written flat_map]. rewrite app_nil_r.
      replace 614400 with (307200 + 307200) by lia. rewrite seqZ_app by lia.
      apply Permutation_refl.
    + intros n Hn. unfold frame_addr, u32. rewrite wrap_small by (unfold in_range; lia). lia.
    + intros n Hn. unfold frame_addr, u32. rewrite wrap_small by (unfold in_range; lia). lia.
  - unfold program_320, NUMFRAMES. cbn [seq flat_map].
    rewrite !interrupts_app, !interrupts_frame by reflexivity. reflexivity.
Qed.

(** ** Proofs: the other modes *)

Lemma put_length a b i v m m' : put a i v m = Some m' -> length (get b m') = length (get b m).
Proof.
  unfold put, nset. destruct (_ <? _)%nat; [|done]. cbn. intros [= <-].
  destruct a, b, m; cbn; by rewrite ?length_insert.
Qed.

Lemma put2_length a b i v w m m' : put2 a i v w m = Some m' -> length (get b m') = length (get b m).
Proof.
  unfold put2. destruct (put a i v m) as [m1|] eqn:H1; [|done]. cbn. intros H2.
  by rewrite (put_length _ _ _ _ _ _ H2), (put_length _ _ _ _ _ _ H1).
Qed.

Lemma lines_length a b first n v w m m' :
  lines a first n v w m = Some m' -> length (get b m') = length (get b m).
Proof.
  unfold lines. enough (H : forall k m,
    for_loop n k (fun k m => put2 a (first + 2 * k) v (w k) m) m = Some m' ->
    length (get b m') = length (get b m)) by apply H.
  clear m; induction n as [|n IH]; intros k m; cbn [for_loop].
  - by intros [= ->].
  - destruct (put2 a _ v (w k) m) as [m1|] eqn:H1; [|done]. intros H2.
    by rewrite (IH _ _ H2), (put2_length _ _ _ _ _ _ _ H1).
Qed.

Lemma put_overrun a i v m : (length (get a m) <= i)%nat -> put a i v m = None.
Proof. intros H. unfold put, nset. by rewrite (proj2 (Nat.ltb_ge _ _) H). Qed.

(** Lines that leave their array. *)
Lemma lines_overrun a first n v w m :
  (0 < n)%nat -> (length (get a m) < first + 2 * n)%nat -> lines a first n v w m = None.
Proof.
  intros Hn Hl. unfold lines.
  enough (H : forall k m, (0 < n)%nat -> (length (get a m) < first + 2 * (k + n))%nat ->
    for_loop n k (fun k m => put2 a (first + 2 * k) v (w k) m) m = None) by (apply H; lia).
  clear m Hn Hl. induction n as [|n IH]; intros k m Hn Hl; [lia|]. cbn [for_loop].
  destruct (put2 a _ v (w k) m) as [m1|] eqn:H1; [|done]. step_run.
  destruct (decide (n = 0%nat)) as [-> | Hne].
  - exfalso. unfold put2 in H1. destruct (put a (first + 2 * k) v m) as [m0|] eqn:H0; [|done].
    cbn in H1. rewrite put_overrun in H1; [done|].
    rewrite (put_length _ _ _ _ _ _ H0). lia.
  - apply IH; [lia|]. rewrite (put2_length _ _ _ _ _ _ _ H1). lia.
Qed.

Lemma large_frame_length i m m' : large_frame i m = Some m' -> length (get Frame m') = length (get Frame m).
Proof.
  unfold large_frame. cbv zeta.
  repeat match goal with
  | |- context [put2 ?a ?i ?v ?w ?m] =>
      let H := fresh in destruct (put2 a i v w m) eqn:H; cbn [mbind option_bind]; [|done];
      apply (put2_length _ Frame) in H
  | |- context [lines ?a ?i ?n ?v ?w ?m] =>
      let H := fresh in destruct (lines a i n v w m) eqn:H; cbn [mbind option_bind]; [|done];
      apply (lines_length _ Frame) in H
  end.
  intros [= <-]. congruence.
Qed.

(** For 640x480 the driver writes the lines of the second frame past the end of [dma_microcode], whatever the arrays hold: they belong in [dma_large_microcode]. *)
Theorem microcode_640_overruns L skip m :
  sized m -> initialize_frame_mc L skip NTSC_640_X_480 m = None.
Proof.
  intros (_ & _ & Hl & _). unfold initialize_frame_mc. cbn [Z.eqb NTSC_640_X_480].
  change (0 =? NTSC_80_X_60) with false. change (0 =? NTSC_320_X_240_GS) with false.
  change (0 =? NTSC_320_X_240) with false. cbv iota.
  unfold NUMFRAMES. cbn [for_loop].
  destruct (large_frame 0 m) as [m1|] eqn:H1; [|done]. step_run.
  apply large_frame_length in H1. unfold large_frame at 1. cbv zeta.
  destruct (put2 Large _ _ _ m1) as [m2|] eqn:H2; [|done]. step_run.
  apply (put2_length _ Frame) in H2.
  rewrite lines_overrun; [done | lia |].
  rewrite H2, H1. change (get Frame m) with (dma_microcode m). rewrite Hl. cbn. lia.
Qed.

(** In grey, a line of 320 one-byte pixels is written with an instruction for 80
    bytes: a pass fills 38400 of the 153600 bytes of the two buffers. *)
Theorem microcode_gs_quarter L : Z.of_nat (length (bytes_written (program_gs L))) = 38400.
Proof.
  assert (Hf : forall n addr first stride,
    length (bytes_written (write_field n DMA_MC_WRITE_80_LINE addr first stride)) = (80 * n)%nat).
  { intros n addr first stride. rewrite bytes_written_field.
    rewrite (flat_map_constant_length _ (c := 80%nat)), length_seq; [lia|].
    intros k _. by rewrite length_seqZ. }
  unfold program_gs, NUMFRAMES. cbn [seq flat_map].
  rewrite !bytes_written_app, !bytes_written_frame, !length_app, !Hf. reflexivity.
Qed.

(** ** Examples *)

Definition sample_layout : layout :=
  {| test_base := 0x100000; mc_base := 0x110000; frame_base := 0x200000; y8_base := 0x300000;
     puny_base := 0x400000 |}.

(** The arrays as the program starts. *)
Definition zeroed : mem :=
  {| dma_test_microcode := replicate 970 0; dma_puny_microcode := replicate 254 0;
     dma_microcode := replicate 978 0; dma_large_microcode := replicate 1938 0 |}.

Lemma zeroed_sized : sized zeroed.
Proof. by repeat split. Qed.

(** For 80x60 the even lines of a frame are missing from its program and are
    found in [dma_microcode]; only 15 of the 30 lines of a field are put, and
    the words behind them stay 0, which is no instruction; the jump leads into
    [dma_microcode]. *)
Example microcode_80_60_incomplete :
  match initialize_frame_mc sample_layout false NTSC_80_X_60 zeroed with
  | Some m' =>
      decode (dma_puny_microcode m') = None /\
      sub (dma_puny_microcode m') 36 30 = replicate 30 0 /\
      sub (dma_puny_microcode m') 68 58 = replicate 58 0 /\
      sub (dma_microcode m') 36 2 = [DMA_MC_WRITE_80_LINE; 0x400000] /\
      sub (dma_puny_microcode m') 252 2 = [DMA_MC_JUMP_TO_BEG; 0x110000]
  | None => False
  end.
Proof. vm_compute. by repeat split. Qed.

Lemma microcode_320_program_witness :
  sized zeroed /\
  exists m', initialize_frame_mc sample_layout false NTSC_320_X_240 zeroed = Some m' /\
    decode (dma_microcode m') = Some (program_320 sample_layout) /\
    (forall a, a <> Frame -> get a m' = get a zeroed).
Proof.
  split; [exact zeroed_sized |]. exact (microcode_320_program sample_layout zeroed zeroed_sized).
Defined.

Lemma microcode_320_tiles_witness :
  exists m' p, initialize_frame_mc sample_layout false NTSC_320_X_240 zeroed = Some m' /\
    decode (dma_microcode m') = Some p /\
    bytes_written p ≡ₚ seqZ 0x200000 614400 /\ interrupts p = 2%nat.
Proof.
  apply (microcode_320_tiles sample_layout zeroed zeroed_sized); cbn [frame_base sample_layout]; lia.
Defined.

Lemma microcode_640_overruns_witness :
  sized zeroed /\ initialize_frame_mc sample_layout false NTSC_640_X_480 zeroed = None.
Proof.
  split; [exact zeroed_sized |]. exact (microcode_640_overruns sample_layout false zeroed zeroed_sized).
Defined.
