(* ===== verification/BtVideo.v ===== *)
(** * Bt878 driver: VxWorks-Drivers/Bt878_Video/btvid3/btvid3.c and BTVID.h

    The registers of the video decoder, the functions that program them, the
    interrupt handler, the task that hands frames to the client, and the order
    in which a mode is activated.  Functions that touch registers are programs
    of reads and writes; a device is anything that answers them. *)
From Stdlib Require Import String.
From stdpp Require Import option list sorting relations.
From S2P Require Import Prelude CString Io BtMicrocode.
#[local] Open Scope Z_scope.
#[local] Open Scope c_scope.

(** ** Registers *)

Inductive reg :=
  | DSTATUS_REG                 (* the base address itself *)
  | INPUT_REG | TEMP_DECIMATION_REG | RESET_REG | TIMING_GEN_REG
  | HSCALE_EVEN_MSB_REG | HSCALE_ODD_MSB_REG | HSCALE_EVEN_LSB_REG | HSCALE_ODD_LSB_REG
  | VSCALE_EVEN_MSB_REG | VSCALE_ODD_MSB_REG | VSCALE_EVEN_LSB_REG | VSCALE_ODD_LSB_REG
  | COLOR_FORMAT_REG | BRIGHTNESS_REG | CONTRAST_REG
  | INT_STATUS_REG | INT_ENABLE_REG
  | DMA_CTL_REG | DMA_RISC_START_ADDR_REG | DMA_RISC_PC_REG
  | CAPTURE_CTL_REG | VBI_PACKET_SIZE_LO_REG | VBI_PACKET_SIZE_HI_REG | CAPTURE_CNT_REG
  | MSB_CROP_EVEN_REG | MSB_CROP_ODD_REG
  | VDELAY_LO_EVEN_REG | VDELAY_LO_ODD_REG | VACTIVE_LO_EVEN_REG | VACTIVE_LO_ODD_REG
  | HDELAY_LO_EVEN_REG | HDELAY_LO_ODD_REG | HACTIVE_LO_EVEN_REG | HACTIVE_LO_ODD_REG.

#[global] Instance reg_eq_dec : EqDecision reg.
Proof. solve_decision. Defined.

Definition BTVID_MMIO_ADDR : Z := 0x04000000.

Definition reg_addr (r : reg) : Z :=
  BTVID_MMIO_ADDR .|
  match r with
  | DSTATUS_REG => 0x0
  | TIMING_GEN_REG => 0x84 | RESET_REG => 0x7C | INPUT_REG => 0x04
  | HSCALE_EVEN_MSB_REG => 0x20 | HSCALE_ODD_MSB_REG => 0xA0
  | HSCALE_EVEN_LSB_REG => 0x24 | HSCALE_ODD_LSB_REG => 0xA4
  | VSCALE_EVEN_MSB_REG => 0x4C | VSCALE_ODD_MSB_REG => 0xCC
  | VSCALE_EVEN_LSB_REG => 0x50 | VSCALE_ODD_LSB_REG => 0xD0
  | COLOR_FORMAT_REG => 0xD4 | BRIGHTNESS_REG => 0x28 | CONTRAST_REG => 0x30
  | INT_STATUS_REG => 0x100 | INT_ENABLE_REG => 0x104
  | DMA_CTL_REG => 0x10C | DMA_RISC_START_ADDR_REG => 0x114 | DMA_RISC_PC_REG => 0x120
  | CAPTURE_CTL_REG => 0xDC | VBI_PACKET_SIZE_LO_REG => 0xE0 | VBI_PACKET_SIZE_HI_REG => 0xE4
  | CAPTURE_CNT_REG => 0xE8 | TEMP_DECIMATION_REG => 0x08
  | MSB_CROP_EVEN_REG => 0x0C | MSB_CROP_ODD_REG => 0x8C
  | VDELAY_LO_EVEN_REG => 0x90 | VDELAY_LO_ODD_REG => 0x10
  | VACTIVE_LO_EVEN_REG => 0x14 | VACTIVE_LO_ODD_REG => 0x94
  | HDELAY_LO_EVEN_REG => 0x18 | HDELAY_LO_ODD_REG => 0x98
  | HACTIVE_LO_EVEN_REG => 0x1C | HACTIVE_LO_ODD_REG => 0x9C
  end.

(** Programs that access registers. *)
Abbreviation io := (io reg).

(** ** Programming the decoder *)

Definition MYSTERY_INT : Z := 0x00400000.
Definition SCERR_INT : Z := 0x00080000.
Definition OCERR_INT : Z := 0x00040000.
Definition PABORT_INT : Z := 0x00020000.
Definition RIPERR_INT : Z := 0x00010000.
Definition PPERR_INT : Z := 0x00008000.
Definition FDSR_INT : Z := 0x00004000.
Definition FTRGT_INT : Z := 0x00002000.
Definition FBUS_INT : Z := 0x00001000.
Definition RISCI_INT : Z := 0x00000800.
Definition VPRES_INT : Z := 0x00000020.

Definition int_errors_to_check : Z :=
  SCERR_INT .| OCERR_INT .| PABORT_INT .| RIPERR_INT .| PPERR_INT .| FDSR_INT .| FTRGT_INT
  .| FBUS_INT .| MYSTERY_INT.

(** The writes of [configure_ntsc] for a mode: crop, active, delay and scale of
    both fields, and the colour format. *)
Definition mode_writes (crop hactive vdelay hdelay hscale_msb hscale_lsb vscale_msb color : Z)
    : list (reg * Z) :=
  [(MSB_CROP_EVEN_REG, crop); (MSB_CROP_ODD_REG, crop);
   (HACTIVE_LO_EVEN_REG, hactive); (HACTIVE_LO_ODD_REG, hactive);
   (VACTIVE_LO_EVEN_REG, 0xE0); (VACTIVE_LO_ODD_REG, 0xE0);
   (VDELAY_LO_EVEN_REG, vdelay); (VDELAY_LO_ODD_REG, vdelay);
   (HDELAY_LO_EVEN_REG, hdelay); (HDELAY_LO_ODD_REG, hdelay);
   (HSCALE_EVEN_MSB_REG, hscale_msb); (HSCALE_ODD_MSB_REG, hscale_msb);
   (HSCALE_EVEN_LSB_REG, hscale_lsb); (HSCALE_ODD_LSB_REG, hscale_lsb);
   (VSCALE_EVEN_MSB_REG, vscale_msb); (VSCALE_ODD_MSB_REG, vscale_msb);
   (VSCALE_EVEN_LSB_REG, 0); (VSCALE_ODD_LSB_REG, 0);
   (COLOR_FORMAT_REG, color)].

(** [configure_ntsc]; [acq_type] is the mode the task copies frames for. *)
Definition configure_ntsc (fsize acq_type : Z) : io Z :=
  _ ← write RESET_REG 0x1;
  _ ← read TIMING_GEN_REG;
  _ ← write TIMING_GEN_REG 0;
  acq_type ←
    (if fsize =? NTSC_320_X_240 then
       _ ← write_all (mode_writes 0x11 0x40 0x16 0x3C 0x15 0x55 0x7E 0x00); Pure NTSC_320_X_240
     else Pure acq_type);
  acq_type ←
    (if fsize =? NTSC_320_X_240_GS then
       _ ← write_all (mode_writes 0x11 0x2C 0x16 0x46 0x15 0x55 0x7E 0x66);
       Pure NTSC_320_X_240_GS
     else if fsize =? NTSC_80_X_60 then
       _ ← write_all (mode_writes 0x10 0x50 0x16 0x10 0x86 0x1A 0x72 0x66); Pure acq_type
     else if fsize =? NTSC_640_X_480 then
       _ ← write_all (mode_writes 0x12 0x80 0x16 0x78 0x02 0xAA 0x60 0x00); Pure acq_type
     else Pure acq_type);
  _ ← write INT_ENABLE_REG (int_errors_to_check .| RISCI_INT .| VPRES_INT);
  _ ← write TEMP_DECIMATION_REG 0;
  _ ← write TEMP_DECIMATION_REG 0;
  Pure acq_type.

Definition decimate_frames (count : Z) : io Z :=
  if (60 <? count) || (count <? 0) then Pure (-1)
  else
    _ ← write TEMP_DECIMATION_REG 0;
    _ ← write TEMP_DECIMATION_REG count;
    Pure count.

Definition disable_capture : io unit := write CAPTURE_CTL_REG 0.
Definition vdfc_capture : io unit := write CAPTURE_CTL_REG 0x13.
Definition enable_capture : io unit := vdfc_capture.

(** What [set_brightness] and [set_contrast] print of the register, and the
    value they write. *)
Definition level_was (h : Z) : Z := if h <? 0x7f then h + 0x80 else h - 0x7f.

Definition level_register (b : Z) : Z :=
  let b := if 255 <? b then 255 else if b <? 0 then 0 else b in
  let bright := b + 0x80 in
  if 0xFF <? bright then bright - 0xFF else bright.

(** The result is the level printed. *)
Definition set_brightness (b : Z) : io Z :=
  hb ← read BRIGHTNESS_REG;
  _ ← write BRIGHTNESS_REG (level_register b);
  Pure (level_was hb).

Definition set_contrast (c : Z) : io Z :=
  hc ← read CONTRAST_REG;
  _ ← write CONTRAST_REG (level_register c);
  Pure (level_was hc).

Definition sw_reset : io unit := write RESET_REG 0x1.

Definition toggle_fifo (t : bool) : io unit :=
  testval ← read DMA_CTL_REG;
  write DMA_CTL_REG (if t then testval .| 0x1 else testval .& 0xFFFFFFFE).

Definition toggle_dma (t : bool) : io unit :=
  testval ← read DMA_CTL_REG;
  write DMA_CTL_REG (if t then testval .| 0x2 else testval .& 0xFFFFFFFD).

Definition start_acq : io unit := write DMA_CTL_REG 0xF.
Definition halt_acq : io unit := write DMA_CTL_REG 0.

Definition set_mux (mux : Z) : io unit :=
  let testval := 0x19 in
  let testval :=
    if mux =? 0 then testval .| 0x40
    else if mux =? 1 then testval .| 0x60
    else if mux =? 2 then testval .| 0x20
    else if mux =? 3 then testval .| 0x00
    else testval in
  write INPUT_REG testval.

(** Reads only, but for the messages. *)
Definition test_status : io unit :=
  _ ← read INT_STATUS_REG; _ ← read CAPTURE_CNT_REG; _ ← read DMA_RISC_PC_REG; Pure tt.

Definition reset_status : io unit :=
  _ ← read INT_STATUS_REG; _ ← write INT_STATUS_REG 0xFFFFFFFF; test_status.

(** ** The interrupt handler *)

(** The counters of errors and of instruction tags. *)
Record errors := {
  total_dma_disabled_errs : Z; total_sync_errs : Z; total_abort_errs : Z; total_dma_errs : Z;
  total_parity_errs : Z; total_bus_parity_errs : Z; total_fifo_overrun_errs : Z;
  total_fifo_resync_errs : Z; total_bus_latency_errs : Z
}.
Record tags := {
  total_write_tags : Z; total_skip_tags : Z; total_jump_tags : Z; total_sync_tags : Z
}.

(** The globals of the driver; [frameRdy] is the binary semaphore. *)
Record drv := {
  last_dstatus : Z; last_isr_status : Z; errs : errors; tagged : tags;
  total_risc_ints : Z; total_ints : Z;
  frame_rdy_cnt : Z; frame_acq_cnt : Z; current_frame : Z; acq_type : Z; frameRdy : bool
}.

(** [counter++] of an unsigned counter, when [c] holds. *)
Definition bump (c : bool) (n : Z) : Z := if c then u32 (n + 1) else n.

(** A status bit or mask; the tags are shifted to the top, where the bits
    shifted out are lost. *)
Definition bits_set (status mask : Z) : bool := negb (status .& mask =? 0).
Definition tag (t : Z) : Z := u32 (t .<< 12).

Definition count_errors (s : Z) (e : errors) : errors :=
  {| total_dma_disabled_errs := bump (bits_set s 0x08000000) (total_dma_disabled_errs e);
     total_sync_errs := bump (bits_set s SCERR_INT) (total_sync_errs e);
     total_abort_errs := bump (bits_set s PABORT_INT) (total_abort_errs e);
     total_dma_errs := bump (bits_set s OCERR_INT) (total_dma_errs e);
     total_parity_errs := bump (bits_set s RIPERR_INT) (total_parity_errs e);
     total_bus_parity_errs := bump (bits_set s PPERR_INT) (total_bus_parity_errs e);
     total_fifo_overrun_errs := bump (bits_set s FTRGT_INT) (total_fifo_overrun_errs e);
     total_fifo_resync_errs := bump (bits_set s FDSR_INT) (total_fifo_resync_errs e);
     total_bus_latency_errs := bump (bits_set s FBUS_INT) (total_bus_latency_errs e) |}.

Definition count_tags (s : Z) (t : tags) : tags :=
  {| total_write_tags := bump (bits_set s (tag DMA_MC_WRITE)) (total_write_tags t);
     total_skip_tags := bump (bits_set s (tag DMA_MC_SKIP)) (total_skip_tags t);
     total_jump_tags := bump (bits_set s (tag DMA_MC_JUMP)) (total_jump_tags t);
     total_sync_tags := bump (bits_set s (tag DMA_MC_SYNC)) (total_sync_tags t) |}.

(** [total_ints++] and the status kept. *)
Definition enter_isr (s : Z) (g : drv) : drv :=
  {| last_dstatus := last_dstatus g; last_isr_status := s; errs := errs g; tagged := tagged g;
     total_risc_ints := total_risc_ints g; total_ints := u32 (total_ints g + 1);
     frame_rdy_cnt := frame_rdy_cnt g; frame_acq_cnt := frame_acq_cnt g;
     current_frame := current_frame g; acq_type := acq_type g; frameRdy := frameRdy g |}.

Definition isr_errors (s : Z) (g : drv) : drv :=
  {| last_dstatus := last_dstatus g; last_isr_status := last_isr_status g;
     errs := count_errors s (errs g); tagged := tagged g;
     total_risc_ints := total_risc_ints g; total_ints := total_ints g;
     frame_rdy_cnt := frame_rdy_cnt g; frame_acq_cnt := frame_acq_cnt g;
     current_frame := current_frame g; acq_type := acq_type g; frameRdy := frameRdy g |}.

(** A frame: counted, the other buffer current, the semaphore given, and the
    device status [d] read. *)
Definition isr_frame (s d : Z) (g : drv) : drv :=
  {| last_dstatus := d; last_isr_status := last_isr_status g;
     errs := errs g; tagged := count_tags s (tagged g);
     total_risc_ints := bump true (total_risc_ints g); total_ints := total_ints g;
     frame_rdy_cnt := frame_rdy_cnt g; frame_acq_cnt := swrap 32 (frame_acq_cnt g + 1);
     current_frame := (if current_frame g =? 0 then 1 else 0);
     acq_type := acq_type g; frameRdy := true |}.

Definition halt_and_start : io unit := _ ← halt_acq; start_acq.

Definition pci_inta_isr (g : drv) : io drv :=
  status ← read INT_STATUS_REG;
  let g := enter_isr status g in
  _ ← write INT_STATUS_REG status;
  if bits_set status int_errors_to_check then
    _ ← halt_and_start;
    _ ← (if bits_set status SCERR_INT then halt_and_start else Pure tt);
    _ ← (if bits_set status OCERR_INT then halt_and_start else Pure tt);
    Pure (isr_errors status g)
  else if bits_set status RISCI_INT then
    d ← read DSTATUS_REG;
    Pure (isr_frame status d g)
  else Pure g.

(** ** The task *)

(** The two pairs of buffers the task knows. *)
Inductive buffer := FrameBuffer (frame : Z) | Y8FrameBuffer (frame : Z).

#[global] Instance buffer_eq_dec : EqDecision buffer.
Proof. solve_decision. Defined.

(** Where the task stands: an interrupt can run between any two of these
    points, so each reads the globals for itself. *)
Inductive task :=
  | Taking                      (* semTake(frameRdy) *)
  | Counting                    (* frame_rdy_cnt++ *)
  | Copying                     (* the bcopy of the mode *)
  | Saving (from : buffer)      (* inside it, the address evaluated *)
  | Reporting.                  (* the call of pglobFnNewFrameRcvd *)

(** What a step of the task does with a buffer. *)
Inductive event := StartCopy (from : buffer) | EndCopy (from : buffer) | Report (given : buffer).

(** [semTake] of a semaphore that is given. *)
Definition take_frame (g : drv) : drv :=
  {| last_dstatus := last_dstatus g; last_isr_status := last_isr_status g;
     errs := errs g; tagged := tagged g;
     total_risc_ints := total_risc_ints g; total_ints := total_ints g;
     frame_rdy_cnt := frame_rdy_cnt g; frame_acq_cnt := frame_acq_cnt g;
     current_frame := current_frame g; acq_type := acq_type g; frameRdy := false |}.

Definition count_frame (g : drv) : drv :=
  {| last_dstatus := last_dstatus g; last_isr_status := last_isr_status g;
     errs := errs g; tagged := tagged g;
     total_risc_ints := total_risc_ints g; total_ints := total_ints g;
     frame_rdy_cnt := u32 (frame_rdy_cnt g + 1); frame_acq_cnt := frame_acq_cnt g;
     current_frame := current_frame g; acq_type := acq_type g; frameRdy := frameRdy g |}.

(** A step of [btvid_drvr]; [client] says that [pglobFnNewFrameRcvd] is set. *)
Definition btvid_drvr (client : bool) (p : task) (g : drv) : option (task * drv * option event) :=
  match p with
  | Taking => if frameRdy g then Some (Counting, take_frame g, None) else None
  | Counting => Some (Copying, count_frame g, None)
  | Copying =>
      if acq_type g =? NTSC_320_X_240 then
        let b := FrameBuffer (current_frame g) in Some (Saving b, g, Some (StartCopy b))
      else if acq_type g =? NTSC_320_X_240_GS then
        let b := Y8FrameBuffer (current_frame g) in Some (Saving b, g, Some (StartCopy b))
      else Some (Reporting, g, None)
  | Saving b => Some (Reporting, g, Some (EndCopy b))
  | Reporting =>
      Some (Taking, g, if client then Some (Report (FrameBuffer (current_frame g))) else None)
  end.

(** ** Activating a mode and shutting down *)

Section activate.
Context (L : layout) (replace_write_with_skip : bool).

(** Where the engine of the mode starts. *)
Definition start_address (large_base puny_mc_base : Z) (fsize : Z) : option Z :=
  if (fsize =? NTSC_320_X_240) || (fsize =? NTSC_320_X_240_GS) then Some (u32 (mc_base L))
  else if fsize =? NTSC_80_X_60 then Some (u32 puny_mc_base)
  else if fsize =? NTSC_640_X_480 then Some (u32 large_base)
  else None.

Context (large_base puny_mc_base : Z).

Definition load_frame_mc (fsize : Z) (m : mem) : io mem :=
  m ← io_of (initialize_frame_mc L replace_write_with_skip fsize m);
  match start_address large_base puny_mc_base fsize with
  | Some a => _ ← write DMA_RISC_START_ADDR_REG a; Pure m
  | None => Pure m
  end.

(** The interrupt is connected and enabled by the operating system's calls
    before this; [clear_buffers] touches the frame buffers only. *)
Definition activate (fsize : Z) (m : mem) (acq_type : Z) : io (mem * Z) :=
  _ ← test_status;
  acq_type ← configure_ntsc fsize acq_type;
  _ ← set_mux 1;
  m ← load_frame_mc fsize m;
  _ ← enable_capture;
  _ ← start_acq;
  _ ← test_status;
  Pure (m, acq_type).
End activate.

(** The counters [full_reset] clears; [total_ints], [current_frame] and
    [acq_type] are not among them.  The semaphore and the task are deleted. *)
Definition reset_counters (g : drv) : drv :=
  {| last_dstatus := 0; last_isr_status := 0;
     errs := Build_errors 0 0 0 0 0 0 0 0 0; tagged := Build_tags 0 0 0 0;
     total_risc_ints := 0; total_ints := total_ints g;
     frame_rdy_cnt := 0; frame_acq_cnt := 0; current_frame := current_frame g;
     acq_type := acq_type g; frameRdy := false |}.

(** [intel_pci_clear_status] touches the bridge only. *)
Definition full_reset (g : drv) : io drv :=
  _ ← halt_acq;
  _ ← disable_capture;
  let g := reset_counters g in
  _ ← sw_reset;
  _ ← reset_status;
  Pure g.

(** ** Saved frames *)

(** Byte [n] of an array of words, least significant first. *)
Definition byte_at (buf : list Z) (n : Z) : option Z :=
  w ← aget buf (n / 4); Some ((w .>> (8 * (n mod 4))) .& 0xFF).

Definition PIXELS : nat := 320 * 240.

Definition ppm_header (magic : string) : list Z :=
  bytes magic ++ [10] ++ bytes "#test" ++ [10] ++ bytes "320 240" ++ [10] ++ bytes "255" ++ [10].

(** [write_save_buffer]: the file it writes. *)
Definition pixel_bytes (buf : list Z) (bo : Z) (i : nat) : option (list Z) :=
  let p := 4 * Z.of_nat i in
  if bo =? 0 then
    r ← byte_at buf (p + 2); g ← byte_at buf (p + 1); b ← byte_at buf p; Some [r; g; b]
  else
    x ← byte_at buf (p + 1); y ← byte_at buf (p + 2); z ← byte_at buf (p + 3); Some [x; y; z].

Definition write_save_buffer (save_buffer : list Z) (bo : Z) : option (list Z) :=
  px ← mapM (pixel_bytes save_buffer bo) (seq 0 PIXELS);
  Some (ppm_header "P6" ++ concat px).

(** [write_y8_save_buffer]: one byte of every fourth, as many as there are
    pixels. *)
Definition write_y8_save_buffer (y8_save_buffer : list Z) : option (list Z) :=
  px ← mapM (fun i => byte_at y8_save_buffer (4 * Z.of_nat i + 1)) (seq 0 PIXELS);
  Some (ppm_header "P5" ++ px).

(** ** Proofs: registers *)

(** No two registers share an address. *)
Lemma reg_addr_inj r s : reg_addr r = reg_addr s -> r = s.
Proof. destruct r, s; try reflexivity; intros H; vm_compute in H; discriminate H. Qed.

Lemma performs_test_status `{device reg D} : performs test_status [] tt.
Proof. unfold test_status. do 3 apply performs_read. apply performs_pure. Qed.

(** ** Proofs: programming the decoder *)

(** The writes of [configure_ntsc] for each mode. *)
Definition config_writes (fsize : Z) : list (reg * Z) :=
  [(RESET_REG, 1); (TIMING_GEN_REG, 0)] ++
  (if fsize =? NTSC_320_X_240 then mode_writes 0x11 0x40 0x16 0x3C 0x15 0x55 0x7E 0x00
   else if fsize =? NTSC_320_X_240_GS then mode_writes 0x11 0x2C 0x16 0x46 0x15 0x55 0x7E 0x66
   else if fsize =? NTSC_80_X_60 then mode_writes 0x10 0x50 0x16 0x10 0x86 0x1A 0x72 0x66
   else if fsize =? NTSC_640_X_480 then mode_writes 0x12 0x80 0x16 0x78 0x02 0xAA 0x60 0x00
   else []) ++
  [(INT_ENABLE_REG, 0x4FF820); (TEMP_DECIMATION_REG, 0); (TEMP_DECIMATION_REG, 0)].

(** The mode the task copies frames for: only the modes of 320x240 set it. *)
Definition config_type (fsize acq_type : Z) : Z :=
  if (fsize =? NTSC_320_X_240) || (fsize =? NTSC_320_X_240_GS) then fsize else acq_type.

Inductive video_field := Even | Odd.

Record timing := {
  hactive : Z; vactive : Z; hdelay : Z; vdelay : Z; hscale : Z; vscale : Z; color : Z
}.

(** The timing a field has after some writes: the crop register holds the high
    bits of vertical delay, vertical active, horizontal delay and horizontal
    active, two each. *)
Definition field_timing (l : list (reg * Z)) (f : video_field) : option timing :=
  let reg e o := last_write l (match f with Even => e | Odd => o end) in
  crop ← reg MSB_CROP_EVEN_REG MSB_CROP_ODD_REG;
  hactive ← reg HACTIVE_LO_EVEN_REG HACTIVE_LO_ODD_REG;
  vactive ← reg VACTIVE_LO_EVEN_REG VACTIVE_LO_ODD_REG;
  hdelay ← reg HDELAY_LO_EVEN_REG HDELAY_LO_ODD_REG;
  vdelay ← reg VDELAY_LO_EVEN_REG VDELAY_LO_ODD_REG;
  hm ← reg HSCALE_EVEN_MSB_REG HSCALE_ODD_MSB_REG;
  hl ← reg HSCALE_EVEN_LSB_REG HSCALE_ODD_LSB_REG;
  vm ← reg VSCALE_EVEN_MSB_REG VSCALE_ODD_MSB_REG;
  vl ← reg VSCALE_EVEN_LSB_REG VSCALE_ODD_LSB_REG;
  color ← last_write l COLOR_FORMAT_REG;
  let high n := ((crop .>> n) .& 3) .<< 8 in
  Some {| hactive := high 0 .| hactive; vactive := high 4 .| vactive;
          hdelay := high 2 .| hdelay; vdelay := high 6 .| vdelay;
          hscale := (hm .<< 8) .| hl; vscale := (vm .<< 8) .| vl; color := color |}.

(** The timing of the modes. *)
Definition mode_timing (fsize : Z) : option timing :=
  if fsize =? NTSC_320_X_240 then Some (Build_timing 320 480 60 22 0x1555 0x7E00 0x00)
  else if fsize =? NTSC_320_X_240_GS then Some (Build_timing 300 480 70 22 0x1555 0x7E00 0x66)
  else if fsize =? NTSC_80_X_60 then Some (Build_timing 80 480 16 22 0x861A 0x7200 0x66)
  else if fsize =? NTSC_640_X_480 then Some (Build_timing 640 480 120 22 0x02AA 0x6000 0x00)
  else None.

Lemma performs_configure `{device reg D} fsize acq :
  performs (configure_ntsc fsize acq) (config_writes fsize) (config_type fsize acq).
Proof.
  unfold configure_ntsc, config_writes, config_type.
  apply performs_then, performs_read, performs_then.
  assert (Hend : forall a : Z, performs
    (_ ← write INT_ENABLE_REG (int_errors_to_check .| RISCI_INT .| VPRES_INT);
     _ ← write TEMP_DECIMATION_REG 0; _ ← write TEMP_DECIMATION_REG 0; Pure a)
    [(INT_ENABLE_REG, 0x4FF820); (TEMP_DECIMATION_REG, 0); (TEMP_DECIMATION_REG, 0)] a).
  { intros a. do 3 apply performs_then. apply performs_pure. }
  assert (Hw : forall l (t : Z), performs (_ ← write_all l; Pure t) l t).
  { intros l t. rewrite <- (app_nil_r l) at 2. eapply performs_bind;
      [apply performs_write_all | apply performs_pure]. }
  destruct (Z.eqb_spec fsize NTSC_320_X_240) as [-> | H1].
  - eapply performs_bind; [apply Hw |]. eapply performs_skip; [apply performs_pure |].
    apply Hend.
  - eapply performs_skip; [apply performs_pure |].
    destruct (fsize =? NTSC_320_X_240_GS) eqn:H2;
      [| destruct (fsize =? NTSC_80_X_60); [| destruct (fsize =? NTSC_640_X_480)]]; cbn [orb].
    + apply Z.eqb_eq in H2 as ->. eapply performs_bind; [apply Hw | apply Hend].
    + eapply performs_bind; [apply Hw | apply Hend].
    + eapply performs_bind; [apply Hw | apply Hend].
    + eapply performs_skip; [apply performs_pure | apply Hend].
Qed.

(** On every device [configure_ntsc] gives the two fields the same timing, that of the table of modes: 320, 300, 80 or 640 active pixels a line, 480 lines; and it enables the error, frame and video-presence interrupts. *)
Theorem configure_ntsc_timing `{device reg D} fsize acq (d : D) t :
  mode_timing fsize = Some t ->
  exists l d', run (configure_ntsc fsize acq) d = Some (l, config_type fsize acq, d') /\
    field_timing l Even = Some t /\ field_timing l Odd = Some t /\
    last_write l INT_ENABLE_REG = Some (int_errors_to_check .| RISCI_INT .| VPRES_INT) /\
    head l = Some (RESET_REG, 1).
Proof.
  intros Ht. destruct (performs_configure fsize acq d) as [d' Hd].
  exists (config_writes fsize), d'. split; [exact Hd|]. clear Hd.
  unfold mode_timing in Ht. unfold config_writes.
  repeat match type of Ht with
  | (if ?b then _ else _) = _ => destruct b
  end; inversion Ht; subst; vm_compute; repeat split.
Qed.

(** The level printed is one more than the level set, up to 253; 254 and 255
    print as 0 and 1, and 255 sets the register like 0. *)
Theorem level_readback b :
  0 <= b <= 255 ->
  level_was (level_register b) = (if b <=? 253 then b + 1 else b - 254) /\
  level_register 255 = level_register 0.
Proof.
  intros Hb. split; [|done]. unfold level_was, level_register.
  destruct (Z.ltb_spec 255 b); [lia|]. destruct (Z.ltb_spec b 0); [lia|].
  destruct (Z.ltb_spec 0xFF (b + 0x80));
    match goal with |- context [?x <? 0x7f] => destruct (Z.ltb_spec x 0x7f) end;
    destruct (Z.leb_spec b 253); lia.
Qed.

(** The register as a signed byte: the levels below 128 are the offsets from
    128, the others are one too high and 255 is the lowest of all. *)
Theorem level_register_signed b :
  0 <= b <= 255 ->
  swrap 8 (level_register b) = (if b <? 128 then b - 128 else if b <? 255 then b - 127 else -128) /\
  1 <= level_register b <= 255.
Proof.
  intros Hb. unfold level_register.
  destruct (Z.ltb_spec 255 b); [lia|]. destruct (Z.ltb_spec b 0); [lia|].
  unfold swrap. change (2 ^ (8 - 1)) with 128. change (2 ^ 8) with 256.
  destruct (Z.ltb_spec 0xFF (b + 0x80)), (Z.ltb_spec b 128), (Z.ltb_spec b 255); split; try lia;
    Z.div_mod_to_equations; lia.
Qed.

(** ** Proofs: activation *)

(** [activate] for 320x240, on every device: the decoder is reset first and configured, then the address of the program is written, then the capture is enabled, and the engine is started last; no earlier write touches the capture or engine control registers, and the program that starts is the one of two frames. *)
Theorem activate_in_order `{device reg D} L large_base puny_base m acq (d : D) :
  sized m ->
  exists before m' d',
    run (activate L false large_base puny_base NTSC_320_X_240 m acq) d
    = Some (before ++ [(DMA_RISC_START_ADDR_REG, u32 (mc_base L)); (CAPTURE_CTL_REG, 0x13);
                       (DMA_CTL_REG, 0xF)], (m', NTSC_320_X_240), d') /\
    head before = Some (RESET_REG, 1) /\
    Forall (fun w => w.1 <> CAPTURE_CTL_REG /\ w.1 <> DMA_CTL_REG) before /\
    decode (dma_microcode m') = Some (program_320 L).
Proof.
  intros Hm. destruct (microcode_320_loaded L m Hm) as (m' & Hi & Hp & _).
  assert (Ha : performs (activate L false large_base puny_base NTSC_320_X_240 m acq)
    (config_writes NTSC_320_X_240 ++ [(INPUT_REG, 0x79)] ++
     [(DMA_RISC_START_ADDR_REG, u32 (mc_base L)); (CAPTURE_CTL_REG, 0x13); (DMA_CTL_REG, 0xF)])
    (m', NTSC_320_X_240)).
  { unfold activate. eapply performs_skip; [apply performs_test_status |].
    eapply performs_bind; [apply (performs_configure NTSC_320_X_240) |].
    apply performs_then. unfold load_frame_mc. rewrite Hi. cbn [io_of].
    apply (performs_bind _ _ [(DMA_RISC_START_ADDR_REG, _)] _ m').
    { eapply performs_skip; [apply performs_pure |]. apply performs_then, performs_pure. }
    do 2 apply performs_then.
    eapply performs_skip; [apply performs_test_status | apply performs_pure]. }
  destruct (Ha d) as [d' Hd].
  exists (config_writes NTSC_320_X_240 ++ [(INPUT_REG, 0x79)]), m', d'.
  rewrite <- app_assoc. repeat split; [exact Hd | | exact Hp].
  repeat (constructor; [by split |]). constructor.
Qed.

(** ** Proofs: the interrupt handler *)

(** The handler clears exactly the bits it read, and on an error it leaves the
    engine running and drops the frame, if one was signalled with it. *)
Theorem isr_on_error `{device reg D} g (d d1 : D) s :
  dev_read INT_STATUS_REG d = (s, d1) -> bits_set s int_errors_to_check = true ->
  exists l g' d', run (pci_inta_isr g) d = Some ((INT_STATUS_REG, s) :: l, g', d') /\
    last_write l DMA_CTL_REG = Some 0xF /\
    errs g' = count_errors s (errs g) /\ tagged g' = tagged g /\
    frame_acq_cnt g' = frame_acq_cnt g /\ current_frame g' = current_frame g /\
    frameRdy g' = frameRdy g.
Proof.
  intros Hr He. unfold pci_inta_isr. cbn [mbind io_bind read run]. rewrite Hr.
  cbn [run write mbind io_bind]. rewrite He.
  destruct (bits_set s SCERR_INT), (bits_set s OCERR_INT);
    eexists _, _, _; (split; [reflexivity |]); repeat split.
Qed.

Definition clean (s : Z) : Prop :=
  bits_set s int_errors_to_check = false /\ bits_set s RISCI_INT = true.

(** The interrupt of a frame. *)
Lemma isr_on_frame `{device reg D} g (d d1 : D) s :
  dev_read INT_STATUS_REG d = (s, d1) -> clean s ->
  exists ds d', run (pci_inta_isr g) d
    = Some ([(INT_STATUS_REG, s)], isr_frame s ds (enter_isr s g), d').
Proof.
  intros Hr [He Hf]. unfold pci_inta_isr. cbn [mbind io_bind read run]. rewrite Hr.
  cbn [run write mbind io_bind]. rewrite He, Hf. cbn [mbind io_bind run].
  destruct (dev_read DSTATUS_REG _) as [ds d2]. by eexists _, _.
Qed.

(** Any other interrupt is counted and cleared. *)
Lemma isr_on_other `{device reg D} g (d d1 : D) s :
  dev_read INT_STATUS_REG d = (s, d1) ->
  bits_set s int_errors_to_check = false -> bits_set s RISCI_INT = false ->
  exists d', run (pci_inta_isr g) d = Some ([(INT_STATUS_REG, s)], enter_isr s g, d').
Proof.
  intros Hr He Hf. unfold pci_inta_isr. cbn [mbind io_bind read run]. rewrite Hr.
  cbn [run write mbind io_bind]. rewrite He, Hf. by eexists.
Qed.

(** ** Frames from the engine to the client *)

(** What is handed over when [n] frames are complete: frames in order, only
    complete ones, each at most twice; the last one may still be handed over
    [pending] times. *)
Record handed (n pending : nat) (ks : list nat) : Prop := {
  handed_sorted : StronglySorted le ks;
  handed_below : Forall (fun k => k < n)%nat ks;
  handed_twice k : (count_occ Nat.eq_dec ks k <= 2)%nat;
  handed_pending : (count_occ Nat.eq_dec ks (n - 1) + pending <= 2)%nat
}.

Lemma handed_nil n pending : (pending <= 2)%nat -> handed n pending [].
Proof. by split; [constructor | constructor | intros; cbn; lia | cbn]. Qed.

Lemma handed_less n p p' ks : handed n p ks -> (p' <= p)%nat -> handed n p' ks.
Proof. intros [H1 H2 H3 H4] Hp. split; [done | done | done | lia]. Qed.

(** A further frame is complete: nothing of it was handed over. *)
Lemma handed_frame n p p' ks : handed n p ks -> (p' <= 2)%nat -> handed (S n) p' ks.
Proof.
  intros [H1 H2 H3 H4] Hp. split; [done | | done |].
  - eapply List.Forall_impl; [| exact H2]. cbn. lia.
  - replace (S n - 1)%nat with n by lia.
    rewrite (proj1 (count_occ_not_In Nat.eq_dec ks n)); [lia |].
    rewrite List.Forall_forall in H2. intros Hin%H2. lia.
Qed.

(** The last frame is handed over. *)
Lemma handed_last n p ks : handed (S n) (S p) ks -> handed (S n) p (ks ++ [n]).
Proof.
  intros [H1 H2 H3 H4]. replace (S n - 1)%nat with n in * by lia.
  split.
  - apply StronglySorted_app_2; [| done | by repeat constructor].
    intros x y Hx ->%list_elem_of_singleton. rewrite List.Forall_forall in H2.
    apply list_elem_of_In, H2 in Hx. lia.
  - rewrite Forall_app. split; [done |]. repeat constructor.
  - intros k. rewrite count_occ_app. cbn. specialize (H3 k).
    destruct (Nat.eq_dec n k) as [<- |]; lia.
  - replace (S n - 1)%nat with n by lia. rewrite count_occ_app. cbn.
    destruct (Nat.eq_dec n n); [lia | done].
Qed.

Section pipeline.
Context `{device reg D} (client : bool).

(** The driver and its task, the device, the number of frames the engine has
    completed since it was started, the image each buffer holds, how many
    frames were complete when the task's copy began, the images copied ([None]
    where the engine went on to the buffer while it was read) and the images
    the client was given. *)
Record sys := Sys {
  globals : drv; pc : task; board : D; completed : nat; buffers : buffer -> option nat;
  copying : nat; saved : list (option nat); seen : list (option nat)
}.

(** The buffers of the engine's program in the mode. *)
Definition engine_buffer (mode i : Z) : buffer :=
  if mode =? NTSC_320_X_240_GS then Y8FrameBuffer i else FrameBuffer i.

Definition observe (e : option event) (σ : sys) : sys :=
  match e with
  | None => σ
  | Some (StartCopy _) =>
      Sys (globals σ) (pc σ) (board σ) (completed σ) (buffers σ) (completed σ) (saved σ) (seen σ)
  | Some (EndCopy b) =>
      Sys (globals σ) (pc σ) (board σ) (completed σ) (buffers σ) (copying σ)
        (saved σ ++ [if (copying σ =? completed σ)%nat then buffers σ b else None]) (seen σ)
  | Some (Report b) =>
      Sys (globals σ) (pc σ) (board σ) (completed σ) (buffers σ) (copying σ) (saved σ)
        (seen σ ++ [buffers σ b])
  end.

(** The engine runs through the program of two frames of the two 320x240 modes:
    frame [n] goes to buffer [n mod 2] and interrupts; other interrupts without
    an error may come at any time; the task makes a step when it can.  An
    interrupt comes between any two steps of the task.  [d] is any device that
    shows the status [s]. *)
Inductive step : sys -> sys -> Prop :=
  | step_frame g p b d d1 d2 n bufs c sv out s l g' :
      dev_read INT_STATUS_REG d = (s, d1) -> clean s ->
      run (pci_inta_isr g) d = Some (l, g', d2) ->
      step (Sys g p b n bufs c sv out)
           (Sys g' p d2 (S n)
              (fun i => if decide (i = engine_buffer (acq_type g) (Z.of_nat n mod 2))
                        then Some n else bufs i) c sv out)
  | step_other g p b d d1 d2 n bufs c sv out s l g' :
      dev_read INT_STATUS_REG d = (s, d1) ->
      bits_set s int_errors_to_check = false -> bits_set s RISCI_INT = false ->
      run (pci_inta_isr g) d = Some (l, g', d2) ->
      step (Sys g p b n bufs c sv out) (Sys g' p d2 n bufs c sv out)
  | step_task g p b n bufs c sv out p' g' e :
      btvid_drvr client p g = Some (p', g', e) ->
      step (Sys g p b n bufs c sv out) (observe e (Sys g' p' b n bufs c sv out)).

(** As [start_video] and [activate] leave it the first time: the second buffer
    is current, no frame counted, the task at its loop's start. *)
Definition fresh (g : drv) : Prop :=
  current_frame g = 1 /\ frameRdy g = false /\ frame_acq_cnt g = 0 /\ frame_rdy_cnt g = 0.

Definition starts (mode : Z) (σ : sys) : Prop :=
  fresh (globals σ) /\ acq_type (globals σ) = mode /\ pc σ = Taking /\
  completed σ = 0%nat /\ saved σ = [] /\ seen σ = [].

(** Passes begun whose frame is not yet counted, copied, reported. *)
Definition uncounted (p : task) : nat := match p with Counting => 1 | _ => 0 end.
Definition uncopied (p : task) : nat := match p with Taking | Reporting => 0 | _ => 1 end.
Definition unreported (p : task) : nat := match p with Taking => 0 | _ => 1 end.
Definition ready (g : drv) : nat := if frameRdy g then 1 else 0.

(** What holds in every reachable state of the colour mode: the current buffer
    is the one of the last frame, and what was copied and reported. *)
Record pipeline_inv (σ : sys) (js ks : list nat) (passes : nat) : Prop := {
  inv_mode : acq_type (globals σ) = NTSC_320_X_240;
  inv_current : current_frame (globals σ) = (Z.of_nat (completed σ) + 1) mod 2;
  inv_buffer k : completed σ = S k -> buffers σ (FrameBuffer (current_frame (globals σ))) = Some k;
  inv_some : (0 < ready (globals σ) + unreported (pc σ))%nat -> (0 < completed σ)%nat;
  inv_saving b : pc σ = Saving b -> (copying σ <= completed σ)%nat /\
    (copying σ = completed σ -> b = FrameBuffer (current_frame (globals σ)));
  inv_saved : omap id (saved σ) = js;
  inv_seen : seen σ = map Some ks;
  inv_copied : handed (completed σ) (ready (globals σ) + uncopied (pc σ)) js;
  inv_reported : handed (completed σ) (ready (globals σ) + unreported (pc σ)) ks;
  inv_acq : frame_acq_cnt (globals σ) = swrap 32 (Z.of_nat (completed σ));
  inv_rdy : frame_rdy_cnt (globals σ) = u32 (Z.of_nat (passes - uncounted (pc σ)));
  inv_passes : (uncounted (pc σ) <= passes)%nat;
  inv_client : client = true -> passes = (length ks + unreported (pc σ))%nat
}.

Lemma u32_succ n : u32 (u32 (Z.of_nat n) + 1) = u32 (Z.of_nat (S n)).
Proof. unfold u32, wrap. rewrite Nat2Z.inj_succ, Zplus_mod_idemp_l. done. Qed.

Lemma swrap_succ n : swrap 32 (swrap 32 (Z.of_nat n) + 1) = swrap 32 (Z.of_nat (S n)).
Proof.
  unfold swrap. rewrite Nat2Z.inj_succ. unfold Z.succ.
  change (2 ^ 32) with 4294967296. change (2 ^ (32 - 1)) with 2147483648.
  Z.div_mod_to_equations; lia.
Qed.

(** The other buffer becomes current, and the engine had filled it. *)
Lemma flip_current n c :
  c = (Z.of_nat n + 1) mod 2 ->
  (if c =? 0 then 1 else 0) = (Z.of_nat (S n) + 1) mod 2 /\
  (if c =? 0 then 1 else 0) = Z.of_nat n mod 2.
Proof. intros ->. destruct (Z.eqb_spec ((Z.of_nat n + 1) mod 2) 0); Z.div_mod_to_equations; lia. Qed.

Lemma frame_preserves g p b d2 n bufs c sv out s ds js ks passes :
  pipeline_inv (Sys g p b n bufs c sv out) js ks passes ->
  pipeline_inv
    (Sys (isr_frame s ds (enter_isr s g)) p d2 (S n)
       (fun i => if decide (i = engine_buffer (acq_type g) (Z.of_nat n mod 2))
                 then Some n else bufs i) c sv out) js ks passes.
Proof.
  intros []; cbn in *. destruct (flip_current n _ inv_current0) as [Hn He].
  split; cbn; try done.
  - intros k [= <-]. unfold engine_buffer. rewrite inv_mode0, He. by rewrite decide_True.
  - lia.
  - intros b' Hb. specialize (inv_saving0 b' Hb) as [Hle _]. split; lia.
  - eapply handed_frame; [exact inv_copied0 |]. destruct p; cbn; lia.
  - eapply handed_frame; [exact inv_reported0 |]. destruct p; cbn; lia.
  - by rewrite inv_acq0, swrap_succ.
Qed.

Lemma task_preserves g p b n bufs c sv out p' g' e js ks passes :
  btvid_drvr client p g = Some (p', g', e) ->
  pipeline_inv (Sys g p b n bufs c sv out) js ks passes ->
  exists js' ks' passes',
    pipeline_inv (observe e (Sys g' p' b n bufs c sv out)) js' ks' passes'.
Proof.
  intros Ht I. pose proof I as []. cbn in *. destruct p as [| | |f|]; cbn in *.
  - unfold ready in *. destruct (frameRdy g) eqn:Hg; [|done]. injection Ht as <- <- <-.
    exists js, ks, (S passes). cbn in *. split; cbn; try done; try lia.
    intros Hc%inv_client0. lia.
  - injection Ht as <- <- <-. exists js, ks, passes. split; cbn; try done; try lia.
    rewrite inv_rdy0, u32_succ. do 2 f_equal. lia.
  - rewrite inv_mode0 in Ht. injection Ht as <- <- <-. exists js, ks, passes.
    split; cbn; try done. by intros ? [= <-].
  - injection Ht as <- <- <-. destruct n as [|k]; [lia|].
    destruct (inv_saving0 f eq_refl) as [_ Hf].
    pose proof (inv_buffer0 k eq_refl) as Hb.
    exists (js ++ if (c =? S k)%nat then [k] else []), ks, passes.
    split; cbn [observe globals pc completed saved seen copying buffers]; try done.
    + rewrite omap_app, inv_saved0. f_equal.
      destruct (Nat.eqb_spec c (S k)) as [-> |]; [| done]. by rewrite (Hf eq_refl), Hb.
    + destruct (c =? S k)%nat.
      * apply handed_last. by rewrite <- Nat.add_succ_r.
      * rewrite app_nil_r. eapply handed_less; [exact inv_copied0 | cbn; lia].
  - injection Ht as <- <- <-. destruct n as [|k]; [lia|].
    pose proof (inv_buffer0 k eq_refl) as Hb. clear I. destruct client eqn:Hcl.
    + exists js, (ks ++ [k]), passes.
      split; cbn [observe globals pc completed saved seen copying buffers]; try done.
      * lia.
      * by rewrite inv_seen0, map_app, Hb.
      * apply handed_last. by rewrite <- Nat.add_succ_r.
      * rewrite length_app. intros _. rewrite (inv_client0 eq_refl). cbn. lia.
    + exists js, ks, passes.
      split; cbn [observe globals pc completed saved seen copying buffers]; try done.
      * lia.
      * eapply handed_less; [exact inv_reported0 | cbn; lia].
      * by rewrite Hcl.
Qed.

Lemma step_preserves σ σ' js ks passes :
  pipeline_inv σ js ks passes -> step σ σ' ->
  exists js' ks' passes', pipeline_inv σ' js' ks' passes'.
Proof.
  intros I Hs. destruct Hs as [g p b d d1 d2 n bufs c sv out s l g' Hr Hc Hrun
    | g p b d d1 d2 n bufs c sv out s l g' Hr He Hf Hrun | g p b n bufs c sv out p' g' e Ht].
  - destruct (isr_on_frame g d d1 s Hr Hc) as (ds & d' & Hrun'). rewrite Hrun in Hrun'.
    injection Hrun' as _ -> _. exists js, ks, passes. by eapply frame_preserves.
  - destruct (isr_on_other g d d1 s Hr He Hf) as (d' & Hrun'). rewrite Hrun in Hrun'.
    injection Hrun' as _ -> _. exists js, ks, passes. by destruct I; split.
  - by eapply task_preserves.
Qed.

Lemma pipeline_reachable σ σ' :
  starts NTSC_320_X_240 σ -> rtc step σ σ' -> exists js ks passes, pipeline_inv σ' js ks passes.
Proof.
  intros ((Hc & Hf & Ha & Hrd) & Hm & Hp & Hn & Hsv & Hs) Hr.
  assert (I : exists js ks passes, pipeline_inv σ js ks passes).
  { exists [], [], 0%nat. split; unfold ready; rewrite ?Hc, ?Hn, ?Ha, ?Hrd, ?Hsv, ?Hs, ?Hp, ?Hf;
      try done; cbn; try lia; apply handed_nil; lia. }
  clear Hc Hf Ha Hrd Hm Hp Hn Hsv Hs.
  induction Hr as [σ | σ σ1 σ' Hs _ IH]; [done|].
  destruct I as (js & ks & passes & I). by apply IH, (step_preserves σ σ1 js ks passes).
Qed.

(** C20: in the colour mode, after the first activation, however frames, other error-free interrupts and the steps of the task interleave (an interrupt between any two of semTake, the count, the copy and the call): the client is given only images the engine has completed, in the order of their frames, each at most twice; so are the images copied whole; whenever the task stands before the copy or the call, the buffer it is about to pass holds the last image completed and is not the one the engine is filling; and the two counters are the frames completed and the passes begun. *)
Theorem frames_in_order σ σ' :
  starts NTSC_320_X_240 σ -> rtc step σ σ' ->
  (exists ks, seen σ' = map Some ks /\ StronglySorted le ks /\
     Forall (fun k => k < completed σ')%nat ks /\
     (forall k, (count_occ Nat.eq_dec ks k <= 2)%nat) /\
     (client = true -> frame_rdy_cnt (globals σ')
        = u32 (Z.of_nat (length ks + unreported (pc σ') - uncounted (pc σ'))))) /\
  (StronglySorted le (omap id (saved σ')) /\
     Forall (fun k => k < completed σ')%nat (omap id (saved σ')) /\
     (forall k, (count_occ Nat.eq_dec (omap id (saved σ')) k <= 2)%nat)) /\
  (pc σ' = Copying \/ pc σ' = Reporting ->
     exists k, completed σ' = S k /\
       buffers σ' (FrameBuffer (current_frame (globals σ'))) = Some k /\
       current_frame (globals σ') <> Z.of_nat (completed σ') mod 2) /\
  frame_acq_cnt (globals σ') = swrap 32 (Z.of_nat (completed σ')).
Proof.
  intros Hs Hr. destruct (pipeline_reachable σ σ' Hs Hr) as (js & ks & passes & []).
  split; [| split; [| split; [| done]]].
  - exists ks. destruct inv_reported0. repeat (split; [done|]).
    intros Hc%inv_client0. by rewrite inv_rdy0, Hc.
  - rewrite inv_saved0. by destruct inv_copied0.
  - intros Hp. destruct (completed σ') as [|k] eqn:Hk.
    + destruct Hp as [Hp | Hp]; rewrite Hp in inv_some0; cbn in inv_some0; lia.
    + exists k. rewrite inv_current0. repeat split; [by rewrite <- inv_current0; apply inv_buffer0 |].
      Z.div_mod_to_equations; lia.
Qed.

(** In the grey mode the client is given the colour buffers, which the engine
    never writes. *)
Definition grey_inv (B : Z -> option nat) (σ : sys) : Prop :=
  acq_type (globals σ) = NTSC_320_X_240_GS /\
  (forall i, buffers σ (FrameBuffer i) = B i) /\ Forall (fun o => exists i, o = B i) (seen σ).

Lemma grey_preserves B σ σ' : grey_inv B σ -> step σ σ' -> grey_inv B σ'.
Proof.
  intros (Hm & Hb & Hs) Hstep. destruct Hstep as [g p b d d1 d2 n bufs c sv out s l g' Hr Hc Hrun
    | g p b d d1 d2 n bufs c sv out s l g' Hr He Hf Hrun | g p b n bufs c sv out p' g' e Ht];
    cbn in Hm, Hb, Hs.
  - destruct (isr_on_frame g d d1 s Hr Hc) as (ds & d' & Hrun'). rewrite Hrun in Hrun'.
    injection Hrun' as _ -> _. split; [done|]. split; [|done]. intros i.
    unfold engine_buffer. rewrite Hm. apply Hb.
  - destruct (isr_on_other g d d1 s Hr He Hf) as (d' & Hrun'). rewrite Hrun in Hrun'.
    injection Hrun' as _ -> _. done.
  - destruct p as [| | |f|]; cbn in Ht.
    + destruct (frameRdy g); [|done]. by injection Ht as <- <- <-.
    + by injection Ht as <- <- <-.
    + rewrite Hm in Ht. by injection Ht as <- <- <-.
    + by injection Ht as <- <- <-.
    + injection Ht as <- <- <-. destruct client; [|done]. split; [done|]. split; [done|].
      cbn. apply Forall_app. split; [done|]. repeat constructor. rewrite Hb. by eexists.
Qed.

Lemma grey_reachable B σ σ' : grey_inv B σ -> rtc step σ σ' -> grey_inv B σ'.
Proof.
  intros I Hr. induction Hr as [σ | σ σ1 σ' Hstep _ IH]; [done|].
  by apply IH, (grey_preserves B σ).
Qed.

(** The client never sees an image of a session in the grey mode. *)
Theorem grey_client_gets_old_buffers σ σ' :
  starts NTSC_320_X_240_GS σ -> rtc step σ σ' ->
  Forall (fun o => exists i, o = buffers σ (FrameBuffer i)) (seen σ').
Proof.
  intros (_ & Hm & _ & _ & _ & Hs) Hr.
  apply (grey_reachable (fun i => buffers σ (FrameBuffer i)) σ); [| done].
  split; [done|]. split; [done|]. rewrite Hs. constructor.
Qed.

(** [full_reset] does not reset [current_frame]: after an odd number of frames
    the driver starts again with the wrong buffer current: after the first
    frame the task can run, and the client is given the old contents of the
    other buffer. *)
Theorem restart_hands_over_old_frame g l g' (d0 d d1 d2 d3 : D) s l' g'' bufs :
  current_frame g = 0 -> run (full_reset g) d0 = Some (l, g', d3) ->
  dev_read INT_STATUS_REG d = (s, d1) -> clean s ->
  run (pci_inta_isr g') d = Some (l', g'', d2) ->
  let bufs' := fun i => if decide (i = FrameBuffer (0 mod 2)) then Some 0%nat else bufs i in
  frameRdy g'' = true /\
  btvid_drvr true Reporting g'' = Some (Taking, g'', Some (Report (FrameBuffer 1))) /\
  bufs' (FrameBuffer 1) = bufs (FrameBuffer 1).
Proof.
  intros Hc Hf Hr Hs Hrun. assert (Hg : g' = reset_counters g).
  { unfold full_reset, reset_status, test_status in Hf. cbn [mbind io_bind read write run halt_acq
      disable_capture sw_reset] in Hf.
    repeat match type of Hf with context [dev_read ?r ?d] => destruct (dev_read r d) end.
    by injection Hf as _ <- _. }
  destruct (isr_on_frame g' d d1 s Hr Hs) as (ds & d' & Hrun'). rewrite Hrun in Hrun'.
  injection Hrun' as _ -> _. subst g'. cbn. by rewrite Hc.
Qed.
End pipeline.

(** ** Proofs: saved frames *)

Lemma mapM_all {A B} (f : A -> option B) (g : A -> B) l :
  (forall x, In x l -> f x = Some (g x)) -> mapM f l = Some (map g l).
Proof.
  induction l as [|x l IH]; intros H; [done|]. cbn [mapM map].
  rewrite (H x (or_introl eq_refl)). cbn. rewrite IH by (intros; apply H; by right). done.
Qed.

Lemma mapM_none {A B} (f : A -> option B) l x : In x l -> f x = None -> mapM f l = None.
Proof.
  induction l as [|y l IH]; intros Hx Hf; [done|]. cbn [mapM].
  destruct Hx as [-> | Hx]; [by rewrite Hf|].
  destruct (f y); [|done]. cbn. by rewrite IH.
Qed.

(** The red, green and blue bytes of a pixel word. *)
Definition rgb (w : Z) : list Z := [(w .>> 16) .& 0xFF; (w .>> 8) .& 0xFF; w .& 0xFF].

Lemma byte_at_elt buf i k :
  (i < length buf)%nat -> 0 <= k < 4 ->
  byte_at buf (4 * Z.of_nat i + k) = Some ((elt buf i .>> (8 * k)) .& 0xFF).
Proof.
  intros Hi Hk. unfold byte_at.
  replace ((4 * Z.of_nat i + k) / 4) with (Z.of_nat i) by (Z.div_mod_to_equations; lia).
  replace ((4 * Z.of_nat i + k) mod 4) with k by (Z.div_mod_to_equations; lia).
  unfold aget. rewrite (proj2 (Z.leb_le 0 _)), Nat2Z.id by lia.
  by rewrite (elt_Some buf i Hi).
Qed.

Lemma map_elt_seq {A} (f : Z -> A) (l : list Z) : map (fun i => f (elt l i)) (seq 0 (length l)) = map f l.
Proof.
  apply list_eq. intros i. change (map ?g ?l) with (g <$> l). rewrite !list_lookup_fmap.
  destruct (decide (i < length l)%nat) as [Hi | Hi].
  - by rewrite lookup_seq_lt, (elt_Some l i Hi) by done.
  - by rewrite lookup_seq_ge, lookup_ge_None_2 by lia.
Qed.

Lemma flat_map_concat_map' {A B} (f : A -> list B) l : concat (map f l) = flat_map f l.
Proof. symmetry. apply flat_map_concat_map. Qed.

(** For every save buffer of 320x240 pixel words [write_save_buffer(0)] writes a PPM file: the header, then red, green and blue of every pixel in order, and no other byte. *)
Theorem write_save_buffer_ppm buf :
  length buf = PIXELS ->
  write_save_buffer buf 0 = Some (ppm_header "P6" ++ flat_map rgb buf).
Proof.
  intros Hl. unfold write_save_buffer.
  rewrite (mapM_all _ (fun i => rgb (elt buf i))).
  - step_run. do 2 f_equal. rewrite <- Hl, (map_elt_seq rgb). apply flat_map_concat_map'.
  - intros i Hi%in_seq. rewrite <- Hl in Hi. unfold pixel_bytes. cbn [Z.eqb]. cbv zeta.
    rewrite (byte_at_elt buf i 2), (byte_at_elt buf i 1) by lia.
    pose proof (byte_at_elt buf i 0) as H0. rewrite Z.add_0_r in H0. rewrite H0 by lia. step_run. unfold rgb. change (8 * 2) with 16.
    change (8 * 1) with 8. change (8 * 0) with 0. by rewrite Z.shiftr_0_r.
Qed.

(** [write_y8_save_buffer] reads three quarters of its bytes behind the end of
    the buffer of 19200 words. *)
Theorem write_y8_overruns buf :
  Z.of_nat (length buf) = 19200 -> write_y8_save_buffer buf = None.
Proof.
  intros Hl. unfold write_y8_save_buffer.
  rewrite (mapM_none _ _ (length buf)); [done | |].
  - apply in_seq. unfold PIXELS. lia.
  - unfold byte_at, aget. rewrite Hl. cbn [Z.leb Z.compare].
    rewrite lookup_ge_None_2; [by destruct (_ <=? _) |].
    replace ((4 * 19200 + 1) / 4) with (Z.of_nat (length buf)) by (rewrite Hl; reflexivity). lia.
Qed.

(** ** Examples *)

(** A board that shows a fixed interrupt status. *)
#[local] Instance status_board : device reg Z := {
  dev_read r s := (match r with INT_STATUS_REG => s | _ => 0 end, s);
  dev_write r v s := s
}.

(** The interrupt of a frame whose last instruction was a [SYNC]. *)
Definition frame_status : Z := 0x88000800.

Lemma frame_status_clean : clean frame_status.
Proof. by split. Qed.

Definition fresh_globals : drv :=
  {| last_dstatus := 0; last_isr_status := 0; errs := Build_errors 0 0 0 0 0 0 0 0 0;
     tagged := Build_tags 0 0 0 0; total_risc_ints := 0; total_ints := 0; frame_rdy_cnt := 0;
     frame_acq_cnt := 0; current_frame := 1; acq_type := NTSC_320_X_240; frameRdy := false |}.

(** An error status: the frame that is signalled with it is not counted. *)
Example error_drops_frame :
  match run (pci_inta_isr fresh_globals) (frame_status .| FBUS_INT) with
  | Some (l, g, _) =>
      l = [(INT_STATUS_REG, 0x88001800); (DMA_CTL_REG, 0); (DMA_CTL_REG, 0xF)] /\
      frame_acq_cnt g = 0 /\ total_bus_latency_errs (errs g) = 1 /\
      total_dma_disabled_errs (errs g) = 1
  | None => False
  end.
Proof. by vm_compute. Qed.

Lemma configure_ntsc_timing_witness :
  exists t l d', mode_timing NTSC_320_X_240_GS = Some t /\ hactive t = 300 /\ hdelay t = 70 /\
    run (configure_ntsc NTSC_320_X_240_GS NTSC_320_X_240) 0
    = Some (l, NTSC_320_X_240_GS, d') /\
    field_timing l Even = Some t /\ field_timing l Odd = Some t.
Proof.
  destruct (configure_ntsc_timing NTSC_320_X_240_GS NTSC_320_X_240 0
    (Build_timing 300 480 70 22 0x1555 0x7E00 0x66) eq_refl) as (l & d' & Hr & He & Ho & _).
  exists (Build_timing 300 480 70 22 0x1555 0x7E00 0x66), l, d'. repeat split; assumption.
Defined.

Lemma activate_in_order_witness :
  exists before m' d',
    run (activate sample_layout false 0 0 NTSC_320_X_240 zeroed 0) 0
    = Some (before ++ [(DMA_RISC_START_ADDR_REG, 0x110000); (CAPTURE_CTL_REG, 0x13);
                       (DMA_CTL_REG, 0xF)], (m', NTSC_320_X_240), d') /\
    head before = Some (RESET_REG, 1) /\
    Forall (fun w => w.1 <> CAPTURE_CTL_REG /\ w.1 <> DMA_CTL_REG) before /\
    decode (dma_microcode m') = Some (program_320 sample_layout).
Proof. exact (activate_in_order sample_layout 0 0 zeroed 0 0 zeroed_sized). Defined.

Definition fresh_sys : sys :=
  Sys fresh_globals Taking 0 0 (fun _ => None) 0 [] [].

Ltac frame_comes :=
  eapply rtc_l;
    [eapply (step_frame _ _ _ _ frame_status); [reflexivity | exact frame_status_clean | vm_compute; reflexivity] |].
Ltac task_runs := eapply rtc_l; [eapply step_task; vm_compute; reflexivity |];
  cbn [observe globals pc board completed buffers copying saved seen].

(** A frame that ends while the task is between [semTake] and the copy: the
    task copies and hands over this frame, and the semaphore it gave makes it
    do so again.  The frame before is lost. *)
Lemma frames_in_order_witness :
  exists σ', rtc (step true) fresh_sys σ' /\ completed σ' = 2%nat /\
    saved σ' = [Some 1; Some 1]%nat /\
    exists ks, seen σ' = map Some ks /\ StronglySorted le ks /\ ks = [1; 1]%nat.
Proof.
  assert (Hs : starts NTSC_320_X_240 fresh_sys) by (repeat split).
  eassert (Hr : rtc (step true) fresh_sys _).
  { frame_comes. task_runs. frame_comes. do 9 task_runs. apply rtc_refl. }
  eexists. split; [exact Hr |]. split; [reflexivity |]. split; [reflexivity |].
  destruct (frames_in_order true _ _ Hs Hr) as ((ks & H1 & H2 & _) & _). exists ks.
  split; [exact H1 |]. split; [exact H2 |].
  destruct ks as [|k [|k' [|]]]; vm_compute in H1; congruence.
Defined.

(** A save buffer of one colour. *)
Lemma write_save_buffer_ppm_witness :
  length (replicate PIXELS 0x00112233) = PIXELS /\
  write_save_buffer (replicate PIXELS 0x00112233) 0
  = Some (ppm_header "P6" ++ flat_map rgb (replicate PIXELS 0x00112233)).
Proof.
  split; [apply length_replicate |].
  apply (write_save_buffer_ppm (replicate PIXELS 0x00112233)). apply length_replicate.
Defined.
