(* ===== verification/BtPci.v ===== *)
(** * Bt878 driver, PCI side: btvid3/btvid3.c and btvid3/BTVIDDebug.c

    Finding the bridges and the capture cards on the bus, setting up the
    bridges and the card in configuration space, and checking the BIOS table of
    interrupt routes.  Configuration space is reached by programs of reads and
    writes; [pciFindDevice] is a parameter. *)
From stdpp Require Import option list.
From S2P Require Import Prelude Io.
#[local] Open Scope Z_scope.
#[local] Open Scope c_scope.

(** ** Configuration space *)

(** A location: bus, device, function, offset and width in bytes. *)
Record port := { bus : Z; dev : Z; func : Z; off : Z; width : Z }.

#[global] Instance port_eq_dec : EqDecision port.
Proof. solve_decision. Defined.

Abbreviation io := (io port).

Definition pciConfigInByte (b d f o : Z) : io Z := read (Build_port b d f o 1).
Definition pciConfigInWord (b d f o : Z) : io Z := read (Build_port b d f o 2).
Definition pciConfigInLong (b d f o : Z) : io Z := read (Build_port b d f o 4).
Definition pciConfigOutByte (b d f o v : Z) : io unit := write (Build_port b d f o 1) v.
Definition pciConfigOutWord (b d f o v : Z) : io unit := write (Build_port b d f o 2) v.
Definition pciConfigOutLong (b d f o v : Z) : io unit := write (Build_port b d f o 4) v.

(** Offsets of the configuration header: the operating system's. *)
Record pci_offsets := {
  PCI_CFG_VENDOR_ID : Z; PCI_CFG_DEVICE_ID : Z; PCI_CFG_COMMAND : Z; PCI_CFG_STATUS : Z;
  PCI_CFG_CACHE_LINE_SIZE : Z; PCI_CFG_LATENCY_TIMER : Z; PCI_CFG_BASE_ADDRESS_0 : Z;
  PCI_CFG_DEV_INT_LINE : Z; PCI_CFG_MIN_GRANT : Z; PCI_CFG_MAX_LATENCY : Z
}.

Definition INTEL_VENDOR_ID : Z := 0x8086.
Definition PCI_DEVICE_ID_INTEL_82441FX : Z := 0x1237.
Definition PCI_DEVICE_ID_INTEL_82439TX : Z := 0x7100.
Definition PCI_DEVICE_ID_INTEL_820820 : Z := 0x2501.
Definition PCI_DEVICE_ID_INTEL_82371SB_0 : Z := 0x7000.
Definition PCI_DEVICE_ID_INTEL_82371AB_0 : Z := 0x7110.
Definition PCI_DEVICE_ID_INTEL_82801AA : Z := 0x2410.
Definition PCI_VENDOR_ID_BROOKTREE : Z := 0x109e.
Definition PCI_DEVICE_ID_BT878 : Z := 0x036e.
Definition PCI_CFG_PCI_CTL : Z := 0x50.
Definition PCI_CFG_IRQ_ROUTING : Z := 0x60.
Definition PCI_CFG_APIC_ADDR : Z := 0x80.
Definition PCI_CFG_ARB_CTL : Z := 0x4f.
Definition PCI_CFG_LATENCY_CTL : Z := 0x82.
Definition PCI_CFG_GEN_CNTL : Z := 0xd0.
Definition PCI_CFG_GEN_CNTL_APIC_EN_BIT : Z := 0x100.
Definition BUS_MASTER_MMIO : Z := 0x0006.
Definition BTVID_MMIO_ADDR : Z := 0x04000000.

(** ** Finding the devices *)

Inductive devices := NORTH_BRIDGE | SOUTH_BRIDGE | CAPTURE_VIDEO_CARD1 | CAPTURE_VIDEO_CARD2.

#[global] Instance devices_eq_dec : EqDecision devices.
Proof. solve_decision. Defined.

(** An entry of the list of device types; the description is only printed. *)
Record devtype := { enDevType : devices; uiVenId : Z; uiDevId : Z; bFound : bool }.

Definition asDefDevtype : list devtype :=
  [Build_devtype NORTH_BRIDGE INTEL_VENDOR_ID PCI_DEVICE_ID_INTEL_82441FX false;
   Build_devtype NORTH_BRIDGE INTEL_VENDOR_ID PCI_DEVICE_ID_INTEL_82439TX false;
   Build_devtype NORTH_BRIDGE INTEL_VENDOR_ID PCI_DEVICE_ID_INTEL_820820 false;
   Build_devtype SOUTH_BRIDGE INTEL_VENDOR_ID PCI_DEVICE_ID_INTEL_82371SB_0 false;
   Build_devtype SOUTH_BRIDGE INTEL_VENDOR_ID PCI_DEVICE_ID_INTEL_82371AB_0 false;
   Build_devtype SOUTH_BRIDGE INTEL_VENDOR_ID PCI_DEVICE_ID_INTEL_82801AA false;
   Build_devtype CAPTURE_VIDEO_CARD1 PCI_VENDOR_ID_BROOKTREE PCI_DEVICE_ID_BT878 false;
   Build_devtype CAPTURE_VIDEO_CARD2 PCI_VENDOR_ID_BROOKTREE PCI_DEVICE_ID_BT878 false].

(** The first entry with these identifiers that was not found yet, which is
    marked. *)
Fixpoint FindNextDevTypeInList (uiVendorID uiDeviceID : Z) (l : list devtype)
    : option devices * list devtype :=
  match l with
  | [] => (None, [])
  | e :: l =>
      if (uiVenId e =? uiVendorID) && (uiDevId e =? uiDeviceID) && negb (bFound e)
      then (Some (enDevType e), Build_devtype (enDevType e) (uiVenId e) (uiDevId e) true :: l)
      else let '(r, l) := FindNextDevTypeInList uiVendorID uiDeviceID l in (r, e :: l)
  end.

(** An entry of [PCI_DEV]. *)
Record pci_dev := {
  venId : Z; devId : Z; index : Z; busNo : Z; deviceNo : Z; funcNo : Z; Found : bool
}.

Definition PCI_DEV := devices -> pci_dev.
Definition cleared : pci_dev := Build_pci_dev 0 0 0 0 0 0 false.

(** The identifiers and the place of a device that was found. *)
Definition place (t : devices) (v d b n : Z) (p : PCI_DEV) : PCI_DEV :=
  fun u => if decide (u = t)
           then Build_pci_dev v d (index (p u)) b n (funcNo (p u)) (Found (p u)) else p u.

(** One slot of the scan, given the identifiers read. *)
Definition scan_slot (b n v d : Z) (s : PCI_DEV * list devtype) : PCI_DEV * list devtype :=
  if v =? 0xffff then s
  else
    let '(r, l) := FindNextDevTypeInList v d (snd s) in
    match r with
    | Some t => (place t v d b n (fst s), l)
    | None => (fst s, l)
    end.

Section find.
Context (K : pci_offsets).

(** Function 0 of the 32 devices of a bus. *)
Definition scan_bus (b : Z) (s : PCI_DEV * list devtype) : io (PCI_DEV * list devtype) :=
  for_loop (M := io) 32 0 (fun n s =>
    v ← pciConfigInWord b (Z.of_nat n) 0 (PCI_CFG_VENDOR_ID K);
    d ← pciConfigInWord b (Z.of_nat n) 0 (PCI_CFG_DEVICE_ID K);
    Pure (scan_slot b (Z.of_nat n) v d s)) s.

(** [FillPCIDev]: ten buses. *)
Definition FillPCIDev (p : PCI_DEV) : io PCI_DEV :=
  s ← for_loop (M := io) 10 0 (fun b s => scan_bus (Z.of_nat b) s) (p, asDefDevtype);
  Pure (fst s).

(** [pciFindDevice venId devId index]: bus, device and function of the
    [index]-th device with the identifiers, if there is one. *)
Context (pciFindDevice : Z -> Z -> Z -> option (Z * Z * Z)).

Definition findBusDevFunNo (p : PCI_DEV) : PCI_DEV :=
  fun t =>
    let e := p t in
    match pciFindDevice (venId e) (devId e) (index e) with
    | Some (b, d, f) => Build_pci_dev (venId e) (devId e) (index e) b d f true
    | None => Build_pci_dev (venId e) (devId e) (index e) (busNo e) (deviceNo e) (funcNo e) false
    end.

(** [OK] or [ERROR]. *)
Definition reportDevFoundStatus (p : PCI_DEV) : bool :=
  Found (p NORTH_BRIDGE) && Found (p SOUTH_BRIDGE) && Found (p CAPTURE_VIDEO_CARD1).

Definition initializePCI_DEV : io (PCI_DEV * bool) :=
  p ← FillPCIDev (fun _ => cleared);
  let p := findBusDevFunNo p in
  Pure (p, reportDevFoundStatus p).
End find.

(** ** Setting up the bridges and the card *)

Definition BT878INT : Z := 11.

Section config.
Context (K : pci_offsets) (p : PCI_DEV).

(** [intel_pci_config] for the north bridge. *)
Definition config_north : io unit :=
  let e := p NORTH_BRIDGE in
  let '(b, d, f) := (busNo e, deviceNo e, funcNo e) in
  if devId e =? PCI_DEVICE_ID_INTEL_820820 then Pure tt
  else if devId e =? PCI_DEVICE_ID_INTEL_82441FX then
    _ ← pciConfigInByte b d f (PCI_CFG_LATENCY_TIMER K);
    pciConfigOutByte b d f (PCI_CFG_LATENCY_TIMER K) 0
  else if devId e =? PCI_DEVICE_ID_INTEL_82439TX then
    _ ← pciConfigInByte b d f PCI_CFG_PCI_CTL;
    _ ← pciConfigOutByte b d f PCI_CFG_PCI_CTL 0;
    _ ← pciConfigInByte b d f (PCI_CFG_LATENCY_TIMER K);
    _ ← pciConfigOutByte b d f (PCI_CFG_LATENCY_TIMER K) 0;
    _ ← pciConfigInWord b d f (PCI_CFG_COMMAND K);
    _ ← pciConfigOutWord b d f (PCI_CFG_COMMAND K) 0x0002;
    _ ← pciConfigInWord b d f (PCI_CFG_COMMAND K);
    _ ← pciConfigInByte b d f PCI_CFG_ARB_CTL;
    pciConfigOutByte b d f PCI_CFG_ARB_CTL 0x80
  else Pure tt.

(** The route register written for the two south bridges that have one. *)
Definition route_82371SB (longword : Z) : Z := ((longword .& 0x70FFFFFF) .| (BT878INT .<< 24)) .| 0x80000000.
Definition route_82371AB : Z := 0x00808080 .| (BT878INT .<< 24).

(** [intel_pci_config] for the south bridge. *)
Definition config_south : io unit :=
  let e := p SOUTH_BRIDGE in
  let '(b, d, f) := (busNo e, deviceNo e, funcNo e) in
  if devId e =? PCI_DEVICE_ID_INTEL_82801AA then
    longword ← pciConfigInLong b d f PCI_CFG_GEN_CNTL;
    if negb (longword .& PCI_CFG_GEN_CNTL_APIC_EN_BIT =? 0) then Pure tt
    else
      _ ← pciConfigOutLong b d f PCI_CFG_GEN_CNTL (longword .| PCI_CFG_GEN_CNTL_APIC_EN_BIT);
      _ ← pciConfigInLong b d f PCI_CFG_GEN_CNTL;
      Pure tt
  else if devId e =? PCI_DEVICE_ID_INTEL_82371SB_0 then
    byte ← pciConfigInByte b d f PCI_CFG_LATENCY_CTL;
    _ ← pciConfigOutByte b d f PCI_CFG_LATENCY_CTL (byte .| 0x03);
    _ ← pciConfigInByte b d f PCI_CFG_LATENCY_CTL;
    longword ← pciConfigInLong b d f PCI_CFG_IRQ_ROUTING;
    _ ← pciConfigOutLong b d f PCI_CFG_IRQ_ROUTING (route_82371SB longword);
    _ ← pciConfigInLong b d f PCI_CFG_IRQ_ROUTING;
    Pure tt
  else if devId e =? PCI_DEVICE_ID_INTEL_82371AB_0 then
    byte ← pciConfigInByte b d f PCI_CFG_LATENCY_CTL;
    _ ← pciConfigOutByte b d f PCI_CFG_LATENCY_CTL (byte .| 0x03);
    _ ← pciConfigInLong b d f PCI_CFG_IRQ_ROUTING;
    _ ← pciConfigOutLong b d f PCI_CFG_IRQ_ROUTING route_82371AB;
    _ ← pciConfigInLong b d f PCI_CFG_IRQ_ROUTING;
    _ ← pciConfigInByte b d f PCI_CFG_APIC_ADDR;
    Pure tt
  else Pure tt.

Definition intel_pci_config : io unit := _ ← config_north; config_south.

Definition intel_pci_clear_status : io unit :=
  let e := p NORTH_BRIDGE in
  pciConfigOutWord (busNo e) (deviceNo e) (funcNo e) (PCI_CFG_STATUS K) 0x3000.

(** The tests of a base address register on what it reads after all ones were
    written. *)
Definition BAR_IS_IMPLEMENTED (readback : Z) : bool := negb (readback .& 0xFFFFFFFF =? 0).
Definition BAR_IS_MEM_ADDRESS_DECODER (readback : Z) : bool := readback .& 0x1 =? 0.
Definition BAR_IS_IO_ADDRESS_DECODER (readback : Z) : bool := negb (readback .& 0x0 =? 0).

(** One base address register. *)
Definition config_bar (b d f : Z) (i : nat) : io unit :=
  let ix := PCI_CFG_BASE_ADDRESS_0 K + 4 * Z.of_nat i in
  _ ← pciConfigInLong b d f ix;
  _ ← pciConfigOutLong b d f ix 0xffffffff;
  testval ← pciConfigInLong b d f ix;
  if negb (BAR_IS_IMPLEMENTED testval) then Pure tt
  else if BAR_IS_MEM_ADDRESS_DECODER testval then pciConfigOutLong b d f ix BTVID_MMIO_ADDR
  else Pure tt.

Definition btvid_controller_config : io unit :=
  let e := p CAPTURE_VIDEO_CARD1 in
  let '(b, d, f) := (busNo e, deviceNo e, funcNo e) in
  _ ← pciConfigOutWord b d f (PCI_CFG_COMMAND K) 0;
  _ ← for_loop (M := io) 6 0 (fun i _ => config_bar b d f i) tt;
  _ ← pciConfigInByte b d f (PCI_CFG_DEV_INT_LINE K);
  _ ← pciConfigOutByte b d f (PCI_CFG_DEV_INT_LINE K) BT878INT;
  _ ← pciConfigInByte b d f (PCI_CFG_DEV_INT_LINE K);
  _ ← pciConfigOutByte b d f (PCI_CFG_CACHE_LINE_SIZE K) 0;
  _ ← pciConfigInByte b d f (PCI_CFG_LATENCY_TIMER K);
  _ ← pciConfigInByte b d f (PCI_CFG_MIN_GRANT K);
  _ ← pciConfigInByte b d f (PCI_CFG_MAX_LATENCY K);
  _ ← pciConfigOutByte b d f (PCI_CFG_LATENCY_TIMER K) 0xFF;
  _ ← pciConfigInByte b d f (PCI_CFG_LATENCY_TIMER K);
  pciConfigOutWord b d f (PCI_CFG_COMMAND K) BUS_MASTER_MMIO.
End config.

(** [baseAddressRegisterSizeOfDecodeSpace]: the loop, which shifts an [int]
    right; without a bit set the function ends without a value. *)
Fixpoint decode_space_loop (n : nat) (tmp bitpos : Z) : option Z :=
  match n with
  | O => None
  | S n =>
      if negb (tmp .& 0x1 =? 0) then Some bitpos
      else decode_space_loop n (tmp .>> 1) (bitpos + 1)
  end.

Definition baseAddressRegisterSizeOfDecodeSpace (returnval : Z) : option Z :=
  decode_space_loop 32 (swrap 32 (returnval .& 0xFFFFFFF0)) 0.

(** ** Routes of interrupts *)

(** The tests of a byte of the route register. *)
Definition PCI_CFG_IRQ_ROUTING_ENABLED (readback : Z) : bool := readback .>> 7 =? 0.
Definition PCI_CFG_IRQ_LINE_TO_IRQ (readback : Z) : Z := readback .& 0x0F.

(** The byte of a pin, A to D from 0 to 3, in the route register. *)
Definition pin_byte (longword pin : Z) : Z := (longword .>> (8 * pin)) .& 0xFF.

Section table.
(** Physical memory, by bytes. *)
Context (mem : Z -> Z).

Definition mem_word (a : Z) : Z := mem a .| (mem (a + 1) .<< 8).
Definition mem_dword (a : Z) : Z := mem_word a .| (mem_word (a + 2) .<< 16).

Definition PCI_ROUTING_TABLE_SIGNATURE : Z := 0x52495024.

(** [wVersion] is at offset 4 of the table and [wTableSize] at 6. *)
Definition VerifyPCIIntRoutingTable (a : Z) : bool :=
  let size := mem_word (a + 6) in
  (mem_word (a + 4) =? 0x100) && (32 <? size) && (size mod 16 =? 0) &&
  (fold_left (fun checksum i => wrap 8 (checksum + mem (a + Z.of_nat i)))
             (seq 0 (Z.to_nat size)) 0 =? 0).

(** [findAndDecodePCIInterruptRoutingTable]: the pointer advances by four words;
    the tables it found, [OK] being a list that is not empty. *)
Fixpoint find_tables (n : nat) (i : Z) : list Z :=
  match n with
  | O => []
  | S n =>
      if i <? 0x100000 then
        (if (mem_dword i =? PCI_ROUTING_TABLE_SIGNATURE) && VerifyPCIIntRoutingTable i
         then [i] else []) ++ find_tables n (i + 16)
      else []
  end.

Definition findAndDecodePCIInterruptRoutingTable : list Z := find_tables 4097 0xF0000.
End table.

(** ** Proofs: the scan *)

(** The slots in the order of the scan. *)
Definition slots : list (Z * Z) :=
  flat_map (fun b => map (fun n => (Z.of_nat b, Z.of_nat n)) (seq 0 32)) (seq 0 10).

Section scan.
Context `{device port D} (K : pci_offsets) (ven devi : Z * Z -> Z).

(** The bus: what function 0 of every slot answers. *)
Context (Hven : forall d b n, fst (dev_read (Build_port b n 0 (PCI_CFG_VENDOR_ID K) 2) d) = ven (b, n)).
Context (Hdev : forall d b n, fst (dev_read (Build_port b n 0 (PCI_CFG_DEVICE_ID K) 2) d) = devi (b, n)).

Definition scan (l : list (Z * Z)) (s : PCI_DEV * list devtype) : PCI_DEV * list devtype :=
  fold_left (fun s bn => scan_slot (fst bn) (snd bn) (ven bn) (devi bn) s) l s.

(** The scan is a fold over the slots, whatever else the device does. *)
Lemma run_scan_bus b k n s (d : D) :
  exists d', run (for_loop (M := io) n k (fun n s =>
      v ← pciConfigInWord b (Z.of_nat n) 0 (PCI_CFG_VENDOR_ID K);
      w ← pciConfigInWord b (Z.of_nat n) 0 (PCI_CFG_DEVICE_ID K);
      Pure (scan_slot b (Z.of_nat n) v w s)) s) d
    = Some ([], scan (map (fun n => (b, Z.of_nat n)) (seq k n)) s, d').
Proof.
  revert k s d; induction n as [|n IH]; intros k s d; [by exists d|].
  cbn [for_loop seq map scan fold_left]. rewrite Nat.add_1_r.
  cbn [mbind io_bind pciConfigInWord read run].
  pose proof (Hven d b (Z.of_nat k)) as H1. destruct (dev_read _ d) as [v d1]. cbn in H1. subst v.
  pose proof (Hdev d1 b (Z.of_nat k)) as H2. destruct (dev_read _ d1) as [w d2]. cbn in H2. subst w.
  apply IH.
Qed.

Lemma run_bus b s (d : D) :
  exists d', run (scan_bus K b s) d
    = Some ([], scan (map (fun n => (b, Z.of_nat n)) (seq 0 32)) s, d').
Proof. exact (run_scan_bus b 0 32 s d). Qed.

Lemma run_scan k n s (d : D) :
  exists d', run (for_loop (M := io) n k (fun b s => scan_bus K (Z.of_nat b) s) s) d
    = Some ([], scan (flat_map (fun b => map (fun n => (Z.of_nat b, Z.of_nat n)) (seq 0 32))
                        (seq k n)) s, d').
Proof.
  revert k s d; induction n as [|n IH]; intros k s d; [by exists d|].
  cbn [for_loop]. rewrite Nat.add_1_r, run_bind.
  destruct (run_bus (Z.of_nat k) s d) as [d1 H1]. rewrite H1.
  step_run. change (seq k (S n)) with (k :: seq (S k) n). cbn [flat_map].
  unfold scan. rewrite fold_left_app. fold (scan (map (fun n => (Z.of_nat k, Z.of_nat n)) (seq 0 32)) s).
  destruct (IH (S k) (scan (map (fun n => (Z.of_nat k, Z.of_nat n)) (seq 0 32)) s) d1) as [d2 H2].
  exists d2. unfold scan in *. by rewrite H2.
Qed.

Lemma run_FillPCIDev p (d : D) :
  exists d', run (FillPCIDev K p) d = Some ([], fst (scan slots (p, asDefDevtype)), d').
Proof.
  unfold FillPCIDev. rewrite run_bind.
  destruct (run_scan 0 10 (p, asDefDevtype) d) as [d1 H1]. rewrite H1. by exists d1.
Qed.
End scan.

(** ** Proofs: the cards *)

(** The part of the list of types for the bridges. *)
Definition bridge (e : devtype) : Prop :=
  uiVenId e = INTEL_VENDOR_ID /\ (enDevType e = NORTH_BRIDGE \/ enDevType e = SOUTH_BRIDGE).

Definition card (t : devices) (f : bool) : devtype :=
  Build_devtype t PCI_VENDOR_ID_BROOKTREE PCI_DEVICE_ID_BT878 f.

Definition is_card (v d : Z) : bool := (v =? PCI_VENDOR_ID_BROOKTREE) && (d =? PCI_DEVICE_ID_BT878).

(** Which card a search finds, and what it marks. *)
Lemma find_card bs f1 f2 :
  Forall bridge bs ->
  FindNextDevTypeInList PCI_VENDOR_ID_BROOKTREE PCI_DEVICE_ID_BT878
    (bs ++ [card CAPTURE_VIDEO_CARD1 f1; card CAPTURE_VIDEO_CARD2 f2])
  = (if f1 then if f2 then None else Some CAPTURE_VIDEO_CARD2 else Some CAPTURE_VIDEO_CARD1,
     bs ++ [card CAPTURE_VIDEO_CARD1 true; card CAPTURE_VIDEO_CARD2 (f1 || f2)]).
Proof.
  induction 1 as [|e bs [He _] _ IH].
  - by destruct f1, f2.
  - cbn [FindNextDevTypeInList app]. rewrite He.
    change (INTEL_VENDOR_ID =? PCI_VENDOR_ID_BROOKTREE) with false. cbn [andb]. by rewrite IH.
Qed.

(** A search for anything else leaves the cards alone. *)
Lemma find_other v d bs cs :
  is_card v d = false -> Forall bridge bs -> Forall (fun e => exists t f, e = card t f) cs ->
  exists r bs', FindNextDevTypeInList v d (bs ++ cs) = (r, bs' ++ cs) /\ Forall bridge bs' /\
    (forall t, r = Some t -> t = NORTH_BRIDGE \/ t = SOUTH_BRIDGE).
Proof.
  intros Hv Hb Hc. induction Hb as [|e bs He Hb IH].
  - exists None, []. cbn [app]. split; [|split; [constructor | done]].
    induction Hc as [|e cs (t & f & ->) _ IH]; [done|]. cbn [FindNextDevTypeInList card uiVenId uiDevId].
    unfold is_card in Hv. rewrite (Z.eqb_sym v), (Z.eqb_sym d) in Hv. rewrite Hv. cbn [andb].
    by rewrite IH.
  - destruct IH as (r & bs' & H1 & H2 & H3). cbn [FindNextDevTypeInList app].
    destruct (_ && _ && _).
    + eexists (Some _), (_ :: bs). split; [done|]. split.
      * constructor; [|done]. destruct He. by split.
      * intros t [= <-]. by destruct He.
    + rewrite H1. exists r, (e :: bs'). split; [done|]. split; [by constructor | done].
Qed.

Section cards.
Context (ven devi : Z * Z -> Z).

Definition cards (l : list (Z * Z)) : list (Z * Z) :=
  List.filter (fun bn => is_card (ven bn) (devi bn)) l.

(** What the entry of a card is, given the slot it was found in. *)
Definition entry (o : option (Z * Z)) : pci_dev :=
  match o with
  | None => cleared
  | Some (b, n) => Build_pci_dev PCI_VENDOR_ID_BROOKTREE PCI_DEVICE_ID_BT878 0 b n 0 false
  end.

Lemma scan_cards l :
  exists bs, Forall bridge bs /\
    let s := scan ven devi l (fun _ => cleared, asDefDevtype) in
    snd s = bs ++ [card CAPTURE_VIDEO_CARD1 (0 <? length (cards l))%nat;
                   card CAPTURE_VIDEO_CARD2 (1 <? length (cards l))%nat] /\
    fst s CAPTURE_VIDEO_CARD1 = entry (cards l !! 0%nat) /\
    fst s CAPTURE_VIDEO_CARD2 = entry (cards l !! 1%nat).
Proof.
  induction l as [|bn l IH] using rev_ind.
  - exists (take 6 asDefDevtype). split; [by repeat constructor; auto |]. by repeat split.
  - destruct IH as (bs & Hb & Hs & H1 & H2). unfold scan, cards in *. cbv zeta in *.
    rewrite fold_left_app, List.filter_app. cbn [fold_left List.filter].
    set (s := fold_left _ l _) in *. unfold scan_slot.
    destruct (is_card (ven bn) (devi bn)) eqn:Hc.
    + unfold is_card in Hc. apply andb_prop in Hc as [->%Z.eqb_eq ->%Z.eqb_eq].
      change (PCI_VENDOR_ID_BROOKTREE =? 0xffff) with false. cbv iota. rewrite Hs, find_card by done.
      exists bs. split; [done|]. rewrite length_app. cbn [length].
      destruct (List.filter _ l) as [|c1 [|c2 cs]]; cbn in H1, H2 |- *;
        rewrite ?decide_True, ?decide_False by done; cbn;
        unfold place; cbn; rewrite ?H1, ?H2; destruct bn; repeat split; cbn; try done;
        rewrite ?Nat.add_1_r; done.
    + rewrite app_nil_r. destruct (ven bn =? 0xffff); [by exists bs|].
      destruct (find_other (ven bn) (devi bn) bs
        [card CAPTURE_VIDEO_CARD1 (0 <? length (List.filter (fun bn => is_card (ven bn) (devi bn)) l))%nat;
         card CAPTURE_VIDEO_CARD2 (1 <? length (List.filter (fun bn => is_card (ven bn) (devi bn)) l))%nat])
        as (r & bs' & Hf & Hb' & Hr); [done | done | by repeat constructor; eauto |].
      rewrite Hs, Hf. exists bs'. split; [done|].
      destruct r as [t|]; [|done]. cbn. unfold place.
      destruct (Hr t eq_refl) as [-> | ->]; cbn; rewrite !decide_False by done; done.
Qed.
End cards.

(** Whatever is on the bus, [FillPCIDev] only reads, and records as first and second capture card the first and second slots of the scan (buses 0 to 9, devices 0 to 31, function 0) with the identifiers of a Bt878, and nothing where there is none. *)
Theorem FillPCIDev_cards `{device port D} K ven devi (d : D) :
  (forall d b n, fst (dev_read (Build_port b n 0 (PCI_CFG_VENDOR_ID K) 2) d) = ven (b, n)) ->
  (forall d b n, fst (dev_read (Build_port b n 0 (PCI_CFG_DEVICE_ID K) 2) d) = devi (b, n)) ->
  exists p d', run (FillPCIDev K (fun _ => cleared)) d = Some ([], p, d') /\
    p CAPTURE_VIDEO_CARD1 = entry (cards ven devi slots !! 0%nat) /\
    p CAPTURE_VIDEO_CARD2 = entry (cards ven devi slots !! 1%nat).
Proof.
  intros Hv Hd. destruct (run_FillPCIDev K ven devi Hv Hd (fun _ => cleared) d) as [d' Hr].
  destruct (scan_cards ven devi slots) as (bs & _ & _ & H1 & H2). by eexists _, d'.
Qed.

(** With two cards in the machine both entries end up with the place of the
    same one: [findBusDevFunNo] asks [pciFindDevice] for index 0 twice. *)
Theorem second_card_is_first `{device port D} K find ven devi (d : D) b dv f c1 c2 cs :
  (forall d b n, fst (dev_read (Build_port b n 0 (PCI_CFG_VENDOR_ID K) 2) d) = ven (b, n)) ->
  (forall d b n, fst (dev_read (Build_port b n 0 (PCI_CFG_DEVICE_ID K) 2) d) = devi (b, n)) ->
  cards ven devi slots = c1 :: c2 :: cs ->
  find PCI_VENDOR_ID_BROOKTREE PCI_DEVICE_ID_BT878 0 = Some (b, dv, f) ->
  exists p ok d', run (initializePCI_DEV K find) d = Some ([], (p, ok), d') /\
    p CAPTURE_VIDEO_CARD1 = Build_pci_dev PCI_VENDOR_ID_BROOKTREE PCI_DEVICE_ID_BT878 0 b dv f true /\
    p CAPTURE_VIDEO_CARD2 = p CAPTURE_VIDEO_CARD1.
Proof.
  intros Hv Hd Hc Hf. unfold initializePCI_DEV.
  destruct (run_FillPCIDev K ven devi Hv Hd (fun _ => cleared) d) as [d' Hr].
  destruct (scan_cards ven devi slots) as (bs & _ & _ & H1 & H2). cbv zeta in H1, H2.
  rewrite run_bind, Hr. clear Hr. set (p := fst (scan _ _ _ _)) in *. clearbody p.
  rewrite Hc in H1, H2. cbn in H1, H2. destruct c1 as [b1 n1], c2 as [b2 n2].
  eexists _, _, d'. split; [reflexivity|].
  unfold findBusDevFunNo. rewrite H1, H2. cbn. by rewrite Hf.
Qed.

(** ** Proofs: routes *)

(** The route register the driver writes for the 82371SB: the bytes of pins A
    to C as they were, that of pin D with IRQ 11 and disabled. *)
Theorem route_82371SB_pins lw :
  in_range 32 lw ->
  (forall k, 0 <= k < 3 -> pin_byte (route_82371SB lw) k = pin_byte lw k) /\
  PCI_CFG_IRQ_ROUTING_ENABLED (pin_byte (route_82371SB lw) 3) = false /\
  PCI_CFG_IRQ_LINE_TO_IRQ (pin_byte (route_82371SB lw) 3) = BT878INT.
Proof.
  intros Hlw. split; [|split].
  - intros k Hk. unfold pin_byte, route_82371SB. apply Z.bits_inj'; intros i Hi.
    rewrite !Z.land_spec. destruct (Z.ltb_spec i 8) as [Hi8 | Hi8].
    + f_equal. rewrite !Z.shiftr_spec, !Z.lor_spec, Z.land_spec by lia.
      assert (Hm : forallb (fun j => negb (Z.testbit 0x80000000 j)
        && negb (Z.testbit (BT878INT .<< 24) j) && Z.testbit 0x70FFFFFF j) (seqZ 0 24) = true)
        by reflexivity.
      rewrite forallb_forall in Hm. specialize (Hm (i + 8 * k)).
      assert (Hin : In (i + 8 * k) (seqZ 0 24)).
      { apply list_elem_of_In, elem_of_seqZ. lia. }
      apply Hm in Hin. apply andb_prop in Hin as [[H1 H2]%andb_prop H3].
      apply negb_true_iff in H1, H2. rewrite H1, H2, H3. by rewrite andb_true_r, !orb_false_r.
    + assert (Z.testbit 0xFF i = false) as ->.
      { apply Z.bits_above_log2; [lia|]. change (Z.log2 0xFF) with 7. lia. }
      by rewrite !andb_false_r.
  - unfold PCI_CFG_IRQ_ROUTING_ENABLED, pin_byte, route_82371SB. apply Z.eqb_neq. intros He.
    apply (f_equal (fun z => Z.testbit z 0)) in He.
    rewrite Z.shiftr_spec, Z.land_spec, Z.shiftr_spec, Z.lor_spec, Z.bits_0 in He by lia.
    change (Z.testbit 0x80000000 (0 + 7 + 8 * 3)) with true in He.
    rewrite orb_true_r in He. discriminate He.
  - unfold PCI_CFG_IRQ_LINE_TO_IRQ, pin_byte, route_82371SB.
    apply Z.bits_inj'; intros i Hi. rewrite !Z.land_spec.
    destruct (Z.ltb_spec i 4) as [Hi4 | Hi4].
    + rewrite Z.shiftr_spec, !Z.lor_spec, Z.land_spec by lia.
      assert (i = 0 \/ i = 1 \/ i = 2 \/ i = 3) as [-> | [-> | [-> | ->]]] by lia;
        cbn [Z.add Z.mul]; rewrite andb_false_r; reflexivity.
    + assert (Z.testbit 0x0F i = false) as ->.
      { apply Z.bits_above_log2; [lia|]. change (Z.log2 0x0F) with 3. lia. }
      rewrite andb_false_r. symmetry. apply Z.bits_above_log2; [done|].
      change (Z.log2 BT878INT) with 3. lia.
Qed.

(** For the 82371AB it disables pins A to C and routes pin D to IRQ 11. *)
Theorem route_82371AB_pins :
  map (fun k => PCI_CFG_IRQ_ROUTING_ENABLED (pin_byte route_82371AB k)) [0; 1; 2; 3]
  = [false; false; false; true] /\
  PCI_CFG_IRQ_LINE_TO_IRQ (pin_byte route_82371AB 3) = BT878INT.
Proof. done. Qed.

(** ** Proofs: the card's configuration *)

Lemma within_config_bar `{device port D} K b d f i :
  within (fun w => w.1 = Build_port b d f (PCI_CFG_BASE_ADDRESS_0 K + 4 * Z.of_nat i) 4 /\
                   (w.2 = 0xffffffff \/ w.2 = BTVID_MMIO_ADDR)) (config_bar K b d f i).
Proof.
  unfold config_bar. apply within_read; intros _.
  apply within_bind; [apply within_write; auto | intros _].
  apply within_read; intros t. destruct (negb _); [apply within_pure |].
  destruct (BAR_IS_MEM_ADDRESS_DECODER t); [apply within_write; auto | apply within_pure].
Qed.

(** On every device the card is disabled by the first write of [btvid_controller_config] and enabled as bus master by the last, no write between them touches its command register, and the address registers are only given all ones or the driver's address. *)
Theorem controller_disabled_while_configured `{device port D} K p (d0 : D) :
  let e := p CAPTURE_VIDEO_CARD1 in
  let command := Build_port (busNo e) (deviceNo e) (funcNo e) (PCI_CFG_COMMAND K) 2 in
  exists l d1, run (btvid_controller_config K p) d0
    = Some ((command, 0) :: l ++ [(command, BUS_MASTER_MMIO)], tt, d1) /\
    Forall (fun w => w.1 <> command /\
      (width w.1 = 4 -> w.2 = 0xffffffff \/ w.2 = BTVID_MMIO_ADDR)) l.
Proof.
  intros e command. unfold btvid_controller_config. cbv zeta. fold e.
  set (Q := fun w : port * Z => w.1 <> command /\
    (width w.1 = 4 -> w.2 = 0xffffffff \/ w.2 = BTVID_MMIO_ADDR)).
  assert (Hbyte : forall o v, within Q (pciConfigOutByte (busNo e) (deviceNo e) (funcNo e) o v)).
  { intros o v. apply within_write. by split. }
  assert (Hbars : within Q (for_loop (M := io) 6 0
    (fun i _ => config_bar K (busNo e) (deviceNo e) (funcNo e) i) tt)).
  { apply within_for_loop. intros j _ d. destruct (within_config_bar K (busNo e) (deviceNo e) (funcNo e) j d)
      as (l & a & d' & Hr & Hl). exists l, a, d'. split; [exact Hr|].
    eapply List.Forall_impl; [| exact Hl]. intros [q v] [H1 H2]. cbn in *. subst q. split; [done | auto]. }
  assert (Hread : forall o, within Q (pciConfigInByte (busNo e) (deviceNo e) (funcNo e) o)).
  { intros o. apply within_read. intros v. apply within_pure. }
  rewrite run_bind. cbn [pciConfigOutWord write run]. step_run.
  match goal with |- context [run ?c (dev_write _ _ d0)] =>
    assert (Hc : ends_with Q (command, BUS_MASTER_MMIO) c) end.
  { apply ends_with_bind; [exact Hbars | intros _].
    repeat (apply ends_with_bind; [first [apply Hread | apply Hbyte] | intros _]).
    apply ends_with_write. }
  destruct (Hc (dev_write command 0 d0)) as (l & d1 & Hr & Hl).
  exists l, d1. step_run. fold command. rewrite Hr. by split.
Qed.

(** ** Proofs: the size of a decoded space *)

Lemma decode_space_first n t b k :
  0 <= k < Z.of_nat n -> Z.testbit t k = true -> (forall j, 0 <= j < k -> Z.testbit t j = false) ->
  decode_space_loop n t b = Some (b + k).
Proof.
  revert t b k. induction n as [|n IH]; intros t b k Hk Ht Hlow; [lia|]. cbn [decode_space_loop].
  assert (H1 : t .& 0x1 = Z.b2z (Z.testbit t 0)).
  { change 0x1 with (Z.ones 1). rewrite Z.land_ones by lia. change (2 ^ 1) with 2.
    rewrite <- Z.bit0_mod. by destruct (Z.testbit t 0). }
  rewrite H1. destruct (decide (k = 0)) as [-> | Hne].
  - rewrite Ht. cbn. f_equal. lia.
  - rewrite Hlow by lia. cbn [Z.b2z Z.eqb negb].
    rewrite (IH _ _ (k - 1)); [f_equal; lia | lia | |].
    + rewrite Z.shiftr_spec by lia. by replace (k - 1 + 1) with k by lia.
    + intros j Hj. rewrite Z.shiftr_spec by lia. apply Hlow. lia.
Qed.

Lemma decode_space_none n t b :
  (forall j, 0 <= j < Z.of_nat n -> Z.testbit t j = false) -> decode_space_loop n t b = None.
Proof.
  revert t b. induction n as [|n IH]; intros t b H; [done|]. cbn [decode_space_loop].
  assert (H1 : t .& 0x1 = Z.b2z (Z.testbit t 0)).
  { change 0x1 with (Z.ones 1). rewrite Z.land_ones by lia. change (2 ^ 1) with 2.
    rewrite <- Z.bit0_mod. by destruct (Z.testbit t 0). }
  rewrite H1, H by lia. cbn [Z.b2z Z.eqb negb]. apply IH. intros j Hj.
  rewrite Z.shiftr_spec by lia. apply H. lia.
Qed.

Lemma swrap_testbit z i : 0 <= i < 32 -> Z.testbit (swrap 32 z) i = Z.testbit z i.
Proof.
  intros Hi. pose proof (wrap_swrap 32 32 z ltac:(lia)) as H.
  apply (f_equal (fun x => Z.testbit x i)) in H. rewrite !wrap_testbit in H by lia.
  by rewrite (proj2 (Z.ltb_lt i 32)) in H by lia.
Qed.

(** [baseAddressRegisterSizeOfDecodeSpace] gives the position of the lowest bit
    set in bits 4 to 31, and has no value when there is none. *)
Theorem decode_space_lowest_bit v :
  (forall k, baseAddressRegisterSizeOfDecodeSpace v = Some k ->
     4 <= k < 32 /\ Z.testbit v k = true /\ forall j, 4 <= j < k -> Z.testbit v j = false) /\
  (baseAddressRegisterSizeOfDecodeSpace v = None -> forall j, 4 <= j < 32 -> Z.testbit v j = false).
Proof.
  set (t := swrap 32 (v .& 0xFFFFFFF0)).
  assert (Hb : forall j, 0 <= j < 32 -> Z.testbit t j = (4 <=? j) && Z.testbit v j).
  { intros j Hj. subst t. rewrite swrap_testbit, Z.land_spec, andb_comm by done. f_equal.
    assert (Hm : forallb (fun j => Bool.eqb (Z.testbit 0xFFFFFFF0 j) (4 <=? j)) (seqZ 0 32) = true)
      by reflexivity.
    rewrite forallb_forall in Hm. apply eqb_prop, Hm, list_elem_of_In, elem_of_seqZ. lia. }
  assert (Hcase : (exists k, 0 <= k < 32 /\ Z.testbit t k = true /\
                     forall j, 0 <= j < k -> Z.testbit t j = false)
                  \/ forall j, 0 <= j < 32 -> Z.testbit t j = false).
  { clear Hb. enough (He : forall n, (n <= 32)%nat ->
      (exists k, 0 <= k < Z.of_nat n /\ Z.testbit t k = true /\
         forall j, 0 <= j < k -> Z.testbit t j = false)
      \/ forall j, 0 <= j < Z.of_nat n -> Z.testbit t j = false) by exact (He 32%nat ltac:(lia)).
    induction n as [|n IH]; intros Hn; [right; lia|]. destruct IH as [(k & Hk & H) | IH]; [lia | |].
    - left. exists k. split; [lia | exact H].
    - destruct (Z.testbit t (Z.of_nat n)) eqn:Ht.
      + left. exists (Z.of_nat n). split; [lia | by split].
      + right. intros j Hj. destruct (decide (j = Z.of_nat n)) as [-> |]; [done|]. apply IH. lia. }
  unfold baseAddressRegisterSizeOfDecodeSpace. fold t. destruct Hcase as [(k & Hk & Ht & Hlow) | Hno].
  - rewrite (decode_space_first 32 t 0 k Hk Ht Hlow). split; [|done]. intros ? [= <-].
    rewrite Hb in Ht by lia. apply andb_prop in Ht as [Hk4%Z.leb_le Hv].
    split; [lia|]. split; [exact Hv|]. intros j Hj. specialize (Hlow j ltac:(lia)).
    rewrite Hb in Hlow by lia. by rewrite (proj2 (Z.leb_le 4 j)) in Hlow by lia.
  - rewrite (decode_space_none 32 t 0 Hno). split; [done|]. intros _ j Hj.
    specialize (Hno j ltac:(lia)). rewrite Hb in Hno by lia.
    by rewrite (proj2 (Z.leb_le 4 j)) in Hno by lia.
Qed.

(** ** Proofs: the table of interrupt routes *)

Lemma checksum_sum (mem : Z -> Z) a n :
  fold_left (fun c i => wrap 8 (c + mem (a + Z.of_nat i))) (seq 0 n) 0
  = zsum n (fun i => mem (a + Z.of_nat i)) mod 256.
Proof.
  induction n as [|n IH]; [done|]. rewrite seq_S, fold_left_app, IH. cbn [fold_left zsum Nat.add].
  unfold wrap. change (2 ^ 8) with 256. by rewrite Zplus_mod_idemp_l.
Qed.

(** The search of the BIOS area finds exactly the tables of interrupt routes: every address from 0xF0000 below 0x100000 that is a multiple of 16 from there, carries the signature and version 1.0, and whose size is a multiple of 16 above 32 and bytes add up to 0 modulo 256. *)
Theorem find_tables_exact mem a :
  In a (findAndDecodePCIInterruptRoutingTable mem) <->
  (exists k, 0 <= k < 4096 /\ a = 0xF0000 + 16 * k) /\
  mem_dword mem a = PCI_ROUTING_TABLE_SIGNATURE /\
  mem_word mem (a + 4) = 0x100 /\ 32 < mem_word mem (a + 6) /\ mem_word mem (a + 6) mod 16 = 0 /\
  zsum (Z.to_nat (mem_word mem (a + 6))) (fun i => mem (a + Z.of_nat i)) mod 256 = 0.
Proof.
  assert (Hv : forall a, VerifyPCIIntRoutingTable mem a = true <->
    mem_word mem (a + 4) = 0x100 /\ 32 < mem_word mem (a + 6) /\ mem_word mem (a + 6) mod 16 = 0 /\
    zsum (Z.to_nat (mem_word mem (a + 6))) (fun i => mem (a + Z.of_nat i)) mod 256 = 0).
  { intros b. unfold VerifyPCIIntRoutingTable. cbv zeta. rewrite checksum_sum.
    rewrite !andb_true_iff, !Z.eqb_eq, Z.ltb_lt. tauto. }
  assert (Hf : forall n i, In a (find_tables mem n i) <->
    (exists k, 0 <= k < Z.of_nat n /\ a = i + 16 * k) /\ a < 0x100000 /\
    mem_dword mem a = PCI_ROUTING_TABLE_SIGNATURE /\ VerifyPCIIntRoutingTable mem a = true).
  { induction n as [|n IH]; intros i; cbn [find_tables].
    - split; [done | intros ((k & Hk & _) & _); lia].
    - destruct (Z.ltb_spec i 0x100000) as [Hi | Hi].
      + rewrite in_app_iff, IH. split.
        * intros [Hin | ((k & Hk & ->) & H)].
          -- destruct (_ && _) eqn:Hb; [|done]. destruct Hin as [<- | []].
             apply andb_prop in Hb as [H1%Z.eqb_eq H2]. split; [exists 0; lia | auto].
          -- split; [exists (k + 1); lia | exact H].
        * intros ((k & Hk & ->) & Hlt & H1 & H2). destruct (decide (k = 0)) as [-> | Hk0].
          -- left. rewrite Z.mul_0_r, Z.add_0_r in *. rewrite H1, H2, Z.eqb_refl. cbn. auto.
          -- right. split; [exists (k - 1); lia | auto].
      + split; [done|]. intros ((k & Hk & ->) & Hlt & _). lia. }
  unfold findAndDecodePCIInterruptRoutingTable. rewrite Hf, Hv. split.
  - intros ((k & Hk & ->) & Hlt & H). split; [exists k; lia | tauto].
  - intros ((k & Hk & ->) & H). split; [exists k; lia | split; [lia | tauto]].
Qed.

(** ** Examples *)

(** No base address register is ever taken for an I/O decoder. *)
Example bar_never_io v : BAR_IS_IO_ADDRESS_DECODER v = false.
Proof. unfold BAR_IS_IO_ADDRESS_DECODER. by rewrite Z.land_0_r. Qed.

(** A bus with a bridge in slot 0:0, two capture cards in 0:9 and 1:11, and
    nothing else. *)
#[local] Instance sample_bus : device port unit := {
  dev_read q _ :=
    (match bus q, dev q with
     | 0, 0 => if off q =? 0 then INTEL_VENDOR_ID else PCI_DEVICE_ID_INTEL_82439TX
     | 0, 9 | 1, 11 => if off q =? 0 then PCI_VENDOR_ID_BROOKTREE else PCI_DEVICE_ID_BT878
     | _, _ => 0xffff
     end, tt);
  dev_write q v _ := tt
}.

Definition sample_offsets : pci_offsets :=
  {| PCI_CFG_VENDOR_ID := 0; PCI_CFG_DEVICE_ID := 2; PCI_CFG_COMMAND := 4; PCI_CFG_STATUS := 6;
     PCI_CFG_CACHE_LINE_SIZE := 0x0c; PCI_CFG_LATENCY_TIMER := 0x0d;
     PCI_CFG_BASE_ADDRESS_0 := 0x10; PCI_CFG_DEV_INT_LINE := 0x3c; PCI_CFG_MIN_GRANT := 0x3e;
     PCI_CFG_MAX_LATENCY := 0x3f |}.

Definition sample_ven (s : Z * Z) : Z := fst (dev_read (Build_port (fst s) (snd s) 0 0 2) tt).
Definition sample_dev (s : Z * Z) : Z := fst (dev_read (Build_port (fst s) (snd s) 0 2 2) tt).

Lemma FillPCIDev_cards_witness :
  exists p d', run (FillPCIDev sample_offsets (fun _ => cleared)) tt = Some ([], p, d') /\
    p CAPTURE_VIDEO_CARD1 = entry (Some (0, 9)) /\ p CAPTURE_VIDEO_CARD2 = entry (Some (1, 11)).
Proof.
  destruct (FillPCIDev_cards sample_offsets sample_ven sample_dev tt) as (p & d' & Hr & H1 & H2);
    [intros [] b n; reflexivity.. |].
  exists p, d'. split; [exact Hr |].
  assert (Hc : cards sample_ven sample_dev slots = [(0, 9); (1, 11)]) by (vm_compute; reflexivity).
  rewrite Hc in H1, H2. split; assumption.
Defined.
