(* ===== verification/Es1938.v ===== *)
(** * ESS Solo-1 sound driver: ESS_Sound/es1938.cpp

    The functions of the driver are programs of accesses to the registers of the
    card, to its configuration space, and of calls of the operating system.
    The card's state is the record the driver allocates for it.  The sound and
    PCI layers (VxSound, VxPCI) are not in the repository: what they return is
    a parameter, or an answer of the device.  Locks and messages are left out. *)
From stdpp Require Import option list sets.
From S2P Require Import Prelude Io.
#[local] Open Scope Z_scope.
#[local] Open Scope c_scope.

(** ** Registers and calls *)

(** The three blocks of ports the driver reaches. *)
Inductive block := io_port | sb_port | ddma_port.

(** The calls whose results matter or whose arguments do; the resources of the
    card are the five ranges of ports of its configuration. *)
Inductive call :=
  | pci_enable_device | pci_disable_device | pci_set_dma_mask | pci_set_consistent_dma_mask
  | kcalloc | kfree | pci_request_regions | pci_resource_start (i : Z) | pci_resource_flags (i : Z)
  | request_irq | free_irq | pci_set_master | snd_device_new
  | snd_card_new | snd_card_free | snd_pcm_new | snd_card_register.

(** A register with the width of the access, a location of the card's
    configuration space, or a call: reading one is calling for its result,
    writing one is calling with that argument for no result.  Writing [Delay] is
    waiting for so many microseconds. *)
Inductive port :=
  | Reg (b : block) (off width : Z)
  | Config (off width : Z)
  | Call (f : call)
  | Delay.

#[global] Instance block_eq_dec : EqDecision block.
Proof. solve_decision. Defined.
#[global] Instance call_eq_dec : EqDecision call.
Proof. solve_decision. Defined.
#[global] Instance port_eq_dec : EqDecision port.
Proof. solve_decision. Defined.

Abbreviation io := (io port).

Definition inb (r : block * Z) : io Z := v ← read (Reg r.1 r.2 1); Pure (u8 v).
Definition inw (r : block * Z) : io Z := v ← read (Reg r.1 r.2 2); Pure (u16 v).
Definition outb (v : Z) (r : block * Z) : io unit := write (Reg r.1 r.2 1) (u8 v).
Definition outw (v : Z) (r : block * Z) : io unit := write (Reg r.1 r.2 2) (u16 v).
Definition outl (v : Z) (r : block * Z) : io unit := write (Reg r.1 r.2 4) (u32 v).
Definition result_of (f : call) : io Z := read (Call f).
Definition do_call (f : call) (v : Z) : io unit := write (Call f) v.

Definition SLIO_REG (x : Z) : block * Z := (io_port, x).
Definition SLDM_REG (x : Z) : block * Z := (ddma_port, x).
Definition SLSB_REG (x : Z) : block * Z := (sb_port, x).

Definition AUDIO2DMAADDR : Z := 0.
Definition AUDIO2DMACOUNT : Z := 4.
Definition AUDIO2MODE : Z := 6.
Definition IRQCONTROL : Z := 7.
Definition DMAADDR : Z := 0x00.
Definition DMACOUNT : Z := 0x04.
Definition DMACOMMAND : Z := 0x08.
Definition DMAMODE : Z := 0x0b.
Definition DMACLEAR : Z := 0x0d.
Definition DMAMASK : Z := 0x0f.
Definition MIXERADDR : Z := 0x04.
Definition MIXERDATA : Z := 0x05.
Definition RESET : Z := 0x06.
Definition READDATA : Z := 0x0a.
Definition WRITEDATA : Z := 0x0c.
Definition READSTATUS : Z := 0x0c.
Definition STATUS : Z := 0x0e.

Definition ESSSB_IREG_AUDIO1 : Z := 0x14.
Definition ESSSB_IREG_AUDIO2MODE : Z := 0x71.
Definition ESSSB_IREG_AUDIO2TCOUNTL : Z := 0x74.
Definition ESSSB_IREG_AUDIO2TCOUNTH : Z := 0x76.
Definition ESSSB_IREG_AUDIO2CONTROL1 : Z := 0x78.
Definition ESSSB_IREG_AUDIO2CONTROL2 : Z := 0x7a.
Definition ESSSB_IREG_AUDIO2 : Z := 0x7c.

Definition ESS_CMD_DMACNTRELOADL : Z := 0xa4.
Definition ESS_CMD_DMACNTRELOADH : Z := 0xa5.
Definition ESS_CMD_ANALOGCONTROL : Z := 0xa8.
Definition ESS_CMD_IRQCONTROL : Z := 0xb1.
Definition ESS_CMD_DRQCONTROL : Z := 0xb2.
Definition ESS_CMD_SETFORMAT : Z := 0xb6.
Definition ESS_CMD_SETFORMAT2 : Z := 0xb7.
Definition ESS_CMD_DMACONTROL : Z := 0xb8.
Definition ESS_CMD_DMATYPE : Z := 0xb9.
Definition ESS_CMD_READREG : Z := 0xc0.
Definition ESS_CMD_ENABLEEXT : Z := 0xc6.
Definition ESS_CMD_ENABLEAUDIO1 : Z := 0xd1.

Definition SL_PCI_LEGACYCONTROL : Z := 0x40.
Definition SL_PCI_CONFIG : Z := 0x50.
Definition SL_PCI_DDMACONTROL : Z := 0x60.

Definition DAC1 : Z := 0x01.
Definition ADC1 : Z := 0x02.
Definition DAC2 : Z := 0x04.

Definition RESET_LOOP_TIMEOUT : Z := 0x10000.
Definition WRITE_LOOP_TIMEOUT : Z := 0x10000.
Definition GET_LOOP_TIMEOUT : Z := 0x01000.

(** ** State *)

(** A transfer: size and address of its buffer, and the logarithm of the bytes
    of a frame. *)
Record dma := { dma_size : Z; dma_start : Z; dma_shift : Z }.

(** [es1938_t]: a substream is known by its address. *)
Record es1938 := {
  irq : Z;
  vc_port : Z;
  capture_substream : option Z;
  playback1_substream : option Z;
  playback2_substream : option Z;
  dma1 : dma;
  dma2 : dma;
  active : Z
}.

(** What the driver reads of a substream and of its runtime. *)
Record substream := {
  ident : Z;
  number : Z;
  buffer_bytes : Z;
  period_bytes : Z;
  dma_addr : Z;
  channels : Z;
  format : Z;
  rate : Z;
  rate_num : Z;
  rate_den : Z
}.

(** The limits put in [runtime->hw]; flags and formats are macros of VxSound. *)
Record hardware := {
  rate_min : Z; rate_max : Z; channels_min : Z; channels_max : Z; buffer_bytes_max : Z;
  period_bytes_min : Z; period_bytes_max : Z; periods_min : Z; periods_max : Z; fifo_size : Z
}.

Definition snd_es1938_playback : hardware :=
  Build_hardware 6000 48000 1 2 0x8000 64 0x8000 1 1024 256.
Definition snd_es1938_capture : hardware :=
  Build_hardware 6000 48000 1 2 0x8000 64 0x8000 1 1024 256.

Definition set_dma1 (t : dma) (c : es1938) : es1938 :=
  Build_es1938 (irq c) (vc_port c) (capture_substream c) (playback1_substream c)
    (playback2_substream c) t (dma2 c) (active c).
Definition set_dma2 (t : dma) (c : es1938) : es1938 :=
  Build_es1938 (irq c) (vc_port c) (capture_substream c) (playback1_substream c)
    (playback2_substream c) (dma1 c) t (active c).
Definition set_active (a : Z) (c : es1938) : es1938 :=
  Build_es1938 (irq c) (vc_port c) (capture_substream c) (playback1_substream c)
    (playback2_substream c) (dma1 c) (dma2 c) a.
Definition set_capture (s : option Z) (c : es1938) : es1938 :=
  Build_es1938 (irq c) (vc_port c) s (playback1_substream c)
    (playback2_substream c) (dma1 c) (dma2 c) (active c).
Definition set_playback1 (s : option Z) (c : es1938) : es1938 :=
  Build_es1938 (irq c) (vc_port c) (capture_substream c) s
    (playback2_substream c) (dma1 c) (dma2 c) (active c).
Definition set_playback2 (s : option Z) (c : es1938) : es1938 :=
  Build_es1938 (irq c) (vc_port c) (capture_substream c) (playback1_substream c)
    s (dma1 c) (dma2 c) (active c).

(** Error numbers: the operating system's. *)
Record errnos := { EAGAIN : Z; EINVAL : Z; ENODEV : Z; ENOENT : Z; ENOMEM : Z; ENXIO : Z; EBUSY : Z }.

(** ** Mixer registers *)

Definition snd_es1938_mixer_write (reg val : Z) : io unit :=
  _ ← outb reg (SLSB_REG MIXERADDR); outb val (SLSB_REG MIXERDATA).

Definition snd_es1938_mixer_read (reg : Z) : io Z :=
  _ ← outb reg (SLSB_REG MIXERADDR); inb (SLSB_REG MIXERDATA).

(** [(old & ~mask) | (val & mask)] *)
Definition merge (old mask val : Z) : Z := Z.ldiff old mask .| (val .& mask).

Definition snd_es1938_mixer_bits (reg mask val : Z) : io Z :=
  _ ← outb reg (SLSB_REG MIXERADDR);
  old ← inb (SLSB_REG MIXERDATA);
  let oval := old .& mask in
  _ ← (if val =? oval then Pure tt else outb (merge old mask val) (SLSB_REG MIXERDATA));
  Pure oval.

(** ** Controller registers *)

(** [n] polls are left. *)
Fixpoint write_cmd_loop (n : nat) (cmd : Z) : io unit :=
  match n with
  | O => Pure tt
  | S n =>
      v ← inb (SLSB_REG READSTATUS);
      if v .& 0x80 =? 0 then outb cmd (SLSB_REG WRITEDATA) else write_cmd_loop n cmd
  end.

Definition snd_es1938_write_cmd (cmd : Z) : io unit := write_cmd_loop (Z.to_nat WRITE_LOOP_TIMEOUT) cmd.

Definition snd_es1938_write (reg val : Z) : io unit :=
  _ ← snd_es1938_write_cmd reg; snd_es1938_write_cmd val.

Definition snd_es1938_reset_fifo : io unit :=
  _ ← outb 2 (SLSB_REG RESET); outb 0 (SLSB_REG RESET).

Section controller.
Context (E : errnos).

Fixpoint get_byte_loop (n : nat) : io Z :=
  match n with
  | O => Pure (- ENODEV E)
  | S n =>
      v ← inb (SLSB_REG STATUS);
      if negb (v .& 0x80 =? 0) then inb (SLSB_REG READDATA) else get_byte_loop n
  end.

Definition snd_es1938_get_byte : io Z := get_byte_loop (Z.to_nat GET_LOOP_TIMEOUT).

(** [get_byte]'s result is stored in an [unsigned char]. *)
Definition snd_es1938_read (reg : Z) : io Z :=
  _ ← snd_es1938_write_cmd ESS_CMD_READREG;
  _ ← snd_es1938_write_cmd reg;
  v ← snd_es1938_get_byte;
  Pure (u8 v).

Definition snd_es1938_bits (reg mask val : Z) : io Z :=
  _ ← snd_es1938_write_cmd ESS_CMD_READREG;
  _ ← snd_es1938_write_cmd reg;
  v ← snd_es1938_get_byte;
  let old := u8 v in
  let oval := old .& mask in
  _ ← (if val =? oval then Pure tt
       else
         _ ← snd_es1938_write_cmd reg;
         snd_es1938_write_cmd (merge old mask val));
  Pure oval.

(** The polls of [snd_es1938_reset]; a failure is only printed. *)
Fixpoint reset_loop (n : nat) : io unit :=
  match n with
  | O => Pure tt
  | S n =>
      s ← inb (SLSB_REG STATUS);
      if s .& 0x80 =? 0 then reset_loop n
      else
        v ← inb (SLSB_REG READDATA);
        if v =? 0xaa then Pure tt else reset_loop n
  end.

Definition snd_es1938_reset : io unit :=
  _ ← outb 3 (SLSB_REG RESET);
  _ ← inb (SLSB_REG RESET);
  _ ← outb 0 (SLSB_REG RESET);
  _ ← reset_loop (Z.to_nat RESET_LOOP_TIMEOUT);
  _ ← snd_es1938_write_cmd ESS_CMD_ENABLEEXT;
  _ ← snd_es1938_write ESS_CMD_DMATYPE 2;
  _ ← snd_es1938_mixer_write ESSSB_IREG_AUDIO2MODE 0x32;
  _ ← snd_es1938_bits ESS_CMD_IRQCONTROL 0xf0 0x50;
  _ ← snd_es1938_bits ESS_CMD_DRQCONTROL 0xf0 0x50;
  _ ← snd_es1938_write_cmd ESS_CMD_ENABLEAUDIO1;
  _ ← snd_es1938_mixer_write 0x54 0x8f;
  _ ← snd_es1938_mixer_write 0x56 0x95;
  _ ← snd_es1938_mixer_write 0x58 0x94;
  snd_es1938_mixer_write 0x5a 0x80.

Definition snd_es1938_chip_init (c : es1938) : io unit :=
  _ ← snd_es1938_reset;
  _ ← do_call pci_set_master 0;
  _ ← write (Config SL_PCI_LEGACYCONTROL 2) 0x805f;
  _ ← write (Config SL_PCI_DDMACONTROL 2) (u16 (vc_port c .| 1));
  _ ← write (Config SL_PCI_CONFIG 4) 0;
  _ ← outb 0xf0 (SLIO_REG IRQCONTROL);
  outb 0 (SLDM_REG DMACLEAR).

(** [chip] is where the record is. *)
Definition snd_es1938_free (chip : Z) (c : es1938) : io Z :=
  _ ← (if 0 <=? irq c then do_call free_irq (irq c) else Pure tt);
  _ ← outb 0x00 (SLIO_REG IRQCONTROL);
  _ ← snd_es1938_mixer_write ESSSB_IREG_AUDIO2 0;
  _ ← snd_es1938_mixer_write ESSSB_IREG_AUDIO1 0;
  _ ← snd_es1938_reset_fifo;
  _ ← snd_es1938_reset;
  _ ← do_call kfree chip;
  Pure 0.

(** ** Interrupts *)

(** The substreams told that a period has elapsed. *)
Definition snd_es1938_interrupt (c : es1938) : io (list (option Z)) :=
  status ← inb (SLIO_REG IRQCONTROL);
  n1 ← (if status .& 0x10 =? 0 then Pure []
        else
          _ ← inb (SLSB_REG STATUS);
          Pure (if negb (active c .& ADC1 =? 0) then [capture_substream c]
                else if negb (active c .& DAC1 =? 0) then [playback2_substream c] else []));
  n2 ← (if status .& 0x20 =? 0 then Pure []
        else
          _ ← snd_es1938_mixer_bits ESSSB_IREG_AUDIO2CONTROL2 0x80 0;
          Pure (if negb (active c .& DAC2 =? 0) then [playback1_substream c] else []));
  _ ← (if status .& 0x40 =? 0 then Pure tt else snd_es1938_mixer_write 0x66 0x00);
  Pure (n1 ++ n2).

(** ** Preparing a substream *)

Inductive mode := To_DAC1 | To_ADC1 | To_DAC2.

#[global] Instance mode_eq_dec : EqDecision mode.
Proof. solve_decision. Defined.

Definition clock0_num : Z := 793800.
Definition clock1_num : Z := 768000.

(** [bits] and [div0] of [rate_set]. *)
Definition rate_bits (s : substream) : Z :=
  if rate_num s =? clock0_num then u32 (128 - rate_den s) else u32 (256 - rate_den s).
Definition filter_div (s : substream) : Z := u32 (256 - 7160000 * 20 / u32 (8 * 82 * rate s)).

Definition snd_es1938_rate_set (s : substream) (m : mode) : io unit :=
  if u32 (8 * 82 * rate s) =? 0 then Wild
  else if decide (m = To_DAC2) then
    _ ← snd_es1938_mixer_write 0x70 (rate_bits s);
    snd_es1938_mixer_write 0x72 (filter_div s)
  else
    _ ← snd_es1938_write 0xA1 (rate_bits s);
    snd_es1938_write 0xA2 (filter_div s).

Definition snd_es1938_playback1_setdma (c : es1938) : io unit :=
  _ ← outb 0x00 (SLIO_REG AUDIO2MODE);
  _ ← outl (dma_start (dma2 c)) (SLIO_REG AUDIO2DMAADDR);
  _ ← outw 0 (SLIO_REG AUDIO2DMACOUNT);
  outw (dma_size (dma2 c)) (SLIO_REG AUDIO2DMACOUNT).

(** [playback2_setdma] and [capture_setdma] differ in the mode. *)
Definition setdma1 (m : Z) (c : es1938) : io unit :=
  _ ← outb 0xc4 (SLDM_REG DMACOMMAND);
  _ ← outb 0 (SLDM_REG DMACLEAR);
  _ ← outb 1 (SLDM_REG DMAMASK);
  _ ← outb m (SLDM_REG DMAMODE);
  _ ← outl (dma_start (dma1 c)) (SLDM_REG DMAADDR);
  _ ← outw (dma_size (dma1 c) - 1) (SLDM_REG DMACOUNT);
  outb 0 (SLDM_REG DMAMASK).

Definition snd_es1938_playback2_setdma : es1938 -> io unit := setdma1 0x18.
Definition snd_es1938_capture_setdma : es1938 -> io unit := setdma1 0x14.

(** VxSound's functions on formats: the width of a sample in bits, and whether
    it is unsigned. *)
Context (snd_pcm_format_width : Z -> Z) (snd_pcm_format_unsigned : Z -> bool).

Definition mono (s : substream) : bool := negb (1 <? channels s).
Definition is8 (s : substream) : bool := negb (snd_pcm_format_width (format s) =? 16).
Definition is_unsigned (s : substream) : bool := snd_pcm_format_unsigned (format s).

(** The transfer of a substream. *)
Definition transfer (s : substream) : dma :=
  Build_dma (buffer_bytes s) (u32 (dma_addr s)) (2 - Z.b2z (mono s) - Z.b2z (is8 s)).

Definition snd_es1938_playback1_prepare (s : substream) (c : es1938) : io (Z * es1938) :=
  let c := set_dma2 (transfer s) c in
  _ ← snd_es1938_reset_fifo;
  _ ← snd_es1938_rate_set s To_DAC2;
  let count := u32 (0x10000 - (period_bytes s .>> 1)) in
  _ ← snd_es1938_mixer_write ESSSB_IREG_AUDIO2TCOUNTL (count .& 0xff);
  _ ← snd_es1938_mixer_write ESSSB_IREG_AUDIO2TCOUNTH (count .>> 8);
  _ ← snd_es1938_mixer_write ESSSB_IREG_AUDIO2CONTROL2
        (0x40 .| (if is_unsigned s then 0 else 4) .| (if mono s then 0 else 2)
         .| (if is8 s then 0 else 1));
  _ ← snd_es1938_playback1_setdma c;
  Pure (0, c).

Definition snd_es1938_playback2_prepare (s : substream) (c : es1938) : io (Z * es1938) :=
  let c := set_dma1 (transfer s) c in
  let count := u32 (0x10000 - period_bytes s) in
  _ ← snd_es1938_reset_fifo;
  _ ← snd_es1938_bits ESS_CMD_ANALOGCONTROL 0x03 (if mono s then 2 else 1);
  _ ← snd_es1938_rate_set s To_DAC1;
  _ ← snd_es1938_write ESS_CMD_DMACNTRELOADL (count .& 0xff);
  _ ← snd_es1938_write ESS_CMD_DMACNTRELOADH (count .>> 8);
  _ ← snd_es1938_write ESS_CMD_SETFORMAT (if is_unsigned s then 0x80 else 0x00);
  _ ← snd_es1938_write ESS_CMD_SETFORMAT (if is_unsigned s then 0x51 else 0x71);
  _ ← snd_es1938_write ESS_CMD_SETFORMAT2
        (0x90 .| (if mono s then 0x40 else 0x08) .| (if is8 s then 0x00 else 0x04)
         .| (if is_unsigned s then 0x00 else 0x20));
  _ ← snd_es1938_playback2_setdma c;
  Pure (0, c).

Definition snd_es1938_playback_prepare (s : substream) (c : es1938) : io (Z * es1938) :=
  if number s =? 0 then snd_es1938_playback1_prepare s c
  else if number s =? 1 then snd_es1938_playback2_prepare s c
  else Pure (- EINVAL E, c).

Definition snd_es1938_capture_prepare (s : substream) (c : es1938) : io (Z * es1938) :=
  let c := set_dma1 (transfer s) c in
  _ ← snd_es1938_reset_fifo;
  _ ← snd_es1938_bits ESS_CMD_ANALOGCONTROL 0x03 (if mono s then 2 else 1);
  _ ← snd_es1938_rate_set s To_ADC1;
  let count := u32 (0x10000 - period_bytes s) in
  _ ← snd_es1938_write ESS_CMD_DMACNTRELOADL (count .& 0xff);
  _ ← snd_es1938_write ESS_CMD_DMACNTRELOADH (count .>> 8);
  _ ← snd_es1938_write ESS_CMD_SETFORMAT2 (if is_unsigned s then 0x51 else 0x71);
  _ ← snd_es1938_write ESS_CMD_SETFORMAT2
        (0x90 .| (if is_unsigned s then 0x00 else 0x20) .| (if is8 s then 0x00 else 0x04)
         .| (if mono s then 0x40 else 0x08));
  _ ← snd_es1938_capture_setdma c;
  Pure (0, c).

(** ** Opening, closing, starting and stopping *)

(** The result, the limits put in [runtime->hw] if any, and the chip. *)
Definition snd_es1938_playback_open (s : substream) (c : es1938) : Z * option hardware * es1938 :=
  if number s =? 0 then (0, Some snd_es1938_playback, set_playback1 (Some (ident s)) c)
  else if number s =? 1 then
    match capture_substream c with
    | Some _ => (- EAGAIN E, None, c)
    | None => (0, Some snd_es1938_playback, set_playback2 (Some (ident s)) c)
    end
  else (- EINVAL E, None, c).

Definition snd_es1938_capture_open (s : substream) (c : es1938) : Z * option hardware * es1938 :=
  match playback2_substream c with
  | Some _ => (- EAGAIN E, None, c)
  | None => (0, Some snd_es1938_capture, set_capture (Some (ident s)) c)
  end.

Definition snd_es1938_capture_close (c : es1938) : Z * es1938 := (0, set_capture None c).

Definition snd_es1938_playback_close (s : substream) (c : es1938) : Z * es1938 :=
  if number s =? 0 then (0, set_playback1 None c)
  else if number s =? 1 then (0, set_playback2 None c)
  else (- EINVAL E, c).

(** [SNDRV_PCM_TRIGGER_START], [SNDRV_PCM_TRIGGER_STOP] or any other command. *)
Inductive command := START | STOP | OTHER.

(** A trigger: the record as it is while the card is accessed, which is what an
    interrupt meanwhile finds, and the accesses with the result and the record
    after them.  The first playback substream sets [active] after its accesses,
    the other two before theirs. *)
Definition snd_es1938_playback1_trigger (cmd : command) (c : es1938) : es1938 * io (Z * es1938) :=
  match cmd with
  | START =>
      (c, _ ← snd_es1938_mixer_write ESSSB_IREG_AUDIO2CONTROL1 0x92;
          _ ← write Delay 10;
          _ ← snd_es1938_mixer_write ESSSB_IREG_AUDIO2CONTROL1 0x93;
          _ ← outb 0x0a (SLIO_REG AUDIO2MODE);
          Pure (0, set_active (active c .| DAC2) c))
  | STOP =>
      (c, _ ← outb 0 (SLIO_REG AUDIO2MODE);
          _ ← snd_es1938_mixer_write ESSSB_IREG_AUDIO2CONTROL1 0;
          Pure (0, set_active (Z.ldiff (active c) DAC2) c))
  | OTHER => (c, Pure (- EINVAL E, c))
  end.

Definition snd_es1938_playback2_trigger (cmd : command) (c : es1938) : es1938 * io (Z * es1938) :=
  match cmd with
  | START =>
      let c := set_active (active c .| DAC1) c in
      (c, _ ← snd_es1938_write ESS_CMD_DMACONTROL 5; Pure (0, c))
  | STOP =>
      let c := set_active (Z.ldiff (active c) DAC1) c in
      (c, _ ← snd_es1938_write ESS_CMD_DMACONTROL 0; Pure (0, c))
  | OTHER => (c, Pure (- EINVAL E, c))
  end.

Definition snd_es1938_playback_trigger (s : substream) (cmd : command) (c : es1938)
    : es1938 * io (Z * es1938) :=
  if number s =? 0 then snd_es1938_playback1_trigger cmd c
  else if number s =? 1 then snd_es1938_playback2_trigger cmd c
  else (c, Pure (- EINVAL E, c)).

Definition snd_es1938_capture_trigger (cmd : command) (c : es1938) : es1938 * io (Z * es1938) :=
  match cmd with
  | START =>
      let c := set_active (active c .| ADC1) c in
      (c, _ ← snd_es1938_write ESS_CMD_DMACONTROL 0x0f; Pure (0, c))
  | STOP =>
      let c := set_active (Z.ldiff (active c) ADC1) c in
      (c, _ ← snd_es1938_write ESS_CMD_DMACONTROL 0x00; Pure (0, c))
  | OTHER => (c, Pure (- EINVAL E, c))
  end.

Definition snd_es1938_set_volume (s : substream) (value : Z) : io Z :=
  if number s =? 0 then _ ← snd_es1938_mixer_write ESSSB_IREG_AUDIO2 value; Pure 0
  else if number s =? 1 then _ ← snd_es1938_mixer_write ESSSB_IREG_AUDIO1 value; Pure 0
  else Pure (- EINVAL E).

(** ** Where a transfer is *)

Definition snd_es1938_playback1_pointer (c : es1938) : io Z :=
  n ← inw (SLIO_REG AUDIO2DMACOUNT);
  Pure (u32 (dma_size (dma2 c) - n) .>> dma_shift (dma2 c)).

(** The count, read until two readings in a row agree; [None] when [fuel]
    readings were not enough. *)
Fixpoint stable_count (fuel : nat) (old : Z) : io (option Z) :=
  match fuel with
  | O => Pure None
  | S fuel =>
      newval ← inw (SLDM_REG DMACOUNT);
      if newval =? old then Pure (Some newval) else stable_count fuel newval
  end.

(** [playback2_pointer] and [capture_pointer] are the same. *)
Definition snd_es1938_playback2_pointer (fuel : nat) (c : es1938) : io (option Z) :=
  old ← inw (SLDM_REG DMACOUNT);
  r ← stable_count fuel old;
  Pure (newval ← r; Some (u32 (dma_size (dma1 c) - 1 - newval) .>> dma_shift (dma1 c))).
Definition snd_es1938_capture_pointer : nat -> es1938 -> io (option Z) := snd_es1938_playback2_pointer.

Definition snd_es1938_playback_pointer (fuel : nat) (s : substream) (c : es1938) : io (option Z) :=
  if number s =? 0 then p ← snd_es1938_playback1_pointer c; Pure (Some p)
  else if number s =? 1 then snd_es1938_playback2_pointer fuel c
  else Pure (Some (u32 (- EINVAL E))).

(** ** Finding and setting up the card *)

Context (IORESOURCE_IO : Z).

(** [if ((err = f()) < 0) fail(err)], as a continuation. *)
Definition checked {A} (f : call) (fail k : Z -> io A) : io A :=
  err ← result_of f; if err <? 0 then fail err else k err.

(** A fresh record, which [kcalloc] clears, with its interrupt line and port. *)
Definition new_chip (line vc : Z) : es1938 :=
  Build_es1938 line vc None None None (Build_dma 0 0 0) (Build_dma 0 0 0) 0.

(** [snd_es1938_create] with the card's interrupt line: the result and the
    chip, if there is one. *)
Definition snd_es1938_create (pci_irq : Z) : io (Z * option (Z * es1938)) :=
  checked pci_enable_device (fun err => Pure (err, None)) (fun _ =>
  let no_dma := _ ← do_call pci_disable_device 0; Pure (- ENXIO E, None) in
  checked pci_set_dma_mask (fun _ => no_dma) (fun _ =>
  checked pci_set_consistent_dma_mask (fun _ => no_dma) (fun _ =>
  chip ← result_of kcalloc;
  if chip =? 0 then _ ← do_call pci_disable_device 0; Pure (- ENOMEM E, None)
  else
    checked pci_request_regions (fun err =>
      _ ← do_call kfree chip; _ ← do_call pci_disable_device 0; Pure (err, None)) (fun _ =>
    _ ← result_of (pci_resource_start 0);
    _ ← result_of (pci_resource_start 1);
    vc ← result_of (pci_resource_start 2);
    _ ← result_of (pci_resource_start 3);
    _ ← result_of (pci_resource_start 4);
    let c := new_chip 0 vc in
    r ← result_of request_irq;
    if negb (r =? 0) then _ ← snd_es1938_free chip c; Pure (- EBUSY E, None)
    else
      let c := new_chip pci_irq vc in
      _ ← snd_es1938_chip_init c;
      checked snd_device_new (fun err => _ ← snd_es1938_free chip c; Pure (err, None)) (fun _ =>
      Pure (0, Some (chip, c))))))).
(** [snd_es1938_new_pcm]: the tables of operations and the buffers it installs
    belong to VxSound. *)
Definition snd_es1938_new_pcm : io Z :=
  checked snd_pcm_new (fun err => Pure err) (fun _ => Pure 0).

(** [snd_es1938_mixer] only names the mixer: its controls are compiled out. *)
Definition snd_es1938_mixer : io Z := Pure 0.

(** The five ranges of ports are there and are ports: the loop of [probe]. *)
Fixpoint resources_ok (n : nat) (idx : Z) : io bool :=
  match n with
  | O => Pure true
  | S n =>
      start ← result_of (pci_resource_start idx);
      if start =? 0 then Pure false
      else
        flags ← result_of (pci_resource_flags idx);
        if flags .& IORESOURCE_IO =? 0 then Pure false else resources_ok n (idx + 1)
  end.

(** [snd_es1938_probe], with the number of cards VxSound supports, which of
    them are enabled and the cards probed so far: the result, the cards probed
    and the chip. *)
Definition snd_es1938_probe (SNDRV_CARDS : Z) (enable : Z -> bool) (pci_irq dev : Z)
    : io (Z * Z * option (Z * es1938)) :=
  if SNDRV_CARDS <=? dev then Pure (- ENODEV E, dev, None)
  else if negb (enable dev) then Pure (- ENOENT E, dev + 1, None)
  else
    card ← result_of snd_card_new;
    if card =? 0 then Pure (- ENOMEM E, dev, None)
    else
      let fail err := _ ← do_call snd_card_free card; Pure (err, dev, None) in
      ok ← resources_ok 5 0;
      if negb ok then fail (- ENODEV E)
      else
        r ← snd_es1938_create pci_irq;
        if fst r <? 0 then fail (fst r)
        else
          err ← snd_es1938_new_pcm;
          if err <? 0 then fail err
          else
            err ← snd_es1938_mixer;
            if err <? 0 then fail err
            else checked snd_card_register fail (fun _ => Pure (0, dev + 1, snd r)).

(** ** Sessions *)

(** What the sound layer asks of the driver. *)
Inductive request :=
  | Playback_open (s : substream) | Playback_close (s : substream)
  | Playback_prepare (s : substream) | Playback_trigger (s : substream) (cmd : command)
  | Capture_open (s : substream) | Capture_close
  | Capture_prepare (s : substream) | Capture_trigger (cmd : command)
  | Set_volume (s : substream) (value : Z).

(** The record during the accesses, and the accesses with the result and the
    record after them.  Opening and closing is one assignment; what [prepare]
    changes at its start, the transfers, the handler does not read. *)
Definition serve (r : request) (c : es1938) : es1938 * io (Z * es1938) :=
  match r with
  | Playback_open s => let '(e, _, c) := snd_es1938_playback_open s c in (c, Pure (e, c))
  | Playback_close s => let '(e, c) := snd_es1938_playback_close s c in (c, Pure (e, c))
  | Playback_prepare s => (c, snd_es1938_playback_prepare s c)
  | Playback_trigger s cmd => snd_es1938_playback_trigger s cmd c
  | Capture_open s => let '(e, _, c) := snd_es1938_capture_open s c in (c, Pure (e, c))
  | Capture_close => let '(e, c) := snd_es1938_capture_close c in (c, Pure (e, c))
  | Capture_prepare s => (c, snd_es1938_capture_prepare s c)
  | Capture_trigger cmd => snd_es1938_capture_trigger cmd c
  | Set_volume s v => (c, e ← snd_es1938_set_volume s v; Pure (e, c))
  end.

(** Between two requests, or in the middle of one with some accesses left. *)
Inductive phase := Idle (c : es1938) | Busy (r : request) (c : es1938) (p : io (Z * es1938)).

Definition record_of (ph : phase) : es1938 := match ph with Idle c | Busy _ c _ => c end.

(** A request begins, a request returns, the handler notifies substreams. *)
Inductive occurrence := Begun (r : request) | Served (r : request) (e : Z) | Notified (n : list (option Z)).

(** A session: the requests come one at a time, in any order; the card is
    accessed register by register, and an interrupt can come between any two
    accesses. *)
Inductive session `{device port D} (c0 : es1938) (d0 : D) : list occurrence -> phase -> D -> Prop :=
  | session_start : session c0 d0 [] (Idle c0) d0
  | session_begins tr c d r :
      session c0 d0 tr (Idle c) d ->
      session c0 d0 (tr ++ [Begun r]) (Busy r (serve r c).1 (serve r c).2) d
  | session_reads tr r c p k d v d' :
      session c0 d0 tr (Busy r c (Rd p k)) d -> dev_read p d = (v, d') ->
      session c0 d0 tr (Busy r c (k v)) d'
  | session_writes tr r c p v k d :
      session c0 d0 tr (Busy r c (Wr p v k)) d ->
      session c0 d0 tr (Busy r c k) (dev_write p v d)
  | session_returns tr r c e c' d :
      session c0 d0 tr (Busy r c (Pure (e, c'))) d ->
      session c0 d0 (tr ++ [Served r e]) (Idle c') d
  | session_interrupted tr ph d w n d' :
      session c0 d0 tr ph d -> run (snd_es1938_interrupt (record_of ph)) d = Some (w, n, d') ->
      session c0 d0 (tr ++ [Notified n]) ph d'.
End controller.
