(* ===== verification/Es1938Proofs.v ===== *)
(** * ESS Solo-1 sound driver: its properties

    [makes] says that a program returns on every device, which system calls it
    makes and what its result satisfies; [performs], of the file Io, which
    accesses it makes.  With them: sessions of requests and interrupts, what
    preparing a substream writes, a card that does not answer, and the failures
    of the set up. *)
From stdpp Require Import option list sets.
From S2P Require Import Prelude Io Es1938.
#[local] Open Scope Z_scope.
#[local] Open Scope c_scope.

(** ** Programs that return *)

(** The calls made for no result, in order. *)
Definition calls (l : list (port * Z)) : list (call * Z) :=
  omap (fun w => match fst w with Call f => Some (f, snd w) | _ => None end) l.

(** Programs that return on every device, making the calls [cs] and with a
    result that satisfies [Q]. *)
Definition makes `{device port D} {A} (cs : list (call * Z)) (Q : A -> Prop) (c : io A) : Prop :=
  forall d : D, exists l a d', run c d = Some (l, a, d') /\ Q a /\ calls l = cs.

Abbreviation gives := (makes []).

(** Programs that return whatever each of their reads is returned, and make no
    call for no result.  Every program that such a program is, after some of its
    accesses, is one as well. *)
Fixpoint quiet {A} (Q : A -> Prop) (c : io A) : Prop :=
  match c with
  | Pure a => Q a
  | Wild => False
  | Rd p k => forall v, quiet Q (k v)
  | Wr p v k => (forall f, p <> Call f) /\ quiet Q k
  end.

Lemma quiet_bind {A B} (R : A -> Prop) (Q : B -> Prop) (c : io A) (f : A -> io B) :
  quiet R c -> (forall a, R a -> quiet Q (f a)) -> quiet Q (c ≫= f).
Proof.
  intros Hc Hf. induction c as [a | | p k IH | p v k IH]; cbn in *; auto.
  destruct Hc as [Hp Hc]. auto.
Qed.

Lemma quiet_then {A B} (Q : B -> Prop) (c : io A) (f : A -> io B) :
  quiet (fun _ => True) c -> (forall a, quiet Q (f a)) -> quiet Q (c ≫= f).
Proof. intros Hc Hf. by apply (quiet_bind _ _ _ _ Hc). Qed.

Lemma quiet_pure {A} (Q : A -> Prop) a : Q a -> quiet Q (Pure a : io A).
Proof. done. Qed.

Lemma quiet_read (Q : Z -> Prop) p : (forall v, Q v) -> quiet Q (read p).
Proof. done. Qed.

Lemma quiet_write (Q : unit -> Prop) p v : (forall f, p <> Call f) -> Q tt -> quiet Q (write p v).
Proof. done. Qed.

Lemma quiet_gives `{device port D} {A} (Q : A -> Prop) (c : io A) : quiet Q c -> gives Q c.
Proof.
  intros Hc. induction c as [a | | p k IH | p v k IH]; intros d; cbn in *; [..|destruct Hc as [Hp Hc]].
  - by exists [], a, d.
  - done.
  - destruct (dev_read p d) as [v d']. by apply IH.
  - destruct (IH Hc (dev_write p v d)) as (l & a & d' & -> & Ha & Hl). exists ((p, v) :: l), a, d'.
    split; [done|]. split; [done|]. unfold calls. cbn. destruct p as [| |f|]; try done.
    by destruct (Hp f).
Qed.

Section gives.
Context `{device port D}.

Lemma gives_pure {A} (Q : A -> Prop) a : Q a -> gives Q (Pure a : io A).
Proof. intros HQ. by apply quiet_gives. Qed.

Lemma gives_write (Q : unit -> Prop) p v : (forall f, p <> Call f) -> Q tt -> gives Q (write p v).
Proof. intros Hp HQ. by apply quiet_gives. Qed.

Lemma makes_call (Q : unit -> Prop) f v : Q tt -> makes [(f, v)] Q (do_call f v).
Proof. intros HQ d. by eexists _, tt, _. Qed.

Lemma gives_read Q (p : port) : (forall v, Q v) -> gives Q (read p).
Proof. intros HQ. by apply quiet_gives. Qed.

Lemma makes_bind {A B} cs cs' (R : A -> Prop) (Q : B -> Prop) (c : io A) (f : A -> io B) :
  makes cs R c -> (forall a, R a -> makes cs' Q (f a)) -> makes (cs ++ cs') Q (c ≫= f).
Proof.
  intros Hc Hf d. destruct (Hc d) as (l & a & d1 & H1 & Ha & Hl).
  destruct (Hf a Ha d1) as (l' & b & d2 & H2 & Hb & Hl').
  exists (l ++ l'), b, d2. rewrite run_bind, H1. step_run. rewrite H2.
  split; [done|]. split; [done|]. unfold calls. rewrite omap_app. by f_equal.
Qed.

Lemma gives_bind {A B} cs (R : A -> Prop) (Q : B -> Prop) (c : io A) (f : A -> io B) :
  gives R c -> (forall a, R a -> makes cs Q (f a)) -> makes cs Q (c ≫= f).
Proof. apply makes_bind. Qed.

(** A computation whose result does not matter. *)
Lemma gives_then {A B} cs (Q : B -> Prop) (c : io A) (f : A -> io B) :
  gives (fun _ => True) c -> (forall a, makes cs Q (f a)) -> makes cs Q (c ≫= f).
Proof. intros Hc Hf. by apply (gives_bind _ _ _ _ _ Hc). Qed.

Lemma makes_run {A} cs (Q : A -> Prop) (c : io A) (d d' : D) l a :
  makes cs Q c -> run c d = Some (l, a, d') -> Q a.
Proof. intros Hc Hr. destruct (Hc d) as (l' & a' & d1 & H1 & Ha & _). congruence. Qed.
End gives.

Create HintDb es1938.
#[export] Hint Resolve gives_pure gives_write gives_read quiet_pure quiet_read quiet_write I : es1938.
#[export] Hint Resolve quiet_gives | 10 : es1938.
#[export] Hint Extern 1 (_ <> Call _) => discriminate : es1938.

Abbreviation returns := (quiet (fun _ => True)).

(** The accesses, one after the other. *)
Ltac returning :=
  repeat first
    [ apply quiet_pure; exact I
    | solve [eauto with es1938]
    | apply quiet_then; [|intros ?]
    | match goal with |- quiet _ (if ?b then _ else _) => destruct b end ].

Section returns.
Context (E : errnos) (width : Z -> Z) (uns : Z -> bool).

Lemma returns_inb r : returns (inb r).
Proof. unfold inb. returning. Qed.
Lemma returns_outb v r : returns (outb v r).
Proof. unfold outb. returning. Qed.
#[local] Hint Resolve returns_inb returns_outb : es1938.

Lemma returns_mixer_write reg val : returns (snd_es1938_mixer_write reg val).
Proof. unfold snd_es1938_mixer_write. returning. Qed.

Lemma returns_mixer_bits reg mask val : returns (snd_es1938_mixer_bits reg mask val).
Proof. unfold snd_es1938_mixer_bits. returning. Qed.

Lemma returns_write_cmd cmd : returns (snd_es1938_write_cmd cmd).
Proof.
  unfold snd_es1938_write_cmd. generalize (Z.to_nat WRITE_LOOP_TIMEOUT). intros n.
  induction n; cbn [write_cmd_loop]; returning.
Qed.
#[local] Hint Resolve returns_write_cmd returns_mixer_write returns_mixer_bits : es1938.

Lemma returns_get_byte : returns (snd_es1938_get_byte E).
Proof.
  unfold snd_es1938_get_byte. generalize (Z.to_nat GET_LOOP_TIMEOUT). intros n.
  induction n; cbn [get_byte_loop]; returning.
Qed.
#[local] Hint Resolve returns_get_byte : es1938.

Lemma returns_write reg val : returns (snd_es1938_write reg val).
Proof. unfold snd_es1938_write. returning. Qed.

Lemma returns_bits reg mask val : returns (snd_es1938_bits E reg mask val).
Proof. unfold snd_es1938_bits. returning. Qed.
#[local] Hint Resolve returns_write returns_bits : es1938.

Lemma returns_reset : returns (snd_es1938_reset E).
Proof.
  unfold snd_es1938_reset. generalize (Z.to_nat RESET_LOOP_TIMEOUT). intros n.
  assert (returns (reset_loop n)) as Hl by (induction n; cbn [reset_loop]; returning).
  returning.
Qed.

Lemma returns_rate_set s m :
  u32 (8 * 82 * rate s) <> 0 -> returns (snd_es1938_rate_set s m).
Proof.
  intros Hr. unfold snd_es1938_rate_set. rewrite (proj2 (Z.eqb_neq _ _) Hr).
  destruct (decide _); returning.
Qed.

Lemma returns_setdma1 m c : returns (setdma1 m c).
Proof. unfold setdma1. returning. Qed.

Lemma returns_reset_fifo : returns snd_es1938_reset_fifo.
Proof. unfold snd_es1938_reset_fifo. returning. Qed.
End returns.
#[export] Hint Resolve returns_inb returns_outb returns_mixer_write returns_mixer_bits
  returns_write_cmd returns_write returns_bits returns_reset returns_rate_set returns_setdma1
  returns_reset_fifo : es1938.

(** ** What the driver promises the sound layer

    Three channels, each with the substream that has it open and whether it
    runs.  Capture and the second playback substream exclude each other; nothing
    else is checked. *)

Record channel := Channel { owner : option Z; running : bool }.
Record channels := Channels { capture : channel; playback1 : channel; playback2 : channel }.

Definition all_closed : channels :=
  let closed := Channel None false in Channels closed closed closed.

Definition start_stop (cmd : command) (ch : channel) : channel :=
  match cmd with
  | START => Channel (owner ch) true
  | STOP => Channel (owner ch) false
  | OTHER => ch
  end.

Definition own (o : option Z) (ch : channel) : channel := Channel o (running ch).

Section promise.
Context (E : errnos).

Definition refused (cmd : command) : Z := match cmd with OTHER => - EINVAL E | _ => 0 end.

(** The result of a request and the channels after it. *)
Definition promised (r : request) (k : channels) : Z * channels :=
  let 'Channels c p1 p2 := k in
  match r with
  | Playback_open s =>
      if number s =? 0 then (0, Channels c (own (Some (ident s)) p1) p2)
      else if number s =? 1 then
        match owner c with
        | Some _ => (- EAGAIN E, k)
        | None => (0, Channels c p1 (own (Some (ident s)) p2))
        end
      else (- EINVAL E, k)
  | Playback_close s =>
      if number s =? 0 then (0, Channels c (own None p1) p2)
      else if number s =? 1 then (0, Channels c p1 (own None p2))
      else (- EINVAL E, k)
  | Playback_trigger s cmd =>
      if number s =? 0 then (refused cmd, Channels c (start_stop cmd p1) p2)
      else if number s =? 1 then (refused cmd, Channels c p1 (start_stop cmd p2))
      else (- EINVAL E, k)
  | Capture_open s =>
      match owner p2 with
      | Some _ => (- EAGAIN E, k)
      | None => (0, Channels (own (Some (ident s)) c) p1 p2)
      end
  | Capture_close => (0, Channels (own None c) p1 p2)
  | Capture_trigger cmd => (refused cmd, Channels (start_stop cmd c) p1 p2)
  | Playback_prepare s | Set_volume s _ =>
      (if (number s =? 0) || (number s =? 1) then 0 else - EINVAL E, k)
  | Capture_prepare _ => (0, k)
  end.

(** Who is notified when the card's first channel interrupts, and the second. *)
Definition notified (first second : bool) (k : channels) : list (option Z) :=
  (if first then
     if running (capture k) then [owner (capture k)]
     else if running (playback2 k) then [owner (playback2 k)] else []
   else []) ++
  (if second then if running (playback1 k) then [owner (playback1 k)] else [] else []).

(** The traces of a driver that keeps the promise: every request returns what
    is promised of the channels, and an interrupt notifies as they are, before
    or after the request under way. *)
Inductive kept : list occurrence -> channels -> option request -> Prop :=
  | kept_start : kept [] all_closed None
  | kept_begins tr k r : kept tr k None -> kept (tr ++ [Begun r]) k (Some r)
  | kept_returns tr k r :
      kept tr k (Some r) ->
      kept (tr ++ [Served r (promised r k).1]) (promised r k).2 None
  | kept_interrupted tr k q b1 b2 k' :
      kept tr k q -> k' = k \/ (exists r, q = Some r /\ k' = (promised r k).2) ->
      kept (tr ++ [Notified (notified b1 b2 k')]) k q.

(** The sound layer misuses the driver when it starts a channel that is not
    open or closes one that runs. *)
Definition closed_start (cmd : command) (ch : channel) : bool :=
  match cmd, owner ch with START, None => true | _, _ => false end.

Definition misuse (r : request) (k : channels) : bool :=
  match r with
  | Playback_trigger s cmd =>
      if number s =? 0 then closed_start cmd (playback1 k)
      else if number s =? 1 then closed_start cmd (playback2 k) else false
  | Capture_trigger cmd => closed_start cmd (capture k)
  | Playback_close s =>
      if number s =? 0 then running (playback1 k)
      else if number s =? 1 then running (playback2 k) else false
  | Capture_close => running (capture k)
  | _ => false
  end.

(** No request of the trace, from the channels [k] on, is a misuse. *)
Fixpoint proper (k : channels) (tr : list occurrence) : bool :=
  match tr with
  | [] => true
  | Begun r :: tr => negb (misuse r k) && proper k tr
  | Served r _ :: tr => proper (promised r k).2 tr
  | Notified _ :: tr => proper k tr
  end.
End promise.

(** *** What follows from the promise *)

(** Capture and the second playback substream are not both open. *)
Definition exclusive (k : channels) : Prop :=
  owner (capture k) = None \/ owner (playback2 k) = None.

(** Channels that run are open. *)
Definition open_if_running (ch : channel) : Prop := running ch = true -> is_Some (owner ch).
Definition well_used (k : channels) : Prop :=
  open_if_running (capture k) /\ open_if_running (playback1 k) /\ open_if_running (playback2 k).

Section kept.
Context (E : errnos).

Lemma promised_exclusive r k : exclusive k -> exclusive (promised E r k).2.
Proof.
  unfold exclusive. destruct k as [[oc rc] [o1 r1] [o2 r2]]. cbn. intros Hk.
  destruct r; cbn; repeat case_match; cbn; auto; simplify_eq; auto;
    by destruct cmd.
Qed.

Lemma start_stop_open cmd ch :
  open_if_running ch -> closed_start cmd ch = false -> open_if_running (start_stop cmd ch).
Proof.
  unfold open_if_running, closed_start. destruct cmd; cbn; [|done..].
  destruct (owner ch); [by eexists | done].
Qed.

Lemma own_open o ch : open_if_running ch -> open_if_running (own (Some o) ch).
Proof. unfold open_if_running, own. cbn. eauto. Qed.

Lemma own_closed ch : running ch = false -> open_if_running (own None ch).
Proof. unfold open_if_running, own. cbn. congruence. Qed.
#[local] Hint Resolve start_stop_open own_open own_closed : core.

Lemma promised_well_used r k : well_used k -> misuse r k = false -> well_used (promised E r k).2.
Proof.
  unfold well_used. destruct k as [c p1 p2]. cbn. intros (Hc & H1 & H2).
  destruct r; cbn; repeat case_match; cbn; auto.
Qed.

Lemma notified_open b1 b2 k : well_used k -> None ∉ notified b1 b2 k.
Proof.
  unfold well_used, open_if_running, notified. intros (Hc & H1 & H2).
  rewrite elem_of_app. intros [H | H]; [destruct b1 | destruct b2]; try (by apply elem_of_nil in H).
  - destruct (running (capture k)); [|destruct (running (playback2 k)); [|by apply elem_of_nil in H]];
      apply list_elem_of_singleton in H; [destruct (Hc eq_refl) | destruct (H2 eq_refl)]; congruence.
  - destruct (running (playback1 k)); [|by apply elem_of_nil in H].
    apply list_elem_of_singleton in H. destruct (H1 eq_refl); congruence.
Qed.

Lemma kept_exclusive tr k q : kept E tr k q -> exclusive k.
Proof. induction 1; [by left | done | by apply promised_exclusive | done]. Qed.

(** The channels after a trace. *)
Fixpoint replay (k : channels) (tr : list occurrence) : channels :=
  match tr with
  | [] => k
  | Served r _ :: tr => replay (promised E r k).2 tr
  | _ :: tr => replay k tr
  end.

Lemma replay_app k tr tr' : replay k (tr ++ tr') = replay (replay k tr) tr'.
Proof. revert k; induction tr as [|[] tr IH]; intros k; cbn; auto. Qed.

Lemma proper_app k tr tr' : proper E k (tr ++ tr') = proper E k tr && proper E (replay k tr) tr'.
Proof. revert k; induction tr as [|[] tr IH]; intros k; cbn; auto. by rewrite IH, andb_assoc. Qed.

Lemma kept_replay tr k q : kept E tr k q -> replay all_closed tr = k.
Proof. induction 1 as [| | |]; rewrite ?replay_app; cbn; congruence. Qed.

(** Without misuse the channels that run are open, also those after the request
    under way, and [NULL] is never notified. *)
Lemma kept_proper tr k q :
  kept E tr k q -> proper E all_closed tr = true ->
  well_used k /\ (forall r, q = Some r -> well_used (promised E r k).2) /\
  forall n, Notified n ∈ tr -> None ∉ n.
Proof.
  induction 1 as [|tr k r Hk IH|tr k r Hk IH|tr k q b1 b2 k' Hk IH Hk'].
  - intros _. split; [by repeat split|]. split; [done|]. intros n Hn. by apply elem_of_nil in Hn.
  - rewrite proper_app, (kept_replay _ _ _ Hk). cbn. rewrite andb_true_r.
    intros [Hp Hm%negb_true_iff]%andb_true_iff. destruct (IH Hp) as (Hw & _ & Hn).
    split; [done|]. split; [intros ? [= <-]; by apply promised_well_used|].
    intros n [?|Hx%list_elem_of_singleton]%elem_of_app; [by apply Hn | done].
  - rewrite proper_app. intros [Hp _]%andb_true_iff. destruct (IH Hp) as (_ & Hw & Hn).
    split; [by apply Hw|]. split; [done|].
    intros n [?|Hx%list_elem_of_singleton]%elem_of_app; [by apply Hn | done].
  - rewrite proper_app. intros [Hp _]%andb_true_iff. destruct (IH Hp) as (Hw & Hq & Hn).
    split; [done|]. split; [done|].
    intros n [?|Hx%list_elem_of_singleton]%elem_of_app; [by apply Hn|]. injection Hx as ->.
    apply notified_open. destruct Hk' as [-> | (r & Hr & ->)]; auto.
Qed.
End kept.

(** *** The driver keeps the promise *)

(** The limits of the driver on rates, which VxSound applies. *)
Definition rate_allowed (r : request) : Prop :=
  match r with
  | Playback_prepare s | Capture_prepare s =>
      rate_min snd_es1938_playback <= rate s <= rate_max snd_es1938_playback
  | _ => True
  end.

Definition rates_allowed (tr : list occurrence) : Prop :=
  Forall (fun o => match o with Begun r => rate_allowed r | _ => True end) tr.

(** The channels as the record has them. *)
Definition channels_of (c : es1938) : channels :=
  Channels (Channel (capture_substream c) (Z.testbit (active c) 1))
    (Channel (playback1_substream c) (Z.testbit (active c) 2))
    (Channel (playback2_substream c) (Z.testbit (active c) 0)).

Section sessions.
Context (E : errnos) (width : Z -> Z) (uns : Z -> bool).

(** The bits of [active] when channel [i] starts and stops. *)
Lemma start_bit a i j : 0 <= i -> Z.testbit (a .| 2 ^ i) j = Z.testbit a j || (i =? j).
Proof. intros Hi. by rewrite Z.lor_spec, Z.pow2_bits_eqb. Qed.
Lemma stop_bit a i j : 0 <= i -> Z.testbit (Z.ldiff a (2 ^ i)) j = Z.testbit a j && negb (i =? j).
Proof. intros Hi. by rewrite Z.ldiff_spec, Z.pow2_bits_eqb. Qed.

Lemma channels_of_active c i (b : bool) :
  0 <= i ->
  channels_of (set_active (if b then active c .| 2 ^ i else Z.ldiff (active c) (2 ^ i)) c) =
    let put j ch := if i =? j then Channel (owner ch) b else ch in
    Channels (put 1 (capture (channels_of c))) (put 2 (playback1 (channels_of c)))
      (put 0 (playback2 (channels_of c))).
Proof.
  intros Hi. unfold channels_of. cbn -[Z.pow Z.testbit Z.eqb].
  destruct b; rewrite ?start_bit, ?stop_bit by done;
    destruct (i =? 0), (i =? 1), (i =? 2); cbn -[Z.testbit];
    by rewrite ?orb_true_r, ?orb_false_r, ?andb_false_r, ?andb_true_r.
Qed.

Lemma rate_nonzero s :
  rate_min snd_es1938_playback <= rate s <= rate_max snd_es1938_playback ->
  u32 (8 * 82 * rate s) <> 0.
Proof.
  cbn [rate_min rate_max snd_es1938_playback]. intros Hr.
  rewrite wrap_small by (unfold in_range; lia). lia.
Qed.

Lemma quiet_interrupt c :
  quiet (fun n => exists b1 b2, n = notified b1 b2 (channels_of c)) (snd_es1938_interrupt c).
Proof.
  unfold snd_es1938_interrupt, notified.
  apply quiet_then; [auto with es1938 | intros st].
  apply (quiet_bind (fun n => exists b1 : bool, n = if b1 then
     if running (capture (channels_of c)) then [owner (capture (channels_of c))]
     else if running (playback2 (channels_of c)) then [owner (playback2 (channels_of c))] else []
   else [])).
  { destruct (_ =? 0); [by exists false|].
    apply quiet_then; [auto with es1938 | intros _]. exists true.
    change ADC1 with (2 ^ 1). change DAC1 with (2 ^ 0). by rewrite !land_bit. }
  intros n1 [b1 ->]. apply (quiet_bind (fun n => exists b2 : bool, n = if b2 then
     if running (playback1 (channels_of c)) then [owner (playback1 (channels_of c))] else []
   else [])).
  { destruct (_ =? 0); [by exists false|].
    apply quiet_then; [auto with es1938 | intros _]. exists true.
    change DAC2 with (2 ^ 2). by rewrite land_bit. }
  intros n2 [b2 ->]. apply quiet_then; [returning | intros _]. by exists b1, b2.
Qed.

(** The result and the channels after a request. *)
Definition returned (r : request) (k : channels) (x : Z * es1938) : Prop :=
  (x.1, channels_of x.2) = promised E r k.

Ltac accesses := repeat (apply quiet_then; [solve [eauto with es1938 | returning] | intros _]).

Lemma quiet_prepare s c :
  rate_min snd_es1938_playback <= rate s <= rate_max snd_es1938_playback ->
  quiet (returned (Playback_prepare s) (channels_of c)) (snd_es1938_playback_prepare E width uns s c) /\
  quiet (returned (Capture_prepare s) (channels_of c)) (snd_es1938_capture_prepare E width uns s c).
Proof.
  intros Hr%rate_nonzero. split.
  - unfold snd_es1938_playback_prepare, returned. cbn [promised channels_of].
    destruct (number s =? 0); [|destruct (number s =? 1); [|done]].
    + unfold snd_es1938_playback1_prepare, snd_es1938_playback1_setdma. by accesses.
    + unfold snd_es1938_playback2_prepare, snd_es1938_playback2_setdma. by accesses.
  - unfold snd_es1938_capture_prepare, snd_es1938_capture_setdma. by accesses.
Qed.

Lemma quiet_trigger s cmd c :
  let t := snd_es1938_playback_trigger E s cmd c in
  let k := channels_of c in let r := Playback_trigger s cmd in
  quiet (returned r k) t.2 /\ (channels_of t.1 = k \/ channels_of t.1 = (promised E r k).2).
Proof.
  cbv zeta. unfold snd_es1938_playback_trigger, returned. cbn [promised channels_of].
  destruct (number s =? 0); [|destruct (number s =? 1); [|by split; [|left]]];
    destruct cmd; cbn [fst snd snd_es1938_playback1_trigger snd_es1938_playback2_trigger];
    try (by split; [|left]); (split; [accesses; apply quiet_pure; cbn [fst snd]; f_equal | auto]).
  - exact (channels_of_active c 2 true ltac:(lia)).
  - exact (channels_of_active c 2 false ltac:(lia)).
  - exact (channels_of_active c 0 true ltac:(lia)).
  - right. exact (channels_of_active c 0 true ltac:(lia)).
  - exact (channels_of_active c 0 false ltac:(lia)).
  - right. exact (channels_of_active c 0 false ltac:(lia)).
Qed.

Lemma quiet_capture_trigger cmd c :
  let t := snd_es1938_capture_trigger E cmd c in
  let k := channels_of c in let r := Capture_trigger cmd in
  quiet (returned r k) t.2 /\ (channels_of t.1 = k \/ channels_of t.1 = (promised E r k).2).
Proof.
  cbv zeta. unfold snd_es1938_capture_trigger, returned. cbn [promised channels_of].
  destruct cmd; cbn [fst snd]; try (by split; [|left]);
    (split; [accesses; apply quiet_pure; cbn [fst snd]; f_equal | right]).
  - exact (channels_of_active c 1 true ltac:(lia)).
  - exact (channels_of_active c 1 true ltac:(lia)).
  - exact (channels_of_active c 1 false ltac:(lia)).
  - exact (channels_of_active c 1 false ltac:(lia)).
Qed.

(** A request under way keeps the promise for the channels [k] it found. *)
Definition under_way (r : request) (k : channels) (c : es1938) (p : io (Z * es1938)) : Prop :=
  quiet (returned r k) p /\ (channels_of c = k \/ channels_of c = (promised E r k).2).

Ltac by_promise := split; [reflexivity | first [left; reflexivity | right; reflexivity]].

Lemma serve_under_way r c :
  rate_allowed r ->
  under_way r (channels_of c) (serve E width uns r c).1 (serve E width uns r c).2.
Proof.
  unfold under_way. intros Hr. destruct r as [s|s|s|s cmd|s| |s|cmd|s v]; cbn [serve].
  - unfold snd_es1938_playback_open, returned. cbn.
    destruct (number s =? 0); [|destruct (number s =? 1)]; [by_promise| |by_promise].
    destruct c as [? ? [|] ? ? ? ? ?]; by_promise.
  - unfold snd_es1938_playback_close, returned. cbn.
    destruct (number s =? 0); [|destruct (number s =? 1)]; by_promise.
  - exact (conj (proj1 (quiet_prepare s c Hr)) (or_introl eq_refl)).
  - apply quiet_trigger.
  - unfold snd_es1938_capture_open, returned. destruct c as [? ? ? ? [|] ? ? ?]; by_promise.
  - by_promise.
  - exact (conj (proj2 (quiet_prepare s c Hr)) (or_introl eq_refl)).
  - apply quiet_capture_trigger.
  - split; [|by left]. unfold snd_es1938_set_volume, returned. cbn.
    destruct (number s =? 0); [|destruct (number s =? 1)]; [by accesses..|done].
Qed.

(** The state of a session and its trace. *)
Definition session_inv (tr : list occurrence) (ph : phase) : Prop :=
  match ph with
  | Idle c => kept E tr (channels_of c) None
  | Busy r c p => exists k, kept E tr k (Some r) /\ under_way r k c p
  end.

Lemma session_keeps `{device port D} c0 (d0 d : D) tr ph :
  channels_of c0 = all_closed -> session E width uns c0 d0 tr ph d -> rates_allowed tr ->
  session_inv tr ph.
Proof.
  unfold rates_allowed. intros H0 Hs.
  induction Hs as [|tr c d r Hs IH|tr r c p k d v d' Hs IH Hr|tr r c p v k d Hs IH
    |tr r c e c' d Hs IH|tr ph d w n d' Hs IH Hn]; rewrite ?Forall_app; intros Hr'; cbn [session_inv] in *.
  - rewrite H0. constructor.
  - destruct Hr' as [Hr' Hrt]. exists (channels_of c).
    split; [by apply kept_begins, IH | apply serve_under_way; exact (Forall_inv Hrt)].
  - destruct (IH Hr') as (k0 & Hk & Hq & Hc). exists k0. split; [done|]. split; [apply Hq | done].
  - destruct (IH Hr') as (k0 & Hk & [_ Hq] & Hc). exists k0. by repeat split.
  - destruct Hr' as [Hr' _]. destruct (IH Hr') as (k0 & Hk & Hq & _). cbn in Hq.
    unfold returned in Hq. cbn in Hq.
    replace e with (promised E r k0).1 by (by rewrite <- Hq).
    replace (channels_of c') with (promised E r k0).2 by (by rewrite <- Hq). by constructor.
  - destruct Hr' as [Hr' _]. specialize (IH Hr').
    destruct (makes_run _ _ _ _ _ _ _ (quiet_gives _ _ (quiet_interrupt (record_of ph))) Hn)
      as (b1 & b2 & ->).
    destruct ph as [c | r c p]; cbn in *.
    + apply kept_interrupted; auto.
    + destruct IH as (k & Hk & Hq & Hc). exists k. split; [|by split].
      apply kept_interrupted; [done|]. destruct Hc as [-> | ->]; [by left | right; eauto].
Qed.
End sessions.

(** C29: Whatever the sound layer asks of the driver and in whatever order,
    whatever the card answers, and with interrupts between any two accesses to
    the card, only the rates of what is prepared being within the limits: the
    driver keeps the promise ([kept]): each request returns what is promised,
    and each interrupt notifies the substreams of the running channels as they
    are before or after the request under way.  Capture and the second playback
    substream, which share the card's first channel, are never both open;
    [NULL] is notified only after the sound layer started a channel that was not
    open or closed one that ran; and a request under way, left alone, returns:
    nothing is undefined and every poll ends. *)
Theorem sessions_keep_channels `{device port D} E width uns irq0 vc tr ph (d0 d : D) :
  session E width uns (new_chip irq0 vc) d0 tr ph d -> rates_allowed tr ->
  exists k q,
    kept E tr k q /\
    (owner (capture k) = None \/ owner (playback2 k) = None) /\
    (capture_substream (record_of ph) = None \/ playback2_substream (record_of ph) = None) /\
    (proper E all_closed tr = true -> forall n, Notified n ∈ tr -> None ∉ n) /\
    match ph with
    | Idle c => q = None /\ channels_of c = k
    | Busy r _ p => q = Some r /\
        exists w e c' d', run p d = Some (w, (e, c'), d') /\ (e, channels_of c') = promised E r k
    end.
Proof.
  intros Hs Hr. assert (I := session_keeps E width uns (new_chip irq0 vc) d0 d tr ph eq_refl Hs Hr).
  destruct ph as [c | r c p]; cbn in I.
  - exists (channels_of c), None. pose proof (kept_exclusive _ _ _ _ I) as Hx.
    split; [done|]. split; [done|]. split; [exact Hx|]. split; [|done].
    intros Hp. by apply (kept_proper _ _ _ _ I Hp).
  - destruct I as (k & Hk & Hq & Hc). exists k, (Some r). pose proof (kept_exclusive _ _ _ _ Hk) as Hx.
    split; [done|]. split; [done|]. split.
    { change (exclusive (channels_of c)).
      destruct Hc as [-> | ->]; [done | by apply promised_exclusive]. }
    split; [intros Hp; by apply (kept_proper _ _ _ _ Hk Hp)|]. split; [done|].
    destruct (quiet_gives _ _ Hq d) as (w & [e c'] & d' & Hrun & Ha & _). by exists w, e, c', d'.
Qed.

(** ** What is written to the card *)

(** A command or a byte for the controller, one of its registers, one of the mixer's. *)
Definition command_byte (v : Z) : port * Z := (Reg sb_port WRITEDATA 1, v).
Definition ctl (reg v : Z) : list (port * Z) := [command_byte reg; command_byte v].
Definition mix (reg v : Z) : list (port * Z) := [(Reg sb_port MIXERADDR 1, reg); (Reg sb_port MIXERDATA 1, v)].
Definition fifo_reset : list (port * Z) := [(Reg sb_port RESET 1, 2); (Reg sb_port RESET 1, 0)].

(** The eighth bit of the status registers. *)
Lemma status_bit v : (u8 v .& 0x80 =? 0) = negb (Z.testbit v 7).
Proof.
  rewrite <- (negb_involutive (_ =? 0)). f_equal. change 0x80 with (2 ^ 7).
  rewrite land_bit by done. by rewrite wrap_testbit.
Qed.

Lemma run_inb `{device port D} r (d : D) :
  run (inb r) d = let '(v, d') := dev_read (Reg r.1 r.2 1) d in Some ([], u8 v, d').
Proof. unfold inb, read. cbn [mbind io_bind run]. by destruct (dev_read _ d). Qed.

Lemma performs_outb `{device port D} v r : performs (outb v r) [(Reg r.1 r.2 1, u8 v)] tt.
Proof. apply performs_write. Qed.

Lemma performs_mixer_write `{device port D} reg val :
  performs (snd_es1938_mixer_write reg val) (mix (u8 reg) (u8 val)) tt.
Proof. apply performs_then, performs_outb. Qed.

Lemma performs_reset_fifo `{device port D} : performs snd_es1938_reset_fifo fifo_reset tt.
Proof. apply performs_then, performs_outb. Qed.

Lemma polls_positive : (0 < Z.to_nat WRITE_LOOP_TIMEOUT)%nat /\ (0 < Z.to_nat GET_LOOP_TIMEOUT)%nat.
Proof. unfold WRITE_LOOP_TIMEOUT, GET_LOOP_TIMEOUT. lia. Qed.

(** Mixer registers, whatever the card. *)
Lemma run_mixer_bits `{device port D} reg mask val (d : D) :
  exists old d', byte old /\
  run (snd_es1938_mixer_bits reg mask val) d =
    Some ((Reg sb_port MIXERADDR 1, u8 reg) ::
          (if val =? old .& mask then [] else [(Reg sb_port MIXERDATA 1, u8 (merge old mask val))]),
          old .& mask, d').
Proof.
  unfold snd_es1938_mixer_bits. rewrite run_bind.
  destruct (performs_outb reg (SLSB_REG MIXERADDR) d) as [d1 H1]. rewrite H1. step_run.
  rewrite run_bind, run_inb. destruct (dev_read _ d1) as [v d2]. step_run.
  exists (u8 v). destruct (val =? u8 v .& mask) eqn:Ev.
  - exists d2. split; [by apply wrap_range | done].
  - eexists. split; [by apply wrap_range | done].
Qed.

Lemma merge_testbit old mask val i :
  Z.testbit (merge old mask val) i = if Z.testbit mask i then Z.testbit val i else Z.testbit old i.
Proof.
  unfold merge. rewrite Z.lor_spec, Z.ldiff_spec, Z.land_spec.
  by destruct (Z.testbit mask i), (Z.testbit old i), (Z.testbit val i).
Qed.

(** A controller that is never busy and always has a byte to read. *)
Class ready `{device port D} : Prop := {
  never_busy (d : D) : Z.testbit (fst (dev_read (Reg sb_port READSTATUS 1) d)) 7 = false;
  byte_there (d : D) : Z.testbit (fst (dev_read (Reg sb_port STATUS 1) d)) 7 = true
}.

(** A controller that never answers. *)
Class dead `{device port D} : Prop := {
  always_busy (d : D) : Z.testbit (fst (dev_read (Reg sb_port READSTATUS 1) d)) 7 = true;
  no_byte (d : D) : Z.testbit (fst (dev_read (Reg sb_port STATUS 1) d)) 7 = false
}.

Section on_ready.
Context (E : errnos) (width : Z -> Z) (uns : Z -> bool) `{Hd : device port D} (Hready : ready (D := D)).

Lemma ready_write_cmd cmd : performs (D := D) (snd_es1938_write_cmd cmd) [command_byte (u8 cmd)] tt.
Proof.
  intros d. unfold snd_es1938_write_cmd. pose proof (proj1 polls_positive) as Hp. revert Hp.
  generalize (Z.to_nat WRITE_LOOP_TIMEOUT). intros [|n] Hp; [lia|]. cbn [write_cmd_loop].
  rewrite run_bind, run_inb. pose proof (never_busy d) as Hb. cbn [fst snd SLSB_REG].
  destruct (dev_read _ d) as [v d']. step_run. cbn [fst] in Hb.
  rewrite status_bit, Hb. cbn [negb]. by eexists.
Qed.

Lemma ready_write reg val :
  performs (D := D) (snd_es1938_write reg val) (ctl (u8 reg) (u8 val)) tt.
Proof. apply (performs_bind _ _ [_] [_] tt); apply ready_write_cmd. Qed.

Lemma ready_get_byte (d : D) : exists v d', byte v /\ run (snd_es1938_get_byte E) d = Some ([], v, d').
Proof.
  unfold snd_es1938_get_byte. pose proof (proj2 polls_positive) as Hp. revert Hp.
  generalize (Z.to_nat GET_LOOP_TIMEOUT). intros [|n] Hp; [lia|]. cbn [get_byte_loop].
  rewrite run_bind, run_inb. pose proof (byte_there d) as Hb. cbn [fst snd SLSB_REG].
  destruct (dev_read _ d) as [v d']. step_run. cbn [fst] in Hb.
  rewrite status_bit, Hb. cbn [negb]. rewrite run_inb. destruct (dev_read _ d') as [x d2].
  exists (u8 x), d2. split; [by apply wrap_range|]. done.
Qed.

(** What [snd_es1938_bits] writes when the register holds [old]. *)
Definition bits_writes (reg mask val old : Z) : list (port * Z) :=
  ctl ESS_CMD_READREG reg ++ (if val =? old .& mask then [] else ctl reg (u8 (merge old mask val))).

Lemma ready_bits reg mask val (d : D) :
  byte reg -> exists old d', byte old /\
  run (snd_es1938_bits E reg mask val) d = Some (bits_writes reg mask val old, old .& mask, d').
Proof.
  intros Hreg. unfold snd_es1938_bits. pose proof ready_write_cmd as Hw. pose proof ready_get_byte as Hg.
  revert Hw Hg. generalize snd_es1938_write_cmd as W, (snd_es1938_get_byte E) as G. intros W G Hw Hg.
  rewrite run_bind. destruct (Hw ESS_CMD_READREG d) as [d1 ->]. step_run.
  rewrite run_bind. destruct (Hw reg d1) as [d2 ->]. step_run.
  rewrite run_bind. destruct (Hg d2) as (old & d3 & Ho & ->). step_run.
  unfold bits_writes. rewrite (wrap_small 8 old) by done. rewrite (wrap_small 8 reg) by done.
  destruct (val =? old .& mask) eqn:Ev.
  - exists old, d3. split; [done|]. by rewrite Ev.
  - assert (performs (_ ← W reg; W (merge old mask val)) (ctl (u8 reg) (u8 (merge old mask val))) tt) as Hm
      by (apply (performs_bind _ _ [_] [_] tt); apply Hw).
    destruct (Hm d3) as [d4 H4]. rewrite (wrap_small 8 reg) in H4 by done.
    exists old, d4. split; [done|]. by rewrite run_bind, H4, Ev.
Qed.
End on_ready.

(** ** Preparing a substream *)

(** What the sound layer asks for: a rate that is one of the two clocks divided
    by 1 to 128, and a buffer and a period within the limits of the driver. *)
Record runtime_ok (s : substream) : Prop := {
  clock_ok : rate_num s = clock0_num \/ rate_num s = clock1_num;
  den_ok : 1 <= rate_den s <= 128;
  rate_ok : rate_min snd_es1938_playback <= rate s <= rate_max snd_es1938_playback;
  buffer_ok : 1 <= buffer_bytes s <= buffer_bytes_max snd_es1938_playback;
  period_ok : period_bytes_min snd_es1938_playback <= period_bytes s <= period_bytes_max snd_es1938_playback
}.

(** What the card does with the bytes it is given: the clock and its divisor,
    and the count of a 16-bit counter that counts up to its overflow. *)
Definition clock_of (b : Z) : Z * Z :=
  if Z.testbit b 7 then (clock1_num, 256 - b) else (clock0_num, 128 - b).
Definition counts (lo hi : Z) : Z := 0x10000 - (lo + 256 * hi).

Lemma clock_byte s :
  runtime_ok s -> clock_of (u8 (rate_bits s)) = (rate_num s, rate_den s).
Proof.
  intros [Hc Hd _ _ _]. unfold rate_bits. destruct (Z.eqb_spec (rate_num s) clock0_num) as [->|Hn].
  - rewrite (wrap_small 32), (wrap_small 8) by (unfold in_range; lia). unfold clock_of.
    assert (in_range 7 (128 - rate_den s)) as [_ ->]%in_range_bits by (unfold in_range; lia);
      [f_equal; lia | done..].
  - destruct Hc as [Hc|Hc]; [done|]. rewrite (wrap_small 32), (wrap_small 8) by (unfold in_range; lia).
    unfold clock_of. assert (Z.testbit (256 - rate_den s) 7 = true) as ->; [|rewrite Hc; f_equal; lia].
    apply Z.testbit_true; [done|]. change (2 ^ 7) with 128.
    assert ((256 - rate_den s) / 128 = 1) as -> by (symmetry; apply Z.div_unique with (r := 128 - rate_den s); lia).
    done.
Qed.

Lemma filter_byte s :
  runtime_ok s ->
  let k := 256 - u8 (filter_div s) in
  4 <= k <= 36 /\ k * (8 * 82 * rate s) <= 7160000 * 20 < (k + 1) * (8 * 82 * rate s).
Proof.
  intros [_ _ Hr _ _]. cbn [rate_min rate_max snd_es1938_playback] in Hr.
  unfold filter_div. rewrite (wrap_small 32 (8 * 82 * rate s)) by (unfold in_range; lia).
  set (r := 8 * 82 * rate s). set (q := 7160000 * 20 / r).
  assert (Hq : r * q <= 7160000 * 20 < r * (q + 1)).
  { split; [apply Z.mul_div_le; lia|]. apply Z.mul_succ_div_gt; lia. }
  assert (4 <= q <= 36) by (subst r; nia).
  rewrite (wrap_small 32), (wrap_small 8) by (unfold in_range; lia). cbv zeta. lia.
Qed.

Lemma reload_bytes n :
  2 <= n <= 0x8000 ->
  counts (u8 (u32 (0x10000 - n) .& 0xff)) (u8 (u32 (0x10000 - n) .>> 8)) = n.
Proof.
  intros Hn. rewrite (wrap_small 32) by (unfold in_range; lia).
  change 0xff with (Z.ones 8). rewrite <- wrap_land, wrap_wrap by done.
  rewrite Z.shiftr_div_pow2 by done. unfold counts, wrap. change (2 ^ 8) with 256.
  rewrite (Z.mod_small (_ / 256)) by (split; [apply Z.div_pos; lia | apply Z.div_lt_upper_bound; lia]).
  pose proof (Z.div_mod (0x10000 - n) 256). lia.
Qed.

Section prepared.
Context (E : errnos) (width : Z -> Z) (uns : Z -> bool) `{Hd : device port D}.
Implicit Types s : substream.

(** The bytes put in the reload counter, [n] before its overflow. *)
Definition reload_lo (n : Z) : Z := u8 (u32 (0x10000 - n) .& 0xff).
Definition reload_hi (n : Z) : Z := u8 (u32 (0x10000 - n) .>> 8).

(** The three formats. *)
Definition audio2_format s : Z :=
  0x40 .| (if is_unsigned uns s then 0 else 4) .| (if mono s then 0 else 2) .| (if is8 width s then 0 else 1).
Definition audio1_format s : Z :=
  0x90 .| (if mono s then 0x40 else 0x08) .| (if is8 width s then 0x00 else 0x04)
  .| (if is_unsigned uns s then 0x00 else 0x20).

(** The DMA of the first channel: set while it is masked. *)
Definition dma1_writes (m : Z) (t : dma) : list (port * Z) :=
  [(Reg ddma_port DMACOMMAND 1, 0xc4); (Reg ddma_port DMACLEAR 1, 0); (Reg ddma_port DMAMASK 1, 1);
   (Reg ddma_port DMAMODE 1, m); (Reg ddma_port DMAADDR 4, dma_start t);
   (Reg ddma_port DMACOUNT 2, dma_size t - 1); (Reg ddma_port DMAMASK 1, 0)].

(** The DMA of the second: its mode is cleared first. *)
Definition dma2_writes (t : dma) : list (port * Z) :=
  [(Reg io_port AUDIO2MODE 1, 0); (Reg io_port AUDIO2DMAADDR 4, dma_start t);
   (Reg io_port AUDIO2DMACOUNT 2, 0); (Reg io_port AUDIO2DMACOUNT 2, dma_size t)].

Lemma performs_eq {A} (c : io A) l l' a : performs (D := D) c l a -> l = l' -> performs (D := D) c l' a.
Proof. by intros ? <-. Qed.

Lemma performs_rate_set2 s :
  runtime_ok s ->
  performs (D := D) (snd_es1938_rate_set s To_DAC2)
    (mix 0x70 (u8 (rate_bits s)) ++ mix 0x72 (u8 (filter_div s))) tt.
Proof.
  intros Hs. unfold snd_es1938_rate_set.
  rewrite (proj2 (Z.eqb_neq _ _) (rate_nonzero s (rate_ok s Hs))).
  rewrite decide_True by done. eapply performs_bind; apply performs_mixer_write.
Qed.

Lemma performs_setdma1 s m c :
  runtime_ok s -> byte m ->
  performs (D := D) (setdma1 m (set_dma1 (transfer width s) c)) (dma1_writes m (transfer width s)) tt.
Proof.
  intros [_ _ _ Hb _] Hm. cbn [buffer_bytes_max snd_es1938_playback] in Hb.
  eapply performs_eq; [repeat apply performs_then; apply performs_pure|].
  unfold dma1_writes. cbn [dma_start dma_size dma1 set_dma1 transfer].
  rewrite (wrap_wrap 32), (wrap_small 8 m), (wrap_small 16) by (done || (unfold in_range; lia)). done.
Qed.

(** The second channel, whatever the card. *)
Lemma playback1_writes s c :
  runtime_ok s ->
  performs (D := D) (snd_es1938_playback1_prepare width uns s c)
    (fifo_reset ++ (mix 0x70 (u8 (rate_bits s)) ++ mix 0x72 (u8 (filter_div s))) ++
     mix 0x74 (reload_lo (period_bytes s .>> 1)) ++ mix 0x76 (reload_hi (period_bytes s .>> 1)) ++
     mix 0x7a (audio2_format s) ++ dma2_writes (transfer width s) ++ [])
    (0, set_dma2 (transfer width s) c).
Proof.
  intros Hs. unfold snd_es1938_playback1_prepare.
  eapply performs_bind; [apply performs_reset_fifo|].
  eapply performs_bind; [by apply performs_rate_set2|].
  eapply performs_bind; [apply performs_mixer_write|].
  eapply performs_bind; [apply performs_mixer_write|].
  eapply performs_bind.
  { replace (audio2_format s) with (u8 (audio2_format s)); [apply performs_mixer_write|].
    unfold audio2_format. by destruct (is_unsigned uns s), (mono s), (is8 width s). }
  eapply performs_bind; [|apply performs_pure].
  eapply performs_eq; [repeat apply performs_then; apply performs_pure|].
  destruct Hs as [_ _ _ Hb _]. cbn [buffer_bytes_max snd_es1938_playback] in Hb.
  unfold dma2_writes. cbn [dma_start dma_size dma2 set_dma2 transfer].
  rewrite (wrap_wrap 32), (wrap_small 16 (buffer_bytes s)) by (done || (unfold in_range; lia)). done.
Qed.

(** The first channel, on a ready card: reset, the analogue control (whose
    other bits are kept), the rate, the counter, then what [fmt] says. *)
Definition audio1_writes s (old : Z) (fmt : list (port * Z)) : list (port * Z) :=
  fifo_reset ++ bits_writes ESS_CMD_ANALOGCONTROL 0x03 (if mono s then 2 else 1) old ++
  ctl 0xa1 (u8 (rate_bits s)) ++ ctl 0xa2 (u8 (filter_div s)) ++
  ctl 0xa4 (reload_lo (period_bytes s)) ++ ctl 0xa5 (reload_hi (period_bytes s)) ++ fmt.

Definition unsigned_or s (u v : Z) : Z := if is_unsigned uns s then u else v.

Context (Hready : ready (D := D)).

Lemma performs_rate_set1 s m :
  runtime_ok s -> m <> To_DAC2 ->
  performs (D := D) (snd_es1938_rate_set s m)
    (ctl 0xa1 (u8 (rate_bits s)) ++ ctl 0xa2 (u8 (filter_div s))) tt.
Proof.
  intros Hs Hm. unfold snd_es1938_rate_set.
  rewrite (proj2 (Z.eqb_neq _ _) (rate_nonzero s (rate_ok s Hs))).
  rewrite decide_False by done. eapply performs_bind; by apply ready_write.
Qed.

(** The part [playback2_prepare] and [capture_prepare] share. *)
Lemma run_audio1 s m (k : io (Z * es1938)) x fmt (d : D) :
  runtime_ok s -> m <> To_DAC2 -> performs (D := D) k fmt x ->
  exists old d', byte old /\
  run (_ ← snd_es1938_reset_fifo;
       _ ← snd_es1938_bits E ESS_CMD_ANALOGCONTROL 0x03 (if mono s then 2 else 1);
       _ ← snd_es1938_rate_set s m;
       _ ← snd_es1938_write ESS_CMD_DMACNTRELOADL (u32 (0x10000 - period_bytes s) .& 0xff);
       _ ← snd_es1938_write ESS_CMD_DMACNTRELOADH (u32 (0x10000 - period_bytes s) .>> 8);
       k) d = Some (audio1_writes s old fmt, x, d').
Proof.
  intros Hs Hm Hk. pose proof (performs_rate_set1 s m Hs Hm) as HR.
  pose proof (ready_write Hready) as HW.
  pose proof (ready_bits E Hready ESS_CMD_ANALOGCONTROL 0x03 (if mono s then 2 else 1)) as HB.
  revert HR HW HB. generalize (snd_es1938_rate_set s m) as R, snd_es1938_write as W,
    (snd_es1938_bits E ESS_CMD_ANALOGCONTROL 0x03 (if mono s then 2 else 1)) as B.
  intros R W B HR HW HB.
  assert (performs (D := D) (_ ← R;
       _ ← W ESS_CMD_DMACNTRELOADL (u32 (0x10000 - period_bytes s) .& 0xff);
       _ ← W ESS_CMD_DMACNTRELOADH (u32 (0x10000 - period_bytes s) .>> 8); k)
     ((ctl 0xa1 (u8 (rate_bits s)) ++ ctl 0xa2 (u8 (filter_div s))) ++
      ctl 0xa4 (reload_lo (period_bytes s)) ++ ctl 0xa5 (reload_hi (period_bytes s)) ++ fmt) x) as Hr.
  { eapply performs_bind; [exact HR|]. eapply performs_bind; [apply HW|].
    eapply performs_bind; [apply HW | exact Hk]. }
  rewrite run_bind. destruct (performs_reset_fifo d) as [d1 ->]. step_run.
  rewrite run_bind.
  destruct (HB d1) as (old & d2 & Ho & ->); [done|]. step_run.
  destruct (Hr d2) as [d3 ->]. exists old, d3. split; [done|]. step_run. unfold audio1_writes.
  by rewrite <- !app_assoc.
Qed.

(** The last writes of each, and the transfer. *)
Lemma playback2_writes s c (d : D) :
  runtime_ok s -> exists old d', byte old /\
  run (snd_es1938_playback2_prepare E width uns s c) d =
    Some (audio1_writes s old
            (ctl 0xb6 (unsigned_or s 0x80 0x00) ++ ctl 0xb6 (unsigned_or s 0x51 0x71) ++
             ctl 0xb7 (audio1_format s) ++ dma1_writes 0x18 (transfer width s)),
          (0, set_dma1 (transfer width s) c), d').
Proof.
  intros Hs. apply run_audio1; [done..|]. eapply performs_eq.
  { repeat (eapply performs_bind; [apply ready_write, Hready|]).
    eapply performs_bind; [by apply performs_setdma1 | apply performs_pure]. }
  rewrite app_nil_r. unfold unsigned_or, audio1_format.
  by destruct (is_unsigned uns s), (mono s), (is8 width s).
Qed.

Lemma capture_writes s c (d : D) :
  runtime_ok s -> exists old d', byte old /\
  run (snd_es1938_capture_prepare E width uns s c) d =
    Some (audio1_writes s old
            (ctl 0xb7 (unsigned_or s 0x51 0x71) ++ ctl 0xb7 (audio1_format s) ++
             dma1_writes 0x14 (transfer width s)),
          (0, set_dma1 (transfer width s) c), d').
Proof.
  intros Hs. apply run_audio1; [done..|]. eapply performs_eq.
  { repeat (eapply performs_bind; [apply ready_write, Hready|]).
    eapply performs_bind; [by apply performs_setdma1 | apply performs_pure]. }
  rewrite app_nil_r. unfold unsigned_or, audio1_format.
  by destruct (is_unsigned uns s), (mono s), (is8 width s).
Qed.
End prepared.

(** C30: On a card that answers, preparing a substream whose parameters are
    within the driver's limits writes what it asks for: the clock and divisor
    of its rate, a filter divided within one step of 82 times the rate, a
    counter that overflows after one period (counted in words on the second
    channel), its format, and the address and length of its buffer, the DMA
    being masked while they are written; of the analogue control only the two
    bits of the mask change. *)
Theorem prepare_programs_card `{Hd : device port D} (Hready : ready (D := D)) E width uns s c (d : D) :
  runtime_ok s ->
  let t := transfer width s in
  let n := period_bytes s in
  (exists old d', byte old /\ run (snd_es1938_playback_prepare E width uns s c) d =
     if number s =? 0 then
       Some (fifo_reset ++ (mix 0x70 (u8 (rate_bits s)) ++ mix 0x72 (u8 (filter_div s))) ++
             mix 0x74 (reload_lo (n / 2)) ++ mix 0x76 (reload_hi (n / 2)) ++
             mix 0x7a (audio2_format width uns s) ++ dma2_writes t, (0, set_dma2 t c), d')
     else if number s =? 1 then
       Some (audio1_writes s old
               (ctl 0xb6 (unsigned_or uns s 0x80 0x00) ++ ctl 0xb6 (unsigned_or uns s 0x51 0x71) ++
                ctl 0xb7 (audio1_format width uns s) ++ dma1_writes 0x18 t), (0, set_dma1 t c), d')
     else Some ([], (- EINVAL E, c), d)) /\
  (exists old d', byte old /\ run (snd_es1938_capture_prepare E width uns s c) d =
     Some (audio1_writes s old
             (ctl 0xb7 (unsigned_or uns s 0x51 0x71) ++ ctl 0xb7 (audio1_format width uns s) ++
              dma1_writes 0x14 t), (0, set_dma1 t c), d')) /\
  clock_of (u8 (rate_bits s)) = (rate_num s, rate_den s) /\
  (let k := 256 - u8 (filter_div s) in
   4 <= k <= 36 /\ k * (8 * 82 * rate s) <= 7160000 * 20 < (k + 1) * (8 * 82 * rate s)) /\
  counts (reload_lo n) (reload_hi n) = n /\ counts (reload_lo (n / 2)) (reload_hi (n / 2)) = n / 2 /\
  (forall old m v i, Z.testbit (merge old m v) i = if Z.testbit m i then Z.testbit v i else Z.testbit old i).
Proof.
  intros Hs t n. pose proof (period_ok s Hs) as Hp.
  cbn [period_bytes_min period_bytes_max snd_es1938_playback] in Hp. fold n in Hp.
  split_and!.
  - unfold snd_es1938_playback_prepare. destruct (number s =? 0).
    { destruct (playback1_writes width uns s c Hs d) as [d' Hr]. exists 0, d'. split; [done|].
      rewrite Hr, app_nil_r. rewrite Z.shiftr_div_pow2 by done. done. }
    destruct (number s =? 1); [|by exists 0, d]. by apply playback2_writes.
  - by apply capture_writes.
  - by apply clock_byte.
  - by apply filter_byte.
  - apply reload_bytes. lia.
  - apply reload_bytes. pose proof (Z.div_mod n 2). pose proof (Z.mod_pos_bound n 2). lia.
  - apply merge_testbit.
Qed.

(** ** A card that does not answer, and failures while it is set up *)

Section on_dead.
Context (E : errnos) `{Hd : device port D} (Hdead : dead (D := D)).

Lemma dead_write_cmd cmd : performs (D := D) (snd_es1938_write_cmd cmd) [] tt.
Proof.
  unfold snd_es1938_write_cmd. generalize (Z.to_nat WRITE_LOOP_TIMEOUT). intros n.
  induction n as [|n IH]; [apply performs_pure|]. intros d. cbn [write_cmd_loop].
  rewrite run_bind, run_inb. pose proof (always_busy d) as Hb. cbn [fst snd SLSB_REG].
  destruct (dev_read _ d) as [v d']. step_run. cbn [fst] in Hb. rewrite status_bit, Hb. cbn [negb].
  destruct (IH d') as [d2 ->]. by exists d2.
Qed.

Lemma dead_get_byte : performs (D := D) (snd_es1938_get_byte E) [] (- ENODEV E).
Proof.
  unfold snd_es1938_get_byte. generalize (Z.to_nat GET_LOOP_TIMEOUT). intros n.
  induction n as [|n IH]; [apply performs_pure|]. intros d. cbn [get_byte_loop].
  rewrite run_bind, run_inb. pose proof (no_byte d) as Hb. cbn [fst snd SLSB_REG].
  destruct (dev_read _ d) as [v d']. step_run. cbn [fst] in Hb. rewrite status_bit, Hb. cbn [negb].
  destruct (IH d') as [d2 ->]. by exists d2.
Qed.

Lemma dead_write reg val : performs (D := D) (snd_es1938_write reg val) [] tt.
Proof. apply performs_skip with tt; apply dead_write_cmd. Qed.

Lemma dead_read reg : performs (D := D) (snd_es1938_read E reg) [] (u8 (- ENODEV E)).
Proof.
  apply performs_skip with tt; [apply dead_write_cmd|].
  apply performs_skip with tt; [apply dead_write_cmd|].
  apply performs_skip with (- ENODEV E); [apply dead_get_byte | apply performs_pure].
Qed.

Lemma dead_bits reg mask val :
  performs (D := D) (snd_es1938_bits E reg mask val) [] (u8 (- ENODEV E) .& mask).
Proof.
  unfold snd_es1938_bits.
  apply performs_skip with tt; [apply dead_write_cmd|].
  apply performs_skip with tt; [apply dead_write_cmd|].
  apply performs_skip with (- ENODEV E); [apply dead_get_byte|].
  apply performs_skip with tt; [|apply performs_pure].
  destruct (_ =? _); [apply performs_pure|].
  apply performs_skip with tt; apply dead_write_cmd.
Qed.

Lemma dead_reset_loop n : performs (D := D) (reset_loop n) [] tt.
Proof.
  induction n as [|n IH]; [apply performs_pure|]. intros d. cbn [reset_loop].
  rewrite run_bind, run_inb. pose proof (no_byte d) as Hb. cbn [fst snd SLSB_REG].
  destruct (dev_read _ d) as [v d']. step_run. cbn [fst] in Hb. rewrite status_bit, Hb. cbn [negb].
  destruct (IH d') as [d2 ->]. by exists d2.
Qed.

(** A read whose value is not used. *)
Lemma performs_inb {B} r (c : io B) l b :
  performs (D := D) c l b -> performs (D := D) (_ ← inb r; c) l b.
Proof.
  intros Hc d. rewrite run_bind, run_inb. destruct (dev_read _ d) as [v d']. step_run.
  destruct (Hc d') as [d2 ->]. by exists d2.
Qed.

(** The writes of a reset that reach the card: those of the mixer. *)
Definition reset_mixer : list (port * Z) :=
  mix 0x71 0x32 ++ mix 0x54 0x8f ++ mix 0x56 0x95 ++ mix 0x58 0x94 ++ mix 0x5a 0x80.

Lemma dead_reset :
  performs (D := D) (snd_es1938_reset E)
    ((Reg sb_port RESET 1, 3) :: (Reg sb_port RESET 1, 0) :: reset_mixer) tt.
Proof.
  pose proof dead_write_cmd as HC. pose proof dead_write as HW. pose proof dead_bits as HB.
  pose proof (dead_reset_loop (Z.to_nat RESET_LOOP_TIMEOUT)) as HL.
  unfold snd_es1938_reset. revert HC HW HB HL.
  generalize snd_es1938_write_cmd as C, snd_es1938_write as W, (snd_es1938_bits E) as B,
    (reset_loop (Z.to_nat RESET_LOOP_TIMEOUT)) as L.
  intros C W B L HC HW HB HL.
  apply performs_then, performs_inb, performs_then.
  eapply performs_skip; [exact HL|]. eapply performs_skip; [apply HC|]. eapply performs_skip; [apply HW|].
  eapply performs_bind; [apply performs_mixer_write|].
  eapply performs_skip; [apply HB|]. eapply performs_skip; [apply HB|]. eapply performs_skip; [apply HC|].
  eapply performs_bind; [apply performs_mixer_write|].
  eapply performs_bind; [apply performs_mixer_write|].
  eapply performs_bind; [apply performs_mixer_write|]. apply performs_mixer_write.
Qed.
End on_dead.

(** What the driver does when a step of the set up fails, on a card whose calls
    are answered by [ans]. *)
Class answers `{device port D} (ans : call -> Z) : Prop :=
  answered (f : call) (d : D) : fst (dev_read (Call f) d) = ans f.

Section failures.
Context (E : errnos) (flag_io : Z) `{Hd : device port D} (ans : call -> Z) (Ha : answers (D := D) ans).

Lemma gives_result f : gives (fun v => v = ans f) (result_of f).
Proof.
  intros d. cbn [result_of read run]. pose proof (answered f d) as Hf. destruct (dev_read _ d) as [v d'].
  by exists [], v, d'.
Qed.

Lemma makes_checked {A} cs (Q : A -> Prop) f (fail k : Z -> io A) :
  makes (D := D) cs Q (if ans f <? 0 then fail (ans f) else k (ans f)) -> makes cs Q (checked f fail k).
Proof. intros Hk. apply (gives_bind _ _ _ _ _ (gives_result f)). by intros v ->. Qed.

(** [free] gives the interrupt line in the record back. *)
Lemma makes_free chip c :
  0 <= irq c -> makes (D := D) [(free_irq, irq c); (kfree, chip)] (fun r => r = 0) (snd_es1938_free E chip c).
Proof.
  intros Hi. unfold snd_es1938_free. rewrite (proj2 (Z.leb_le _ _) Hi).
  apply (makes_bind [_] [_] (fun _ => True)); [by apply makes_call|]. intros _ _.
  repeat (apply gives_then; [auto with es1938|]; intros _).
  apply (makes_bind [_] [] (fun _ => True)); [by apply makes_call|]. intros _ _. by apply gives_pure.
Qed.

Lemma makes_chip_init c :
  makes (D := D) [(pci_set_master, 0)] (fun _ => True) (snd_es1938_chip_init E c).
Proof.
  apply gives_then; [auto with es1938|]. intros _.
  apply (makes_bind [_] [] (fun _ => True)); [by apply makes_call|]. intros _ _. apply quiet_gives. returning.
Qed.

(** The calls [create] makes for no result, and its result. *)
Definition create_calls (pci_irq : Z) : list (call * Z) :=
  if ans pci_enable_device <? 0 then []
  else if (ans pci_set_dma_mask <? 0) || (ans pci_set_consistent_dma_mask <? 0) || (ans kcalloc =? 0)
  then [(pci_disable_device, 0)]
  else if ans pci_request_regions <? 0 then [(kfree, ans kcalloc); (pci_disable_device, 0)]
  else if negb (ans request_irq =? 0) then [(free_irq, 0); (kfree, ans kcalloc)]
  else (pci_set_master, 0) ::
    (if ans snd_device_new <? 0 then [(free_irq, pci_irq); (kfree, ans kcalloc)] else []).

Definition create_result (pci_irq : Z) : Z * option (Z * es1938) :=
  if ans pci_enable_device <? 0 then (ans pci_enable_device, None)
  else if (ans pci_set_dma_mask <? 0) || (ans pci_set_consistent_dma_mask <? 0) then (- ENXIO E, None)
  else if ans kcalloc =? 0 then (- ENOMEM E, None)
  else if ans pci_request_regions <? 0 then (ans pci_request_regions, None)
  else if negb (ans request_irq =? 0) then (- EBUSY E, None)
  else if ans snd_device_new <? 0 then (ans snd_device_new, None)
  else (0, Some (ans kcalloc, new_chip pci_irq (ans (pci_resource_start 2)))).

Lemma makes_create pci_irq :
  0 <= pci_irq ->
  makes (D := D) (create_calls pci_irq) (fun r => r = create_result pci_irq) (snd_es1938_create E pci_irq).
Proof.
  intros Hi. unfold snd_es1938_create, create_calls, create_result.
  assert (forall e : Z, makes (D := D) [(pci_disable_device, 0)] (fun r => r = (e, @None (Z * es1938)))
                     (_ ← do_call pci_disable_device 0; Pure (e, None) : io (Z * option (Z * es1938)))) as Hdis.
  { intros e. apply (makes_bind [_] [] (fun _ => True)); [by apply makes_call|].
    intros _ _. by apply gives_pure. }
  apply makes_checked. destruct (ans pci_enable_device <? 0); [by apply gives_pure|].
  apply makes_checked. destruct (ans pci_set_dma_mask <? 0); [apply Hdis|].
  apply makes_checked. destruct (ans pci_set_consistent_dma_mask <? 0); [apply Hdis|].
  apply (gives_bind _ _ _ _ _ (gives_result _)). intros chip ->. cbn [orb].
  destruct (ans kcalloc =? 0); [apply Hdis|].
  apply makes_checked. destruct (ans pci_request_regions <? 0).
  { apply (makes_bind [_] [_] (fun _ => True)); [by apply makes_call|]. intros _ _. apply Hdis. }
  do 2 (apply gives_then; [apply gives_read; done | intros _]).
  apply (gives_bind _ _ _ _ _ (gives_result _)). intros vc ->.
  do 2 (apply gives_then; [apply gives_read; done | intros _]).
  apply (gives_bind _ _ _ _ _ (gives_result _)). intros r ->.
  destruct (negb _).
  { apply (makes_bind [_; _] [] (fun _ => True)).
    - intros d. destruct (makes_free (ans kcalloc) (new_chip 0 (ans (pci_resource_start 2))) ltac:(done) d) as (l & a & d' & Hr & _ & Hl).
      by exists l, a, d'.
    - intros _ _. by apply gives_pure. }
  apply (makes_bind [_] _ (fun _ => True)); [apply makes_chip_init|]. intros _ _.
  apply makes_checked. destruct (ans snd_device_new <? 0); [|by apply gives_pure].
  apply (makes_bind [_; _] [] (fun r => r = 0)); [by apply (makes_free (ans kcalloc) (new_chip pci_irq _))|].
  intros _ _. by apply gives_pure.
Qed.

(** A range of ports the card has. *)
Definition resource_there (i : Z) : bool :=
  negb (ans (pci_resource_start i) =? 0) && negb (ans (pci_resource_flags i) .& flag_io =? 0).

Lemma gives_resources n idx :
  gives (fun b => b = forallb resource_there (seqZ idx (Z.of_nat n))) (resources_ok flag_io n idx).
Proof.
  revert idx. induction n as [|n IH]; intros idx; cbn [resources_ok]; [by apply gives_pure|].
  rewrite seqZ_cons by lia. cbn [forallb].
  apply (gives_bind _ _ _ _ _ (gives_result _)). intros start ->. unfold resource_there at 1.
  destruct (_ =? 0); [by apply gives_pure|].
  apply (gives_bind _ _ _ _ _ (gives_result _)). intros flags ->.
  destruct (_ =? 0); [by apply gives_pure|]. cbn [negb andb].
  replace (Z.pred (Z.of_nat (S n))) with (Z.of_nat n) by lia. apply IH.
Qed.

(** The same for [probe]. *)
Definition probe_ends (cards dev : Z) (enable : Z -> bool) : bool :=
  (cards <=? dev) || negb (enable dev) || (ans snd_card_new =? 0).
Definition probe_fails (pci_irq : Z) : bool :=
  (fst (create_result pci_irq) <? 0) || (ans snd_pcm_new <? 0) || (ans snd_card_register <? 0).

Definition probe_calls (cards : Z) (enable : Z -> bool) (pci_irq dev : Z) : list (call * Z) :=
  if probe_ends cards dev enable then []
  else if negb (forallb resource_there (seqZ 0 5)) then [(snd_card_free, ans snd_card_new)]
  else create_calls pci_irq ++ (if probe_fails pci_irq then [(snd_card_free, ans snd_card_new)] else []).

Definition probe_result (cards : Z) (enable : Z -> bool) (pci_irq dev : Z) : Z * Z * option (Z * es1938) :=
  if cards <=? dev then (- ENODEV E, dev, None)
  else if negb (enable dev) then (- ENOENT E, dev + 1, None)
  else if ans snd_card_new =? 0 then (- ENOMEM E, dev, None)
  else if negb (forallb resource_there (seqZ 0 5)) then (- ENODEV E, dev, None)
  else if fst (create_result pci_irq) <? 0 then (fst (create_result pci_irq), dev, None)
  else if ans snd_pcm_new <? 0 then (ans snd_pcm_new, dev, None)
  else if ans snd_card_register <? 0 then (ans snd_card_register, dev, None)
  else (0, dev + 1, snd (create_result pci_irq)).

Lemma makes_probe cards enable pci_irq dev :
  0 <= pci_irq ->
  makes (D := D) (probe_calls cards enable pci_irq dev) (fun r => r = probe_result cards enable pci_irq dev)
    (snd_es1938_probe E flag_io cards enable pci_irq dev).
Proof.
  intros Hi. unfold snd_es1938_probe, probe_calls, probe_result, probe_ends.
  destruct (cards <=? dev); [by apply gives_pure|].
  destruct (negb (enable dev)); [by apply gives_pure|]. cbn [orb].
  apply (gives_bind _ _ _ _ _ (gives_result _)). intros card ->.
  destruct (ans snd_card_new =? 0); [by apply gives_pure|].
  assert (forall err : Z, makes (D := D) [(snd_card_free, ans snd_card_new)]
      (fun r => r = (err, dev, @None (Z * es1938)))
      (_ ← do_call snd_card_free (ans snd_card_new); Pure (err, dev, None) : io (Z * Z * option (Z * es1938))))
    as Hfail.
  { intros err. apply (makes_bind [_] [] (fun _ => True)); [by apply makes_call|].
    intros _ _. by apply gives_pure. }
  apply (gives_bind _ _ _ _ _ (gives_resources 5 0)). intros ok ->. change (Z.of_nat 5) with 5.
  destruct (negb _); [apply Hfail|].
  apply (makes_bind _ _ _ _ _ _ (makes_create pci_irq Hi)). intros r ->. unfold probe_fails.
  destruct (fst (create_result pci_irq) <? 0); [apply Hfail|]. cbn [orb].
  apply (gives_bind _ (fun v => v = if ans snd_pcm_new <? 0 then ans snd_pcm_new else 0)).
  { apply makes_checked. destruct (ans snd_pcm_new <? 0); by apply gives_pure. }
  intros err ->. destruct (ans snd_pcm_new <? 0) eqn:Ep; [rewrite Ep; apply Hfail|]. cbn [orb].
  change (0 <? 0) with false. cbv iota.
  apply (gives_bind _ (fun v => v = 0)); [by apply gives_pure|]. intros v ->. change (0 <? 0) with false.
  apply makes_checked. destruct (ans snd_card_register <? 0); [apply Hfail | by apply gives_pure].
Qed.
End failures.

(** C35: Probing a card, whatever step fails: the result, the count of cards and
    the calls that give back what was taken, in order, are those of
    [probe_calls] and [probe_result], on every device and whatever its
    registers answer.  So the record and the card are freed on every failure
    after they were allocated; but when the interrupt line is refused, line 0,
    which was never asked for, is given back, and from then on the PCI device
    stays enabled. *)
Theorem setup_failures `{Hd : device port D} (ans : call -> Z) (Ha : answers (D := D) ans)
    E flag_io cards enable pci_irq dev :
  0 <= pci_irq ->
  makes (D := D) (probe_calls E flag_io ans cards enable pci_irq dev)
    (fun r => r = probe_result E flag_io ans cards enable pci_irq dev)
    (snd_es1938_probe E flag_io cards enable pci_irq dev) /\
  (probe_ends ans cards dev enable = false -> forallb (resource_there flag_io ans) (seqZ 0 5) = true ->
   0 <= ans pci_enable_device -> 0 <= ans pci_set_dma_mask -> 0 <= ans pci_set_consistent_dma_mask ->
   ans kcalloc <> 0 -> 0 <= ans pci_request_regions -> 0 < EBUSY E ->
   (ans request_irq <> 0 ->
    probe_calls E flag_io ans cards enable pci_irq dev =
      [(free_irq, 0); (kfree, ans kcalloc); (snd_card_free, ans snd_card_new)]) /\
   (ans request_irq = 0 -> ans snd_device_new < 0 ->
    probe_calls E flag_io ans cards enable pci_irq dev =
      [(pci_set_master, 0); (free_irq, pci_irq); (kfree, ans kcalloc); (snd_card_free, ans snd_card_new)])).
Proof.
  intros Hi. split; [by apply makes_probe|]. intros Hp Hr H1 H2 H3 H4 H5 H6.
  unfold probe_calls, probe_fails, create_calls, create_result. rewrite Hp, Hr. cbn [negb].
  rewrite (proj2 (Z.ltb_ge _ _) H1), (proj2 (Z.ltb_ge _ _) H2), (proj2 (Z.ltb_ge _ _) H3).
  rewrite (proj2 (Z.eqb_neq _ _) H4), (proj2 (Z.ltb_ge _ _) H5). cbn [orb]. split.
  - intros Hq. rewrite (proj2 (Z.eqb_neq _ _) Hq). cbn [negb fst].
    by rewrite (proj2 (Z.ltb_lt _ _)) by lia.
  - intros Hq Hs. rewrite (proj2 (Z.eqb_eq _ _) Hq). cbn [negb].
    rewrite (proj2 (Z.ltb_lt _ _) Hs). cbn [fst]. by rewrite (proj2 (Z.ltb_lt _ _) Hs).
Qed.

(** A card that does not answer is not noticed: starting the second playback
    substream writes nothing, reports success and marks the channel as running,
    and a register reads as the low byte of the error number. *)
Theorem dead_card_unnoticed `{Hd : device port D} (Hdead : dead (D := D)) E s c reg :
  number s = 1 ->
  performs (D := D) (snd_es1938_playback_trigger E s START c).2 [] (0, set_active (active c .| DAC1) c) /\
  performs (D := D) (snd_es1938_read E reg) [] (u8 (- ENODEV E)) /\
  performs (D := D) (snd_es1938_reset E) ((Reg sb_port RESET 1, 3) :: (Reg sb_port RESET 1, 0) :: reset_mixer) tt.
Proof.
  intros Hn. unfold snd_es1938_playback_trigger. rewrite Hn. cbn [Z.eqb].
  split; [|split; [by apply dead_read | by apply dead_reset]].
  eapply performs_skip; [by apply dead_write | apply performs_pure].
Qed.

(** ** Where a transfer is *)

(** The next [n] readings of the count. *)
Fixpoint readings `{device port D} (n : nat) (d : D) : list Z :=
  match n with
  | O => []
  | S n => let '(v, d') := dev_read (Reg ddma_port DMACOUNT 2) d in u16 v :: readings n d'
  end.

Lemma run_inw `{device port D} r (d : D) :
  run (inw r) d = let '(v, d') := dev_read (Reg r.1 r.2 2) d in Some ([], u16 v, d').
Proof. unfold inw, read. cbn [mbind io_bind run]. by destruct (dev_read _ d). Qed.

Lemma stable_count_settles `{device port D} fuel old k x (d : D) :
  (old :: readings fuel d) !! k = Some x -> (old :: readings fuel d) !! S k = Some x ->
  exists y d', run (stable_count fuel old) d = Some ([], Some y, d') /\ y ∈ readings fuel d.
Proof.
  revert old k d. induction fuel as [|fuel IH]; intros old k d; [by destruct k|].
  cbn [readings stable_count]. rewrite run_bind, run_inw. cbn [fst snd SLDM_REG].
  destruct (dev_read _ d) as [v d']. step_run. destruct (Z.eqb_spec (u16 v) old) as [->|Hne].
  { intros _ _. exists old, d'. split; [done | set_solver]. }
  destruct k as [|k]; cbn [lookup list_lookup]; [congruence|]. intros H1 H2.
  destruct (IH _ _ _ H1 H2) as (y & d2 & -> & Hy). exists y, d2. split; [done | set_solver].
Qed.

(** The position is found as soon as two readings in a row agree, with as much
    fuel as readings; while the counts are those of the buffer it is in it. *)
Theorem pointer_settles `{device port D} fuel k x c (d : D) :
  readings (S fuel) d !! k = Some x -> readings (S fuel) d !! S k = Some x ->
  exists y d', run (snd_es1938_playback2_pointer fuel c) d =
    Some ([], Some (u32 (dma_size (dma1 c) - 1 - y) .>> dma_shift (dma1 c)), d') /\
  (1 <= dma_size (dma1 c) <= 0x8000 -> 0 <= dma_shift (dma1 c) ->
   Forall (fun n => 0 <= n < dma_size (dma1 c)) (readings (S fuel) d) ->
   0 <= u32 (dma_size (dma1 c) - 1 - y) .>> dma_shift (dma1 c) <= (dma_size (dma1 c) - 1) .>> dma_shift (dma1 c)).
Proof.
  intros H1 H2. unfold snd_es1938_playback2_pointer. rewrite run_bind, run_inw. cbn [fst snd SLDM_REG].
  cbn [readings] in *. destruct (dev_read _ d) as [v d']. step_run. rewrite run_bind.
  destruct (stable_count_settles fuel (u16 v) k x d' H1 H2) as (y & d2 & -> & Hy). step_run.
  exists y, d2. split; [done|]. intros Hs Hsh [_ Hall]%list.Forall_cons.
  rewrite list.Forall_forall in Hall. pose proof (Hall y Hy).
  rewrite wrap_small by (unfold in_range; lia). rewrite !Z.shiftr_div_pow2 by done.
  split; [apply Z.div_pos; lia | apply Z.div_le_mono; lia].
Qed.

(** ** Witnesses *)

(** A card without state, that answers [f]. *)
Definition answering (f : port -> Z) : device port unit :=
  {| dev_read p d := (f p, d); dev_write _ _ d := d |}.

(** A card that is ready, whose first channel interrupts, with an interrupt
    line that is refused. *)
Definition card_answers (p : port) : Z :=
  match p with
  | Reg io_port 7 1 => 0x10
  | Reg sb_port 0x0e 1 => 0x80
  | Reg _ _ _ => 0
  | Config _ _ => 0
  | Call request_irq => -1
  | Call pci_enable_device | Call pci_set_dma_mask | Call pci_set_consistent_dma_mask
  | Call pci_request_regions => 0
  | Call _ => 1
  | Delay => 0
  end.

Definition example_errnos : errnos := Build_errnos 11 22 19 2 12 6 16.
Definition example_stream (n : Z) : substream :=
  Build_substream (0x100 + n) n 0x4000 0x1000 0x200000 2 0 44100 793800 18.
Definition example_chip : es1938 := new_chip 5 0x300.

Lemma example_stream_ok n : runtime_ok (example_stream n).
Proof. split; cbn; [by left | lia..]. Qed.

#[local] Instance example_ready : @ready unit (answering card_answers).
Proof. by split. Qed.

#[local] Instance example_ans : @answers unit (answering card_answers) (fun f => card_answers (Call f)).
Proof. by intros f d. Qed.

(** A request that is left alone. *)
Lemma session_runs `{device port D} E width uns c0 (d0 : D) tr r c p d w e c' d' :
  session E width uns c0 d0 tr (Busy r c p) d -> run p d = Some (w, (e, c'), d') ->
  session E width uns c0 d0 (tr ++ [Served r e]) (Idle c') d'.
Proof.
  intros Hs. revert d w Hs. induction p as [x | | q k IH | q v k IH]; intros d w Hs Hr; cbn [run] in Hr.
  - injection Hr as _ -> <-. by eapply session_returns.
  - done.
  - destruct (dev_read q d) as [v d1] eqn:Hv. eapply (IH v); [|exact Hr]. by eapply session_reads.
  - destruct (run k _) as [[[l x] d1]|] eqn:Hk; [|done]. injection Hr as _ -> ->.
    eapply IH; [|exact Hk]. by apply session_writes.
Qed.

(** The second playback substream is opened, capture is refused, and an
    interrupt comes while playback is being started: the substream is notified,
    as it runs from before the first access on. *)
Definition example_session : list occurrence :=
  let s := example_stream 1 in
  [Begun (Playback_open s); Served (Playback_open s) 0;
   Begun (Capture_open (example_stream 0)); Served (Capture_open (example_stream 0)) (-11);
   Begun (Playback_trigger s START); Notified [Some 0x101]; Served (Playback_trigger s START) 0].

Definition example_after : es1938 :=
  Build_es1938 5 0x300 None None (Some 0x101) (Build_dma 0 0 0) (Build_dma 0 0 0) 1.

Lemma sessions_keep_channels_witness :
  @session example_errnos (fun _ => 16) (fun _ => false) unit (answering card_answers)
    example_chip tt example_session (Idle example_after) tt /\
  proper example_errnos all_closed example_session = true /\
  (forall n, Notified n ∈ example_session -> None ∉ n) /\
  exists k q, kept example_errnos example_session k q /\ channels_of example_after = k.
Proof.
  assert (Hs : @session example_errnos (fun _ => 16) (fun _ => false) unit (answering card_answers)
    example_chip tt example_session (Idle example_after) tt).
  { pose proof (@session_start example_errnos (fun _ => 16) (fun _ => false) unit
      (answering card_answers) example_chip tt) as S0.
    pose proof (session_begins _ _ _ _ _ _ _ _ (Playback_open (example_stream 1)) S0) as S1.
    eapply session_runs in S1; [|vm_compute; reflexivity].
    pose proof (session_begins _ _ _ _ _ _ _ _ (Capture_open (example_stream 0)) S1) as S2.
    eapply session_runs in S2; [|vm_compute; reflexivity].
    pose proof (session_begins _ _ _ _ _ _ _ _ (Playback_trigger (example_stream 1) START) S2) as S3.
    eapply session_interrupted in S3; [|vm_compute; reflexivity].
    eapply session_runs in S3; [|vm_compute; reflexivity]. exact S3. }
  split; [exact Hs|]. split; [reflexivity|].
  assert (Hr : rates_allowed example_session) by (repeat constructor).
  destruct (sessions_keep_channels _ _ _ _ _ _ _ _ _ Hs Hr) as (k & q & Hk & _ & _ & Hn & _ & Hc).
  split; [by apply Hn|]. by exists k, q.
Defined.

(** Starting a channel that nobody has open is not refused: an interrupt then
    notifies [NULL]. *)
Example closed_start_notifies_null :
  exists ph, @session example_errnos (fun _ => 16) (fun _ => false) unit (answering card_answers)
    example_chip tt [Begun (Capture_trigger START); Notified [None]] ph tt.
Proof.
  pose proof (@session_start example_errnos (fun _ => 16) (fun _ => false) unit
    (answering card_answers) example_chip tt) as S0.
  pose proof (session_begins _ _ _ _ _ _ _ _ (Capture_trigger START) S0) as S1.
  eapply session_interrupted in S1; [|vm_compute; reflexivity]. eexists. exact S1.
Qed.

Lemma prepare_programs_card_witness :
  counts (reload_lo 0x1000) (reload_hi 0x1000) = 0x1000 /\
  exists old d', byte old /\
    @run port unit (answering card_answers) _
      (snd_es1938_capture_prepare example_errnos (fun _ => 16) (fun _ => false) (example_stream 0) example_chip) tt =
    Some (audio1_writes (example_stream 0) old
            (ctl 0xb7 0x71 ++ ctl 0xb7 0xbc ++ dma1_writes 0x14 (Build_dma 0x4000 0x200000 2)),
          (0, set_dma1 (Build_dma 0x4000 0x200000 2) example_chip), d').
Proof.
  destruct (@prepare_programs_card unit (answering card_answers) example_ready example_errnos (fun _ => 16)
    (fun _ => false) (example_stream 0) example_chip tt (example_stream_ok 0)) as (_ & Hc & _ & _ & Hn & _).
  split; [exact Hn | exact Hc].
Defined.

Lemma setup_failures_witness :
  probe_calls example_errnos 1 (fun f => card_answers (Call f)) 8 (fun _ => true) 5 0 =
    [(free_irq, 0); (kfree, 1); (snd_card_free, 1)].
Proof.
  refine (proj1 (proj2 (@setup_failures unit (answering card_answers) _ example_ans example_errnos 1 8
    (fun _ => true) 5 0 _) _ _ _ _ _ _ _ _) _); cbn; (reflexivity || lia).
Defined.
