(* ===== verification/PrioInversion.v ===== *)
(** * Priority inversion: example-sync-updated-2/pthread3.c, pthread3ok.c, pthread3amp.c

    Four threads on one core: [startService] creates a low-priority thread L,
    spins until L is in the critical section, then creates H, which wants the
    same mutex, and M, which only burns cycles.  The threads are step functions,
    and the highest-priority thread that can move does; one pass of
    [fibCycleBurner] is the unit of time. *)
From stdpp Require Import option list relations.
From S2P Require Import Prelude.
#[local] Open Scope Z_scope.

(** ** The threads *)

Inductive tid := START_SERVICE | HIGH_PRIO_SERVICE | MID_PRIO_SERVICE | LOW_PRIO_SERVICE.

Definition tid_eqb (t u : tid) : bool :=
  match t, u with
  | START_SERVICE, START_SERVICE | HIGH_PRIO_SERVICE, HIGH_PRIO_SERVICE
  | MID_PRIO_SERVICE, MID_PRIO_SERVICE | LOW_PRIO_SERVICE, LOW_PRIO_SERVICE => true
  | _, _ => false
  end.

Definition upd {A} (f : tid -> A) (t : tid) (x : A) : tid -> A :=
  fun u => if tid_eqb t u then x else f u.

Definition CS_LENGTH : Z := 10.

(** Where a thread is: not created yet, a point of [startService], the loop of
    [simpleTask], a point of [criticalSectionTask], past its loop, or ended. *)
Inductive pc :=
  | NotCreated
  | CreateL | Spin | CreateH | CreateM | JoinH | JoinM | JoinL
  | Burn
  | Request | Enter | Work | Leave
  | Finish | Exited.

(** The programs differ in what L runs, in the attributes L is created with and
    in whether the mutex is used.  [intfTime] is the argument of the program,
    which [startService] copies to [runInterference] before it creates a
    thread. *)
Inductive task := Critical | Simple.

Record program := {
  low_task : task; low_inherits : bool; locks : bool;
  rt_min_prio : Z; rt_max_prio : Z; intfTime : Z
}.

Record sys := {
  pcs : tid -> pc; idleCount : tid -> Z; CScnt : Z; sharedMemSem : option tid
}.

Definition goto (t : tid) (c : pc) (σ : sys) : sys :=
  {| pcs := upd (pcs σ) t c; idleCount := idleCount σ; CScnt := CScnt σ;
     sharedMemSem := sharedMemSem σ |}.
Definition count (t : tid) (n : Z) (σ : sys) : sys :=
  {| pcs := pcs σ; idleCount := upd (idleCount σ) t n; CScnt := CScnt σ;
     sharedMemSem := sharedMemSem σ |}.
Definition own (o : option tid) (σ : sys) : sys :=
  {| pcs := pcs σ; idleCount := idleCount σ; CScnt := CScnt σ; sharedMemSem := o |}.
Definition entering (σ : sys) : sys :=
  {| pcs := pcs σ; idleCount := idleCount σ; CScnt := swrap 32 (CScnt σ + 1);
     sharedMemSem := sharedMemSem σ |}.

Definition exited (t : tid) (σ : sys) : bool :=
  match pcs σ t with Exited => true | _ => false end.

Section threads.
Context (p : program).

(** One pass of the loop, then the messages and the end. *)
Definition simpleTask (t : tid) (σ : sys) : option sys :=
  match pcs σ t with
  | Burn =>
      let n := u32 (idleCount σ t + 1) in
      Some (goto t (if n <? u32 (intfTime p) then Burn else Finish) (count t n σ))
  | Finish => Some (goto t Exited σ)
  | _ => None
  end.

Definition criticalSectionTask (t : tid) (σ : sys) : option sys :=
  match pcs σ t with
  | Request =>
      if locks p then
        match sharedMemSem σ with
        | None => Some (goto t Enter (own (Some t) σ))
        | Some _ => None
        end
      else Some (goto t Enter σ)
  | Enter => Some (goto t Work (count t 0 (entering σ)))
  | Work =>
      let n := u32 (idleCount σ t + 1) in
      Some (goto t (if n <? CS_LENGTH then Work else Leave) (count t n σ))
  | Leave => Some (goto t Finish (if locks p then own None σ else σ))
  | Finish => Some (goto t Exited σ)
  | _ => None
  end.

(** [pthread_create]: the thread starts at the entry of its function. *)
Definition low_entry : pc := match low_task p with Critical => Request | Simple => Burn end.

(** A join waits for the thread to end. *)
Definition startService (σ : sys) : option sys :=
  let t := START_SERVICE in
  match pcs σ t with
  | CreateL => Some (goto LOW_PRIO_SERVICE low_entry (goto t Spin σ))
  | Spin => Some (if CScnt σ <? 1 then σ else goto t CreateH σ)
  | CreateH => Some (goto HIGH_PRIO_SERVICE Request (goto t CreateM σ))
  | CreateM =>
      Some (if 0 <? intfTime p then goto MID_PRIO_SERVICE Burn (goto t JoinH σ)
            else goto t JoinH σ)
  | JoinH => if exited HIGH_PRIO_SERVICE σ then Some (goto t JoinM σ) else None
  | JoinM =>
      if 0 <? intfTime p then
        if exited MID_PRIO_SERVICE σ then Some (goto t JoinL σ) else None
      else Some (goto t JoinL σ)
  | JoinL => if exited LOW_PRIO_SERVICE σ then Some (goto t Exited σ) else None
  | _ => None
  end.

Definition thread_step (t : tid) (σ : sys) : option sys :=
  match t with
  | START_SERVICE => startService σ
  | HIGH_PRIO_SERVICE => criticalSectionTask t σ
  | MID_PRIO_SERVICE => simpleTask t σ
  | LOW_PRIO_SERVICE =>
      match low_task p with Critical => criticalSectionTask t σ | Simple => simpleTask t σ end
  end.

(** The priorities the threads are created with.  L has the attributes that
    [pthread_attr_init] gave [nrt_sched_attr], with which a thread inherits the
    scheduling of its creator; the comments' option is [rt_min_prio]. *)
Definition sched_priority (t : tid) : Z :=
  match t with
  | START_SERVICE => rt_min_prio p + 1
  | HIGH_PRIO_SERVICE => rt_max_prio p
  | MID_PRIO_SERVICE => rt_max_prio p - 1
  | LOW_PRIO_SERVICE => if low_inherits p then rt_min_prio p + 1 else rt_min_prio p
  end.

(** One core: a thread of the highest priority among those that can move.
    Threads of the same priority take turns in any way. *)
Definition step (σ : sys) (t : tid) (σ' : sys) : Prop :=
  thread_step t σ = Some σ' /\
  forall u σ'', thread_step u σ = Some σ'' -> sched_priority u <= sched_priority t.

(** A run, with the thread and the point it was at for every step. *)
Inductive run : sys -> list (tid * pc) -> sys -> Prop :=
  | run_nil σ : run σ [] σ
  | run_cons σ t σ1 tr σ2 : step σ t σ1 -> run σ1 tr σ2 -> run σ ((t, pcs σ t) :: tr) σ2.
End threads.

(** [main] creates the start service. *)
Definition start : sys :=
  {| pcs := upd (fun _ => NotCreated) START_SERVICE CreateL;
     idleCount := fun _ => 0; CScnt := 0; sharedMemSem := None |}.

Definition reachable (p : program) (σ : sys) : Prop := exists tr, run p start tr σ.

(** The three programs, on a system with the priorities [lo] to [hi]. *)
Definition pthread3 (lo hi n : Z) : program := Build_program Critical true true lo hi n.
Definition pthread3ok (lo hi n : Z) : program := Build_program Critical true false lo hi n.
Definition pthread3amp (lo hi n : Z) : program := Build_program Simple true true lo hi n.

(** ** Runs *)

Abbreviation START := START_SERVICE.
Abbreviation HIGH := HIGH_PRIO_SERVICE.
Abbreviation MID := MID_PRIO_SERVICE.
Abbreviation LOW := LOW_PRIO_SERVICE.

Lemma run_app p σ tr σ1 tr' σ2 : run p σ tr σ1 -> run p σ1 tr' σ2 -> run p σ (tr ++ tr') σ2.
Proof. induction 1; intros Hr; [exact Hr|]. cbn. eapply run_cons; eauto. Qed.

Lemma run_one p σ t σ' : step p σ t σ' -> run p σ [(t, pcs σ t)] σ'.
Proof. intros Hs. eapply run_cons; [exact Hs|]. apply run_nil. Qed.

Lemma reachable_step p σ t σ' : reachable p σ -> step p σ t σ' -> reachable p σ'.
Proof. intros [tr Hr] Hs. exists (tr ++ [(t, pcs σ t)]). eapply run_app; eauto using run_one. Qed.

(** Rule induction over reachable states. *)
Lemma reachable_ind p (I : sys -> Prop) :
  I start -> (forall σ t σ', I σ -> step p σ t σ' -> I σ') -> forall σ, reachable p σ -> I σ.
Proof.
  intros H0 Hs σ [tr Hr]. revert H0. induction Hr as [|σ0 t σ1 tr σ2 Hst _ IH]; [done|].
  intros H0. eapply IH, Hs; eauto.
Qed.

(** The only step a state has, and a run without a choice. *)
Definition only (p : program) (σ : sys) (t : tid) (σ' : sys) : Prop :=
  thread_step p t σ = Some σ' /\
  forall u, u <> t -> thread_step p u σ = None \/ sched_priority p u < sched_priority p t.

Lemma only_step p σ t σ1 : only p σ t σ1 -> step p σ t σ1.
Proof.
  intros [Ht Ho]. split; [exact Ht|]. intros u σ'' Hu.
  assert (t = u \/ t <> u) as [->|Hne] by (destruct t, u; (by left) || by right); [lia|].
  destruct (Ho u) as [Hn|Hp]; [congruence| |lia]. rewrite Hu in Hn. done.
Qed.

Lemma only_unique p σ t σ1 u σ2 : only p σ t σ1 -> step p σ u σ2 -> u = t /\ σ2 = σ1.
Proof.
  intros [Ht Ho] [Hu Hb].
  assert (u = t \/ u <> t) as [->|Hne] by (destruct t, u; (by left) || by right).
  - split; [done|]. congruence.
  - exfalso. destruct (Ho u Hne) as [Hn|Hp]; [congruence|]. specialize (Hb t σ1 Ht). lia.
Qed.

Inductive forced (p : program) : sys -> list (tid * pc) -> sys -> Prop :=
  | forced_nil σ : forced p σ [] σ
  | forced_cons σ t σ1 tr σ2 :
      only p σ t σ1 -> forced p σ1 tr σ2 -> forced p σ ((t, pcs σ t) :: tr) σ2.

Lemma forced_run p σ tr σ' : forced p σ tr σ' -> run p σ tr σ'.
Proof. induction 1; eauto using run_nil, run_cons, only_step. Qed.

Lemma forced_app p σ tr σ1 tr' σ2 :
  forced p σ tr σ1 -> forced p σ1 tr' σ2 -> forced p σ (tr ++ tr') σ2.
Proof. induction 1; intros Hr; [exact Hr|]. cbn. eapply forced_cons; eauto. Qed.

(** Every other run is a beginning or a continuation of the forced one. *)
Lemma forced_prefix p σ tr σ1 tr' σ2 :
  forced p σ tr σ1 -> run p σ tr' σ2 -> tr' `prefix_of` tr \/ tr `prefix_of` tr'.
Proof.
  intros Hf. revert tr'. induction Hf as [σ | σ t σ0 tr σ1 Ho _ IH]; intros tr' Hr.
  - right. apply prefix_nil.
  - inversion Hr as [| ? u σ3 tr3 ? Hs Hr']; subst; [left; apply prefix_nil|].
    destruct (only_unique p σ t σ0 u σ3 Ho Hs) as [-> ->].
    destruct (IH tr3 Hr'); [left|right]; by apply prefix_cons.
Qed.

(** ** What holds in every reachable state *)

(** Inside the critical section, and past the increment of [CScnt]. *)
Definition inside (c : pc) : bool := match c with Enter | Work | Leave => true | _ => false end.
Definition entered (c : pc) : bool :=
  match c with Work | Leave | Finish | Exited => true | _ => false end.

(** How far [startService] is. *)
Definition stage (c : pc) : Z :=
  match c with
  | CreateL => 0 | Spin => 1 | CreateH => 2 | CreateM => 3 | JoinH => 4 | JoinM => 5 | JoinL => 6
  | Exited => 7 | _ => -1
  end.
Definition critical_pc (c : pc) : bool :=
  match c with
  | NotCreated | Request | Enter | Work | Leave | Finish | Exited => true | _ => false
  end.
Definition simple_pc (c : pc) : bool :=
  match c with NotCreated | Burn | Finish | Exited => true | _ => false end.

#[local] Arguments swrap : simpl never.
#[local] Arguments wrap : simpl never.

(** The fields of an updated state. *)
Ltac fields :=
  cbn [goto own count entering pcs idleCount CScnt sharedMemSem] in *;
  unfold upd in *; cbn [tid_eqb] in *.

(** The steps, with the point the thread was at. *)
Lemma exited_true t σ : exited t σ = true -> pcs σ t = Exited.
Proof. unfold exited. by destruct (pcs σ t). Qed.

(** The part of the invariant that the stage of [startService] decides. *)
Ltac stage_facts :=
  repeat match goal with
  | A : ?x = NotCreated <-> _ |- _ =>
      first
        [ let B := fresh in assert (B : x = NotCreated) by (apply A; lia); clear A
        | let B := fresh in assert (B : x <> NotCreated) by (rewrite A; lia); clear A ]
  end.

(** The points of the threads as variables. *)
Ltac abstract_pcs pc :=
  set (p1 := pc START) in *; set (p2 := pc HIGH) in *;
  set (p3 := pc MID) in *; set (p4 := pc LOW) in *;
  clearbody p1 p2 p3 p4; subst.

Ltac settle :=
  intros; cbn [stage inside entered critical_pc simple_pc Z.b2z andb] in *;
  repeat match goal with
  | A : (_ <= _) -> _ |- _ => first [specialize (A ltac:(lia)) | clear A]
  end;
  try done; try lia; try congruence; try tauto; try (intuition (congruence || lia)).

Ltac by_cases x :=
  subst; destruct (inside x) eqn:?, (entered x) eqn:?; cbn in *; try reflexivity; naive_solver lia.

Ltac cases_of Ht :=
  repeat match type of Ht with
  | context [if ?b then _ else _] => destruct b eqn:?
  | context [match ?x with Some _ => _ | None => _ end] => destruct x eqn:?
  end; try done; injection Ht as <-;
  repeat match goal with
  | A : exited _ _ = true |- _ => apply exited_true in A; cbn in A
  | A : (_ <? _) = true |- _ => apply Z.ltb_lt in A
  | A : (_ <? _) = false |- _ => apply Z.ltb_ge in A
  end.

Section invariant.
Context (p : program).
Context (Hlow : low_task p = Critical) (Hprio : rt_min_prio p + 31 <= rt_max_prio p)
  (Hn : intfTime p <= INT_MAX).

Record inv (σ : sys) : Prop := {
  inv_start : 0 <= stage (pcs σ START);
  inv_high_pc : critical_pc (pcs σ HIGH) = true;
  inv_mid_pc : simple_pc (pcs σ MID) = true;
  inv_low_pc : critical_pc (pcs σ LOW) = true;
  inv_low : pcs σ LOW = NotCreated <-> stage (pcs σ START) = 0;
  inv_high : pcs σ HIGH = NotCreated <-> stage (pcs σ START) <= 2;
  inv_mid : pcs σ MID = NotCreated <-> stage (pcs σ START) <= 3 \/ intfTime p <= 0;
  inv_mutex : locks p = true ->
    inside (pcs σ LOW) && inside (pcs σ HIGH) = false /\
    sharedMemSem σ = if inside (pcs σ LOW) then Some LOW else if inside (pcs σ HIGH) then Some HIGH else None;
  inv_cnt : CScnt σ = Z.b2z (entered (pcs σ LOW)) + Z.b2z (entered (pcs σ HIGH));
  inv_past : 2 <= stage (pcs σ START) -> entered (pcs σ LOW) = true;
  inv_work_low : pcs σ LOW = Work -> 0 <= idleCount σ LOW < CS_LENGTH;
  inv_work_high : pcs σ HIGH = Work -> 0 <= idleCount σ HIGH < CS_LENGTH;
  inv_burn_new : pcs σ MID = NotCreated -> idleCount σ MID = 0;
  inv_burn : pcs σ MID = Burn -> 0 <= idleCount σ MID < intfTime p;
  inv_join_high : 5 <= stage (pcs σ START) -> pcs σ HIGH = Exited;
  inv_join_mid : 6 <= stage (pcs σ START) -> pcs σ MID = Exited \/ pcs σ MID = NotCreated;
  inv_join_low : 7 <= stage (pcs σ START) -> pcs σ LOW = Exited;
  inv_wait : locks p = true -> pcs σ MID = Burn \/ pcs σ MID = Finish -> pcs σ HIGH = Request ->
    inside (pcs σ LOW) = true
}.

Lemma prio_start_inv : inv start.
Proof. split; cbn; intros; try done; try lia; split; intros; try done; lia. Qed.

(** What the priorities say about a step of a thread below H, or below M. *)
Lemma high_blocked σ t σ' :
  step p σ t σ' -> t <> HIGH -> locks p = true -> pcs σ HIGH = Request -> sharedMemSem σ <> None.
Proof using Hprio.
  intros [_ Hb] Ht Hl Hr Hs. specialize (Hb HIGH). cbn [thread_step] in Hb.
  unfold criticalSectionTask in Hb. rewrite Hr, Hl, Hs in Hb. specialize (Hb _ eq_refl).
  destruct t; cbn [sched_priority] in Hb; try done; try lia. destruct (low_inherits p); lia.
Qed.

Lemma mid_idle σ t σ' :
  step p σ t σ' -> t = START \/ t = LOW -> pcs σ MID <> Burn /\ pcs σ MID <> Finish.
Proof using Hprio.
  intros [_ Hb] Ht. specialize (Hb MID). cbn [thread_step] in Hb. unfold simpleTask in Hb.
  assert (sched_priority p t < sched_priority p MID) as Hlt.
  { destruct Ht as [-> | ->]; cbn [sched_priority]; [lia|]. destruct (low_inherits p); lia. }
  split; intros E; rewrite E in Hb; specialize (Hb _ eq_refl); lia.
Qed.

Lemma prio_step_preserves σ t σ' : inv σ -> step p σ t σ' -> inv σ'.
Proof using Hlow Hprio Hn.
  intros I Hs. pose proof (high_blocked σ t σ' Hs) as Hhigh.
  pose proof (mid_idle σ t σ' Hs) as Hmid. destruct Hs as [Ht _].
  destruct σ as [pc idle cs sem].
  destruct I; cbn [pcs idleCount CScnt sharedMemSem] in *.
  destruct t; cbn [thread_step] in *; rewrite ?Hlow in *;
    unfold startService, criticalSectionTask, simpleTask in *; cbn [pcs idleCount CScnt sharedMemSem] in *.
  - specialize (Hhigh ltac:(done)). specialize (Hmid ltac:(by left)).
    unfold low_entry in Ht. rewrite Hlow in Ht.
    destruct (pc START) eqn:E; cbn [stage] in *; try done; stage_facts; cases_of Ht; split; fields.
    all: abstract_pcs pc; settle.
    all: by_cases p4.
  - clear Hhigh Hmid. destruct (pc HIGH) eqn:E; try done.
    all: try (specialize (inv_work_high0 eq_refl); unfold CS_LENGTH in *;
              rewrite wrap_small in Ht by (unfold in_range; lia)).
    all: cases_of Ht; split; fields; abstract_pcs pc; settle.
    all: by_cases p4.
  - specialize (Hhigh ltac:(done)). clear Hmid. destruct (pc MID) eqn:E; try done.
    all: try (specialize (inv_burn0 eq_refl); unfold INT_MAX in *;
              rewrite !wrap_small in Ht by (unfold in_range; lia)).
    all: cases_of Ht; split; fields; abstract_pcs pc; settle.
    all: by_cases p4.
  - specialize (Hhigh ltac:(done)). specialize (Hmid ltac:(by right)).
    destruct (pc LOW) eqn:E; try done.
    all: try (specialize (inv_work_low0 eq_refl); unfold CS_LENGTH in *;
              rewrite wrap_small in Ht by (unfold in_range; lia)).
    all: cases_of Ht; split; fields; abstract_pcs pc; settle.
    all: by_cases p2.
Qed.

Lemma reachable_inv_prio σ : reachable p σ -> inv σ.
Proof using Hlow Hprio Hn. apply reachable_ind; [apply prio_start_inv | apply prio_step_preserves]. Qed.
End invariant.

(** ** The inversion *)

Section inversion.
Context (lo hi n : Z) (Hprio : lo + 31 <= hi) (Hn : n <= INT_MAX).
#[local] Abbreviation p := (pthread3 lo hi n).

(** H waits for the mutex that L owns, [startService] for H; M is at [a], L at
    [c] with [il] passes done. *)
Record waiting (a c : pc) (il : Z) (σ : sys) : Prop := {
  w_start : pcs σ START = JoinH; w_high : pcs σ HIGH = Request; w_mid : pcs σ MID = a;
  w_low : pcs σ LOW = c; w_idle : idleCount σ LOW = il; w_sem : sharedMemSem σ = Some LOW
}.

Lemma low_below_high : sched_priority p LOW < sched_priority p HIGH.
Proof using Hprio. cbn. lia. Qed.

(** Only M moves while it has work; then only L does. *)
Lemma only_mid a c il σ σ1 : waiting a c il σ -> thread_step p MID σ = Some σ1 -> only p σ MID σ1.
Proof using Hprio.
  intros W Ht. split; [exact Ht|]. intros u Hu. destruct u; try done; [right | left | right].
  - cbn. lia.
  - cbn. unfold criticalSectionTask. by rewrite (w_high _ _ _ _ W), (w_sem _ _ _ _ W).
  - cbn. lia.
Qed.

Lemma only_low c il σ σ1 : waiting Exited c il σ -> thread_step p LOW σ = Some σ1 -> only p σ LOW σ1.
Proof using Hprio.
  intros W Ht. split; [exact Ht|]. intros u Hu. destruct u; try done; left; cbn.
  - unfold startService, exited. by rewrite (w_start _ _ _ _ W), (w_high _ _ _ _ W).
  - unfold criticalSectionTask. by rewrite (w_high _ _ _ _ W), (w_sem _ _ _ _ W).
  - unfold simpleTask. by rewrite (w_mid _ _ _ _ W).
Qed.

Lemma forced_burn k : forall c il σ,
  waiting Burn c il σ -> 0 <= idleCount σ MID -> idleCount σ MID + Z.of_nat (S k) = n ->
  exists σ', forced p σ (replicate (S k) (MID, Burn)) σ' /\ waiting Finish c il σ'.
Proof using Hprio Hn.
  induction k as [|k IH]; intros c il σ W H0 Hk; unfold INT_MAX in Hn.
  all: assert (Hs : thread_step p MID σ = Some (goto MID
         (if idleCount σ MID + 1 <? n then Burn else Finish) (count MID (idleCount σ MID + 1) σ)))
       by (cbn; unfold simpleTask; rewrite (w_mid _ _ _ _ W); cbn;
           by rewrite !wrap_small by (unfold in_range; lia)).
  all: pose proof (only_mid _ _ _ _ _ W Hs) as Ho; pose proof (w_mid _ _ _ _ W) as Hm; destruct W.
  - destruct (Z.ltb_spec (idleCount σ MID + 1) n) as [|_]; [lia|].
    exists (goto MID Finish (count MID (idleCount σ MID + 1) σ)).
    split; [|split; fields; eassumption || reflexivity].
    cbn [replicate]. rewrite <- Hm. eapply forced_cons; [exact Ho | apply forced_nil].
  - destruct (Z.ltb_spec (idleCount σ MID + 1) n) as [_|]; [|lia].
    edestruct (IH c il) as (σ' & Hf & W'); [| | | exists σ'; split; [|exact W']].
    4: { change (replicate (S (S k)) (MID, Burn)) with ((MID, Burn) :: replicate (S k) (MID, Burn)).
         rewrite <- Hm at 1. eapply forced_cons; [exact Ho | exact Hf]. }
    + split; fields; eassumption || reflexivity.
    + fields. lia.
    + fields. lia.
Qed.

Lemma forced_work k : forall il σ,
  waiting Exited Work il σ -> 0 <= il -> il + Z.of_nat (S k) = CS_LENGTH ->
  exists σ' il', forced p σ (replicate (S k) (LOW, Work)) σ' /\ waiting Exited Leave il' σ'.
Proof using Hprio Hn.
  induction k as [|k IH]; intros il σ W H0 Hk; unfold CS_LENGTH in Hk.
  all: assert (Hs : thread_step p LOW σ = Some (goto LOW
         (if il + 1 <? CS_LENGTH then Work else Leave) (count LOW (il + 1) σ)))
       by (cbn; unfold criticalSectionTask; rewrite (w_low _ _ _ _ W), (w_idle _ _ _ _ W); cbn;
           by rewrite !wrap_small by (unfold in_range; lia)).
  all: pose proof (only_low _ _ _ _ W Hs) as Ho; pose proof (w_low _ _ _ _ W) as Hm; destruct W.
  all: unfold CS_LENGTH in *.
  - destruct (Z.ltb_spec (il + 1) 10) as [|_]; [lia|].
    exists (goto LOW Leave (count LOW (il + 1) σ)), (il + 1).
    split; [|split; fields; eassumption || reflexivity].
    cbn [replicate]. rewrite <- Hm. eapply forced_cons; [exact Ho | apply forced_nil].
  - destruct (Z.ltb_spec (il + 1) 10) as [_|]; [|lia].
    edestruct (IH (il + 1)) as (σ' & il' & Hf & W'); [| | | exists σ', il'; split; [|exact W']].
    4: { change (replicate (S (S k)) (LOW, Work)) with ((LOW, Work) :: replicate (S k) (LOW, Work)).
         rewrite <- Hm at 1. eapply forced_cons; [exact Ho | exact Hf]. }
    + split; fields; eassumption || reflexivity.
    + lia.
    + lia.
Qed.

(** L unlocks and H gets in. *)
Lemma forced_handover il σ :
  waiting Exited Leave il σ ->
  exists σ', forced p σ [(LOW, Leave); (HIGH, Request)] σ' /\
    pcs σ' HIGH = Enter /\ sharedMemSem σ' = Some HIGH.
Proof using Hprio.
  intros W.
  assert (Hs : thread_step p LOW σ = Some (goto LOW Finish (own None σ)))
    by (cbn; unfold criticalSectionTask; by rewrite (w_low _ _ _ _ W)).
  pose proof (only_low _ _ _ _ W Hs) as Ho. pose proof (w_low _ _ _ _ W) as Hm. destruct W.
  set (σ1 := goto LOW Finish (own None σ)) in *.
  exists (goto HIGH Enter (own (Some HIGH) σ1)). split; [|done].
  rewrite <- Hm. eapply forced_cons; [exact Ho|].
  replace Request with (pcs σ1 HIGH) by (by rewrite <- w_high0).
  eapply forced_cons; [|apply forced_nil]. split.
  - unfold σ1. cbn [thread_step]. unfold criticalSectionTask. fields. by rewrite w_high0.
  - intros u Hu. right. destruct u; cbn; try done; lia.
Qed.

(** M at its end leaves the core to L. *)
Lemma forced_mid_end c il σ :
  waiting Finish c il σ ->
  exists σ', forced p σ [(MID, Finish)] σ' /\ waiting Exited c il σ'.
Proof using Hprio.
  intros W.
  assert (Hs : thread_step p MID σ = Some (goto MID Exited σ))
    by (cbn; unfold simpleTask; by rewrite (w_mid _ _ _ _ W)).
  pose proof (only_mid _ _ _ _ _ W Hs) as Ho. pose proof (w_mid _ _ _ _ W) as Hm. destruct W.
  exists (goto MID Exited σ). split; [|split; fields; done].
  rewrite <- Hm. eapply forced_cons; [exact Ho | apply forced_nil].
Qed.
End inversion.

(** The passes of [fibCycleBurner] L has left in the critical section. *)
Definition passes_left (σ : sys) : nat :=
  match pcs σ LOW with Work => Z.to_nat (CS_LENGTH - idleCount σ LOW) | _ => 0%nat end.

(** The wait of H: all that M has left, then all that L has left. *)
Definition the_wait (n : Z) (σ : sys) : list (tid * pc) :=
  replicate (Z.to_nat (n - idleCount σ MID)) (MID, Burn) ++ [(MID, Finish)] ++
  replicate (passes_left σ) (LOW, Work) ++ [(LOW, Leave); (HIGH, Request)].

Lemma the_wait_forced lo hi n σ :
  lo + 31 <= hi -> n <= INT_MAX -> reachable (pthread3 lo hi n) σ ->
  pcs σ HIGH = Request -> pcs σ MID = Burn ->
  exists σ', forced (pthread3 lo hi n) σ (the_wait n σ) σ' /\
    pcs σ' HIGH = Enter /\ sharedMemSem σ' = Some HIGH.
Proof.
  intros Hp Hn Hr Hh Hm. pose proof (reachable_inv_prio (pthread3 lo hi n) eq_refl Hp Hn σ Hr) as I.
  destruct I. specialize (inv_wait0 eq_refl (or_introl Hm) Hh).
  destruct (inv_mutex0 eq_refl) as [_ Hs]. rewrite inv_wait0 in Hs.
  assert (Hst : pcs σ START = JoinH).
  { rewrite Hm in *. assert (~ (stage (pcs σ START) <= 3)).
    { intros Hc. assert (Burn = NotCreated) by (apply inv_mid0; by left). done. }
    assert (~ (5 <= stage (pcs σ START))) by (intros Hc; rewrite inv_join_high0 in Hh; done).
    destruct (pcs σ START); cbn in *; try done; lia. }
  assert (He : entered (pcs σ LOW) = true) by (apply inv_past0; by rewrite Hst).
  specialize (inv_burn0 Hm). cbn [intfTime pthread3] in inv_burn0.
  assert (W : waiting Burn (pcs σ LOW) (idleCount σ LOW) σ) by (by split).
  destruct (forced_burn lo hi n Hp Hn (Z.to_nat (n - idleCount σ MID) - 1) _ _ σ W) as (σ1 & F1 & W1);
    [lia | lia |].
  destruct (forced_mid_end lo hi n Hp _ _ _ W1) as (σ2 & F2 & W2).
  assert (exists σ3 il', forced (pthread3 lo hi n) σ2 (replicate (passes_left σ) (LOW, Work)) σ3 /\
    waiting Exited Leave il' σ3) as (σ3 & il & F3 & W3).
  { unfold passes_left. destruct (pcs σ LOW); try done.
    - specialize (inv_work_low0 eq_refl).
      destruct (forced_work lo hi n Hp Hn (Z.to_nat (CS_LENGTH - idleCount σ LOW) - 1) _ σ2 W2)
        as (σ3 & il & F3 & W3); [lia | lia |].
      exists σ3, il. split; [|exact W3].
      by replace (Z.to_nat (CS_LENGTH - idleCount σ LOW))
        with (S (Z.to_nat (CS_LENGTH - idleCount σ LOW) - 1)) by lia.
    - exists σ2, (idleCount σ LOW). split; [apply forced_nil | exact W2]. }
  destruct (forced_handover lo hi n Hp _ _ W3) as (σ4 & F4 & HE & HS).
  exists σ4. split; [|done]. unfold the_wait.
  replace (Z.to_nat (n - idleCount σ MID)) with (S (Z.to_nat (n - idleCount σ MID) - 1)) by lia.
  eapply forced_app; [exact F1|]. eapply forced_app; [exact F2|]. by eapply forced_app.
Qed.

(** A step of a thread no movable thread is above. *)
Ltac take t :=
  eapply (run_cons _ _ t);
  [ split; [reflexivity | intros [] σ''' Hu; cbn in Hu |- *; try done; lia] |].

(** L enters, [startService] sees it, creates H and then M. *)
Lemma inversion_occurs lo hi n :
  lo + 31 <= hi -> 1 <= n ->
  exists σ, reachable (pthread3 lo hi n) σ /\ pcs σ HIGH = Request /\ pcs σ MID = Burn /\
    idleCount σ MID = 0 /\ passes_left σ = Z.to_nat CS_LENGTH.
Proof.
  intros Hp Hn. eexists. split.
  - eexists. take START. take LOW. take LOW. take START. take START.
    eapply (run_cons _ _ START).
    { split; [cbn; assert ((0 <? n) = true) as -> by lia; reflexivity|].
      intros [] σ''' Hu; cbn in Hu |- *; try done; lia. }
    apply run_nil.
  - by repeat split.
Qed.

(** C19: pthread3.c, for every interference n of at least one pass and every way threads of equal priority take turns: there are runs in which H requests the mutex while L has all of its critical section ahead and M all of its passes, and from every reachable state in which H is at the lock and M still runs, whatever the scheduler does, H gets in exactly after all the passes M has left, followed by those L has left in the critical section. *)
Theorem inversion_unbounded lo hi n :
  lo + 31 <= hi -> 1 <= n <= INT_MAX ->
  let p := pthread3 lo hi n in
  (exists σ, reachable p σ /\ pcs σ HIGH = Request /\ pcs σ MID = Burn /\
     idleCount σ MID = 0 /\ passes_left σ = Z.to_nat CS_LENGTH) /\
  (forall σ, reachable p σ -> pcs σ HIGH = Request -> pcs σ MID = Burn ->
     (exists σ', run p σ (the_wait n σ) σ' /\ pcs σ' HIGH = Enter /\ sharedMemSem σ' = Some HIGH) /\
     (forall tr σ', run p σ tr σ' -> tr `prefix_of` the_wait n σ \/ the_wait n σ `prefix_of` tr)).
Proof.
  intros Hp Hn p. split; [apply inversion_occurs; lia|].
  intros σ Hr Hh Hm. destruct (the_wait_forced lo hi n σ) as (σ' & Hf & He & Hs); try done; [lia|].
  split; [exists σ'; eauto using forced_run|]. intros tr σ'' Hrun. by eapply forced_prefix.
Qed.

(** ** The end of the demonstration *)

(** The steps a thread has left at most. *)
Definition weight (n : Z) (i : Z) (c : pc) : Z :=
  match c with
  | CreateL => 7 | Spin => 6 | CreateH => 5 | CreateM => 4 | JoinH => 3 | JoinM => 2 | JoinL => 1
  | NotCreated => Z.max 0 n + 17 | Burn => 1 + (n - i)
  | Request => 14 | Enter => 13 | Work => 2 + (CS_LENGTH - i) | Leave => 2 | Finish => 1
  | Exited => 0
  end.

Definition work (n : Z) (σ : sys) : Z :=
  weight n 0 (pcs σ START) + weight n (idleCount σ HIGH) (pcs σ HIGH) +
  weight n (idleCount σ MID) (pcs σ MID) + weight n (idleCount σ LOW) (pcs σ LOW).

Definition spinning (e : tid * pc) : Prop := e = (START, Spin).
#[local] Instance spinning_dec e : Decision (spinning e).
Proof. refine (match e with (START_SERVICE, Spin) => left eq_refl | _ => right _ end); done. Defined.

Section ends.
Context (p : program) (Hlow : low_task p = Critical)
  (Hprio : rt_min_prio p + 31 <= rt_max_prio p) (Hn : intfTime p <= INT_MAX).

Lemma weight_nonneg n i c : (c = Work -> i < CS_LENGTH) -> (c = Burn -> i < n) -> 0 <= weight n i c.
Proof using. unfold CS_LENGTH. destruct c; cbn; unfold CS_LENGTH; intros A B; try specialize (A eq_refl); try specialize (B eq_refl); lia. Qed.

Lemma work_nonneg σ : inv p σ -> 0 <= work (intfTime p) σ.
Proof using.
  intros I. destruct I. unfold work.
  assert (forall c, critical_pc c = true -> c <> Burn) as Hc by (by intros []).
  assert (forall c, simple_pc c = true -> c <> Work) as Hs by (by intros []).
  repeat apply Z.add_nonneg_nonneg; apply weight_nonneg; intros E;
    try (by destruct (Hc _ inv_high_pc0)); try (by destruct (Hc _ inv_low_pc0));
    try (by destruct (Hs _ inv_mid_pc0)); try (apply inv_work_low0 in E; lia);
    try (apply inv_work_high0 in E; lia); try (apply inv_burn0 in E; lia);
    rewrite E in inv_start0; cbn in inv_start0; lia.
Qed.

(** Every step but a spin of [startService] is progress. *)
Lemma step_work σ t σ' :
  inv p σ -> step p σ t σ' ->
  work (intfTime p) σ' < work (intfTime p) σ \/ spinning (t, pcs σ t) /\ σ' = σ.
Proof using Hlow Hn.
  intros I [Ht _]. destruct σ as [pc idle cs sem]. destruct I. cbn [pcs idleCount CScnt sharedMemSem] in *.
  unfold work.
  destruct t; cbn [thread_step] in Ht; rewrite ?Hlow in Ht;
    unfold startService, criticalSectionTask, simpleTask, low_entry in Ht;
    rewrite ?Hlow in Ht; cbn [pcs idleCount CScnt sharedMemSem] in Ht.
  - destruct (pc START) eqn:E; cbn [stage] in *; try done; stage_facts; cases_of Ht; try (by right); left.
    all: fields; abstract_pcs pc; cbn [weight]; try specialize (inv_burn_new0 eq_refl); lia.
  - left. destruct (pc HIGH) eqn:E; try done.
    all: try (specialize (inv_work_high0 eq_refl); unfold CS_LENGTH in *;
              rewrite wrap_small in Ht by (unfold in_range; lia)).
    all: cases_of Ht; fields; abstract_pcs pc; cbn [weight]; unfold CS_LENGTH; lia.
  - left. destruct (pc MID) eqn:E; try done.
    all: try (specialize (inv_burn0 eq_refl); unfold INT_MAX in *;
              rewrite !wrap_small in Ht by (unfold in_range; lia)).
    all: cases_of Ht; fields; abstract_pcs pc; cbn [weight]; lia.
  - left. destruct (pc LOW) eqn:E; try done.
    all: try (specialize (inv_work_low0 eq_refl); unfold CS_LENGTH in *;
              rewrite wrap_small in Ht by (unfold in_range; lia)).
    all: cases_of Ht; fields; abstract_pcs pc; cbn [weight]; unfold CS_LENGTH; lia.
Qed.

Lemma run_work σ tr σ' :
  inv p σ -> run p σ tr σ' ->
  Z.of_nat (length (filter (fun e => ~ spinning e) tr)) + work (intfTime p) σ' <= work (intfTime p) σ.
Proof using Hlow Hprio Hn.
  intros I Hr. induction Hr as [σ|σ t σ1 tr σ' Hs _ IH]; [cbn; lia|].
  pose proof (prio_step_preserves p Hlow Hprio Hn σ t σ1 I Hs) as I1. specialize (IH I1).
  rewrite filter_cons. destruct (step_work σ t σ1 I Hs) as [Hlt | [Hsp ->]].
  - case_decide; cbn [length]; lia.
  - case_decide; [contradiction | lia].
Qed.
End ends.

(** Everything joined; M only exists with a positive argument. *)
Definition ended (p : program) (σ : sys) : Prop :=
  pcs σ START = Exited /\ pcs σ HIGH = Exited /\ pcs σ LOW = Exited /\
  pcs σ MID = if 0 <? intfTime p then Exited else NotCreated.

Section progress.
Context (p : program) (Hlow : low_task p = Critical) (Hinh : low_inherits p = true)
  (Hprio : rt_min_prio p + 31 <= rt_max_prio p) (Hn : intfTime p <= INT_MAX).

Lemma step_intro σ t σ' :
  thread_step p t σ = Some σ' ->
  (forall u, u <> t -> thread_step p u σ = None \/ sched_priority p u <= sched_priority p t) ->
  step p σ t σ'.
Proof using.
  intros Ht Ho. split; [exact Ht|]. intros u σ'' Hu.
  assert (t = u \/ u <> t) as [->|Hne] by (destruct t, u; (by left) || by right); [lia|].
  destruct (Ho u Hne); [congruence|done].
Qed.

(** What a thread that cannot move is waiting for. *)
Lemma critical_stuck t σ :
  critical_pc (pcs σ t) = true -> criticalSectionTask p t σ = None ->
  pcs σ t = NotCreated \/ pcs σ t = Exited \/
  (pcs σ t = Request /\ locks p = true /\ sharedMemSem σ <> None).
Proof using.
  unfold criticalSectionTask. destruct (pcs σ t); cbn; try done; auto.
  intros _. destruct (locks p); [|done]. destruct (sharedMemSem σ); [|done]. auto.
Qed.

Lemma simple_stuck t σ :
  simple_pc (pcs σ t) = true -> simpleTask p t σ = None -> pcs σ t = NotCreated \/ pcs σ t = Exited.
Proof using. unfold simpleTask. destruct (pcs σ t); cbn; try done; auto. Qed.

Lemma movable σ :
  inv p σ -> ended p σ \/ exists t σ', step p σ t σ' /\ (σ' = σ -> t <> START).
Proof using Hlow Hinh Hprio.
  intros I. destruct I.
  destruct (thread_step p HIGH σ) as [σ'|] eqn:EH.
  { right. exists HIGH, σ'. split; [|done]. apply step_intro; [done|].
    intros u Hu. right. destruct u; cbn; rewrite ?Hinh; try done; lia. }
  destruct (thread_step p MID σ) as [σ'|] eqn:EM.
  { right. exists MID, σ'. split; [|done]. apply step_intro; [done|].
    intros u Hu. destruct u; [right | by left | done | right]; cbn; rewrite ?Hinh; lia. }
  destruct (thread_step p LOW σ) as [σ'|] eqn:EL.
  { right. exists LOW, σ'. split; [|done]. apply step_intro; [done|].
    intros u Hu. destruct u; [right | by left | by left | done]; cbn; rewrite ?Hinh; lia. }
  cbn [thread_step] in EL. rewrite Hlow in EL. cbn [thread_step] in EH, EM.
  apply critical_stuck in EH; [|done]. apply critical_stuck in EL; [|done].
  apply simple_stuck in EM; [|done].
  assert (HL : pcs σ LOW = NotCreated \/ pcs σ LOW = Exited).
  { destruct EL as [|[|(E & Hl & Hs)]]; auto. destruct (inv_mutex0 Hl) as [_ Hm].
    rewrite E in Hm. cbn in Hm.
    destruct EH as [E'|[E'|(E' & _)]]; rewrite E' in Hm; cbn in Hm; congruence. }
  assert (HH : pcs σ HIGH = NotCreated \/ pcs σ HIGH = Exited).
  { destruct EH as [|[|(E & Hl & Hs)]]; auto. destruct (inv_mutex0 Hl) as [_ Hm].
    rewrite E in Hm. cbn in Hm. destruct HL as [E'|E']; rewrite E' in Hm; cbn in Hm; congruence. }
  clear EH EL inv_mutex0.
  assert (Hsome : (exists σ', startService p σ = Some σ' /\ σ' <> σ) -> exists t σ', step p σ t σ' /\ (σ' = σ -> t <> START)).
  { intros (σ' & Hs & Hne). exists START, σ'. split; [|congruence]. apply step_intro; [done|].
    intros u Hu. destruct u; try done.
    - left. cbn. unfold criticalSectionTask. by destruct HH as [-> | ->].
    - left. cbn. unfold simpleTask. by destruct EM as [-> | ->].
    - right. cbn. rewrite Hinh. lia. }
  assert (Hmove : forall s c, startService p σ = Some s -> pcs s START = c -> pcs σ START <> c ->
    exists t σ', step p σ t σ' /\ (σ' = σ -> t <> START)).
  { intros s c Hs Hc Hne. apply Hsome. exists s. split; [done|]. intros ->. congruence. }
  clear Hsome. unfold startService in Hmove.
  (* [startService] can move, or all is done. *)
  destruct (pcs σ START) eqn:E; cbn [stage] in *; try lia; stage_facts;
    try (right; refine (Hmove _ _ eq_refl eq_refl _); done).
  - destruct HL as [HL|HL]; [done|]. rewrite HL in *. cbn [entered Z.b2z] in inv_cnt0.
    assert ((CScnt σ <? 1) = false) as Hc by (destruct (entered (pcs σ HIGH)); cbn in inv_cnt0; lia).
    rewrite Hc in Hmove. right. refine (Hmove _ _ eq_refl eq_refl _); done.
  - right. destruct (0 <? intfTime p); refine (Hmove _ _ eq_refl eq_refl _); done.
  - destruct HH as [HH|HH]; [done|]. unfold exited in Hmove. rewrite HH in Hmove.
    right. refine (Hmove _ _ eq_refl eq_refl _); done.
  - right. destruct (Z.ltb_spec 0 (intfTime p)); [|refine (Hmove _ _ eq_refl eq_refl _); done].
    unfold exited in Hmove. destruct EM as [EM|EM]; [apply inv_mid0 in EM; lia|].
    rewrite EM in Hmove. refine (Hmove _ _ eq_refl eq_refl _); done.
  - unfold exited in Hmove. destruct HL as [HL|HL]; [done|]. rewrite HL in Hmove.
    right. refine (Hmove _ _ eq_refl eq_refl _); done.
  - left. repeat split; [done | by destruct HH | by destruct HL |].
    destruct (Z.ltb_spec 0 (intfTime p)); destruct EM as [EM|EM]; try done.
    + apply inv_mid0 in EM. lia.
    + destruct (inv_mid0) as [_ HM]. rewrite EM in HM. specialize (HM ltac:(right; lia)). done.
Qed.
End progress.

(** Pthread3.c and pthread3ok.c, however threads of equal priority take turns: apart from the spins of the start service every run has at most 3n + 58 steps, and in every reachable state all threads have ended and are joined or a step that makes progress is possible; with the mutex H and L are never both in the critical section. *)
Theorem demonstration_ends lk lo hi n :
  lo + 31 <= hi -> n <= INT_MAX ->
  let p := Build_program Critical true lk lo hi n in
  (forall tr σ, run p start tr σ ->
     Z.of_nat (length (filter (fun e => ~ spinning e) tr)) <= 3 * Z.max 0 n + 58) /\
  (forall σ, reachable p σ -> ended p σ \/ exists t σ', step p σ t σ' /\ work n σ' < work n σ) /\
  (forall σ, reachable p σ -> lk = true -> inside (pcs σ LOW) && inside (pcs σ HIGH) = false).
Proof.
  intros Hp Hn p. split; [|split].
  - intros tr σ Hr. pose proof (run_work p eq_refl Hp Hn start tr σ (prio_start_inv p) Hr) as Hw.
    assert (Hi : inv p σ) by (apply reachable_inv_prio; try done; by exists tr).
    pose proof (work_nonneg p σ Hi). change (intfTime p) with n in *.
    assert (work n start = 58 + 3 * Z.max 0 n)
      by (unfold work, start; cbn [pcs upd tid_eqb weight]; lia). lia.
  - intros σ Hr. pose proof (reachable_inv_prio p eq_refl Hp Hn σ Hr) as I.
    destruct (movable p eq_refl eq_refl Hp σ I) as [|(t & σ' & Hs & Hne)]; [by left|].
    right. exists t, σ'. split; [done|].
    destruct (step_work p eq_refl Hn σ t σ' I Hs) as [|[Hsp He]]; [done|].
    exfalso. apply (Hne He). by injection Hsp.
  - intros σ Hr Hl. pose proof (reachable_inv_prio p eq_refl Hp Hn σ Hr) as I.
    by destruct I, inv_mutex0.
Qed.

(** ** Without the mutex *)

Section no_mutex.
Context (lo hi n : Z) (Hprio : lo + 31 <= hi).
#[local] Abbreviation p := (pthread3ok lo hi n).

Lemma only_high σ σ1 : thread_step p HIGH σ = Some σ1 -> only p σ HIGH σ1.
Proof using Hprio.
  intros Ht. split; [exact Ht|]. intros u Hu. right. destruct u; cbn; try done; lia.
Qed.

Lemma forced_high σ c σ1 tr σ2 :
  pcs σ HIGH = c -> criticalSectionTask p HIGH σ = Some σ1 -> forced p σ1 tr σ2 ->
  forced p σ ((HIGH, c) :: tr) σ2.
Proof using Hprio. intros <- Ht Hf. eapply forced_cons; [|exact Hf]. by apply only_high. Qed.

Lemma forced_high_work k : forall σ,
  pcs σ HIGH = Work -> 0 <= idleCount σ HIGH -> idleCount σ HIGH + Z.of_nat (S k) = CS_LENGTH ->
  exists σ', forced p σ (replicate (S k) (HIGH, Work) ++ [(HIGH, Leave); (HIGH, Finish)]) σ' /\
    pcs σ' HIGH = Exited.
Proof using Hprio.
  induction k as [|k IH]; intros σ Hw H0 Hk; unfold CS_LENGTH in Hk.
  all: assert (Hs : criticalSectionTask p HIGH σ = Some (goto HIGH
         (if idleCount σ HIGH + 1 <? CS_LENGTH then Work else Leave)
         (count HIGH (idleCount σ HIGH + 1) σ)))
       by (unfold criticalSectionTask; rewrite Hw; cbn;
           by rewrite !wrap_small by (unfold in_range; lia)).
  all: unfold CS_LENGTH in *.
  - destruct (Z.ltb_spec (idleCount σ HIGH + 1) 10) as [|_]; [lia|].
    set (σ1 := goto HIGH Leave (count HIGH (idleCount σ HIGH + 1) σ)) in *.
    exists (goto HIGH Exited (goto HIGH Finish σ1)). split; [|done].
    eapply forced_high; [done | exact Hs|].
    eapply forced_high; [done | reflexivity|].
    eapply forced_high; [done | reflexivity | apply forced_nil].
  - destruct (Z.ltb_spec (idleCount σ HIGH + 1) 10) as [_|]; [|lia].
    edestruct (IH (goto HIGH Work (count HIGH (idleCount σ HIGH + 1) σ))) as (σ' & Hf & He);
      [done | fields; lia | fields; lia |].
    exists σ'. split; [|exact He].
    change (replicate (S (S k)) (HIGH, Work)) with ((HIGH, Work) :: replicate (S k) (HIGH, Work)).
    eapply forced_high; [done | exact Hs | exact Hf].
Qed.

(** From its creation to its end H is the only thread that runs. *)
Definition high_run : list (tid * pc) :=
  [(HIGH, Request); (HIGH, Enter)] ++ replicate 10 (HIGH, Work) ++ [(HIGH, Leave); (HIGH, Finish)].

Lemma high_forced σ :
  pcs σ HIGH = Request -> exists σ', forced p σ high_run σ' /\ pcs σ' HIGH = Exited.
Proof using Hprio.
  intros Hr. set (σ1 := goto HIGH Work (count HIGH 0 (entering (goto HIGH Enter σ)))).
  destruct (forced_high_work 9 σ1) as (σ' & Hf & He); [done | done | done |].
  exists σ'. split; [|exact He]. unfold high_run.
  eapply forced_high; [done | unfold criticalSectionTask; rewrite Hr; reflexivity |].
  eapply forced_high; [done | reflexivity | exact Hf].
Qed.
End no_mutex.

(** Pthread3ok.c, which leaves the mutex out: from its creation on H runs to its end with no step of another thread in between, for every interference; but a state in which H and L are both in the critical section is reachable. *)
Theorem no_mutex_no_inversion lo hi n :
  lo + 31 <= hi ->
  let p := pthread3ok lo hi n in
  (forall σ, reachable p σ -> pcs σ HIGH = Request ->
     (exists σ', run p σ high_run σ' /\ pcs σ' HIGH = Exited) /\
     (forall tr σ', run p σ tr σ' -> tr `prefix_of` high_run \/ high_run `prefix_of` tr)) /\
  (exists σ, reachable p σ /\ inside (pcs σ HIGH) = true /\ inside (pcs σ LOW) = true).
Proof.
  intros Hp p. split.
  - intros σ _ Hr. destruct (high_forced lo hi n Hp σ Hr) as (σ' & Hf & He).
    split; [exists σ'; eauto using forced_run|]. intros tr σ'' Hrun. by eapply forced_prefix.
  - eexists. split.
    + eexists. take START. take LOW. take LOW. take START. take START. take HIGH. apply run_nil.
    + by split.
Qed.

(** ** Programs whose start service spins for ever *)

(** pthread3amp.c creates L with [simpleTask], which never enters the critical
    section: H is never created. *)
Theorem amp_never_creates_high lo hi n σ :
  reachable (pthread3amp lo hi n) σ ->
  (pcs σ START = CreateL \/ pcs σ START = Spin) /\ pcs σ HIGH = NotCreated /\ pcs σ MID = NotCreated.
Proof.
  intros Hr. enough (HI : (pcs σ START = CreateL \/ pcs σ START = Spin) /\ pcs σ HIGH = NotCreated /\
    pcs σ MID = NotCreated /\ CScnt σ = 0) by tauto.
  revert σ Hr. apply reachable_ind; [cbn; auto|].
  intros [pc idle cs sem] t σ' (Hs & Hh & Hm & Hc) [Ht _]. cbn in *.
  destruct t; cbn in Ht; unfold startService, criticalSectionTask, simpleTask in Ht; cbn in Ht;
    rewrite ?Hh, ?Hm in Ht; try done.
  - destruct Hs as [E|E]; rewrite E in Ht; [|rewrite Hc in Ht; cbn in Ht];
      injection Ht as <-; fields; auto.
  - destruct (pc LOW); try done; cases_of Ht; fields; auto.
Qed.

(** With L below the start service, as its comments have it, the spin starves
    it on one core: L never gets to its first step. *)
Theorem low_priority_starves lo hi n σ :
  lo + 31 <= hi -> reachable (Build_program Critical false true lo hi n) σ ->
  (pcs σ START = CreateL /\ pcs σ LOW = NotCreated \/ pcs σ START = Spin /\ pcs σ LOW = Request) /\
  pcs σ HIGH = NotCreated.
Proof.
  intros Hp Hr. enough (HI : (pcs σ START = CreateL /\ pcs σ LOW = NotCreated \/
      pcs σ START = Spin /\ pcs σ LOW = Request) /\ pcs σ HIGH = NotCreated /\
    pcs σ MID = NotCreated /\ CScnt σ = 0) by tauto.
  revert σ Hr. apply reachable_ind; [cbn; auto|].
  intros [pc idle cs sem] t σ' (Hs & Hh & Hm & Hc) [Ht Hb]. cbn in *.
  destruct t; cbn in Ht; unfold startService, criticalSectionTask, simpleTask in Ht; cbn in Ht;
    rewrite ?Hh, ?Hm in Ht; try done.
  - destruct Hs as [[E El]|[E El]]; rewrite E in Ht; [|rewrite Hc in Ht; cbn in Ht];
      injection Ht as <-; fields; auto.
  - destruct Hs as [[E El]|[E El]]; rewrite El in Ht; [done|].
    exfalso. specialize (Hb START). cbn in Hb. unfold startService in Hb. cbn in Hb.
    rewrite E, Hc in Hb. specialize (Hb _ eq_refl). lia.
Qed.

(** ** Examples *)

(** Linux has the real-time priorities 1 to 99. *)
Lemma inversion_unbounded_witness :
  exists σ, reachable (pthread3 1 99 1000) σ /\ pcs σ HIGH = Request /\ pcs σ MID = Burn /\
    idleCount σ MID = 0 /\ passes_left σ = Z.to_nat CS_LENGTH.
Proof. apply (inversion_unbounded 1 99 1000); unfold INT_MAX; lia. Defined.

Lemma demonstration_ends_witness :
  ended (pthread3 1 99 10) start \/
  exists t σ', step (pthread3 1 99 10) start t σ' /\ work 10 σ' < work 10 start.
Proof.
  apply (demonstration_ends true 1 99 10); [lia | unfold INT_MAX; lia |].
  exists []. apply run_nil.
Defined.

Lemma no_mutex_no_inversion_witness :
  exists σ, reachable (pthread3ok 1 99 10) σ /\ inside (pcs σ HIGH) = true /\ inside (pcs σ LOW) = true.
Proof. apply (no_mutex_no_inversion 1 99 10); lia. Defined.
