(* ===== verification/VxSequencers.v ===== *)
(** * VxWorks sequencers: VxWorks-sequencers/ex0.c, ex3.c and lab1.c

    A sequencer task of the highest priority gives binary semaphores after
    delays of whole milliseconds; a service takes its semaphore, computes for the
    time its loop is tuned to, and counts.  Time goes by ticks, and in each the
    highest-priority service that has work runs.  What happens is a trace, so
    that a release that comes late or is lost shows. *)
From S2P Require Import Prelude.
From stdpp Require Import option list.
#[local] Open Scope nat_scope.

(** ** Services *)

(** The milliseconds left of the current job, 0 while the service waits in
    [semTake], and its binary semaphore. *)
Record service := { left : nat; full : bool }.

Definition waiting : service := {| left := 0; full := false |}.

(** A tick gone by; a release that starts a job, one that is kept in the
    semaphore because the last job is not done, one that is lost because the
    semaphore is full; a job completed ([fibCnt++]). *)
Inductive event := Elapsed | Started (i : nat) | Late (i : nat) | Lost (i : nat) | Completed (i : nat).

(** [semGive] of a binary semaphore; [c] is the time of a job. *)
Definition semGive (i c : nat) (s : service) : service * event :=
  if left s =? 0 then ({| left := c; full := full s |}, Started i)
  else if full s then (s, Lost i)
  else ({| left := left s; full := true |}, Late i).

(** A millisecond of a service: at the end of a job it counts and takes the
    semaphore again. *)
Definition fib (i c : nat) (s : service) : service * list event :=
  match left s with
  | O => (s, [])
  | S O => ({| left := if full s then c else 0; full := false |}, [Completed i])
  | S n => ({| left := n; full := full s |}, [])
  end.

(** The services by priority with the times of their jobs. *)
Fixpoint tick (i : nat) (l : list (nat * service)) : list (nat * service) * list event :=
  match l with
  | [] => ([], [])
  | (c, s) :: l =>
      if left s =? 0 then let '(l, e) := tick (S i) l in ((c, s) :: l, e)
      else let '(s, e) := fib i c s in ((c, s) :: l, e)
  end.

Definition give (i : nat) (l : list (nat * service)) : list (nat * service) * list event :=
  match l !! i with
  | Some (c, s) => let '(s, e) := semGive i c s in (<[i := (c, s)]> l, [e])
  | None => (l, [])
  end.

(** ** Sequencers *)

(** What a sequencer does: [taskDelay(n)], [semGive]. *)
Inductive action := taskDelay (n : nat) | Give (i : nat).

Fixpoint delay (n : nat) (l : list (nat * service)) : list (nat * service) * list event :=
  match n with
  | O => (l, [])
  | S n =>
      let '(l, e) := tick 0 l in
      let '(l, t) := delay n l in (l, e ++ Elapsed :: t)
  end.

Definition act (a : action) (l : list (nat * service)) : list (nat * service) * list event :=
  match a with taskDelay n => delay n l | Give i => give i l end.

Fixpoint exec (p : list action) (l : list (nat * service)) : list (nat * service) * list event :=
  match p with
  | [] => (l, [])
  | a :: p => let '(l, e) := act a l in let '(l, t) := exec p l in (l, e ++ t)
  end.

Abbreviation S1 := 0.
Abbreviation S2 := 1.
Abbreviation S3 := 2.

(** The releases of the critical instant, and one pass of each loop. *)
Definition ex_start : list action := [Give S1; Give S2; Give S3].

Definition ex0_loop : list action :=
  [taskDelay 2; Give S1; taskDelay 2; Give S1; taskDelay 2; Give S1; taskDelay 2; Give S1;
   taskDelay 2; Give S1; Give S2; taskDelay 2; Give S1; taskDelay 2; Give S1;
   taskDelay 1; Give S3; taskDelay 2; Give S1; taskDelay 2; Give S1; taskDelay 1; Give S2;
   taskDelay 2; Give S1; taskDelay 2; Give S1; taskDelay 2; Give S1; taskDelay 2; Give S1;
   taskDelay 2; Give S1; Give S2; Give S3].

Definition ex3_loop : list action :=
  [taskDelay 3; Give S1; taskDelay 2; Give S2; taskDelay 1; Give S1; taskDelay 2; Give S1;
   taskDelay 2; Give S1; Give S2; taskDelay 2; Give S1; taskDelay 2; Give S1;
   taskDelay 1; Give S1; Give S2; Give S3].

(** fib10 and fib20. *)
Definition lab1_start : list action := [Give 0; Give 1].

Definition lab1_loop : list action :=
  [taskDelay 20; Give 0; taskDelay 20; Give 0; taskDelay 10; Give 1; taskDelay 10; Give 0;
   taskDelay 20; Give 0; taskDelay 20; Give 0; Give 1].

(** The services at their first [semTake], with the times in milliseconds that
    the headers of the files give (C1, C2, C3). *)
Definition ex0_services : list (nat * service) := [(1, waiting); (1, waiting); (2, waiting)].
Definition ex3_services : list (nat * service) := [(1, waiting); (2, waiting); (3, waiting)].
Definition lab1_services : list (nat * service) := [(10, waiting); (20, waiting)].

(** [Sequencer]: [k] passes of its loop before the abort is seen. *)
Definition sequencer (start loop : list action) (k : nat) : list action :=
  start ++ concat (replicate k loop).

(** ** Traces *)

Lemma exec_app p q l :
  exec (p ++ q) l = let '(l1, t1) := exec p l in let '(l2, t2) := exec q l1 in (l2, t1 ++ t2).
Proof.
  revert l; induction p as [|a p IH]; intros l; cbn [exec app].
  - by destruct (exec q l).
  - destruct (act a l) as [l1 e]. rewrite IH. destruct (exec p l1) as [l2 t2].
    destruct (exec q l2) as [l3 t3]. by rewrite app_assoc.
Qed.

(** A loop that leaves the services as it found them repeats its trace. *)
Lemma exec_loop loop l t k :
  exec loop l = (l, t) -> exec (concat (replicate k loop)) l = (l, concat (replicate k t)).
Proof.
  intros Hl. induction k as [|k IH]; [done|]. cbn [replicate concat].
  by rewrite exec_app, Hl, IH.
Qed.

(** The instants of a release of a service, counted in ticks. *)
Fixpoint releases (i now : nat) (t : list event) : list nat :=
  match t with
  | [] => []
  | Elapsed :: t => releases i (S now) t
  | (Started j | Late j | Lost j) :: t =>
      if j =? i then now :: releases i now t else releases i now t
  | Completed _ :: t => releases i now t
  end.

Definition elapsed (e : event) : bool := match e with Elapsed => true | _ => false end.
Definition on_time (e : event) : Prop :=
  match e with Late _ | Lost _ => False | _ => True end.
#[local] Instance on_time_dec e : Decision (on_time e).
Proof. destruct e; cbn; apply _. Defined.
#[local] Instance event_eq_dec : EqDecision event.
Proof. solve_decision. Defined.

Definition number (e : event) (t : list event) : nat := length (filter (fun x => x = e) t).

Lemma number_app e t u : number e (t ++ u) = number e t + number e u.
Proof. unfold number. by rewrite filter_app, length_app. Qed.

Lemma number_replicate e t k : number e (concat (replicate k t)) = k * number e t.
Proof. induction k as [|k IH]; [done|]. cbn [replicate concat]. rewrite number_app, IH. lia. Qed.

Lemma Forall_replicate_concat {A} (P : A -> Prop) t k : Forall P t -> Forall P (concat (replicate k t)).
Proof. intros Ht. induction k as [|k IH]; cbn; [constructor|]. by apply Forall_app. Qed.

Lemma releases_shift i now t : releases i now t = map (Nat.add now) (releases i 0 t).
Proof.
  assert (forall a, releases i (now + a) t = map (Nat.add now) (releases i a t)) as H;
    [|rewrite <- (Nat.add_0_r now) at 1; apply H].
  induction t as [|e t IH]; intros a; [done|]. destruct e as [|j|j|j|j]; cbn [releases].
  - rewrite <- Nat.add_succ_r. apply IH.
  - destruct (j =? i); cbn; by rewrite IH.
  - destruct (j =? i); cbn; by rewrite IH.
  - destruct (j =? i); cbn; by rewrite IH.
  - apply IH.
Qed.

Lemma releases_app i now t u :
  releases i now (t ++ u) = releases i now t ++ releases i (now + number Elapsed t) u.
Proof.
  revert now; induction t as [|e t IH]; intros now; cbn [app].
  - unfold number. cbn. by rewrite Nat.add_0_r.
  - unfold number. rewrite filter_cons.
    destruct e as [|j|j|j|j]; cbn [releases]; case_decide; try done; cbn [length];
      fold (number Elapsed t); try (destruct (j =? i)); rewrite IH; cbn; try done.
    by rewrite Nat.add_succ_r.
Qed.

(** A loop of [P] ticks that releases a service at the multiples of [T] up to
    [P] releases it so in every pass. *)
Lemma releases_periodic i T n t k :
  number Elapsed t = T * n -> releases i 0 t = map (fun j => T * j) (seq 1 n) ->
  releases i 0 (concat (replicate k t)) = map (fun j => T * j) (seq 1 (n * k)).
Proof.
  intros Hp Hr. induction k as [|k IH]; [by rewrite Nat.mul_0_r|].
  cbn [replicate concat]. rewrite releases_app, Hr, releases_shift, IH, Hp.
  replace (n * S k) with (n + n * k) by lia. rewrite seq_app, map_app. f_equal.
  rewrite map_map. rewrite (Nat.add_comm 1 n), <- (fmap_add_seq n 1 (n * k)).
  unfold fmap. rewrite map_map. apply map_ext. intros j. lia.
Qed.

(** ** What the three programs do *)

Lemma run_periodic start loop services l t0 t k :
  exec start services = (l, t0) -> exec loop l = (l, t) ->
  exec (sequencer start loop k) services = (l, t0 ++ concat (replicate k t)).
Proof. intros H0 Hl. unfold sequencer. by rewrite exec_app, H0, (exec_loop loop l t k Hl). Qed.

(** Lab1.c for every number of passes: fib10 is released exactly at the multiples of 20 ms and fib20 at those of 50 ms, every release finds the last job done, and after k passes 5k jobs of fib10 and 2k jobs of fib20 are completed. *)
Theorem lab1_on_time k :
  let '(l, t) := exec (sequencer lab1_start lab1_loop k) lab1_services in
  Forall on_time t /\ number Elapsed t = 100 * k /\
  releases 0 0 t = map (fun j => 20 * j) (seq 0 (5 * k + 1)) /\
  releases 1 0 t = map (fun j => 50 * j) (seq 0 (2 * k + 1)) /\
  number (Completed 0) t = 5 * k /\ number (Completed 1) t = 2 * k.
Proof.
  set (l := (exec lab1_start lab1_services).1). set (t := (exec lab1_loop l).2).
  rewrite (run_periodic _ _ _ l (exec lab1_start lab1_services).2 t k) by (vm_compute; reflexivity).
  rewrite Forall_app, !number_app, !number_replicate, !releases_app.
  assert (H0 : number Elapsed (exec lab1_start lab1_services).2 = 0) by (vm_compute; reflexivity).
  rewrite H0, !Nat.add_0_l.
  rewrite (releases_periodic 0 20 5 t k), (releases_periodic 1 50 2 t k) by (vm_compute; reflexivity).
  rewrite !Nat.add_1_r. cbn [seq map]. rewrite (Nat.mul_comm 100 k), (Nat.mul_comm 5 k), (Nat.mul_comm 2 k).
  split.
  - split; [|apply Forall_replicate_concat]; apply (bool_decide_unpack _); vm_compute; exact I.
  - repeat split.
Qed.

(** The releases of one pass, pass after pass. *)
Lemma releases_passes i P t k :
  number Elapsed t = P ->
  releases i 0 (concat (replicate k t)) =
    concat (map (fun m => map (Nat.add (P * m)) (releases i 0 t)) (seq 0 k)).
Proof.
  intros Hp. induction k as [|k IH]; [done|].
  rewrite replicate_S_end, concat_app, releases_app, IH, number_replicate, seq_S, map_app, concat_app.
  f_equal. cbn. by rewrite !app_nil_r, releases_shift, Hp, (Nat.mul_comm k P).
Qed.

(** Ex0.c for every number of passes: with the stated execution times no release finds its service busy, S2 and S3 are released exactly at the multiples of 10 and 15 ms, but S1, stated to have a period of 2 ms, is released 14 times in 30 ms, at odd instants in the second half of every pass. *)
Theorem ex0_on_time k :
  let '(l, t) := exec (sequencer ex_start ex0_loop k) ex0_services in
  Forall on_time t /\ number Elapsed t = 30 * k /\
  releases S1 0 t =
    0 :: concat (map (fun m => map (Nat.add (30 * m)) [2; 4; 6; 8; 10; 12; 14; 17; 19; 22; 24; 26; 28; 30])
                     (seq 0 k)) /\
  releases S2 0 t = map (fun j => 10 * j) (seq 0 (3 * k + 1)) /\
  releases S3 0 t = map (fun j => 15 * j) (seq 0 (2 * k + 1)) /\
  number (Completed S1) t = 14 * k /\ number (Completed S2) t = 3 * k /\ number (Completed S3) t = 2 * k.
Proof.
  set (l := (exec ex_start ex0_services).1). set (t := (exec ex0_loop l).2).
  rewrite (run_periodic _ _ _ l (exec ex_start ex0_services).2 t k) by (vm_compute; reflexivity).
  rewrite Forall_app, !number_app, !number_replicate, !releases_app.
  assert (H0 : number Elapsed (exec ex_start ex0_services).2 = 0) by (vm_compute; reflexivity).
  rewrite H0, !Nat.add_0_l.
  rewrite (releases_periodic S2 10 3 t k), (releases_periodic S3 15 2 t k) by (vm_compute; reflexivity).
  rewrite (releases_passes S1 30 t k) by (vm_compute; reflexivity).
  rewrite !Nat.add_1_r. cbn [seq map].
  rewrite (Nat.mul_comm 30 k), (Nat.mul_comm 14 k), (Nat.mul_comm 3 k), (Nat.mul_comm 2 k).
  split.
  - split; [|apply Forall_replicate_concat]; apply (bool_decide_unpack _); vm_compute; exact I.
  - repeat split.
Qed.

(** The services after the first pass of ex3.c, and three passes on. *)
Definition ex3_first : list (nat * service) * list event :=
  exec (ex_start ++ ex3_loop) ex3_services.

Definition ex3_thrice : list event := (exec (ex3_loop ++ ex3_loop ++ ex3_loop) ex3_first.1).2.

Lemma replicate_thrice {A} m (p : list A) :
  concat (replicate (3 * m) p) = concat (replicate m (p ++ p ++ p)).
Proof.
  induction m as [|m IH]; [done|]. replace (3 * S m) with (S (S (S (3 * m)))) by lia.
  cbn [replicate concat]. by rewrite IH, !app_assoc.
Qed.

(** What [r] further passes add. *)
Definition ex3_rest (r : nat) : list (nat * service) * list event :=
  exec (concat (replicate r ex3_loop)) ex3_first.1.

Lemma ex3_run m r :
  exec (sequencer ex_start ex3_loop (1 + (3 * m + r))) ex3_services
    = ((ex3_rest r).1, ex3_first.2 ++ concat (replicate m ex3_thrice) ++ (ex3_rest r).2).
Proof.
  unfold sequencer. cbn [Nat.add replicate concat].
  rewrite app_assoc, replicate_add, concat_app, replicate_thrice, exec_app.
  assert (H0 : exec (ex_start ++ ex3_loop) ex3_services = (ex3_first.1, ex3_first.2))
    by (apply surjective_pairing).
  assert (H1 : exec (ex3_loop ++ ex3_loop ++ ex3_loop) ex3_first.1 = (ex3_first.1, ex3_thrice))
    by (vm_compute; reflexivity).
  rewrite H0, exec_app, (exec_loop _ _ _ m H1). unfold ex3_rest.
  by destruct (exec (concat (replicate r ex3_loop)) ex3_first.1).
Qed.

(** How often an event occurs in a run: in the first pass, in every three
    further ones, and in the last [r]. *)
Lemma ex3_number e m r :
  number e (exec (sequencer ex_start ex3_loop (1 + (3 * m + r))) ex3_services).2
  = number e ex3_first.2 + (m * number e ex3_thrice + number e (ex3_rest r).2).
Proof. rewrite ex3_run. cbn [snd]. by rewrite !number_app, number_replicate. Qed.

(** C27: ex3.c for every number [k] of passes, with jobs of the 1, 2 and 3 ms
    that the file's header states: the sequencer releases S1 seven times in
    15 ms where the stated period of 3 ms gives five, so 16 ms of work are
    released every 15 ms; every job of S1 and S2 is started on time and done,
    while every release of S3 but the first finds the last job unfinished, and
    one in three of those after the first is lost. *)
Theorem ex3_overload k :
  let t := (exec (sequencer ex_start ex3_loop k) ex3_services).2 in
  number Elapsed t = 15 * k /\
  number (Started S1) t = 7 * k + 1 /\ number (Late S1) t = 0 /\ number (Lost S1) t = 0 /\
  number (Completed S1) t = 7 * k /\
  number (Started S2) t = 3 * k + 1 /\ number (Late S2) t = 0 /\ number (Lost S2) t = 0 /\
  number (Completed S2) t = 3 * k /\
  number (Started S3) t = 1 /\ number (Late S3) t + number (Lost S3) t = k /\
  number (Lost S3) t = (k - 1) / 3 /\ number (Completed S3) t = (k - 1) - (k - 1) / 3.
Proof.
  destruct k as [|k]; [repeat split; vm_compute; reflexivity|].
  cbv zeta. pose proof (Nat.div_mod_eq k 3) as Hk. pose proof (Nat.mod_upper_bound k 3 ltac:(lia)) as Hr.
  replace (S k - 1) with k by lia. set (m := k / 3) in *. set (r := k mod 3) in *. clearbody m r. subst k.
  change (S (3 * m + r)) with (1 + (3 * m + r)). rewrite !ex3_number.
  repeat match goal with
  | |- context [number ?e ex3_first.2] =>
      let n := eval vm_compute in (number e ex3_first.2) in
      change (number e ex3_first.2) with n
  | |- context [number ?e ex3_thrice] =>
      let n := eval vm_compute in (number e ex3_thrice) in
      change (number e ex3_thrice) with n
  end.
  destruct r as [|[|[|]]]; [..|lia];
    repeat match goal with
    | |- context [number ?e (ex3_rest ?r).2] =>
        let n := eval vm_compute in (number e (ex3_rest r).2) in
        change (number e (ex3_rest r).2) with n
    end; repeat split; lia.
Qed.

(** Four passes: three releases of S3 late, one lost. *)
Lemma ex3_overload_witness :
  let t := (exec (sequencer ex_start ex3_loop 4) ex3_services).2 in
  number Elapsed t = 60 /\ number (Started S1) t = 29 /\ number (Started S3) t = 1 /\
  number (Late S3) t = 3 /\ number (Lost S3) t = 1 /\ number (Completed S3) t = 2.
Proof.
  cbv zeta. destruct (ex3_overload 4) as (H1 & H2 & _ & _ & _ & _ & _ & _ & _ & H3 & H4 & H5 & H6).
  change ((4 - 1) / 3) with 1 in *. refine (conj H1 (conj H2 (conj H3 (conj _ (conj H5 H6))))).
  rewrite H5 in H4. lia.
Defined.

(** With S1 released as its stated period says, every 3 ms, the same services
    meet all their deadlines. *)
Definition ex3_stated : list action :=
  [taskDelay 3; Give S1; taskDelay 2; Give S2; taskDelay 1; Give S1; taskDelay 3; Give S1;
   taskDelay 1; Give S2; taskDelay 2; Give S1; taskDelay 3; Give S1; Give S2; Give S3].

Theorem ex3_stated_on_time k :
  let '(l, t) := exec (sequencer ex_start ex3_stated k) ex3_services in
  Forall on_time t /\ releases S1 0 t = map (fun j => 3 * j) (seq 0 (5 * k + 1)).
Proof.
  set (l := (exec ex_start ex3_services).1). set (t := (exec ex3_stated l).2).
  rewrite (run_periodic _ _ _ l (exec ex_start ex3_services).2 t k) by (vm_compute; reflexivity).
  rewrite Forall_app, releases_app.
  assert (H0 : number Elapsed (exec ex_start ex3_services).2 = 0) by (vm_compute; reflexivity).
  rewrite H0, !Nat.add_0_l, (releases_periodic S1 3 5 t k) by (vm_compute; reflexivity).
  rewrite Nat.add_1_r. cbn [seq map].
  split; [|reflexivity].
  split; [|apply Forall_replicate_concat]; apply (bool_decide_unpack _); vm_compute; exact I.
Qed.
